(* ===== verification/_CoqProject ===== *)
-Q . S2P
Prelude.v
Sha256.v
PyStr.v
Json.v
HashChain.v
Scoped.v
Retention.v
Sync.v
Recovery.v
Bytes.v
PyUrl.v
PyUrlFacts.v
PyText.v
PyTextFacts.v
PyRe.v
Notebook.v
License.v
AuditLog.v
PyFloat.v
ObjectStore.v
ObjectQueue.v
Authorization.v
AuthorizationFacts.v
AuthorizationTables.v
AuthorizationSamples.v
AdminRoles.v
AdminOutbox.v
AdminSamples.v
EgressPolicy.v
EgressStore.v
QuestionEgress.v
Organization.v
OrganizationFacts.v
OrganizationTables.v
OrganizationRuns.v
OrganizationMembers.v
OrganizationSamples.v
Notification.v
NotificationFacts.v
NotificationLinks.v
NotificationRuns.v
NotificationSamples.v
Grounding.v
GroundingFacts.v
GroundingEndpoints.v
GroundingSamples.v
