(* ===== verification/Prelude.v ===== *)
(** * Daon: the core of the server, modelled and verified

    Daon is a multi-tenant knowledge workspace.  Its server is a Python package
    (src/services/api/src/daon_user_api, file names below are relative to it):
    an HTTP runtime that authenticates a caller, builds a context (tenant,
    workspace, actor, capabilities) and calls one of the services; the services
    keep their state in a repository, in memory or in a database.  This
    development models services and repositories, not the runtime.

    ** How the program is modelled

    A method is a computation [M S A] (below) on the state [S] of the store it
    runs over.  It returns or raises, and returns the store on both paths: what
    a method mutated before it raised stays mutated.  Where the program runs a
    transaction, the model undoes it when it raises ([transaction] below,
    [db_transaction], [admin_transaction]).  What a service takes from its clock
    and from [secrets] are streams ([World] below), of which its state counts
    what was drawn ([Drawing]); a draw need not be fresh, and theorems that need
    freshness say so.  Times are microseconds in [Z]; floats are binary64.
    Tables are finite maps, except where the order of the rows matters (audit
    logs, activities, versions), where they are lists.  Several callers are
    sequences of calls: each component has a step relation whose rules are its
    operations, and invariants are proved by induction on it.

    ** Files

    Shared parts:
    - [Prelude]: exceptions, the monad, its weakest preconditions ([wp]) and the
      tactics that execute a method on them ([wp_run], [bools]), invariants
      ([preserves], [readonly], [steps_by]), clocks and tokens, generic lemmas.
    - [Sha256]: [str.encode], [hashlib.sha256().hexdigest()], executable.
    - [PyStr]: the regular expressions for identifiers, [str(int)], ordering of
      strings, stable sorting.
    - [Json]: [json.dumps] with sorted keys, and fingerprints of requests.
    - [Bytes]: base64, big-endian integers, hexadecimal, modular powers.
    - [PyUrl]: [urllib.parse.urlsplit], [hmac] over SHA-256; [PyUrlFacts]: what
      it finds, and that a path appended to a base URL keeps scheme and host.
    - [PyText]: texts of any characters, values of [json], [json.dumps] and
      [json.loads]; [PyTextFacts]: the parser reads back what is printed.
    - [PyRe]: the matcher of [re] for the constructs the program uses.
    - [PyFloat]: IEEE 754 arithmetic and [timedelta] of float seconds.
    - [HashChain]: interface [Chained] of hash-chained logs, with the theorems on
      chains and tampering; instances in [Retention], [Recovery], [AuditLog].
    - [Scoped]: isolation of callers in tables of scoped objects; used by
      [Retention], [Sync], [Recovery].

    Components:
    - [Retention] (retention.py): deletion requests, grace periods, Legal Hold,
      purge of derivatives, local copies.
    - [Sync] (sync.py): approved copy of local items to the cloud, in batches,
      with conflicts and the reference transfer port.
    - [Recovery] (recovery.py): backups, their selection, restore previews and
      isolated restores.
    - [Notebook] (notebook.py): notebooks, titles with entity tags, bindings of
      sources, deletion; the service over the interface [NotebookRepository]
      and the reference repository as its instance.
    - [License] (license.py): RS256 verification down to the integers, claims,
      the service over [LicenseRepository] and [LicenseSignatureVerifier].
    - [AuditLog] (audit.py): events, their validation and hashing, the in-memory
      store and the queries of the PostgreSQL store.
    - [ObjectStore], [ObjectQueue] (object_queue.py): keys, retry policy and the
      S3 adapter over an abstract client; then tables, store, coordinator and
      worker of the durable queue over the interface [ObjectStorage].
    - [Authorization] (authorization.py): the tables, every public method of
      [AuthorizationService] over the interfaces [AuditStore] and
      [IdentityBoundary].  [AuthorizationFacts] has the theorems on decisions and
      on sequences of calls, [AuthorizationTables] the well-formedness of the
      tables, [AuthorizationSamples] concrete runs.
    - [AdminRoles], [AdminOutbox], [AdminSamples] (admin_membership_roles.py):
      changes of roles by system administrators over the tables of
      [Authorization], and the delivery of their audit events to an audit store.
    - [EgressPolicy], [EgressStore] (egress_policy.py): policies on what may leave
      the system, their intersection, activation over [EgressRepository].
    - [QuestionEgress] (question_egress.py, routing.py, part of
      document_processing.py): whether a question or a document may leave, from
      the policies in force, the approval and the routing of the model.
    - [Organization] (organization_membership.py, organization_access.py):
      invitations, requests to join, memberships, the access they give to a
      workspace, the record of management operations and its delivery.
      [OrganizationFacts] has the effect of every operation on the tables,
      [OrganizationTables] their invariant, [OrganizationRuns] sequences of
      calls, [OrganizationMembers] what decisions and suspensions do to
      authorization, [OrganizationSamples] a concrete run.
    - [Notification] (notification.py): notifications and the inbox, the service
      and the reference repository.  [NotificationFacts] has listing and cursors,
      [NotificationLinks] where deep links lead, [NotificationRuns] the invariant
      and sequences of calls, [NotificationSamples] concrete runs.
    - [Grounding] (question_answering.py; anchors of
      document_understanding_adapter.py, the reported cost of
      operations_telemetry.py, the record of question_answering_postgres.py):
      what a model is asked and where, which responses are accepted, what is
      shown and recorded of them, over [TextGenerationTransport].
      [GroundingFacts] has the theorems on responses, answers and messages,
      [GroundingEndpoints] where requests go, [GroundingSamples] concrete runs.

    How they interact: the authorization and role services append to an audit
    store through [AuditStore], of which the store of [AuditLog] is an instance
    that keeps event ids unique ([AdminOutbox.UniqueAudit]); role changes write
    the tables that authorization reads; [QuestionEgress] asks the policy
    service of [EgressPolicy]; approving a request to join writes the tables
    that authorization reads, and a suspension shuts a member out of them
    ([Organization.authorization_db]); notifications ask the authorization service
    whom they may reach and what may be shown, and append to its audit store; the
    worker of [ObjectQueue] reaches storage through [ObjectStorage], which the
    adapter of [ObjectStore] implements; whether a question may leave is decided
    in [QuestionEgress], where it goes and what comes back of it in [Grounding].

    ** What the theorems show

    - Decisions are exactly their declarative rule, both directions:
      [action_granted_iff], [historical_access_decided], [question_leaves_iff],
      [rsa_verify_iff], [creation_permitted_iff], [verify_integrity_exact],
      [promotion_verified], [join_decision], [listing_complete],
      [grounded_response_decided], [general_answer_approved].
    - Effects need what they are meant to need: [purge_touches_only_when_due],
      [transfer_only_approved], [restores_only_isolated], [no_escalation],
      [lease_fenced], [rerun_bound_to_current_access],
      [membership_state_governs], [organization_events_delivered],
      [shown_to_recipient], [deep_link_confined], [grounded_answer_verbatim],
      [requests_confined].
    - Every reachable store is well formed: [reachable_requests_wf],
      [sync_operations_wf], [recovery_wf], [notebooks_wf], [licences_wf],
      [audit_log_genuine], [object_queue_wf], [tables_typed],
      [organization_tables], [notifications_wf];
      [terminal_restores_frozen].
    - Concurrent callers: [title_update_race], [activation_exclusive],
      [claim_next], [transfer_replay], [management_replay],
      [published_once], [read_once].
    - Refinement: [effective_is_meet] (greatest lower bound of two policies),
      [reference_refines] (abstract specification of a licence repository).
    - Round trips: [cursor_round_trip], [item_cursor_exact], [object_keys_scoped],
      [question_reaches_model], [recorded_answer_read_back]; bounds:
      [retry_delay_bounds]; termination and progress: [tenant_log_verifies],
      [runs_bounded], [attempt_concludes], [outbox_exactly_once].

    ** Bounds and fuel

    Recursion is structural or over the list at hand, with these exceptions.
    [Sha256.blocks] has one unit of fuel per 16 words of padded input, which is
    how many blocks there are.  [AuditLog.pg_pages], the loop over the pages of
    a tenant's log, has fuel, and [tenant_log_verifies] proves one round more
    than there are rows to be enough.  The sweep of the outbox is bounded by the
    program itself (32 events); [outbox_exactly_once] says how many sweeps
    deliver everything.  [PyText.loads] has two units of fuel per character and
    one more, and [PyTextFacts.loads_fuel] proves that more changes nothing; the
    star of [PyRe.rmatch] and [PyRe.pieces] have one per character, since each
    round passes one.  A worker's runs are bounded by the measure in
    [runs_bounded].  Integers are unbounded where Python's are; limits that the
    program checks (2^63 of cursors, base64 lengths, 512 MiB of a restore, the
    largest float) are written out.

    Strings are lists of code points below 256, so texts outside Latin-1 are not
    represented, except in [Grounding], whose texts are lists of any code points
    ([PyText.text]).  Arguments have the types their annotations give them, except
    where the program checks the type itself (audit.py, parts of license.py).

    ** What stands for code outside the program

    Parameters: [unicodedata.normalize] ([Notebook.Unicode]), tables of Unicode
    ([PyText.UnicodeData]), the transport to a model's provider
    ([Grounding.TextGenerationTransport]),
    [datetime.fromisoformat] ([License.IsoReader], also in [Organization]), [ipaddress] and [urlsplit]
    of the values of audit events ([AuditLog.HostParser]), [ipaddress] for hosts in
    brackets ([PyUrl.BracketedHost]), the [minio] client ([ObjectStore.ObjectClient]),
    the iteration order of Python sets ([Authorization.SetOrder]), the digest
    where a statement does not depend on SHA-256 ([Digest]).

    ** Not modelled

    - Locks and connection pools: calls happen one at a time; interleavings are
      sequences of calls or, for transactions of one method, of transactions.
    - The HTTP runtime (runtime.py), the identity service (identity.py; an
      interface here), command-line tools.
    - The PostgreSQL variants of retention, sync, recovery, notebooks, licences
      and egress policies, whose logic is in SQL text and stored procedures.
    - The Ollama and OmniRoute adapters of question answering, time limits, and
      the orchestration and persistence of runs.
    - Document processing and understanding, studio, the producers of notifications, providers, connectors, operations telemetry, snapshots,
      recovery capture and destinations, the local service, desktop, mobile and
      web clients.

    Next in the plan: the lifecycle of canonical data (data_canon.py), approvals
    of studio outputs. *)

From stdpp Require Export base tactics option list gmap strings pretty sorting relations.
From Stdlib Require Export ZArith Lia.

#[global] Open Scope Z_scope.

(** ** Python exceptions and the effect of a call

    A method of the program reads and mutates one store and either returns or
    raises.  What it mutated before it raised stays mutated: the state is
    returned on both paths. *)

(** An exception: one of the program's own errors, with its code, HTTP status
    and retryable flag, or an exception of the language, by class name. *)
Inductive exn :=
| Raised (code : string) (status : Z) (retryable : bool)
| PyError (class : string).

#[export] Instance exn_eq_dec : EqDecision exn.
Proof. solve_decision. Defined.

Inductive outcome (A : Type) :=
| Ret (a : A)
| Raise (e : exn).
Arguments Ret {A} a.
Arguments Raise {A} e.

Definition M (S A : Type) : Type := S → S * outcome A.

Section Monad.
Context {S : Type}.

Definition ret {A} (a : A) : M S A := λ s, (s, Ret a).
Definition raise {A} (e : exn) : M S A := λ s, (s, Raise e).
Definition bind {A B} (m : M S A) (k : A → M S B) : M S B := λ s,
  match m s with
  | (s', Ret a) => k a s'
  | (s', Raise e) => (s', Raise e)
  end.
Definition gets {A} (f : S → A) : M S A := λ s, (s, Ret (f s)).
Definition modify (f : S → S) : M S unit := λ s, (f s, Ret tt).
(** [if not b: raise e] *)
Definition guard (b : bool) (e : exn) : M S unit :=
  if b then ret tt else raise e.
Definition when (b : bool) (m : M S unit) : M S unit :=
  if b then m else ret tt.
Definition from_option {A} (o : option A) (e : exn) : M S A :=
  match o with Some a => ret a | None => raise e end.
(** [for x in l: body(x)] *)
Fixpoint mfor {A} (l : list A) (body : A → M S unit) : M S unit :=
  match l with
  | [] => ret tt
  | x :: l' => bind (body x) (λ _, mfor l' body)
  end.
(** [for x in l: body(x)] with the loop's local variables in [acc] *)
Fixpoint mfold {A B} (l : list A) (body : B → A → M S B) (acc : B) : M S B :=
  match l with
  | [] => ret acc
  | x :: l' => bind (body acc x) (λ acc', mfold l' body acc')
  end.
End Monad.

(** [with connection.transaction(): m]: an exception rolls the store back. *)
Definition transaction {S A} (m : M S A) : M S A := λ s,
  match m s with
  | (s', Ret a) => (s', Ret a)
  | (_, Raise e) => (s, Raise e)
  end.

(** Running [m] of a component store inside a larger state. *)
Definition zoom {S T A} (get : S → T) (put : T → S → S) (m : M T A) : M S A := λ s,
  let '(t, o) := m (get s) in (put t s, o).

Declare Scope py_scope.
Delimit Scope py_scope with py.
Notation "x <- m ;; k" := (bind m (λ x, k))
  (at level 100, m at next level, right associativity) : py_scope.
Notation "m ;; k" := (bind m (λ _, k))
  (at level 100, right associativity) : py_scope.
#[global] Open Scope py_scope.

(** Dynamically typed arguments, as far as the validators tell them apart. *)
Inductive pyobj :=
| PyNone
| PyBool (b : bool)
| PyInt (z : Z)
| PyStr (s : string)
| PyOther.

#[export] Instance pyobj_eq_dec : EqDecision pyobj.
Proof. solve_decision. Defined.

(** What the process draws from its surroundings: the n-th reading of the
    injected clock, in microseconds, and the n-th [secrets] token. *)
Class World := {
  clock_at : nat → Z;
  token_at : nat → string;
}.

(** How many of each a service has drawn. *)
Record Draws := mkDraws { ticks : nat; tokens : nat }.

(** A store that keeps count of what its service has drawn. *)
Class Drawing (S : Type) := {
  draws_of : S → Draws;
  with_draws : Draws → S → S;
}.

(** [self._clock()] *)
Definition clock {W : World} {T} {Dr : Drawing T} : M T Z := λ s,
  (with_draws (mkDraws (S (ticks (draws_of s))) (tokens (draws_of s))) s,
   Ret (clock_at (ticks (draws_of s)))).

(** [f"{prefix}-{secrets.token_hex(12)}"] *)
Definition new_id {W : World} {T} {Dr : Drawing T} (prefix : string) : M T string := λ s,
  (with_draws (mkDraws (ticks (draws_of s)) (S (tokens (draws_of s)))) s,
   Ret (prefix +:+ "-" +:+ token_at (tokens (draws_of s)))).

(** ** Reasoning about effects *)

(** The state a call leaves, and what it returned or raised. *)
Abbreviation final m s := (fst (m s)) (only parsing).
Abbreviation result m s := (snd (m s)) (only parsing).

(** Weakest precondition: what has to hold before the call for [Q] to hold of
    its outcome and of the state it leaves. *)
Definition wp {S A} (m : M S A) (Q : outcome A → S → Prop) (s : S) : Prop :=
  Q (result m s) (final m s).

(** [m] keeps the invariant, whether it returns or raises. *)
Definition preserves {S A} (I : S → Prop) (m : M S A) : Prop :=
  ∀ s, I s → wp m (λ _, I) s.

(** [m] leaves the store as it is. *)
Definition readonly {S A} (m : M S A) : Prop := ∀ s, final m s = s.

(** [m] only makes steps of the preorder [R]. *)
Definition steps_by {S A} (R : relation S) (m : M S A) : Prop :=
  ∀ s, R s (final m s).

Create HintDb py.

Section Wp.
Context {S : Type}.

Lemma wp_ret {A} (a : A) Q (s : S) : Q (Ret a) s → wp (ret a) Q s.
Proof. done. Qed.

Lemma wp_raise {A} e Q (s : S) : Q (Raise e) s → wp (raise (A:=A) e) Q s.
Proof. done. Qed.

Lemma wp_gets {A} (f : S → A) Q s : Q (Ret (f s)) s → wp (gets f) Q s.
Proof. done. Qed.

Lemma wp_modify f Q (s : S) : Q (Ret tt) (f s) → wp (modify f) Q s.
Proof. done. Qed.

Lemma wp_guard b e Q (s : S) :
  (b = true → Q (Ret tt) s) → (b = false → Q (Raise e) s) →
  wp (guard b e) Q s.
Proof. destruct b; intros H1 H2; [by apply H1|by apply H2]. Qed.

Lemma wp_from_option {A} (o : option A) e Q (s : S) :
  (∀ a, o = Some a → Q (Ret a) s) → (o = None → Q (Raise e) s) →
  wp (from_option o e) Q s.
Proof. destruct o; intros H1 H2; [by apply H1|by apply H2]. Qed.

Lemma wp_when b m Q (s : S) :
  (b = true → wp m Q s) → (b = false → Q (Ret tt) s) →
  wp (when b m) Q s.
Proof. destruct b; intros H1 H2; [by apply H1|by apply H2]. Qed.

Lemma wp_mono {A} (m : M S A) (Q Q' : outcome A → S → Prop) s :
  (∀ o s', Q o s' → Q' o s') → wp m Q s → wp m Q' s.
Proof. unfold wp. auto. Qed.

Lemma wp_and {A} (m : M S A) (P Q : outcome A → S → Prop) s :
  wp m P s → wp m Q s → wp m (λ o s', P o s' ∧ Q o s') s.
Proof. by split. Qed.

Lemma wp_bind {A B} (m : M S A) (k : A → M S B) Q s :
  wp m (λ o s', match o with
                | Ret a => wp (k a) Q s'
                | Raise e => Q (Raise e) s'
                end) s →
  wp (bind m k) Q s.
Proof. unfold wp, bind. by destruct (m s) as [s' [a|e]]. Qed.

(** A loop whose body keeps [I] and establishes nothing on its own. *)
Lemma wp_mfor {A} (I : S → Prop) (E : exn → S → Prop) (l : list A) body
    (Q : outcome unit → S → Prop) s :
  I s →
  (∀ x s, x ∈ l → I s →
     wp (body x) (λ o s', match o with Ret _ => I s' | Raise e => E e s' end) s) →
  (∀ s, I s → Q (Ret tt) s) → (∀ e s, E e s → Q (Raise e) s) →
  wp (mfor l body) Q s.
Proof.
  intros Hs Hb HQ HE. revert s Hs. induction l as [|x l IH]; intros s Hs; simpl.
  { apply wp_ret. by apply HQ. }
  apply wp_bind. eapply wp_mono; [|apply Hb; [left|done]].
  intros [[]|e] s' H'; [|by apply HE].
  apply IH; [|done]. intros y t Hy. apply Hb. by right.
Qed.

Lemma wp_mfold {A B} (I : B → S → Prop) (E : exn → S → Prop) (l : list A) body acc
    (Q : outcome B → S → Prop) s :
  I acc s →
  (∀ acc x s, x ∈ l → I acc s →
     wp (body acc x) (λ o s', match o with Ret acc' => I acc' s' | Raise e => E e s' end) s) →
  (∀ acc s, I acc s → Q (Ret acc) s) → (∀ e s, E e s → Q (Raise e) s) →
  wp (mfold l body acc) Q s.
Proof.
  intros Hs Hb HQ HE. revert acc s Hs. induction l as [|x l IH]; intros acc s Hs; simpl.
  { apply wp_ret. by apply HQ. }
  apply wp_bind. eapply wp_mono; [|apply Hb; [left|done]].
  intros [acc'|e] s' H'; [|by apply HE].
  apply IH; [|done]. intros acc0 y t Hy. apply Hb. by right.
Qed.

(** The same, with an invariant that knows which elements were passed over. *)
Lemma wp_mfold_prefix {A B} (I : list A → B → S → Prop) (E : exn → S → Prop) (l : list A) body acc
    (Q : outcome B → S → Prop) s :
  I [] acc s →
  (∀ pre x acc s, x ∈ l → I pre acc s →
     wp (body acc x)
       (λ o s', match o with Ret acc' => I (pre ++ [x]) acc' s' | Raise e => E e s' end) s) →
  (∀ acc s, I l acc s → Q (Ret acc) s) → (∀ e s, E e s → Q (Raise e) s) →
  wp (mfold l body acc) Q s.
Proof.
  intros Hs Hb HQ HE. enough (∀ post pre acc s, l = pre ++ post → I pre acc s →
    wp (mfold post body acc) Q s) as H by (by apply (H l [])).
  clear acc s Hs. induction post as [|x post IH]; intros pre acc s -> Hs; simpl.
  { rewrite app_nil_r in HQ. apply wp_ret. by apply HQ. }
  apply wp_bind. eapply wp_mono; [|apply (Hb pre); [set_solver|done]].
  intros [acc'|e] s' H'; [|by apply HE].
  apply (IH (pre ++ [x])); [by rewrite <- app_assoc|done].
Qed.

Lemma wp_transaction {A} (m : M S A) (Q : outcome A → S → Prop) s :
  wp m (λ o s', match o with Ret a => Q (Ret a) s' | Raise e => Q (Raise e) s end) s →
  wp (transaction m) Q s.
Proof. unfold wp, transaction. by destruct (m s) as [s' [a|e]]. Qed.

Lemma wp_readonly {A} (m : M S A) (Q : outcome A → S → Prop) s :
  readonly m → Q (result m s) s → wp m Q s.
Proof. unfold wp. by intros ->. Qed.
End Wp.

Section WpDraws.
Context {W : World} {T : Type} {Dr : Drawing T}.

Lemma wp_clock (Q : outcome Z → T → Prop) s :
  Q (Ret (clock_at (ticks (draws_of s))))
    (with_draws (mkDraws (S (ticks (draws_of s))) (tokens (draws_of s))) s) →
  wp clock Q s.
Proof. done. Qed.

Lemma wp_new_id p (Q : outcome string → T → Prop) s :
  Q (Ret (p +:+ "-" +:+ token_at (tokens (draws_of s))))
    (with_draws (mkDraws (ticks (draws_of s)) (S (tokens (draws_of s)))) s) →
  wp (new_id p) Q s.
Proof. done. Qed.
End WpDraws.

(** One step of symbolic execution of a method body. *)
Ltac wp_step :=
  lazymatch goal with
  | |- wp (bind _ _) _ _ => apply wp_bind
  | |- wp (ret _) _ _ => apply wp_ret
  | |- wp (raise _) _ _ => apply wp_raise
  | |- wp (gets _) _ _ => apply wp_gets
  | |- wp (modify _) _ _ => apply wp_modify
  | |- wp clock _ _ => apply wp_clock
  | |- wp (new_id _) _ _ => apply wp_new_id
  | |- wp (let x := _ in _) _ _ => cbv zeta
  | |- wp (guard _ _) _ _ => apply wp_guard; intros ?
  | |- wp (from_option _ _) _ _ => apply wp_from_option; [intros ? ?|intros ?]
  | |- wp (when _ _) _ _ => apply wp_when; intros ?
  | |- wp (transaction _) _ _ => apply wp_transaction
  | |- wp (match ?x with _ => _ end) _ _ => destruct x eqn:?
  end; cbn beta iota.

(** Execute the whole body; what is left are the paths through it. *)
Ltac wp_run := repeat wp_step.

(** What a call leaves and returns, from what it returns *)
Lemma both {S O} (p : S * O) o : snd p = o → p = (fst p, o).
Proof. destruct p. simpl. by intros ->. Qed.

(** Computing a call whose first part is known. *)
Lemma bind_Ret {S A B} (m : M S A) (k : A → M S B) s s' a :
  m s = (s', Ret a) → bind m k s = k a s'.
Proof. unfold bind. by intros ->. Qed.

Lemma bind_Raise {S A B} (m : M S A) (k : A → M S B) s s' e :
  m s = (s', Raise e) → bind m k s = (s', Raise e).
Proof. unfold bind. by intros ->. Qed.

Lemma bind_Ret_inv {S A B} (m : M S A) (k : A → M S B) s s' b :
  bind m k s = (s', Ret b) → ∃ s1 a, m s = (s1, Ret a) ∧ k a s1 = (s', Ret b).
Proof. unfold bind. destruct (m s) as [s1 [a|e]]; [by eauto|done]. Qed.

(** A loop over a list in two parts *)
Lemma mfold_app {S A B} (pre post : list A) (body : B → A → M S B) acc s :
  mfold (pre ++ post) body acc s = bind (mfold pre body acc) (mfold post body) s.
Proof.
  revert acc s. induction pre as [|x pre IH]; intros acc s; [done|]. simpl. unfold bind.
  destruct (body acc x s) as [s1 [a|e]]; [|done]. rewrite IH. done.
Qed.

Lemma guard_Ret {S} b e (s : S) : b = true → guard b e s = (s, Ret tt).
Proof. by intros ->. Qed.

(** A call that is known to return by computation. *)
Lemma returns {S A} (m : M S A) s :
  match result m s with Ret _ => true | Raise _ => false end = true → ∃ s' a, m s = (s', Ret a).
Proof. destruct (m s) as [s' [a|e]]; [by exists s', a|done]. Qed.

Lemma returns_some {S A} (m : M S (option A)) s :
  match result m s with Ret (Some _) => true | _ => false end = true → ∃ s' a, m s = (s', Ret (Some a)).
Proof. destruct (m s) as [s' [[a|]|e]]; [by exists s', a|done..]. Qed.

Section Readonly.
Context {S : Type}.

Lemma readonly_ret {A} (a : A) : readonly (S:=S) (ret a).
Proof. done. Qed.

Lemma readonly_raise {A} e : readonly (S:=S) (raise (A:=A) e).
Proof. done. Qed.

Lemma readonly_gets {A} (f : S → A) : readonly (gets f).
Proof. done. Qed.

Lemma readonly_guard b e : readonly (S:=S) (guard b e).
Proof. by destruct b. Qed.

Lemma readonly_from_option {A} (o : option A) e : readonly (S:=S) (from_option o e).
Proof. by destruct o. Qed.

Lemma readonly_bind {A B} (m : M S A) (k : A → M S B) :
  readonly m → (∀ a, readonly (k a)) → readonly (bind m k).
Proof.
  intros Hm Hk s. specialize (Hm s). unfold bind.
  destruct (m s) as [s' [a|e]]; simpl in Hm; subst; [apply Hk|done].
Qed.

Lemma readonly_preserves I {A} (m : M S A) : readonly m → preserves I m.
Proof. intros H s Hs. unfold wp. by rewrite H. Qed.

Lemma readonly_mfor {A} (l : list A) (body : A → M S unit) :
  (∀ x, readonly (body x)) → readonly (mfor l body).
Proof.
  intros Hb. induction l as [|x l IH]; simpl; [apply readonly_ret|].
  apply readonly_bind; [apply Hb|]. intros _. apply IH.
Qed.

(** A loop of checks passes when every check passes. *)
Lemma mfor_Ret_iff {A} (l : list A) (body : A → M S unit) (P : A → Prop) s :
  (∀ x, x ∈ l → body x s = (s, Ret tt) ↔ P x) → (∀ x, readonly (body x)) →
  mfor l body s = (s, Ret tt) ↔ ∀ x, x ∈ l → P x.
Proof.
  intros HP Hr. induction l as [|x l IH]; simpl.
  { split; [intros _ x Hx; set_solver|done]. }
  specialize (HP x) as Hx. rewrite elem_of_cons in Hx. specialize (Hx (or_introl eq_refl)).
  assert (∀ y, y ∈ l → body y s = (s, Ret tt) ↔ P y) as HPl by (intros y Hy; apply HP; by right).
  pose proof (Hr x s) as Hs. unfold bind. destruct (body x s) as [s' [[]|e]]; simpl in Hs; subst s'.
  - rewrite (IH HPl). split.
    + intros H y [->|Hy]%elem_of_cons; [by apply Hx|auto].
    + intros H y Hy. apply H. by right.
  - split; [done|]. intros H. assert (P x) as Hpx by (apply H; left). by apply Hx in Hpx.
Qed.
End Readonly.

#[export] Hint Resolve readonly_ret readonly_raise readonly_gets readonly_guard
  readonly_from_option : py.
#[export] Hint Resolve readonly_bind readonly_mfor | 2 : py.

(** [preserves] only looks at the extension of the invariant. *)
#[export] Instance preserves_proper {S A} :
  Proper (pointwise_relation S iff ==> eq ==> iff) (@preserves S A).
Proof.
  intros I J HIJ m m' <-. unfold preserves, wp.
  split; intros H s Hs; apply HIJ, H, HIJ, Hs.
Qed.

(** ** Generic lemmas *)

Lemma rtc_invariant {A} (R : relation A) (I : A → Prop) :
  (∀ x y, I x → R x y → I y) → ∀ x y, rtc R x y → I x → I y.
Proof. intros Hs x y Hr. induction Hr; eauto. Qed.

Lemma andb_prop_iff (a b : bool) : a && b = true ↔ a = true ∧ b = true.
Proof. apply andb_true_iff. Qed.

Lemma forallb_elem {A} (p : A → bool) l : forallb p l = true ↔ ∀ x, x ∈ l → p x = true.
Proof. rewrite forallb_forall. setoid_rewrite <- list_elem_of_In. done. Qed.

(** [all(x in S for x in l)] *)
Lemma forallb_decide {A} (P : A → Prop) `{∀ x, Decision (P x)} l :
  forallb (λ x, bool_decide (P x)) l = true ↔ ∀ x, x ∈ l → P x.
Proof. rewrite forallb_elem. by setoid_rewrite bool_decide_eq_true. Qed.

(** Turn every boolean test in the context into the proposition it decides. *)
Ltac bools :=
  repeat match goal with
  | H : negb _ = true |- _ => apply negb_true_iff in H
  | H : negb _ = false |- _ => apply negb_false_iff in H
  | H : _ && _ = true |- _ => apply andb_true_iff in H as [? ?]
  | H : _ || _ = false |- _ => apply orb_false_iff in H as [? ?]
  | H : forallb (λ _, bool_decide _) _ = true |- _ => rewrite forallb_decide in H
  | H : bool_decide _ = true |- _ => apply bool_decide_eq_true_1 in H
  | H : bool_decide _ = false |- _ => apply bool_decide_eq_false_1 in H
  | H : (_ <? _) = true |- _ => apply Z.ltb_lt in H
  | H : (_ <? _) = false |- _ => apply Z.ltb_ge in H
  | H : (_ <=? _) = true |- _ => apply Z.leb_le in H
  | H : (_ <=? _) = false |- _ => apply Z.leb_gt in H
  | H : String.eqb _ _ = true |- _ => apply String.eqb_eq in H
  | H : String.eqb _ _ = false |- _ => apply String.eqb_neq in H
  | H : Nat.eqb _ _ = true |- _ => apply Nat.eqb_eq in H
  | H : Nat.leb _ _ = true |- _ => apply Nat.leb_le in H
  | H : Nat.leb _ _ = false |- _ => apply Nat.leb_gt in H
  | H : (_ =? _) = true |- _ => apply Z.eqb_eq in H
  | H : (_ =? _) = false |- _ => apply Z.eqb_neq in H
  end.

(** The map changed only at keys that satisfy [P]. *)
Definition changed_only `{Countable K} {V} (P : K → Prop) (m m' : gmap K V) : Prop :=
  ∀ k, m' !! k = m !! k ∨ P k.

Section ChangedOnly.
Context `{Countable K} {V : Type}.
Implicit Types (P : K → Prop) (m : gmap K V).

Lemma changed_only_refl P m : changed_only P m m.
Proof. by left. Qed.

Lemma changed_only_insert P m m' k v :
  P k → changed_only P m m' → changed_only P m (<[k := v]> m').
Proof.
  intros Hk Hm k'. destruct (decide (k = k')) as [<-|]; [by right|].
  rewrite lookup_insert_ne by done. apply Hm.
Qed.

Lemma changed_only_mono P Q m m' :
  (∀ k, P k → Q k) → changed_only P m m' → changed_only Q m m'.
Proof. intros HPQ Hm k. destruct (Hm k); auto. Qed.

Lemma changed_only_trans P m1 m2 m3 :
  changed_only P m1 m2 → changed_only P m2 m3 → changed_only P m1 m3.
Proof. intros H12 H23 k. destruct (H12 k), (H23 k); auto. left. congruence. Qed.

Lemma changed_only_lookup P m m' k v :
  changed_only P m m' → m !! k = Some v → ¬ P k → m' !! k = Some v.
Proof. intros Hm Hk HP. destruct (Hm k) as [->|]; [done|by destruct HP]. Qed.
End ChangedOnly.

(** Elements of a list without repetitions are told apart by their images. *)
Lemma NoDup_map_inj {X Y} (f : X → Y) l x y :
  NoDup (map f l) → x ∈ l → y ∈ l → f x = f y → x = y.
Proof.
  induction l as [|z l IH]; simpl; [by intros _ []%elem_of_nil|].
  intros [Hz Hl]%NoDup_cons [->|Hx]%elem_of_cons [->|Hy]%elem_of_cons Heq; [done|..|auto]; exfalso; apply Hz.
  - rewrite Heq. by apply list_elem_of_fmap_2.
  - rewrite <- Heq. by apply list_elem_of_fmap_2.
Qed.

(** What an insertion added. *)
Lemma lookup_insert_added `{Countable K} {V} (m : gmap K V) k0 x k v :
  <[k0 := x]> m !! k = Some v → m !! k = None → k = k0 ∧ v = x.
Proof.
  destruct (decide (k0 = k)) as [<-|]; [rewrite lookup_insert_eq|rewrite lookup_insert_ne by done];
    [|congruence]. by intros [= <-].
Qed.

#[export] Hint Resolve changed_only_refl changed_only_insert : py.

(** Membership in a closed list, decided by evaluation. *)
Ltac not_in H := exfalso; generalize (bool_decide_pack _ H); vm_compute; exact id.
Ltac is_in := apply (bool_decide_unpack _); vm_compute; exact I.

(** ** Insertion-ordered dictionaries

    A Python [dict] whose iteration order matters.  (Where the program only
    looks keys up, the components use [gmap].) *)

Section Dict.
Context {V : Type}.
Abbreviation dict := (list (string * V)).

Fixpoint dict_get (k : string) (d : dict) : option V :=
  match d with
  | [] => None
  | (k', v) :: d' => if decide (k = k') then Some v else dict_get k d'
  end.

(** [d[k] = v]: in place when the key is there, at the end otherwise. *)
Fixpoint dict_set (k : string) (v : V) (d : dict) : dict :=
  match d with
  | [] => [(k, v)]
  | (k', v') :: d' =>
      if decide (k = k') then (k', v) :: d' else (k', v') :: dict_set k v d'
  end.

Definition dict_keys (d : dict) : list string := map fst d.
Definition dict_values (d : dict) : list V := map snd d.

(** [{key(x): x for x in l}] *)
Definition dict_of (key : V → string) (l : list V) : dict :=
  fold_left (λ d x, dict_set (key x) x d) l [].

Lemma dict_get_set k v d k' :
  dict_get k' (dict_set k v d) = if decide (k' = k) then Some v else dict_get k' d.
Proof.
  induction d as [|[k0 v0] d IH]; simpl; [done|].
  destruct (decide (k = k0)) as [->|Hk]; simpl.
  - by destruct (decide (k' = k0)).
  - rewrite IH. destruct (decide (k' = k0)), (decide (k' = k)); congruence.
Qed.

Lemma dict_keys_set k v d :
  dict_keys (dict_set k v d) = if decide (k ∈ dict_keys d) then dict_keys d else dict_keys d ++ [k].
Proof.
  induction d as [|[k0 v0] d IH]; simpl; [done|].
  destruct (decide (k = k0)) as [->|Hk]; simpl.
  - rewrite decide_True; [done|]. left.
  - rewrite IH. destruct (decide (k ∈ dict_keys d)) as [Hin|Hin].
    + rewrite decide_True; [done|]. by right.
    + rewrite decide_False; [done|]. rewrite elem_of_cons. tauto.
Qed.

Lemma dict_keys_NoDup_set k v d : NoDup (dict_keys d) → NoDup (dict_keys (dict_set k v d)).
Proof.
  intros Hd. rewrite dict_keys_set. case_decide; [done|].
  apply NoDup_app. repeat split; [done| |apply NoDup_singleton].
  intros x Hx ->%list_elem_of_singleton. done.
Qed.

Lemma dict_of_NoDup key l : NoDup (dict_keys (dict_of key l)).
Proof.
  unfold dict_of. assert (NoDup (dict_keys (@nil (string * V)))) as H by constructor.
  revert H. generalize (@nil (string * V)).
  induction l as [|x l IH]; intros d Hd; simpl; [done|].
  by apply IH, dict_keys_NoDup_set.
Qed.

Lemma dict_get_elem k v d : dict_get k d = Some v → (k, v) ∈ d.
Proof.
  induction d as [|[k0 v0] d IH]; simpl; [done|].
  destruct (decide (k = k0)) as [->|]; intros H; [simplify_eq; left|right; auto].
Qed.

Lemma dict_elem_get k v d : NoDup (dict_keys d) → (k, v) ∈ d → dict_get k d = Some v.
Proof.
  induction d as [|[k0 v0] d IH]; simpl; [by rewrite elem_of_nil|].
  rewrite NoDup_cons, elem_of_cons. intros [Hn Hd] [[= -> ->]|Hin].
  - by rewrite decide_True.
  - destruct (decide (k = k0)) as [->|]; [|auto].
    exfalso. apply Hn. change k0 with (k0, v).1. by apply list_elem_of_fmap_2.
Qed.

Lemma dict_set_elem k v d x : x ∈ dict_set k v d → x.2 = v ∨ x ∈ d.
Proof.
  induction d as [|[k0 v0] d IH]; simpl.
  - intros ->%list_elem_of_singleton. by left.
  - destruct (decide (k = k0)); rewrite !elem_of_cons; intros [->|H]; auto.
    apply IH in H as [|]; auto.
Qed.

(** A property of all values survives an update with a value that has it. *)
Lemma Forall_dict_set (P : string * V → Prop) k v d :
  P (k, v) → Forall P d → Forall P (dict_set k v d).
Proof.
  intros Hv. induction 1 as [|[k0 v0] d Hx Hd IH]; simpl; [by constructor|].
  destruct (decide (k = k0)) as [->|]; by constructor.
Qed.

Lemma dict_set_new k v d : k ∉ dict_keys d → dict_set k v d = d ++ [(k, v)].
Proof.
  induction d as [|[k0 v0] d IH]; simpl; [done|]. rewrite not_elem_of_cons. intros [Hk Hd].
  rewrite decide_False by done. by rewrite IH.
Qed.

Lemma length_dict_set k v d :
  length (dict_set k v d) = if decide (k ∈ dict_keys d) then length d else S (length d).
Proof.
  assert (∀ d, length d = length (dict_keys d)) as Hlen by (intros; unfold dict_keys; by rewrite length_map).
  rewrite (Hlen (dict_set k v d)), dict_keys_set, (Hlen d).
  case_decide; [done|]. rewrite length_app. simpl. lia.
Qed.

Lemma length_dict_fold key l d :
  (length (fold_left (λ d x, dict_set (key x) x d) l d) <= length d + length l)%nat.
Proof.
  revert d. induction l as [|x l IH]; intros d; simpl; [lia|].
  etrans; [apply IH|]. rewrite length_dict_set. case_decide; lia.
Qed.

(** No two elements share a key when none was lost. *)
Lemma dict_of_all key l :
  length (dict_of key l) = length l → dict_of key l = map (λ x, (key x, x)) l.
Proof.
  unfold dict_of.
  enough (∀ d, length (fold_left (λ d x, dict_set (key x) x d) l d) = (length d + length l)%nat →
    fold_left (λ d x, dict_set (key x) x d) l d = d ++ map (λ x, (key x, x)) l) as H
    by (intros; by apply (H [])).
  induction l as [|x l IH]; intros d; simpl; [by rewrite app_nil_r|].
  intros Hlen. pose proof (length_dict_fold key l (dict_set (key x) x d)) as Hx.
  rewrite length_dict_set in Hx. case_decide as Hd; [lia|].
  rewrite IH; [|rewrite length_dict_set, decide_False by done; lia].
  rewrite dict_set_new by done. by rewrite <- app_assoc.
Qed.

(** Replacing a value by one with the same image under [f]. *)
Lemma dict_set_map {B} (f : V → B) k v v' d :
  dict_get k d = Some v → f v' = f v →
  map f (dict_values (dict_set k v' d)) = map f (dict_values d).
Proof.
  intros Hg Hf. induction d as [|[k0 v0] d IH]; simpl in *; [done|].
  destruct (decide (k = k0)) as [->|]; simplify_eq; simpl; [by rewrite Hf|].
  f_equal. by apply IH.
Qed.

Lemma dict_keys_set_same k v v' d :
  dict_get k d = Some v → dict_keys (dict_set k v' d) = dict_keys d.
Proof.
  intros Hg%dict_get_elem. rewrite dict_keys_set, decide_True; [done|].
  change k with (k, v).1. by apply list_elem_of_fmap_2.
Qed.
End Dict.
