(* ===== verification/Sha256.v ===== *)
(** [str.encode()] and [hashlib.sha256(...).hexdigest()].

    A Python string is modelled by the list of its code points, kept below 256
    (a Rocq [string]); its UTF-8 bytes are a list of [N].  The digest is the
    FIPS 180-4 function itself, so every digest of the model evaluates.  No
    theorem of the development assumes that it has no collisions: where two
    requests have to be told apart by their digests the statement offers the
    collision as the alternative ([collision]). *)

From S2P Require Import Prelude.
From Stdlib Require Import NArith Ascii.

Open Scope N_scope.

(** ** UTF-8 *)

Definition utf8_char (c : ascii) : list N :=
  let n := N_of_ascii c in
  if n <? 128 then [n] else [N.lor 192 (N.shiftr n 6); N.lor 128 (N.land n 63)].

(** [value.encode()] *)
Fixpoint encode (s : string) : list N :=
  match s with
  | EmptyString => []
  | String c s' => utf8_char c ++ encode s'
  end.

(** ** SHA-256 *)

Definition mask32 : N := 4294967295.
Definition add32 (x y : N) : N := N.land (x + y) mask32.
Definition rotr (n x : N) : N :=
  N.lor (N.shiftr x n) (N.land (N.shiftl x (32 - n)) mask32).
Definition not32 (x : N) : N := N.lxor x mask32.

Definition Ch x y z := N.lxor (N.land x y) (N.land (not32 x) z).
Definition Maj x y z := N.lxor (N.lxor (N.land x y) (N.land x z)) (N.land y z).
Definition bsig0 x := N.lxor (N.lxor (rotr 2 x) (rotr 13 x)) (rotr 22 x).
Definition bsig1 x := N.lxor (N.lxor (rotr 6 x) (rotr 11 x)) (rotr 25 x).
Definition ssig0 x := N.lxor (N.lxor (rotr 7 x) (rotr 18 x)) (N.shiftr x 3).
Definition ssig1 x := N.lxor (N.lxor (rotr 17 x) (rotr 19 x)) (N.shiftr x 10).

(** The first 64 primes, whose roots the constants of the function come from. *)
Definition primes : list N :=
  [2; 3; 5; 7; 11; 13; 17; 19; 23; 29; 31; 37; 41; 43; 47; 53;
   59; 61; 67; 71; 73; 79; 83; 89; 97; 101; 103; 107; 109; 113; 127; 131;
   137; 139; 149; 151; 157; 163; 167; 173; 179; 181; 191; 193; 197; 199; 211; 223;
   227; 229; 233; 239; 241; 251; 257; 263; 269; 271; 277; 281; 283; 293; 307; 311].

(** The largest [r] with [r ^ 3 <= n], built from its bit [k - 1] downwards. *)
Fixpoint cube_root_from (k : nat) (r n : N) : N :=
  match k with
  | O => r
  | S k' =>
      let r' := r + N.shiftl 1 (N.of_nat k') in
      cube_root_from k' (if r' * r' * r' <=? n then r' else r) n
  end.

(** The first 32 bits of the fractional part of the cube root of each prime. *)
Definition K256 : list N :=
  Eval vm_compute in
    map (fun p => N.land (cube_root_from 36 0 (N.shiftl p 96)) mask32) primes.

(** The first 32 bits of the fractional part of the square root of the first eight. *)
Definition H0_256 : list N :=
  Eval vm_compute in
    map (fun p => N.land (N.sqrt (N.shiftl p 64)) mask32) (firstn 8 primes).

(** Big-endian bytes of [n], [k] of them. *)
Fixpoint be_bytes (k : nat) (n : N) : list N :=
  match k with
  | O => []
  | S k' => N.land (N.shiftr n (8 * N.of_nat k')) 255 :: be_bytes k' n
  end.

(** Append 0x80, zeros, and the 64-bit length in bits. *)
Definition pad (msg : list N) : list N :=
  let len := length msg in
  let zeros := ((119 - Nat.modulo len 64) mod 64)%nat in
  msg ++ 128 :: repeat 0 zeros ++ be_bytes 8 (8 * N.of_nat len).

Fixpoint words (bs : list N) : list N :=
  match bs with
  | a :: b :: c :: d :: bs' =>
      N.lor (N.shiftl a 24) (N.lor (N.shiftl b 16) (N.lor (N.shiftl c 8) d)) :: words bs'
  | _ => []
  end.

(** The message schedule, newest word first. *)
Fixpoint extend (n : nat) (w : list N) : list N :=
  match n with
  | O => w
  | S n' =>
      let at_ i := nth i w 0 in
      extend n' (add32 (add32 (ssig1 (at_ 1%nat)) (at_ 6%nat)) (add32 (ssig0 (at_ 14%nat)) (at_ 15%nat)) :: w)
  end.

Definition schedule (block : list N) : list N := rev (extend 48 (rev block)).

Definition state8 : Type := N * N * N * N * N * N * N * N.

Definition round (st : state8) (kw : N * N) : state8 :=
  let '(a, b, c, d, e, f, g, h) := st in
  let t1 := add32 (add32 h (bsig1 e)) (add32 (Ch e f g) (add32 (fst kw) (snd kw))) in
  let t2 := add32 (bsig0 a) (Maj a b c) in
  (add32 t1 t2, a, b, c, add32 d t1, e, f, g).

Definition compress (hs : list N) (block : list N) : list N :=
  match hs with
  | [a; b; c; d; e; f; g; h] =>
      let '(a', b', c', d', e', f', g', h') :=
        fold_left round (combine K256 (schedule block)) (a, b, c, d, e, f, g, h) in
      [add32 a a'; add32 b b'; add32 c c'; add32 d d';
       add32 e e'; add32 f f'; add32 g g'; add32 h h']
  | _ => hs
  end.

Fixpoint blocks (fuel : nat) (hs : list N) (ws : list N) : list N :=
  match fuel, ws with
  | S fuel', _ :: _ => blocks fuel' (compress hs (firstn 16 ws)) (skipn 16 ws)
  | _, _ => hs
  end.

Definition sha256_words (msg : list N) : list N :=
  let ws := words (pad msg) in blocks (length ws) H0_256 ws.

(** The digest as bytes. *)
Definition sha256 (msg : list N) : list N := flat_map (be_bytes 4) (sha256_words msg).

(** ** Hexadecimal *)

Definition hex_digit (n : N) : ascii :=
  ascii_of_N (if n <? 10 then 48 + n else 87 + n).

(** [bytes.hex()] *)
Fixpoint hex (bs : list N) : string :=
  match bs with
  | [] => EmptyString
  | b :: bs' => String (hex_digit (N.shiftr b 4)) (String (hex_digit (N.land b 15)) (hex bs'))
  end.

Definition is_hex_digit (c : ascii) : bool :=
  let n := N_of_ascii c in
  ((48 <=? n) && (n <=? 57)) || ((97 <=? n) && (n <=? 102)).

Fixpoint all_chars (p : ascii → bool) (s : string) : bool :=
  match s with
  | EmptyString => true
  | String c s' => p c && all_chars p s'
  end.

(** [re.compile("^[0-9a-f]{64}$").fullmatch(s)] *)
Definition is_digest (s : string) : bool :=
  Nat.eqb (String.length s) 64 && all_chars is_hex_digit s.

(** ** The interface *)

Class Digest := {
  (** [hashlib.sha256(msg).hexdigest()] *)
  sha256_hex : list N → string;
  sha256_hex_shape : ∀ msg, is_digest (sha256_hex msg) = true;
}.

(** Two different messages with the same digest. *)
Definition collision {D : Digest} (x y : list N) : Prop :=
  x ≠ y ∧ sha256_hex x = sha256_hex y.

(** ** Shape of a digest *)

Lemma be_bytes_length k n : length (be_bytes k n) = k.
Proof. induction k; simpl; congruence. Qed.

Lemma be_bytes_lt k n : Forall (λ b, b < 256) (be_bytes k n).
Proof.
  induction k as [|k IH]; simpl; constructor; [|done].
  change 255 with (N.ones 8). rewrite N.land_ones.
  apply N.mod_lt. discriminate.
Qed.

Lemma hex_length bs : String.length (hex bs) = (2 * length bs)%nat.
Proof. induction bs as [|b bs IH]; simpl; [done|]. rewrite IH. lia. Qed.

Lemma hex_digit_ok n : n < 16 → is_hex_digit (hex_digit n) = true.
Proof.
  intros Hn.
  assert (∃ m, n = N.of_nat m ∧ (m < 16)%nat) as (m & -> & Hm).
  { exists (N.to_nat n). lia. }
  do 16 (destruct m as [|m]; [reflexivity|]). lia.
Qed.

Lemma hex_ok bs : Forall (λ b, b < 256) bs → all_chars is_hex_digit (hex bs) = true.
Proof.
  induction 1 as [|b bs Hb _ IH]; simpl; [done|].
  rewrite !hex_digit_ok, IH; [done| |].
  - change 15 with (N.ones 4). rewrite N.land_ones. apply N.mod_lt. discriminate.
  - rewrite N.shiftr_div_pow2. apply N.Div0.div_lt_upper_bound. lia.
Qed.

Lemma hex_is_digest bs :
  length bs = 32%nat → Forall (λ b, b < 256) bs → is_digest (hex bs) = true.
Proof.
  intros Hl Hb. unfold is_digest. rewrite hex_length, Hl, hex_ok by done. done.
Qed.

Lemma compress_length hs b : length hs = 8%nat → length (compress hs b) = 8%nat.
Proof.
  intros H. do 9 (destruct hs as [|? hs]; try discriminate H).
  unfold compress. by destruct (fold_left _ _ _) as [[[[[[[? ?] ?] ?] ?] ?] ?] ?].
Qed.

Lemma blocks_length fuel hs ws : length hs = 8%nat → length (blocks fuel hs ws) = 8%nat.
Proof.
  revert hs ws. induction fuel as [|fuel IH]; intros hs [|w ws] H; simpl; auto.
  apply IH, compress_length, H.
Qed.

Lemma bytes_of_words_length ws : length (flat_map (be_bytes 4) ws) = (4 * length ws)%nat.
Proof. induction ws as [|w ws IH]; [done|]. cbn [flat_map]. rewrite length_app, be_bytes_length, IH. simpl. lia. Qed.

Lemma bytes_of_words_lt ws : Forall (λ b, b < 256) (flat_map (be_bytes 4) ws).
Proof.
  induction ws as [|w ws IH]; [constructor|]. cbn [flat_map].
  apply Forall_app. split; [apply be_bytes_lt|done].
Qed.

Lemma sha256_shape msg : is_digest (hex (sha256 msg)) = true.
Proof.
  apply hex_is_digest; [|apply bytes_of_words_lt].
  unfold sha256. rewrite bytes_of_words_length. unfold sha256_words.
  by rewrite blocks_length.
Qed.

(** The real one. *)
#[export] Instance SHA256 : Digest | 10 :=
  {| sha256_hex msg := hex (sha256 msg); sha256_hex_shape := sha256_shape |}.

(** A checksum in the shape of a digest. *)
Definition checksum (msg : list N) : N :=
  fold_left (λ acc b, N.land (acc * 31 + b + 7) 65535) msg 1.

Lemma checksum_shape msg : is_digest (hex (be_bytes 32 (checksum msg))) = true.
Proof. apply hex_is_digest; [apply be_bytes_length|apply be_bytes_lt]. Qed.

Definition checksum_digest : Digest :=
  {| sha256_hex msg := hex (be_bytes 32 (checksum msg));
     sha256_hex_shape := checksum_shape |}.

(** Test vector of FIPS 180-4. *)
Example sha256_abc :
  @sha256_hex SHA256 (encode "abc") =
  "ba7816bf8f01cfea414140de5dae2223b00361a396177a9cb410ff61f20015ad"%string.
Proof. vm_compute. reflexivity. Qed.
