(* ===== verification/PyStr.v ===== *)
(** Text: the regular expressions, the decimal and the ordering functions of
    Python that the components use on identifiers and keys. *)

From S2P Require Import Prelude Sha256.
From Stdlib Require Import NArith Ascii.
#[local] Open Scope Z_scope.

(** ** Character classes *)

Definition in_range (lo hi : N) (c : ascii) : bool :=
  (lo <=? N_of_ascii c)%N && (N_of_ascii c <=? hi)%N.

Definition is_digit : ascii → bool := in_range 48 57.
Definition is_upper : ascii → bool := in_range 65 90.
Definition is_lower : ascii → bool := in_range 97 122.
Definition is_alnum (c : ascii) : bool := is_digit c || is_upper c || is_lower c.

Fixpoint has_char (c : ascii) (s : string) : bool :=
  match s with
  | EmptyString => false
  | String d s' => Ascii.eqb c d || has_char c s'
  end.

(** [head[tail]{0,n-1}], the shape of every identifier pattern of the program. *)
Definition match_id (head tail : ascii → bool) (n : nat) (s : string) : bool :=
  match s with
  | EmptyString => false
  | String c s' => head c && all_chars tail s' && Nat.leb (String.length s) n
  end.

(** [A-Za-z0-9._:-] *)
Definition id_char (c : ascii) : bool := is_alnum c || has_char c "._:-".

(** [^[A-Za-z0-9][A-Za-z0-9._:-]{0,127}$], the [_SAFE_ID] of every module. *)
Definition safe_id (s : string) : bool := match_id is_alnum id_char 128 s.

(** The same with up to 256 characters ([_CANON_ID], [data_canon._SAFE_ID]). *)
Definition canon_id (s : string) : bool := match_id is_alnum id_char 256 s.

(** [^[A-Za-z0-9][A-Za-z0-9!#$&^_.+\-/]{0,254}$] *)
Definition content_type_char (c : ascii) : bool := is_alnum c || has_char c "!#$&^_.+-/".
Definition content_type_ok (s : string) : bool := match_id is_alnum content_type_char 255 s.

(** [isinstance(value, str) and _SAFE_ID.fullmatch(value)] *)
Definition safe_obj (v : pyobj) : bool :=
  match v with PyStr s => safe_id s | _ => false end.

(** [a.startswith(p)] *)
Definition startswith (p a : string) : bool := String.prefix p a.

(** [str(n)] *)
Definition str_int (n : Z) : string := pretty n.

(** A double quote, and [f'"{s}"'], the shape of every entity tag. *)
Definition quote_char : ascii := ascii_of_nat 34.
Definition dquoted (s : string) : string := String quote_char (s +:+ String quote_char EmptyString).

(** ** Instants

    A [datetime] is its number of microseconds since 1970-01-01 UTC; the
    clocks the services are given are timezone-aware and in UTC. *)

Fixpoint zeros (n : nat) : string :=
  match n with O => EmptyString | S n' => String "0" (zeros n') end.

Definition zpad (n : nat) (z : Z) : string :=
  let s := str_int z in zeros (n - String.length s) +:+ s.

(** Proleptic Gregorian date of a day number. *)
Definition civil (days : Z) : Z * Z * Z :=
  let z := days + 719468 in
  let era := z / 146097 in
  let doe := z mod 146097 in
  let yoe := (doe - doe / 1460 + doe / 36524 - doe / 146096) / 365 in
  let doy := doe - (365 * yoe + yoe / 4 - yoe / 100) in
  let mp := (5 * doy + 2) / 153 in
  let d := doy - (153 * mp + 2) / 5 + 1 in
  let m := if mp <? 10 then mp + 3 else mp - 9 in
  (yoe + era * 400 + (if m <=? 2 then 1 else 0), m, d).

Definition seconds : Z := 1000000.
Definition minutes : Z := 60 * seconds.
Definition hours : Z := 60 * minutes.
Definition days : Z := 24 * hours.

(** [value.isoformat(timespec="seconds")], without the offset. *)
Definition iso_seconds (t : Z) : string :=
  let '(y, m, d) := civil (t / days) in
  let r := t mod days in
  zpad 4 y +:+ "-" +:+ zpad 2 m +:+ "-" +:+ zpad 2 d +:+ "T" +:+
  zpad 2 (r / hours) +:+ ":" +:+ zpad 2 (r mod hours / minutes) +:+ ":" +:+
  zpad 2 (r mod minutes / seconds).

(** [value.isoformat()] of an instant in UTC, without and with the offset. *)
Definition iso_naive (t : Z) : string :=
  let us := t mod seconds in
  iso_seconds t +:+ (if us =? 0 then "" else "." +:+ zpad 6 us).
Definition isoformat (t : Z) : string := iso_naive t +:+ "+00:00".

(** [value.isoformat().replace("+00:00", "Z")] of an instant in UTC. *)
Definition iso_z (t : Z) : string := iso_naive t +:+ "Z".

Example isoformat_epoch : isoformat 0 = "1970-01-01T00:00:00+00:00".
Proof. reflexivity. Qed.

Example isoformat_leap :
  isoformat 1709210096000007 = "2024-02-29T12:34:56.000007+00:00".
Proof. reflexivity. Qed.

(** ** Splitting and joining *)

(** [c.isspace()] for the first 256 code points. *)
Definition is_space (c : ascii) : bool :=
  let n := N_of_ascii c in
  in_range 9 13 c || in_range 28 32 c || (n =? 133)%N || (n =? 160)%N.

Fixpoint split_go (cur s : string) : list string :=
  match s with
  | EmptyString => if String.eqb cur "" then [] else [cur]
  | String c s' =>
      if is_space c then (if String.eqb cur "" then [] else [cur]) ++ split_go "" s'
      else split_go (cur +:+ String c EmptyString) s'
  end.

(** [s.split()] *)
Definition split_ws (s : string) : list string := split_go "" s.

(** [" ".join(s.split())] *)
Definition collapse_ws (s : string) : string := String.concat " " (split_ws s).

Example collapse_ws_example : collapse_ws "  a  bc d " = "a bc d".
Proof. reflexivity. Qed.

(** ** Case, trimming, searching *)

(** [c.casefold()] for the first 256 code points: one character, except for
    the sharp s; the micro sign, whose folding is outside of them, is kept. *)
Definition casefold_char (c : ascii) : string :=
  let n := N_of_ascii c in
  if is_upper c || (in_range 192 222 c && negb (n =? 215)%N)
  then String (ascii_of_N (n + 32)) EmptyString
  else if (n =? 223)%N then "ss" else String c EmptyString.

(** [s.casefold()] *)
Fixpoint casefold (s : string) : string :=
  match s with
  | EmptyString => EmptyString
  | String c s' => casefold_char c +:+ casefold s'
  end.

Fixpoint string_filter (p : ascii → bool) (s : string) : string :=
  match s with
  | EmptyString => EmptyString
  | String c s' => if p c then String c (string_filter p s') else string_filter p s'
  end.

Fixpoint lstrip_by (p : ascii → bool) (s : string) : string :=
  match s with
  | String c s' => if p c then lstrip_by p s' else s
  | EmptyString => EmptyString
  end.

Fixpoint rstrip_by (p : ascii → bool) (s : string) : string :=
  match s with
  | EmptyString => EmptyString
  | String c s' =>
      match rstrip_by p s' with
      | EmptyString => if p c then EmptyString else String c EmptyString
      | r => String c r
      end
  end.

(** [s.strip()] *)
Definition strip (s : string) : string := rstrip_by is_space (lstrip_by is_space s).

(** [s.endswith(t)] *)
Definition endswith (t s : string) : bool :=
  Nat.leb (String.length t) (String.length s) &&
  String.eqb (String.substring (String.length s - String.length t) (String.length t) s) t.

(** [part in s] *)
Fixpoint contains (part s : string) : bool :=
  startswith part s || match s with EmptyString => false | String _ s' => contains part s' end.

(** [s.split(c)] *)
Fixpoint split_on_go (c : ascii) (cur s : string) : list string :=
  match s with
  | EmptyString => [cur]
  | String d s' =>
      if Ascii.eqb c d then cur :: split_on_go c "" s'
      else split_on_go c (cur +:+ String d EmptyString) s'
  end.
Definition split_on (c : ascii) (s : string) : list string := split_on_go c "" s.

(** [s.split(c, 1)], when there is a [c] *)
Fixpoint split_once (c : ascii) (s : string) : option (string * string) :=
  match s with
  | EmptyString => None
  | String d s' =>
      if Ascii.eqb c d then Some (EmptyString, s')
      else '(a, b) ← split_once c s'; Some (String d a, b)
  end.

Example strip_example : strip "  a b  " = "a b".
Proof. reflexivity. Qed.
Example endswith_example : endswith ".local" "db.local" = true.
Proof. reflexivity. Qed.
Example split_once_example : split_once ":" "a:b:c" = Some ("a", "b:c").
Proof. reflexivity. Qed.

(** ** Reading integers *)

Definition digit_value (c : ascii) : Z := Z.of_N (N_of_ascii c) - 48.

(** Digits with single underscores between them. *)
Fixpoint int_digits (acc : Z) (s : string) : option Z :=
  match s with
  | EmptyString => Some acc
  | String c s' =>
      if is_digit c then int_digits (acc * 10 + digit_value c) s'
      else if Ascii.eqb c "_" then
        match s' with
        | String d s'' => if is_digit d then int_digits (acc * 10 + digit_value d) s'' else None
        | EmptyString => None
        end
      else None
  end.

(** [int(s)] of text *)
Definition int_of_string (s : string) : option Z :=
  let unsigned t := match t with
                    | String c t' => if is_digit c then int_digits (digit_value c) t' else None
                    | EmptyString => None
                    end in
  match strip s with
  | String c t => if Ascii.eqb c "-" then n ← unsigned t; Some (- n)
                  else if Ascii.eqb c "+" then unsigned t else unsigned (String c t)
  | EmptyString => None
  end.

Example int_of_string_example : int_of_string " -1_0 " = Some (-10).
Proof. reflexivity. Qed.

(** ** Sorting text *)

Definition string_leb (a b : string) : bool := bool_decide (String.le a b).

(** [sorted(l)] *)
Definition sorted_strings (l : list string) : list string := merge_sort String.le l.

(** [list(dict.fromkeys(l))]: first occurrences, in order. *)
Fixpoint fromkeys_aux (seen : list string) (l : list string) : list string :=
  match l with
  | [] => []
  | x :: l' => if decide (x ∈ seen) then fromkeys_aux seen l'
               else x :: fromkeys_aux (x :: seen) l'
  end.
Definition fromkeys (l : list string) : list string := fromkeys_aux [] l.

(** [sorted(l, key=...)] for an order [le] on the keys; equal keys keep their
    order. *)
Section StableSort.
Context {A : Type} (le : A → A → bool).

Fixpoint insert_stable (x : A) (l : list A) : list A :=
  match l with
  | [] => [x]
  | y :: l' => if le x y then x :: l else y :: insert_stable x l'
  end.

Definition sort_stable (l : list A) : list A := foldr insert_stable [] l.

Lemma insert_stable_perm x l : insert_stable x l ≡ₚ x :: l.
Proof.
  induction l as [|y l IH]; simpl; [done|]. destruct (le x y); [done|].
  rewrite IH. apply Permutation_swap.
Qed.

Lemma sort_stable_perm l : sort_stable l ≡ₚ l.
Proof. induction l as [|x l IH]; simpl; [done|]. by rewrite insert_stable_perm, IH. Qed.

(** What is in order stays as it is. *)
Lemma sort_stable_id l : Sorted (λ x y, le x y = true) l → sort_stable l = l.
Proof.
  induction 1 as [|x l Hl IH Hx]; simpl; [done|]. rewrite IH.
  destruct Hx as [|y l Hxy]; simpl; [done|]. by rewrite Hxy.
Qed.

Context (le_total : ∀ x y, le x y = true ∨ le y x = true)
  (le_trans : ∀ x y z, le x y = true → le y z = true → le x z = true).

Lemma sort_stable_sorted l : StronglySorted (λ x y, le x y = true) (sort_stable l).
Proof.
  induction l as [|x l IH]; simpl; [constructor|].
  revert IH. generalize (sort_stable l). clear l.
  induction 1 as [|y l Hl IH Hy]; simpl; [by repeat constructor|].
  destruct (le x y) eqn:Hxy.
  - constructor; [by constructor|]. constructor; [done|].
    eapply Forall_impl; [exact Hy|]. simpl. eauto.
  - constructor; [done|]. rewrite insert_stable_perm. constructor; [|done].
    destruct (le_total x y); congruence.
Qed.
End StableSort.

(** ** Lemmas *)

#[local] Arguments String.append !_ _ /.

Lemma all_chars_impl (p q : ascii → bool) s :
  (∀ c, p c = true → q c = true) → all_chars p s = true → all_chars q s = true.
Proof.
  intros Hpq. induction s as [|c s IH]; simpl; [done|].
  intros [? ?]%andb_true_iff. rewrite Hpq, IH; done.
Qed.

Lemma all_chars_app p s t : all_chars p (s +:+ t) = all_chars p s && all_chars p t.
Proof. induction s as [|c s IH]; simpl; [done|]. by rewrite IH, andb_assoc. Qed.

Lemma string_app_assoc (a b c : string) : (a +:+ b) +:+ c = a +:+ (b +:+ c).
Proof. induction a as [|x a IH]; simpl; congruence. Qed.

Lemma string_app_nil_r (a : string) : a +:+ "" = a.
Proof. induction a as [|x a IH]; simpl; congruence. Qed.

Lemma string_app_inv_l (a b c : string) : a +:+ b = a +:+ c → b = c.
Proof. induction a as [|x a IH]; simpl; [done|]. intros [=]. auto. Qed.

(** The text between two quotes is told by them. *)
Lemma dquoted_inj a b : dquoted a = dquoted b → a = b.
Proof.
  unfold dquoted. intros [= H]. revert b H.
  induction a as [|c a IH]; intros [|d b] H; simpl in H; try done.
  - injection H as _ H. destruct b; discriminate H.
  - injection H as _ H. destruct a; discriminate H.
  - injection H as -> H. f_equal. by apply IH.
Qed.

(** Two runs of [p] characters followed by something that does not start
    with one are the same run. *)
Definition stops (p : ascii → bool) (r : string) : Prop :=
  match r with EmptyString => True | String c _ => p c = false end.

Lemma run_split p a b r t :
  all_chars p a = true → all_chars p b = true → stops p r → stops p t →
  a +:+ r = b +:+ t → a = b ∧ r = t.
Proof.
  revert b. induction a as [|x a IH]; intros [|y b]; simpl; intros Ha Hb Hr Ht H; bools.
  - done.
  - subst r. simpl in Hr. congruence.
  - subst t. simpl in Ht. congruence.
  - injection H as -> H. destruct (IH b) as [-> ->]; done.
Qed.

Definition num_char (c : ascii) : bool := is_digit c || Ascii.eqb c "-".

Lemma pretty_N_char_digit x : is_digit (pretty_N_char x) = true.
Proof. unfold pretty_N_char. by repeat case_match. Qed.

Lemma pretty_N_go_digits x s :
  all_chars is_digit s = true → all_chars is_digit (pretty_N_go x s) = true.
Proof.
  revert s. induction (N.lt_wf_0 x) as [x _ IH]; intros s Hs.
  destruct (decide (0 < x)%N) as [Hx|Hx].
  - rewrite pretty_N_go_step by done. apply IH.
    + apply N.div_lt; lia.
    + simpl. by rewrite pretty_N_char_digit.
  - assert (x = 0%N) as -> by lia. by rewrite pretty_N_go_0.
Qed.

Lemma str_int_chars n : all_chars num_char (str_int n) = true.
Proof.
  assert (∀ m : N, all_chars num_char (pretty m) = true) as HN.
  { intros m. unfold pretty, pretty_N. case_decide; [done|].
    eapply all_chars_impl; [|by apply pretty_N_go_digits].
    intros c Hc. unfold num_char. by rewrite Hc. }
  destruct n; unfold str_int, pretty, pretty_Z; [done|apply HN|].
  simpl. apply HN.
Qed.

Lemma str_int_inj n m : str_int n = str_int m → n = m.
Proof. apply (inj pretty). Qed.

Lemma str_int_nonempty n : str_int n ≠ "".
Proof.
  intros H. destruct (decide (n = 0)) as [->|Hn]; [done|].
  destruct n as [|p|p]; [done| |done].
  assert (pretty (N.pos p) ≠ "") as Hp; [|done].
  unfold pretty, pretty_N. case_decide; [done|].
  rewrite pretty_N_go_step by lia.
  intros E. assert (∀ x s, s ≠ "" → pretty_N_go x s ≠ "") as Hgo.
  { intros x. induction (N.lt_wf_0 x) as [x _ IH]; intros s Hs.
    destruct (decide (0 < x)%N).
    - rewrite pretty_N_go_step by done. apply IH; [apply N.div_lt; lia|done].
    - assert (x = 0%N) as -> by lia. by rewrite pretty_N_go_0. }
  by eapply Hgo in E.
Qed.

Lemma sorted_strings_perm l : sorted_strings l ≡ₚ l.
Proof. apply merge_sort_Permutation. Qed.

Lemma elem_of_sorted_strings x l : x ∈ sorted_strings l ↔ x ∈ l.
Proof. by rewrite sorted_strings_perm. Qed.

Lemma elem_of_fromkeys_aux x seen l :
  x ∈ fromkeys_aux seen l ↔ x ∈ l ∧ x ∉ seen.
Proof.
  revert seen. induction l as [|y l IH]; intros seen; simpl.
  { set_solver. }
  case_decide; [|rewrite elem_of_cons]; rewrite IH, ?elem_of_cons; [set_solver|].
  destruct (decide (x = y)); set_solver.
Qed.

Lemma elem_of_fromkeys x l : x ∈ fromkeys l ↔ x ∈ l.
Proof. unfold fromkeys. rewrite elem_of_fromkeys_aux. set_solver. Qed.

Lemma NoDup_fromkeys l : NoDup (fromkeys l).
Proof.
  unfold fromkeys. generalize (@nil string). induction l as [|y l IH]; intros seen; simpl.
  { constructor. }
  case_decide; [done|]. constructor; [|done].
  rewrite elem_of_fromkeys_aux. set_solver.
Qed.

Lemma fromkeys_aux_sublist seen l : fromkeys_aux seen l `sublist_of` l.
Proof.
  revert seen. induction l as [|y l IH]; intros seen; simpl; [constructor|].
  case_decide; by constructor.
Qed.

(** [len(set(l)) == len(l)] *)
Lemma fromkeys_length_NoDup l : length (fromkeys l) = length l → NoDup l.
Proof.
  intros Hl. assert (fromkeys l ≡ₚ l) as <-; [|apply NoDup_fromkeys].
  apply submseteq_length_Permutation; [|lia].
  apply sublist_submseteq, fromkeys_aux_sublist.
Qed.

(** A clock that starts at 2026-09-21 and ticks once a second, and tokens that
    count up: the surroundings the concrete runs use. *)
Definition sample_world : World := {|
  clock_at n := 1790000000000000 + Z.of_nat n * 1000000;
  token_at n := str_int (Z.of_nat n);
|}.

Lemma sample_tokens_inj : Inj (=) (=) (@token_at sample_world).
Proof. intros n m H%str_int_inj. lia. Qed.

(** ** Reading back what [str] wrote *)

Lemma digit_not_space c : is_digit c = true → is_space c = false.
Proof. by destruct c as [[] [] [] [] [] [] [] []]. Qed.

Lemma strip_digits s : all_chars is_digit s = true → strip s = s.
Proof.
  intros Hs. unfold strip.
  assert (lstrip_by is_space s = s) as ->.
  { destruct s as [|c s]; simpl in *; [done|]. bools. by rewrite digit_not_space. }
  induction s as [|c s IH]; simpl in *; [done|]. bools. rewrite IH by done.
  rewrite digit_not_space by done. by destruct s.
Qed.

Lemma pretty_N_char_value x : (x < 10)%N → digit_value (pretty_N_char x) = Z.of_N x.
Proof.
  intros Hx. assert (∃ m, x = N.of_nat m ∧ (m < 10)%nat) as (m & -> & Hm).
  { exists (N.to_nat x). lia. }
  do 10 (destruct m as [|m]; [reflexivity|]). lia.
Qed.

Lemma int_digits_pretty_go x s : int_digits 0 (pretty_N_go x s) = int_digits (Z.of_N x) s.
Proof.
  revert s. induction (N.lt_wf_0 x) as [x _ IH]; intros s.
  destruct (decide (0 < x)%N) as [Hx|Hx].
  - rewrite pretty_N_go_step, IH by (done || apply N.div_lt; lia). cbn [int_digits].
    rewrite pretty_N_char_digit, pretty_N_char_value by (by apply N.mod_lt). f_equal.
    rewrite (N.div_mod' x 10) at 3. lia.
  - assert (x = 0%N) as -> by lia. by rewrite pretty_N_go_0.
Qed.

Lemma str_int_of_N (n : N) : str_int (Z.of_N n) = pretty n.
Proof. destruct n as [|p]; [reflexivity|]. reflexivity. Qed.

Lemma pretty_N_digits (n : N) : all_chars is_digit (pretty n) = true.
Proof. unfold pretty, pretty_N. case_decide; [done|]. by apply pretty_N_go_digits. Qed.

Lemma int_of_str_int n : 0 <= n → int_of_string (str_int n) = Some n.
Proof.
  intros Hn. rewrite <- (Z2N.id n) by done. generalize (Z.to_N n). clear n Hn. intros n.
  rewrite str_int_of_N. pose proof (pretty_N_digits n) as Hd. unfold int_of_string.
  rewrite strip_digits by done.
  assert (int_digits 0 (pretty n) = Some (Z.of_N n)) as Hi.
  { unfold pretty, pretty_N. case_decide as Hz; [by rewrite Hz|]. by rewrite int_digits_pretty_go. }
  destruct (pretty n) as [|c s] eqn:E.
  { exfalso. apply (str_int_nonempty (Z.of_N n)). by rewrite str_int_of_N. }
  simpl in Hd. apply andb_true_iff in Hd as [Hc Hs]. cbn [int_digits] in Hi. rewrite Hc in Hi |- *.
  destruct (Ascii.eqb_spec c "-") as [->|]; [done|]. destruct (Ascii.eqb_spec c "+") as [->|]; [done|].
  done.
Qed.

Lemma pretty_go_length k : ∀ x s, (x < 10 ^ N.of_nat k)%N →
  (String.length (pretty_N_go x s) <= k + String.length s)%nat.
Proof.
  induction k as [|k IH]; intros x s Hx.
  - assert (x = 0%N) as -> by (simpl in Hx; lia). by rewrite pretty_N_go_0.
  - destruct (decide (0 < x)%N) as [H0|H0].
    + rewrite pretty_N_go_step by done. etrans; [apply IH|simpl; lia].
      apply N.Div0.div_lt_upper_bound. rewrite Nat2N.inj_succ, N.pow_succ_r' in Hx. lia.
    + assert (x = 0%N) as -> by lia. rewrite pretty_N_go_0. lia.
Qed.

Lemma str_int_length k n :
  0 <= n < 10 ^ Z.of_nat k → (String.length (str_int n) <= S k)%nat.
Proof.
  intros [H0 Hn]. rewrite <- (Z2N.id n) by done. rewrite str_int_of_N.
  unfold pretty, pretty_N. case_decide; [simpl; lia|].
  etrans; [apply (pretty_go_length k)|simpl; lia].
  rewrite <- (N2Z.id (_ ^ _)). apply Z2N.inj_lt; [done|lia|].
  rewrite N2Z.inj_pow. simpl. rewrite nat_N_Z. done.
Qed.

Lemma string_length_app a b : String.length (a +:+ b) = (String.length a + String.length b)%nat.
Proof. induction a as [|c a IH]; simpl; congruence. Qed.
