(* ===== verification/Json.v ===== *)
(** [json.dumps(value, sort_keys=True, separators=(",", ":"), ...)] and the
    fingerprints the components compute from it.

    [print] is the encoder on a value whose object members are already in
    order, [canon] puts them in order, [dumps] is their composition.  [print]
    is injective ([print_inj]), so a fingerprint identifies the canonical form
    of the value up to a collision of the digest ([fingerprint_inj]). *)

From S2P Require Import Prelude Sha256 PyStr.
From Stdlib Require Import NArith Ascii.

#[local] Arguments String.append !_ _ /.

Unset Elimination Schemes.
Inductive json :=
| JNull
| JBool (b : bool)
| JInt (z : Z)
| JStr (s : string)
| JArr (l : list json)
| JObj (l : list (string * json)).
Set Elimination Schemes.

Section JsonInd.
Context (P : json → Prop).
Context (Hnull : P JNull) (Hbool : ∀ b, P (JBool b)) (Hint : ∀ z, P (JInt z))
  (Hstr : ∀ s, P (JStr s)) (Harr : ∀ l, Forall P l → P (JArr l))
  (Hobj : ∀ l, Forall (λ kv, P (snd kv)) l → P (JObj l)).

Fixpoint json_ind (v : json) : P v :=
  match v with
  | JNull => Hnull
  | JBool b => Hbool b
  | JInt z => Hint z
  | JStr s => Hstr s
  | JArr l => Harr l ((fix go l : Forall P l :=
      match l with
      | [] => Forall_nil_2 _
      | x :: l' => Forall_cons_2 _ _ _ (json_ind x) (go l')
      end) l)
  | JObj l => Hobj l ((fix go l : Forall (λ kv, P (snd kv)) l :=
      match l with
      | [] => Forall_nil_2 _
      | x :: l' => Forall_cons_2 _ _ _ (json_ind (snd x)) (go l')
      end) l)
  end.
End JsonInd.

(** ** Strings *)

Definition backslash : ascii := ascii_of_nat 92.

(** [\u00XX] *)
Definition u_escape (n : N) : string :=
  String backslash (String "u" (String "0" (String "0"
    (String (hex_digit (N.shiftr n 4)) (String (hex_digit (N.land n 15)) EmptyString))))).

Definition short_escape (c : ascii) : string := String backslash (String c EmptyString).

(** One character of a JSON string.  [ea] is [ensure_ascii]: with it every
    character outside the printable ASCII range is escaped, without it the
    control characters only. *)
Definition esc (ea : bool) (c : ascii) : string :=
  let n := N_of_ascii c in
  if (n =? 34)%N then short_escape quote_char
  else if (n =? 92)%N then short_escape backslash
  else if (n =? 10)%N then short_escape "n"
  else if (n =? 13)%N then short_escape "r"
  else if (n =? 9)%N then short_escape "t"
  else if (n =? 12)%N then short_escape "f"
  else if (n =? 8)%N then short_escape "b"
  else if (n <? 32)%N then u_escape n
  else if ea && (126 <? n)%N then u_escape n
  else String c EmptyString.

Fixpoint escape (ea : bool) (s : string) : string :=
  match s with
  | EmptyString => EmptyString
  | String c s' => esc ea c +:+ escape ea s'
  end.

Definition quoted (ea : bool) (s : string) : string :=
  String quote_char (escape ea s +:+ String quote_char EmptyString).

(** ** Values *)

Section Print.
Context (ea : bool).

Fixpoint print (v : json) : string :=
  match v with
  | JNull => "null"
  | JBool b => if b then "true" else "false"
  | JInt z => str_int z
  | JStr s => quoted ea s
  | JArr [] => "[]"
  | JArr (v :: l) =>
      "[" +:+ print v +:+
      (fix tail l := match l with
        | [] => "]"
        | v :: l' => "," +:+ print v +:+ tail l'
        end) l
  | JObj [] => "{}"
  | JObj ((k, v) :: l) =>
      "{" +:+ quoted ea k +:+ ":" +:+ print v +:+
      (fix tail l := match l with
        | [] => "}"
        | (k, v) :: l' => "," +:+ quoted ea k +:+ ":" +:+ print v +:+ tail l'
        end) l
  end.
End Print.

(** Members in the order of their keys. *)
Definition key_le {A} (x y : string * A) : Prop := String.le x.1 y.1.
#[export] Instance key_le_dec {A} : RelDecision (@key_le A).
Proof. intros x y. unfold key_le. apply _. Defined.

Fixpoint canon (v : json) : json :=
  match v with
  | JArr l => JArr (map canon l)
  | JObj l => JObj (merge_sort key_le (map (λ kv, (kv.1, canon kv.2)) l))
  | _ => v
  end.

Definition dumps (ea : bool) (v : json) : string := print ea (canon v).

(** The bytes that are hashed, and the digest. *)
Definition json_bytes (ea : bool) (v : json) : list N := encode (dumps ea v).

Section Fingerprint.
Context {D : Digest}.

(** [_fingerprint] of retention.py, sync.py and recovery.py. *)
Definition fingerprint (v : json) : string := sha256_hex (json_bytes true v).
End Fingerprint.

(** ** [print] is injective *)

(** Reading one character back from its escape. *)
Definition unhex (c : ascii) : N :=
  let n := N_of_ascii c in if (n <? 58)%N then (n - 48)%N else (n - 87)%N.

Definition unesc (s : string) : option (ascii * string) :=
  match s with
  | String c s' =>
      if Ascii.eqb c backslash then
        match s' with
        | String d r =>
            if Ascii.eqb d "u" then
              match r with
              | String _ (String _ (String x (String y r'))) =>
                  Some (ascii_of_N (16 * unhex x + unhex y), r')
              | _ => None
              end
            else if Ascii.eqb d "n" then Some (ascii_of_N 10, r)
            else if Ascii.eqb d "r" then Some (ascii_of_N 13, r)
            else if Ascii.eqb d "t" then Some (ascii_of_N 9, r)
            else if Ascii.eqb d "f" then Some (ascii_of_N 12, r)
            else if Ascii.eqb d "b" then Some (ascii_of_N 8, r)
            else Some (d, r)
        | EmptyString => None
        end
      else if Ascii.eqb c quote_char then None
      else Some (c, s')
  | EmptyString => None
  end.

Lemma unesc_esc ea c r : unesc (esc ea c +:+ r) = Some (c, r).
Proof. destruct c as [[] [] [] [] [] [] [] []], ea; reflexivity. Qed.

Lemma unesc_quote r : unesc (String quote_char r) = None.
Proof. reflexivity. Qed.

Lemma escape_split ea s t r q :
  escape ea s +:+ String quote_char r = escape ea t +:+ String quote_char q →
  s = t ∧ r = q.
Proof.
  revert t. induction s as [|c s IH]; intros [|d t]; simpl; intros H.
  - by simplify_eq.
  - apply (f_equal unesc) in H. rewrite string_app_assoc, unesc_esc in H. done.
  - apply (f_equal unesc) in H. rewrite string_app_assoc, unesc_esc in H. done.
  - rewrite !string_app_assoc in H. apply (f_equal unesc) in H.
    rewrite !unesc_esc in H. injection H as -> H. apply IH in H as [-> ->]. done.
Qed.

Lemma quoted_split ea s t r q :
  quoted ea s +:+ r = quoted ea t +:+ q → s = t ∧ r = q.
Proof.
  unfold quoted. simpl. rewrite !string_app_assoc. simpl. intros H. simplify_eq.
  by eapply escape_split.
Qed.

#[global] Arguments quoted : simpl never.

(** What may follow a value: nothing that would extend a number. *)
Abbreviation closes := (stops num_char).

Lemma str_int_head z : ∃ c s, str_int z = String c s ∧ num_char c = true.
Proof.
  pose proof (str_int_chars z) as H. pose proof (str_int_nonempty z).
  destruct (str_int z) as [|c s]; [done|]. simpl in H. bools. by exists c, s.
Qed.

(** The first character of a printed value tells its constructor. *)
Definition lead (s : string) : option ascii :=
  match s with EmptyString => None | String c _ => Some c end.

Definition kind (v : json) : nat :=
  match v with
  | JNull => 0 | JBool true => 1 | JBool false => 2 | JInt _ => 3
  | JStr _ => 4 | JArr _ => 5 | JObj _ => 6
  end%nat.

Definition kind_of_lead (c : ascii) : nat :=
  if num_char c then 3%nat else
  match nat_of_ascii c with
  | 110 => 0 | 116 => 1 | 102 => 2 | 34 => 4 | 91 => 5 | 123 => 6 | _ => 7
  end%nat.

Lemma print_lead ea v r : ∃ c, lead (print ea v +:+ r) = Some c ∧ kind_of_lead c = kind v.
Proof.
  destruct v as [|[]|z|s|[]|[|[]]]; try (eexists; split; reflexivity).
  simpl print. destruct (str_int_head z) as (c & s & -> & Hc).
  exists c. unfold kind_of_lead. by rewrite Hc.
Qed.

Lemma print_kind ea v w r q : print ea v +:+ r = print ea w +:+ q → kind v = kind w.
Proof.
  intros H. destruct (print_lead ea v r) as (c & Hc & <-).
  destruct (print_lead ea w q) as (d & Hd & <-). rewrite H in Hc. congruence.
Qed.

(** The tail of an array and of an object, as functions of their own. *)
Fixpoint arr_tail (ea : bool) (l : list json) : string :=
  match l with [] => "]" | v :: l' => "," +:+ print ea v +:+ arr_tail ea l' end.
Fixpoint obj_tail (ea : bool) (l : list (string * json)) : string :=
  match l with
  | [] => "}"
  | (k, v) :: l' => "," +:+ quoted ea k +:+ ":" +:+ print ea v +:+ obj_tail ea l'
  end.

Lemma print_arr ea v l : print ea (JArr (v :: l)) = "[" +:+ print ea v +:+ arr_tail ea l.
Proof.
  cbn [print]. do 2 f_equal. induction l as [|w l IH]; [done|].
  cbn [arr_tail]. by rewrite <- IH.
Qed.

Lemma print_obj ea k v l :
  print ea (JObj ((k, v) :: l)) =
  "{" +:+ quoted ea k +:+ ":" +:+ print ea v +:+ obj_tail ea l.
Proof.
  cbn [print]. do 4 f_equal. induction l as [|[k' w] l IH]; [done|].
  cbn [obj_tail]. by rewrite <- IH.
Qed.

Lemma arr_tail_closes ea l r : closes (arr_tail ea l +:+ r).
Proof. by destruct l. Qed.
Lemma obj_tail_closes ea l r : closes (obj_tail ea l +:+ r).
Proof. by destruct l as [|[]]. Qed.

(** [v] can be read back whatever follows it. *)
Definition splits (ea : bool) (v : json) : Prop := ∀ w r q,
  closes r → closes q → print ea v +:+ r = print ea w +:+ q → v = w ∧ r = q.

Lemma arr_tail_split ea l : Forall (splits ea) l → ∀ l' r q,
  arr_tail ea l +:+ r = arr_tail ea l' +:+ q → l = l' ∧ r = q.
Proof.
  induction 1 as [|v l Hv _ IH]; intros [|w l'] r q H; simpl in H; simplify_eq; [done|].
  rewrite !string_app_assoc in H.
  apply Hv in H as [-> H]; [|apply arr_tail_closes..].
  apply IH in H as [-> ->]. done.
Qed.

Lemma obj_tail_split ea l : Forall (λ kv, splits ea kv.2) l → ∀ l' r q,
  obj_tail ea l +:+ r = obj_tail ea l' +:+ q → l = l' ∧ r = q.
Proof.
  induction 1 as [|[k v] l Hv _ IH]; intros [|[k' w] l'] r q H; cbn [obj_tail] in H;
    [by simplify_eq/=|by simplify_eq/=|by simplify_eq/=|].
  cbn [snd] in Hv. rewrite !string_app_assoc in H.
  apply string_app_inv_l, quoted_split in H as [-> H]. apply string_app_inv_l, Hv in H as [-> H]; [|apply obj_tail_closes..].
  apply IH in H as [-> ->]. done.
Qed.

Lemma print_splits ea v : splits ea v.
Proof.
  induction v as [|b|z|s|l IH|l IH] using json_ind; intros w r q Hr Hq H;
    pose proof (print_kind _ _ _ _ _ H) as Hk;
    destruct w as [|b'|z'|s'|l'|l'];
    try (destruct b); try (destruct b'); try discriminate Hk; clear Hk.
  - simpl in H. by simplify_eq.
  - simpl in H. by simplify_eq.
  - simpl in H. by simplify_eq.
  - simpl print in H. apply (run_split num_char) in H as [->%str_int_inj ->];
      auto using str_int_chars.
  - simpl print in H. by apply quoted_split in H as [-> ->].
  - destruct l as [|v l], l' as [|w l']; rewrite ?print_arr in H.
    + simpl in H. by simplify_eq.
    + destruct (print_lead ea w (arr_tail ea l' +:+ q)) as (c & Hc & Hcw).
      simpl in H. injection H as H. rewrite string_app_assoc in H. rewrite <- H in Hc.
      injection Hc as <-. by destruct w as [|[]| | | |].
    + destruct (print_lead ea v (arr_tail ea l +:+ r)) as (c & Hc & Hcw).
      simpl in H. injection H as H. rewrite string_app_assoc in H. rewrite H in Hc.
      injection Hc as <-. by destruct v as [|[]| | | |].
    + simpl in H. injection H as H. rewrite !string_app_assoc in H.
      inversion IH as [|?? Hv Hl]; subst.
      apply Hv in H as [-> H]; [|apply arr_tail_closes..].
      apply (arr_tail_split ea l Hl) in H as [-> ->]. done.
  - destruct l as [|[k v] l], l' as [|[k' w] l']; rewrite ?print_obj in H;
      [by simplify_eq/=|by simplify_eq/=|by simplify_eq/=|].
    rewrite !string_app_assoc in H. apply string_app_inv_l, quoted_split in H as [-> H].
    apply string_app_inv_l in H.
    inversion IH as [|?? Hv Hl]; subst. cbn [snd] in Hv.
    apply Hv in H as [-> H]; [|apply obj_tail_closes..].
    apply (obj_tail_split ea l Hl) in H as [-> ->]. done.
Qed.

Lemma print_inj ea v w : print ea v = print ea w → v = w.
Proof.
  intros H. apply (print_splits ea v w "" ""); [done..|]. by rewrite !string_app_nil_r.
Qed.

(** ** UTF-8 is injective *)

Definition un_utf8 (bs : list N) : option (ascii * list N) :=
  match bs with
  | b :: bs' =>
      if (b <? 128)%N then Some (ascii_of_N b, bs')
      else match bs' with
           | b' :: r => Some (ascii_of_N (64 * (b - 192) + (b' - 128)), r)
           | [] => None
           end
  | [] => None
  end.

Lemma un_utf8_char c r : un_utf8 (utf8_char c ++ r) = Some (c, r).
Proof. destruct c as [[] [] [] [] [] [] [] []]; reflexivity. Qed.

Lemma encode_inj s t : encode s = encode t → s = t.
Proof.
  revert t. induction s as [|c s IH]; intros [|d t]; cbn [encode]; intros H; [done| | |].
  - apply (f_equal un_utf8) in H. by rewrite un_utf8_char in H.
  - apply (f_equal un_utf8) in H. by rewrite un_utf8_char in H.
  - apply (f_equal un_utf8) in H. rewrite !un_utf8_char in H. simplify_eq. f_equal. by apply IH.
Qed.

Lemma json_bytes_inj ea v w : json_bytes ea v = json_bytes ea w → canon v = canon w.
Proof. intros H%encode_inj. by apply print_inj in H. Qed.

(** Equal fingerprints mean equal canonical values, or a collision. *)
Lemma fingerprint_inj {D : Digest} v w :
  fingerprint v = fingerprint w →
  canon v = canon w ∨ collision (json_bytes true v) (json_bytes true w).
Proof.
  intros H. destruct (decide (json_bytes true v = json_bytes true w)) as [E|E].
  - left. by eapply json_bytes_inj.
  - right. by split.
Qed.

(** ** Shorthands for the values that are fingerprinted *)

Definition JOpt (o : option string) : json :=
  match o with Some s => JStr s | None => JNull end.

Lemma JOpt_inj o o' : JOpt o = JOpt o' → o = o'.
Proof. by destruct o, o'; intros [=]; subst. Qed.

(** [repr] of a string without quotes, backslashes and unprintable characters,
    the only strings the program's dataclasses hold. *)
Definition repr_str (s : string) : string := "'" +:+ s +:+ "'".
Definition repr_opt (o : option string) : string :=
  match o with Some s => repr_str s | None => "None" end.
Definition repr_bool (b : bool) : string := if b then "True" else "False".

(** [repr] of a tuple of strings. *)
Definition repr_tuple (l : list string) : string :=
  match l with
  | [x] => "(" +:+ repr_str x +:+ ",)"
  | _ => "(" +:+ String.concat ", " (map repr_str l) +:+ ")"
  end.

(** A version argument: an integer, or the string ["*"]. *)
Definition json_of (v : pyobj) : json :=
  match v with
  | PyNone => JNull
  | PyBool b => JBool b
  | PyInt z => JInt z
  | PyStr s => JStr s
  | PyOther => JNull
  end.

(** [expected_version != "*" and (not an int, a bool, or < 1)], negated *)
Definition version_arg_ok (v : pyobj) : bool :=
  match v with
  | PyStr s => String.eqb s "*"
  | PyInt z => (1 <=? z)%Z
  | _ => false
  end.

(** [version == expected_version] *)
Definition version_is (v : Z) (expected : pyobj) : bool := bool_decide (PyInt v = expected).

Lemma json_of_inj v v' :
  version_arg_ok v = true → version_arg_ok v' = true → json_of v = json_of v' → v = v'.
Proof. by destruct v, v'; simpl; intros; simplify_eq. Qed.

Example dumps_sorted :
  dumps true (JObj [("b", JArr [JInt (-12); JNull; JBool true]); ("a", JStr "x")]) =
  "{" +:+ quoted true "a" +:+ ":" +:+ quoted true "x" +:+ "," +:+ quoted true "b" +:+
  ":[-12,null,true]}".
Proof. reflexivity. Qed.

(** Objects with one canonical form have the same members, up to theirs. *)
Lemma canon_obj_member l l' k v :
  canon (JObj l) = canon (JObj l') → (k, v) ∈ l → ∃ v', (k, v') ∈ l' ∧ canon v' = canon v.
Proof.
  simpl. intros [= Hm] Hin.
  assert ((k, canon v) ∈ map (λ kv, (kv.1, canon kv.2)) l') as Hin'.
  { rewrite <- (merge_sort_Permutation key_le), <- Hm, (merge_sort_Permutation key_le).
    apply list_elem_of_fmap. by exists (k, v). }
  apply list_elem_of_fmap in Hin' as ([k' v'] & [= -> Hv] & Hin'). by exists v'.
Qed.
