(* ===== verification/HashChain.v ===== *)
(** Hash-chained audit logs.

    retention.py, recovery.py and audit.py each append events that carry the
    hash of the event before them and the hash of their own content.  What the
    three logs have in common is the interface [Chained]; the theorems about
    chains are proved here once and each log is an instance. *)

From S2P Require Import Prelude Sha256 PyStr Json.
From Stdlib Require Import NArith.

(** ["0" * 64], the hash before the first event. *)
Definition GENESIS_HASH : string :=
  "0000000000000000000000000000000000000000000000000000000000000000".

Class Chained (E : Type) := {
  (** the hash of the event before *)
  ev_previous : E → string;
  (** the hash the event carries *)
  ev_hash : E → string;
  (** what is hashed, the previous hash included *)
  ev_payload : E → json;
  (** [ensure_ascii] of the encoder *)
  ev_ascii : bool;
}.

(** Two events with the same content and hash are the same event. *)
Class ChainedInj (E : Type) `{Chained E} :=
  ev_inj : ∀ e e' : E,
    canon (ev_payload e) = canon (ev_payload e') → ev_hash e = ev_hash e' → e = e'.

Section Chain.
Context {D : Digest} {E : Type} `{!Chained E}.

Definition ev_bytes (e : E) : list N := json_bytes ev_ascii (ev_payload e).

(** [prev] is the hash before the first event of the list. *)
Fixpoint chain_from (prev : string) (es : list E) : Prop :=
  match es with
  | [] => True
  | e :: es' =>
      ev_previous e = prev ∧ ev_hash e = sha256_hex (ev_bytes e) ∧
      chain_from (ev_hash e) es'
  end.

Definition chain_ok (es : list E) : Prop := chain_from GENESIS_HASH es.

(** [self._events[-1].event_hash if self._events else GENESIS_HASH] *)
Definition head_hash (es : list E) : string :=
  match last es with Some e => ev_hash e | None => GENESIS_HASH end.

Definition head_from (prev : string) (es : list E) : string :=
  match last es with Some e => ev_hash e | None => prev end.

Lemma head_from_cons prev e es : head_from prev (e :: es) = head_from (ev_hash e) es.
Proof.
  unfold head_from. destruct es as [|e' es]; [done|].
  change (last (e :: e' :: es)) with (last (e' :: es)).
  destruct (last (e' :: es)) eqn:Hl; [done|]. by apply last_None in Hl.
Qed.

Lemma chain_from_app prev es es' :
  chain_from prev (es ++ es') ↔ chain_from prev es ∧ chain_from (head_from prev es) es'.
Proof.
  revert prev. induction es as [|e es IH]; intros prev.
  { simpl. unfold head_from. simpl. tauto. }
  rewrite head_from_cons. simpl. rewrite IH. tauto.
Qed.

(** Appending an event made for the current head keeps the chain. *)
Lemma chain_snoc es e :
  chain_ok es → ev_previous e = head_hash es → ev_hash e = sha256_hex (ev_bytes e) →
  chain_ok (es ++ [e]).
Proof. intros. apply chain_from_app. by repeat split. Qed.

(** A prefix of a chain is a chain. *)
Lemma chain_prefix es es' : chain_ok (es ++ es') → chain_ok es.
Proof. unfold chain_ok. rewrite chain_from_app. tauto. Qed.

(** Position [i] holds two contents with one digest. *)
Definition collision_at (i : nat) (es es' : list E) : Prop :=
  ∃ e e', es !! i = Some e ∧ es' !! i = Some e' ∧ collision (ev_bytes e) (ev_bytes e').

(** Two chains of one length with one head have the same contents, unless some
    position exhibits a digest collision. *)
Lemma chain_contents_unique es :
  (∀ e e' : E, canon (ev_payload e) = canon (ev_payload e') → ev_previous e = ev_previous e') →
  ∀ prev prev' es',
  length es = length es' → chain_from prev es → chain_from prev' es' →
  head_from prev es = head_from prev' es' →
  (∀ i, ¬ collision_at i es es') →
  map (λ e, canon (ev_payload e)) es = map (λ e, canon (ev_payload e)) es' ∧
  (es ≠ [] → prev = prev').
Proof.
  intros Hprev. induction es as [|e es IH]; intros prev prev' [|e' es'] Hl Hc Hc' Hh Hnc;
    try discriminate Hl; [done|].
  destruct Hc as (Hp & He & Hc), Hc' as (Hp' & He' & Hc').
  rewrite !head_from_cons in Hh. injection Hl as Hl.
  destruct (IH _ _ es' Hl Hc Hc' Hh) as [Hes Hhash].
  { intros i (x & y & Hx & Hy & Hxy). apply (Hnc (S i)). by exists x, y. }
  assert (ev_hash e = ev_hash e') as Hee.
  { destruct es; [|by apply Hhash]. destruct es'; [|done]. exact Hh. }
  destruct (decide (ev_bytes e = ev_bytes e')) as [Hb|Hb].
  - apply json_bytes_inj in Hb. split; [simpl; congruence|]. intros _. rewrite <- Hp, <- Hp'. auto.
  - exfalso. apply (Hnc 0%nat). exists e, e'. repeat split; congruence.
Qed.

Context `{!ChainedInj E}.

Lemma chain_from_unique es : ∀ prev prev' es',
  length es = length es' → chain_from prev es → chain_from prev' es' →
  head_from prev es = head_from prev' es' →
  (∀ i, ¬ collision_at i es es') →
  es = es' ∧ prev = prev' ∨ es = [] .
Proof.
  induction es as [|e es IH]; intros prev prev' [|e' es'] Hl Hc Hc' Hh Hnc;
    try discriminate Hl; [by right|left].
  destruct Hc as (Hp & He & Hc), Hc' as (Hp' & He' & Hc').
  rewrite !head_from_cons in Hh. injection Hl as Hl.
  assert (es = es' ∧ ev_hash e = ev_hash e') as [-> Hee].
  { destruct (IH (ev_hash e) (ev_hash e') es') as [|Hnil]; [done..| | |].
    - intros i (x & y & Hx & Hy & Hxy). apply (Hnc (S i)). by exists x, y.
    - done.
    - subst es. by destruct es'. }
  destruct (decide (ev_bytes e = ev_bytes e')) as [Hb|Hb].
  - apply json_bytes_inj in Hb. apply ev_inj in Hb; [|done].
    subst e'. split; congruence.
  - exfalso. apply (Hnc 0%nat). exists e, e'. repeat split; congruence.
Qed.

(** Tamper evidence: two chains of one length with one head are the same
    chain, unless some position exhibits a digest collision. *)
Lemma chain_tamper_evident es es' :
  chain_ok es → chain_ok es' → length es = length es' →
  head_hash es = head_hash es' →
  (∀ i, ¬ collision_at i es es') → es = es'.
Proof.
  intros Hc Hc' Hl Hh Hnc.
  destruct (chain_from_unique es _ _ es' Hl Hc Hc' Hh Hnc) as [[]|Hnil]; [done|].
  subst es. by destruct es'.
Qed.
End Chain.
