(* ===== verification/Scoped.v ===== *)
(** Tables of objects that belong to a tenant and workspace.

    Each service keeps its objects in a table under identifiers it drew from
    [secrets], and looks an object up for a caller only when the scopes agree.
    What follows from that, isolation of the callers, is proved here once:
    a service shows that a call is [confined] to the objects of its caller and
    to identifiers drawn by the call. *)

From S2P Require Import Prelude Sha256 PyStr.
#[local] Open Scope Z_scope.

Section Scoped.
Context {W : World} {T : Type} {Dr : Drawing T} {V C : Type}.
(** Whether the object is visible to the caller, the prefix of the identifiers
    of the table, and the table. *)
Context (in_scope : V → C → bool) (prefix : string) (table : T → gmap string V).

(** [k] is an object of the caller. *)
Definition own (c : C) (s : T) (k : string) : Prop :=
  ∃ v, table s !! k = Some v ∧ in_scope v c = true.

Definition drawn_id (n : nat) : string := prefix +:+ "-" +:+ token_at n.

(** [k] was drawn between [s] and [s']. *)
Definition fresh (s s' : T) (k : string) : Prop :=
  ∃ n, (tokens (draws_of s) <= n < tokens (draws_of s'))%nat ∧ k = drawn_id n.

(** What a call by [c] may change. *)
Record confined (c : C) (s s' : T) : Prop := {
  cf_tokens : (tokens (draws_of s) <= tokens (draws_of s'))%nat;
  cf_table : changed_only (λ k, own c s k ∨ fresh s s' k) (table s) (table s')
}.

(** Every identifier of the table was drawn. *)
Definition ids_drawn (s : T) : Prop :=
  ∀ k v, table s !! k = Some v → ∃ n, (n < tokens (draws_of s))%nat ∧ k = drawn_id n.

Lemma confined_ids_drawn c s s' : confined c s s' → ids_drawn s → ids_drawn s'.
Proof.
  intros [Hle Hch] Hm k v Hk. destruct (Hch k) as [Heq|[(v0 & Hv0 & _)|(n & [_ Hn] & ->)]].
  - rewrite Heq in Hk. destruct (Hm _ _ Hk) as (n & ? & ->). exists n. split; [lia|done].
  - destruct (Hm _ _ Hv0) as (n & ? & ->). exists n. split; [lia|done].
  - by exists n.
Qed.

Context (token_inj : Inj (=) (=) token_at).

Lemma drawn_id_inj n m : drawn_id n = drawn_id m → n = m.
Proof. intros H. by apply token_inj, (string_app_inv_l "-"), (string_app_inv_l prefix). Qed.

(** The next identifier is not in the table. *)
Lemma next_id_new s n :
  ids_drawn s → (tokens (draws_of s) <= n)%nat → table s !! drawn_id n = None.
Proof.
  intros Hm Hn. destruct (table s !! _) eqn:E; [|done].
  apply Hm in E as (m & ? & <-%drawn_id_inj). lia.
Qed.

(** A call does not change the objects outside its caller's scope. *)
Lemma confined_others c s s' k v :
  confined c s s' → ids_drawn s →
  table s !! k = Some v → in_scope v c = false → table s' !! k = Some v.
Proof.
  intros [_ Hch] Hm Hk Hs. eapply changed_only_lookup; [done..|].
  intros [(v' & Hv' & Hs')|(n & Hn & ->)]; [congruence|].
  destruct (Hm _ _ Hk) as (n' & Hn' & ->%drawn_id_inj). lia.
Qed.
End Scoped.

Arguments own {T V C} in_scope table c s k /.

(** Prove [confined] for a state reached by symbolic execution. *)
Ltac confine :=
  split; simpl in *;
  [ lia | repeat apply changed_only_insert; try apply changed_only_refl ];
  try (by (left; eexists; split; eassumption)); try (right; eexists; split; [|done]; simpl; lia).

(** ** Objects are never removed *)

Section Grown.
Context {V : Type} (same : V → V → Prop) `{!Reflexive same}.

(** Every object of [m] is still in [m'], related by [same]. *)
Definition grown (m m' : gmap string V) : Prop :=
  ∀ k v, m !! k = Some v → ∃ v', m' !! k = Some v' ∧ same v v'.

Lemma grown_refl m : grown m m.
Proof. intros k v Hv. by exists v. Qed.

#[export] Instance grown_preorder `{!Transitive same} : PreOrder grown.
Proof.
  split; [intros m k v Hv; by exists v|].
  intros m1 m2 m3 H12 H23 k v (v2 & H2 & ?)%H12.
  destruct (H23 _ _ H2) as (v3 & ? & ?). exists v3. split; [done|by etrans].
Qed.

Lemma grown_update m k v v' : m !! k = Some v → same v v' → grown m (<[k := v']> m).
Proof.
  intros Hk Hc k' v0 Hv0. destruct (decide (k = k')) as [<-|].
  - exists v'. rewrite lookup_insert_eq. simplify_eq. by split.
  - exists v0. by rewrite lookup_insert_ne.
Qed.

Lemma grown_new m k v : m !! k = None → grown m (<[k := v]> m).
Proof.
  intros Hk k' v0 Hv0. exists v0. rewrite lookup_insert_ne; [done|]. congruence.
Qed.

Lemma grown_lookup m m' k v : grown m m' → m !! k = Some v → ∃ v', m' !! k = Some v' ∧ same v v'.
Proof. intros H. apply H. Qed.
End Grown.
