(* ===== verification/Retention.v ===== *)
(** Deletion requests, retention and Legal Hold (retention.py).

    The whole in-memory service: the repository is the record [Repo], the
    cleanup port is part of it, and each method of [RetentionService] is a
    computation on it.  A request object of the program is shared between the
    repository and the method that changes it; here a method writes the changed
    record back under its identifier, at the point where the program mutates
    it, so that an exception finds the store as the program leaves it.

    Theorems: what a purge needs before it touches anything
    ([purge_touches_only_when_due]); the state of a request in every reachable
    store ([reachable_requests_wf]); the audit log is a hash chain
    ([retention_audit_chained]) and tamper evident; a caller cannot touch the
    requests of another workspace ([other_workspaces_untouched]); an
    idempotency key replays or is refused ([cancel_replay]). *)

From S2P Require Import Prelude Sha256 PyStr Json HashChain Scoped.
#[local] Open Scope Z_scope.

(** ** Data *)

Definition KINDS : gset string :=
  {[ "original_content"; "index"; "preview"; "cache"; "known_local_copy"; "sync_reference" ]}.

Definition RetentionError (code : string) (status : Z) : exn := Raised code status false.

Record RetentionContext := mkContext {
  ctx_tenant_id : string;
  ctx_workspace_id : string;
  ctx_actor_id : string;
  ctx_trace_id : string;
  ctx_policy_version : string;
  ctx_organization_admin : bool
}.

(** [RetentionContext.__post_init__] *)
Definition context_valid (c : RetentionContext) : bool :=
  safe_id (ctx_tenant_id c) && safe_id (ctx_workspace_id c) && safe_id (ctx_actor_id c) &&
  safe_id (ctx_trace_id c) && safe_id (ctx_policy_version c).

Definition make_context (t w a tr p : string) (admin : bool) : outcome RetentionContext :=
  let c := mkContext t w a tr p admin in
  if context_valid c then Ret c else Raise (RetentionError "RETENTION_INPUT_INVALID" 400).

Record DerivativeInput := mkDerivative {
  di_kind : string;
  di_reference_id : string;
  di_acknowledgement_required : bool;
  di_disposition : string
}.

Definition DISPOSITIONS : gset string :=
  {[ "present"; "not_present"; "not_applicable"; "verification_pending" ]}.

(** [DerivativeInput.__post_init__], in the order of its checks. *)
Definition make_derivative (kind ref : string) (ack : bool) (disposition : string)
    : outcome DerivativeInput :=
  if negb (bool_decide (kind ∈ KINDS)) then Raise (RetentionError "RETENTION_DERIVATIVE_INVALID" 400)
  else if negb (safe_id ref) then Raise (RetentionError "RETENTION_INPUT_INVALID" 400)
  else if negb (Bool.eqb ack (String.eqb kind "known_local_copy")) then
    Raise (RetentionError "RETENTION_DERIVATIVE_INVALID" 400)
  else if negb (bool_decide (disposition ∈ DISPOSITIONS)) then
    Raise (RetentionError "RETENTION_DERIVATIVE_INVALID" 400)
  else Ret (mkDerivative kind ref ack disposition).

Definition derivative_valid (d : DerivativeInput) : Prop :=
  make_derivative (di_kind d) (di_reference_id d) (di_acknowledgement_required d)
    (di_disposition d) = Ret d.

Record CleanupItemView := mkCleanupItemView {
  civ_kind : string;
  civ_reference_id : string;
  civ_state : string;
  civ_attempt_count : Z;
  civ_evidence : option string
}.

Record DeletionRequestView := mkDeletionRequestView {
  drv_request_id : string;
  drv_tenant_id : string;
  drv_workspace_id : string;
  drv_source_id : string;
  drv_state : string;
  drv_version : Z;
  drv_requested_at : Z;
  drv_grace_until : Z;
  drv_source_active : bool;
  drv_cleanup_items : list CleanupItemView;
  drv_completed_references : list string;
  drv_source_version_mutations : Z
}.

(** [DeletionRequestView.etag] *)
Definition deletion_etag (v : DeletionRequestView) : string :=
  dquoted ("deletion:" +:+ drv_request_id v +:+ ":" +:+ str_int (drv_version v)).

Record LegalHoldView := mkLegalHoldView {
  lhv_hold_id : string;
  lhv_tenant_id : string;
  lhv_workspace_id : string;
  lhv_source_id : string;
  lhv_state : string;
  lhv_version : Z
}.

(** [LegalHoldView.etag] *)
Definition hold_etag (v : LegalHoldView) : string :=
  dquoted ("legal-hold:" +:+ lhv_hold_id v +:+ ":" +:+ str_int (lhv_version v)).

Record CleanupItem := mkCleanupItem {
  ci_value : DerivativeInput;
  ci_state : string;
  ci_attempts : Z;
  ci_evidence : option string
}.

Record DeletionRequest := mkDeletionRequest {
  dr_request_id : string;
  dr_context : RetentionContext;
  dr_source_id : string;
  dr_requested_at : Z;
  dr_grace_until : Z;
  dr_inventory : list (string * CleanupItem);
  dr_state : string;
  dr_version : Z;
  dr_source_active : bool;
  dr_purge_started : bool
}.

Record LegalHold := mkLegalHold {
  lh_hold_id : string;
  lh_context : RetentionContext;
  lh_source_id : string;
  lh_state : string;
  lh_version : Z
}.

(** One entry of [repository.audit], the dict built by [_audit]. *)
Record AuditEntry := mkAuditEntry {
  ae_request_id : string;
  ae_actor_id : string;
  ae_action : string;
  ae_target : string;
  ae_timestamp : string;
  ae_policy_version : string;
  ae_trace_id : string;
  ae_previous_hash : string;
  ae_event_hash : string
}.

(** What [minimal_lineage] returns. *)
Record LineageEvent := mkLineageEvent {
  le_actor : string;
  le_action : string;
  le_target : string;
  le_timestamp : string;
  le_policy_version : string;
  le_trace_id : string;
  le_event_hash : string;
  le_previous_hash : string
}.

Record Lineage := mkLineage {
  lin_request_id : string;
  lin_retention_years : Z;
  lin_events : list LineageEvent
}.

Definition lineage_event (e : AuditEntry) : LineageEvent :=
  mkLineageEvent (ae_actor_id e) (ae_action e) (ae_target e) (ae_timestamp e)
    (ae_policy_version e) (ae_trace_id e) (ae_event_hash e) (ae_previous_hash e).

(** [ReferenceCleanupPort] *)
Record CleanupPort := mkCleanupPort {
  cp_fail_references : gset string;
  cp_attempt_count : Z;
  cp_attempts_by_reference : gmap string Z
}.

(** [ReferenceRetentionRepository], the port, and what was drawn so far. *)
Record Repo := mkRepo {
  requests : gmap string DeletionRequest;
  source_requests : gmap (string * string * string) string;
  source_scopes : gmap (string * string) string;
  holds : gmap string LegalHold;
  idempotency : gmap (string * string * string) (string * string);
  attempts : list (string * string * string * Z * string);
  audit : list AuditEntry;
  port : CleanupPort;
  draws : Draws
}.

Definition empty_repo (p : CleanupPort) : Repo := mkRepo ∅ ∅ ∅ ∅ ∅ [] [] p (mkDraws 0 0).

Definition set_requests (v : gmap string DeletionRequest) (r : Repo) : Repo :=
  mkRepo v (source_requests r) (source_scopes r) (holds r) (idempotency r) (attempts r) (audit r) (port r) (draws r).
Definition set_source_requests (v : gmap (string * string * string) string) (r : Repo) : Repo :=
  mkRepo (requests r) v (source_scopes r) (holds r) (idempotency r) (attempts r) (audit r) (port r) (draws r).
Definition set_source_scopes (v : gmap (string * string) string) (r : Repo) : Repo :=
  mkRepo (requests r) (source_requests r) v (holds r) (idempotency r) (attempts r) (audit r) (port r) (draws r).
Definition set_holds (v : gmap string LegalHold) (r : Repo) : Repo :=
  mkRepo (requests r) (source_requests r) (source_scopes r) v (idempotency r) (attempts r) (audit r) (port r) (draws r).
Definition set_idempotency (v : gmap (string * string * string) (string * string)) (r : Repo) : Repo :=
  mkRepo (requests r) (source_requests r) (source_scopes r) (holds r) v (attempts r) (audit r) (port r) (draws r).
Definition set_attempts (v : list (string * string * string * Z * string)) (r : Repo) : Repo :=
  mkRepo (requests r) (source_requests r) (source_scopes r) (holds r) (idempotency r) v (audit r) (port r) (draws r).
Definition set_audit (v : list AuditEntry) (r : Repo) : Repo :=
  mkRepo (requests r) (source_requests r) (source_scopes r) (holds r) (idempotency r) (attempts r) v (port r) (draws r).
Definition set_port (v : CleanupPort) (r : Repo) : Repo :=
  mkRepo (requests r) (source_requests r) (source_scopes r) (holds r) (idempotency r) (attempts r) (audit r) v (draws r).
Definition set_draws (v : Draws) (r : Repo) : Repo :=
  mkRepo (requests r) (source_requests r) (source_scopes r) (holds r) (idempotency r) (attempts r) (audit r) (port r) v.
#[export] Instance repo_drawing : Drawing Repo :=
  {| draws_of := draws; with_draws := set_draws |}.
Definition set_dr_inventory (v : list (string * CleanupItem)) (r : DeletionRequest) : DeletionRequest :=
  mkDeletionRequest (dr_request_id r) (dr_context r) (dr_source_id r) (dr_requested_at r) (dr_grace_until r) v (dr_state r) (dr_version r) (dr_source_active r) (dr_purge_started r).
Definition set_dr_state (v : string) (r : DeletionRequest) : DeletionRequest :=
  mkDeletionRequest (dr_request_id r) (dr_context r) (dr_source_id r) (dr_requested_at r) (dr_grace_until r) (dr_inventory r) v (dr_version r) (dr_source_active r) (dr_purge_started r).
Definition set_dr_version (v : Z) (r : DeletionRequest) : DeletionRequest :=
  mkDeletionRequest (dr_request_id r) (dr_context r) (dr_source_id r) (dr_requested_at r) (dr_grace_until r) (dr_inventory r) (dr_state r) v (dr_source_active r) (dr_purge_started r).
Definition set_dr_source_active (v : bool) (r : DeletionRequest) : DeletionRequest :=
  mkDeletionRequest (dr_request_id r) (dr_context r) (dr_source_id r) (dr_requested_at r) (dr_grace_until r) (dr_inventory r) (dr_state r) (dr_version r) v (dr_purge_started r).
Definition set_dr_purge_started (v : bool) (r : DeletionRequest) : DeletionRequest :=
  mkDeletionRequest (dr_request_id r) (dr_context r) (dr_source_id r) (dr_requested_at r) (dr_grace_until r) (dr_inventory r) (dr_state r) (dr_version r) (dr_source_active r) v.
Definition set_ci_state (v : string) (r : CleanupItem) : CleanupItem :=
  mkCleanupItem (ci_value r) v (ci_attempts r) (ci_evidence r).
Definition set_ci_attempts (v : Z) (r : CleanupItem) : CleanupItem :=
  mkCleanupItem (ci_value r) (ci_state r) v (ci_evidence r).
Definition set_ci_evidence (v : option string) (r : CleanupItem) : CleanupItem :=
  mkCleanupItem (ci_value r) (ci_state r) (ci_attempts r) v.
Definition set_lh_state (v : string) (r : LegalHold) : LegalHold :=
  mkLegalHold (lh_hold_id r) (lh_context r) (lh_source_id r) v (lh_version r).
Definition set_lh_version (v : Z) (r : LegalHold) : LegalHold :=
  mkLegalHold (lh_hold_id r) (lh_context r) (lh_source_id r) (lh_state r) v.

(** ** The fingerprinted values *)

Definition repr_derivative (d : DerivativeInput) : string :=
  "DerivativeInput(kind=" +:+ repr_str (di_kind d) +:+
  ", reference_id=" +:+ repr_str (di_reference_id d) +:+
  ", acknowledgement_required=" +:+ repr_bool (di_acknowledgement_required d) +:+
  ", disposition=" +:+ repr_str (di_disposition d) +:+ ")".

Definition audit_payload (e : AuditEntry) : json :=
  JObj [("request_id", JStr (ae_request_id e)); ("actor_id", JStr (ae_actor_id e));
        ("action", JStr (ae_action e)); ("target", JStr (ae_target e));
        ("timestamp", JStr (ae_timestamp e)); ("policy_version", JStr (ae_policy_version e));
        ("trace_id", JStr (ae_trace_id e)); ("previous_hash", JStr (ae_previous_hash e))].

#[export] Instance audit_entry_chained : Chained AuditEntry := {|
  ev_previous := ae_previous_hash;
  ev_hash := ae_event_hash;
  ev_payload := audit_payload;
  ev_ascii := true;
|}.

(** ** RetentionService *)

(** The constructor arguments. *)
Record Config := mkConfig {
  grace_period : Z;
  fixture_prefix : string;
  inventory_provider : option (RetentionContext → string → list DerivativeInput)
}.

Section Service.
Context {D : Digest} {W : World} (cfg : Config).
Abbreviation St := (M Repo).

(** [_safe] *)
Definition safe (v : string) : St unit :=
  guard (safe_id v) (RetentionError "RETENTION_INPUT_INVALID" 400).

Definition write (key : string) (expected_version : pyobj) : St unit :=
  safe key ;;
  guard (version_arg_ok expected_version) (RetentionError "IF_MATCH_INVALID" 400).

Definition require_sensitive (ctx : RetentionContext) (verified : bool) : St unit :=
  guard (ctx_organization_admin ctx) (RetentionError "CURRENT_ACCESS_DENIED" 403) ;;
  guard verified (RetentionError "STEP_UP_REQUIRED" 403).

(** Same tenant and workspace. *)
Definition same_scope (c c' : RetentionContext) : bool :=
  String.eqb (ctx_tenant_id c) (ctx_tenant_id c') &&
  String.eqb (ctx_workspace_id c) (ctx_workspace_id c').

Definition find_request (ctx : RetentionContext) (rid : string) (s : Repo)
    : option DeletionRequest :=
  match requests s !! rid with
  | Some r => if same_scope (dr_context r) ctx then Some r else None
  | None => None
  end.

Definition request (ctx : RetentionContext) (rid : string) : St DeletionRequest :=
  found <- gets (find_request ctx rid) ;;
  from_option found (RetentionError "DELETION_REQUEST_UNAVAILABLE" 404).

Definition find_hold (ctx : RetentionContext) (hid : string) (s : Repo) : option LegalHold :=
  match holds s !! hid with
  | Some h => if same_scope (lh_context h) ctx then Some h else None
  | None => None
  end.

Definition hold (ctx : RetentionContext) (hid : string) : St LegalHold :=
  found <- gets (find_hold ctx hid) ;;
  from_option found (RetentionError "LEGAL_HOLD_UNAVAILABLE" 404).

(** An active hold on the source, in the scope of the context.  The program
    lists the holds in insertion order and only asks whether there are any. *)
Definition hold_applies (ctx : RetentionContext) (source_id : string) (h : LegalHold) : bool :=
  same_scope (lh_context h) ctx && String.eqb (lh_source_id h) source_id &&
  String.eqb (lh_state h) "active".

Definition active_holds (ctx : RetentionContext) (source_id : string) (s : Repo)
    : list LegalHold :=
  filter (λ h, hold_applies ctx source_id h = true) (map snd (map_to_list (holds s))).

Definition any_active_hold (ctx : RetentionContext) (source_id : string) (s : Repo) : bool :=
  negb (bool_decide (active_holds ctx source_id s = [])).

(** The object mutation [request.x = ...], seen from the repository. *)
Definition put_request (rid : string) (r : DeletionRequest) : St unit :=
  modify (λ s, set_requests (<[rid := r]> (requests s)) s).

Definition put_hold (hid : string) (h : LegalHold) : St unit :=
  modify (λ s, set_holds (<[hid := h]> (holds s)) s).

Definition make_entry (r : DeletionRequest) (action timestamp previous : string) : AuditEntry :=
  let e := mkAuditEntry (dr_request_id r) (ctx_actor_id (dr_context r)) action
    (dr_source_id r) timestamp (ctx_policy_version (dr_context r))
    (ctx_trace_id (dr_context r)) previous "" in
  mkAuditEntry (ae_request_id e) (ae_actor_id e) (ae_action e) (ae_target e)
    (ae_timestamp e) (ae_policy_version e) (ae_trace_id e) (ae_previous_hash e)
    (fingerprint (audit_payload e)).

Definition add_audit (r : DeletionRequest) (action : string) : St unit :=
  previous <- gets (λ s, head_hash (audit s)) ;;
  now <- clock ;;
  modify (λ s, set_audit (audit s ++ [make_entry r action (isoformat now) previous]) s).

Definition item_view (i : CleanupItem) : CleanupItemView :=
  mkCleanupItemView (di_kind (ci_value i)) (di_reference_id (ci_value i)) (ci_state i)
    (ci_attempts i) (ci_evidence i).

Definition reference_le (i j : CleanupItem) : Prop :=
  String.le (di_reference_id (ci_value i)) (di_reference_id (ci_value j)).
#[global] Instance reference_le_dec : RelDecision reference_le.
Proof. intros i j. unfold reference_le. apply _. Defined.

(** [_view] *)
Definition view (r : DeletionRequest) : DeletionRequestView :=
  let items := map item_view (merge_sort reference_le (dict_values (dr_inventory r))) in
  mkDeletionRequestView (dr_request_id r) (ctx_tenant_id (dr_context r))
    (ctx_workspace_id (dr_context r)) (dr_source_id r) (dr_state r) (dr_version r)
    (dr_requested_at r) (dr_grace_until r) (dr_source_active r) items
    (map civ_reference_id (filter (λ i, civ_state i = "completed") items)) 0.

Definition hold_view (h : LegalHold) : LegalHoldView :=
  mkLegalHoldView (lh_hold_id h) (ctx_tenant_id (lh_context h))
    (ctx_workspace_id (lh_context h)) (lh_source_id h) (lh_state h) (lh_version h).

(** [_replay] *)
Definition replay (key : string * string * string) (fp : string) : St (option string) :=
  stored <- gets (λ s, idempotency s !! key) ;;
  match stored with
  | None => ret None
  | Some (fp', id) =>
      guard (String.eqb fp' fp) (RetentionError "IDEMPOTENCY_KEY_REUSED" 409) ;;
      ret (Some id)
  end.

Definition remember (key : string * string * string) (fp id : string) : St unit :=
  modify (λ s, set_idempotency (<[key := (fp, id)]> (idempotency s)) s).

Definition kinds_of (inventory : list DerivativeInput) : gset string :=
  list_to_set (map di_kind inventory).

(** The cleanup item a request starts with. *)
Definition initial_item (d : DerivativeInput) : CleanupItem :=
  mkCleanupItem d
    (if bool_decide (di_disposition d ∈ ["not_present"; "not_applicable"])
     then "completed" else "pending")
    0 (Some (di_disposition d)).

Definition create_fingerprint (source_id : string) (inventory : list DerivativeInput) : string :=
  fingerprint (JArr [JStr source_id; JArr (map (λ d, JStr (repr_derivative d)) inventory)]).

Definition scope_key (ctx : RetentionContext) (source_id : string) : string * string * string :=
  (ctx_tenant_id ctx, ctx_workspace_id ctx, source_id).

(** The check and the registration shared by [create_request] and
    [register_source]. *)
Definition register_scope (ctx : RetentionContext) (source_id : string) : St unit :=
  registered <- gets (λ s, source_scopes s !! (ctx_tenant_id ctx, source_id)) ;;
  guard (match registered with
         | Some w => String.eqb w (ctx_workspace_id ctx)
         | None => true
         end) (RetentionError "CURRENT_ACCESS_DENIED" 403) ;;
  modify (λ s, set_source_scopes
    (<[(ctx_tenant_id ctx, source_id) := ctx_workspace_id ctx]> (source_scopes s)) s).

Definition create_request (ctx : RetentionContext) (source_id : string)
    (inventory : option (list DerivativeInput)) (idempotency_key : string) (if_match : pyobj)
    : St DeletionRequestView :=
  write idempotency_key if_match ;;
  safe source_id ;;
  inventory <- (match inventory with
                | Some inv => ret inv
                | None =>
                    provider <- from_option (inventory_provider cfg)
                      (RetentionError "DELETION_INVENTORY_INVALID" 400) ;;
                    ret (provider ctx source_id)
                end) ;;
  guard (bool_decide (if_match = PyStr "*") && negb (bool_decide (inventory = nil)))
    (RetentionError "DELETION_REQUEST_INVALID" 400) ;;
  let by_reference := dict_of di_reference_id inventory in
  guard (Nat.eqb (length by_reference) (length inventory) &&
         bool_decide (kinds_of inventory = KINDS))
    (RetentionError "DELETION_INVENTORY_INVALID" 400) ;;
  let fp := create_fingerprint source_id inventory in
  let key := (ctx_actor_id ctx, "request", idempotency_key) in
  register_scope ctx source_id ;;
  replayed <- replay key fp ;;
  match replayed with
  | Some rid => r <- request ctx rid ;; ret (view r)
  | None =>
      existing <- gets (λ s, source_requests s !! scope_key ctx source_id) ;;
      guard (bool_decide (existing = None)) (RetentionError "DELETION_REQUEST_ACTIVE" 409) ;;
      now <- clock ;;
      rid <- new_id "deletion" ;;
      blocked <- gets (any_active_hold ctx source_id) ;;
      let r := mkDeletionRequest rid ctx source_id now (now + grace_period cfg)
        (map (λ kv, (kv.1, initial_item kv.2)) by_reference)
        (if blocked then "blocked_by_hold" else "grace_period") 1 false false in
      put_request rid r ;;
      modify (λ s, set_source_requests
        (<[scope_key ctx source_id := rid]> (source_requests s)) s) ;;
      remember key fp rid ;;
      add_audit r "deletion.requested" ;;
      add_audit r "source.deactivated" ;;
      add_audit r "deletion.grace_period.started" ;;
      ret (view r)
  end.

Definition get_request (ctx : RetentionContext) (rid : string) : St DeletionRequestView :=
  r <- request ctx rid ;; ret (view r).

Definition locate_workspace (tenant_id rid : string) : St string :=
  found <- gets (λ s, requests s !! rid) ;;
  r <- from_option found (RetentionError "DELETION_REQUEST_UNAVAILABLE" 404) ;;
  guard (String.eqb (ctx_tenant_id (dr_context r)) tenant_id)
    (RetentionError "DELETION_REQUEST_UNAVAILABLE" 404) ;;
  ret (ctx_workspace_id (dr_context r)).

Definition register_source (ctx : RetentionContext) (source_id : string) : St unit :=
  safe source_id ;;
  register_scope ctx source_id.

Definition locate_source_workspace (tenant_id source_id : string) : St string :=
  safe source_id ;;
  found <- gets (λ s, source_scopes s !! (tenant_id, source_id)) ;;
  from_option found (RetentionError "SOURCE_UNAVAILABLE" 404).

Definition source_etag (tenant_id source_id : string) : St (string * Z) :=
  workspace <- locate_source_workspace tenant_id source_id ;;
  rid <- gets (λ s, source_requests s !! (tenant_id, workspace, source_id)) ;;
  version <- (match rid with
              | None => ret 1
              | Some rid =>
                  found <- gets (λ s, requests s !! rid) ;;
                  r <- from_option found (PyError "KeyError") ;;
                  ret (dr_version r)
              end) ;;
  ret (dquoted ("source:" +:+ source_id +:+ ":" +:+ str_int version), version).

Definition locate_hold_workspace (tenant_id hid : string) : St string :=
  found <- gets (λ s, holds s !! hid) ;;
  h <- from_option found (RetentionError "LEGAL_HOLD_UNAVAILABLE" 404) ;;
  guard (String.eqb (ctx_tenant_id (lh_context h)) tenant_id)
    (RetentionError "LEGAL_HOLD_UNAVAILABLE" 404) ;;
  ret (ctx_workspace_id (lh_context h)).

Definition is_source_use_blocked (ctx : RetentionContext) (source_id : string) : St bool :=
  rid <- gets (λ s, source_requests s !! scope_key ctx source_id) ;;
  match rid with
  | None => ret false
  | Some rid =>
      found <- gets (λ s, requests s !! rid) ;;
      r <- from_option found (PyError "KeyError") ;;
      ret (negb (String.eqb (dr_state r) "cancelled"))
  end.

Definition version_fingerprint (rid : string) (expected_version : pyobj) : string :=
  fingerprint (JArr [JStr rid; json_of expected_version]).

Definition policy_fingerprint (ctx : RetentionContext) (id : string)
    (expected_version : pyobj) : string :=
  fingerprint (JArr [JStr id; json_of expected_version; JStr (ctx_policy_version ctx)]).

Definition cancel (ctx : RetentionContext) (rid : string) (expected_version : pyobj)
    (idempotency_key : string) : St DeletionRequestView :=
  write idempotency_key expected_version ;;
  let fp := version_fingerprint rid expected_version in
  let key := (ctx_actor_id ctx, "cancel", idempotency_key) in
  r <- request ctx rid ;;
  replayed <- replay key fp ;;
  match replayed with
  | Some _ => ret (view r)
  | None =>
      guard (version_is (dr_version r) expected_version)
        (RetentionError "RETENTION_VERSION_CONFLICT" 409) ;;
      guard (negb (dr_purge_started r || bool_decide (dr_state r ∈ ["purged"; "cancelled"])))
        (RetentionError "DELETION_CLEANUP_PENDING" 409) ;;
      let r' := set_dr_version (dr_version r + 1)
                  (set_dr_source_active true (set_dr_state "cancelled" r)) in
      put_request rid r' ;;
      remember key fp (dr_request_id r') ;;
      add_audit r' "deletion.cancelled" ;;
      ret (view r')
  end.

Definition apply_legal_hold (ctx : RetentionContext) (source_id : string)
    (expected_version : pyobj) (idempotency_key : string) (step_up_verified : bool)
    : St LegalHoldView :=
  write idempotency_key expected_version ;;
  require_sensitive ctx step_up_verified ;;
  safe source_id ;;
  let fp := policy_fingerprint ctx source_id expected_version in
  let key := (ctx_actor_id ctx, "hold", idempotency_key) in
  replayed <- replay key fp ;;
  match replayed with
  | Some hid => h <- hold ctx hid ;; ret (hold_view h)
  | None =>
      workspace <- gets (λ s, source_scopes s !! (ctx_tenant_id ctx, source_id)) ;;
      guard (bool_decide (workspace = Some (ctx_workspace_id ctx)))
        (RetentionError "SOURCE_UNAVAILABLE" 404) ;;
      rid <- gets (λ s, source_requests s !! scope_key ctx source_id) ;;
      match rid with
      | Some rid =>
          r <- request ctx rid ;;
          guard (version_is (dr_version r) expected_version)
            (RetentionError "RETENTION_VERSION_CONFLICT" 409) ;;
          hid <- new_id "legal-hold" ;;
          let h := mkLegalHold hid ctx source_id "active" 1 in
          put_hold hid h ;;
          let r' := set_dr_version (dr_version r + 1) (set_dr_state "blocked_by_hold" r) in
          put_request rid r' ;;
          remember key fp hid ;;
          add_audit r' "legal_hold.applied" ;;
          ret (hold_view h)
      | None =>
          guard (version_is 1 expected_version)
            (RetentionError "RETENTION_VERSION_CONFLICT" 409) ;;
          hid <- new_id "legal-hold" ;;
          let h := mkLegalHold hid ctx source_id "active" 1 in
          put_hold hid h ;;
          remember key fp hid ;;
          ret (hold_view h)
      end
  end.

(** The request of the hold's source after its release. *)
Definition release_request (ctx : RetentionContext) (source_id : string)
    : St (option DeletionRequest) :=
  rid <- gets (λ s, source_requests s !! scope_key ctx source_id) ;;
  match rid with
  | None => ret None
  | Some rid =>
      r <- request ctx rid ;;
      held <- gets (any_active_hold (dr_context r) (dr_source_id r)) ;;
      if held : bool then ret (Some r)
      else
        now <- clock ;;
        let r' := set_dr_version (dr_version r + 1)
          (set_dr_state (if now <? dr_grace_until r then "grace_period"
                         else "cleanup_pending") r) in
        put_request rid r' ;;
        ret (Some r')
  end.

Definition release_legal_hold (ctx : RetentionContext) (hid : string)
    (expected_version : pyobj) (idempotency_key : string) (step_up_verified : bool)
    : St LegalHoldView :=
  write idempotency_key expected_version ;;
  require_sensitive ctx step_up_verified ;;
  let fp := policy_fingerprint ctx hid expected_version in
  let key := (ctx_actor_id ctx, "release", idempotency_key) in
  h <- hold ctx hid ;;
  replayed <- replay key fp ;;
  match replayed with
  | Some _ => ret (hold_view h)
  | None =>
      guard (version_is (lh_version h) expected_version && String.eqb (lh_state h) "active")
        (RetentionError "RETENTION_VERSION_CONFLICT" 409) ;;
      let h' := set_lh_version (lh_version h + 1) (set_lh_state "released" h) in
      put_hold hid h' ;;
      r <- release_request ctx (lh_source_id h) ;;
      remember key fp (lh_hold_id h') ;;
      match r with
      | Some r => add_audit r "legal_hold.released"
      | None => ret tt
      end ;;
      ret (hold_view h')
  end.

Definition ACK_EVIDENCE : list string := ["device_ack"; "device_revoked"; "key_destroyed"].

Definition acknowledge_local_copy (ctx : RetentionContext) (rid reference_id evidence : string)
    (expected_version : pyobj) (idempotency_key : string) : St DeletionRequestView :=
  write idempotency_key expected_version ;;
  guard (bool_decide (evidence ∈ ACK_EVIDENCE)) (RetentionError "LOCAL_COPY_ACK_INVALID" 400) ;;
  let fp := fingerprint (JArr [JStr rid; JStr reference_id; JStr evidence;
                               json_of expected_version]) in
  let key := (ctx_actor_id ctx, "ack", idempotency_key) in
  r <- request ctx rid ;;
  replayed <- replay key fp ;;
  match replayed with
  | Some _ => ret (view r)
  | None =>
      guard (version_is (dr_version r) expected_version)
        (RetentionError "RETENTION_VERSION_CONFLICT" 409) ;;
      item <- from_option (dict_get reference_id (dr_inventory r))
                (RetentionError "LOCAL_COPY_ACK_INVALID" 400) ;;
      guard (String.eqb (di_kind (ci_value item)) "known_local_copy")
        (RetentionError "LOCAL_COPY_ACK_INVALID" 400) ;;
      let item' := set_ci_evidence (Some evidence) (set_ci_state "completed" item) in
      let r' := set_dr_version (dr_version r + 1)
                  (set_dr_inventory (dict_set reference_id item' (dr_inventory r)) r) in
      put_request rid r' ;;
      remember key fp rid ;;
      add_audit r' "local_copy.access_revoked" ;;
      ret (view r')
  end.

(** [ReferenceCleanupPort.cleanup] *)
Definition cleanup (item : DerivativeInput) : St bool := λ s,
  let p := port s in
  let ref := di_reference_id item in
  let n := default 0 (cp_attempts_by_reference p !! ref) in
  (set_port (mkCleanupPort (cp_fail_references p) (cp_attempt_count p + 1)
               (<[ref := n + 1]> (cp_attempts_by_reference p))) s,
   Ret (negb (bool_decide (ref ∈ cp_fail_references p)))).

(** The request object and one of its items, read live from the repository. *)
Definition live_request (rid : string) : St DeletionRequest :=
  found <- gets (λ s, requests s !! rid) ;;
  from_option found (PyError "KeyError").

Definition live_item (rid ref : string) : St CleanupItem :=
  r <- live_request rid ;;
  from_option (dict_get ref (dr_inventory r)) (PyError "KeyError").

Definition put_item (rid ref : string) (item : CleanupItem) : St unit :=
  r <- live_request rid ;;
  put_request rid (set_dr_inventory (dict_set ref item (dr_inventory r)) r).

(** The body of the loop of [purge]. *)
Definition purge_item (rid ref : string) : St unit :=
  item <- live_item rid ref ;;
  if String.eqb (ci_state item) "completed" then ret tt
  else if di_acknowledgement_required (ci_value item) then
    put_item rid ref (set_ci_state "awaiting_ack" item)
  else
    let item := set_ci_attempts (ci_attempts item + 1) item in
    put_item rid ref item ;;
    completed <- cleanup (ci_value item) ;;
    let item := set_ci_state (if completed : bool then "completed" else "failed") item in
    put_item rid ref item ;;
    modify (λ s, set_attempts (attempts s ++
      [(rid, di_reference_id (ci_value item), di_kind (ci_value item),
        ci_attempts item, ci_state item)]) s).

Definition all_completed (r : DeletionRequest) : bool :=
  forallb (λ i, String.eqb (ci_state i) "completed") (dict_values (dr_inventory r)).

Definition all_fixtures (r : DeletionRequest) : bool :=
  forallb (λ i, startswith (fixture_prefix cfg) (di_reference_id (ci_value i)))
    (dict_values (dr_inventory r)).

(** What follows the guards of [purge]. *)
Definition run_purge (rid : string) (r : DeletionRequest) : St DeletionRequest :=
  put_request rid (set_dr_state "cleanup_pending" (set_dr_purge_started true r)) ;;
  mfor (dict_keys (dr_inventory r)) (purge_item rid) ;;
  r1 <- live_request rid ;;
  let r2 := set_dr_version (dr_version r1 + 1) r1 in
  let r3 := set_dr_state (if all_completed r2 then "purged" else "cleanup_pending") r2 in
  put_request rid r3 ;;
  add_audit r3 (if all_completed r2 then "deletion.purged" else "deletion.cleanup_pending") ;;
  ret r3.

Definition purge (ctx : RetentionContext) (rid : string) (expected_version : pyobj)
    (idempotency_key : string) (step_up_verified : bool) : St DeletionRequestView :=
  write idempotency_key expected_version ;;
  require_sensitive ctx step_up_verified ;;
  let fp := policy_fingerprint ctx rid expected_version in
  let key := (ctx_actor_id ctx, "purge", idempotency_key) in
  r <- request ctx rid ;;
  replayed <- replay key fp ;;
  match replayed with
  | Some _ => ret (view r)
  | None =>
      guard (version_is (dr_version r) expected_version)
        (RetentionError "RETENTION_VERSION_CONFLICT" 409) ;;
      held <- gets (any_active_hold (dr_context r) (dr_source_id r)) ;;
      when held (put_request rid (set_dr_state "blocked_by_hold" r) ;;
                 raise (RetentionError "LEGAL_HOLD_ACTIVE" 409)) ;;
      now <- clock ;;
      guard (negb (now <? dr_grace_until r))
        (RetentionError "DELETION_GRACE_PERIOD_ACTIVE" 409) ;;
      guard (all_fixtures r) (RetentionError "FIXTURE_ONLY_PURGE_REQUIRED" 403) ;;
      r' <- run_purge rid r ;;
      remember key fp rid ;;
      ret (view r')
  end.

Definition minimal_lineage (rid : string) : St Lineage :=
  found <- gets (λ s, requests s !! rid) ;;
  from_option found (RetentionError "DELETION_REQUEST_UNAVAILABLE" 404) ;;
  events <- gets (λ s, map lineage_event (filter (λ e, ae_request_id e = rid) (audit s))) ;;
  ret (mkLineage rid 1 events).
End Service.

(** ** Steps of the service *)

Section Steps.
Context {D : Digest} {W : World} (cfg : Config).

(** One call of the service by [ctx], with any other arguments, whether it
    returns or raises.  [DerivativeInput] objects exist only once their
    constructor accepted them. *)
Inductive step_by (ctx : RetentionContext) (s : Repo) : Repo → Prop :=
| step_create src inv key ifm :
    (∀ l, inv = Some l → Forall derivative_valid l) →
    step_by ctx s (final (create_request cfg ctx src inv key ifm) s)
| step_register src : step_by ctx s (final (register_source ctx src) s)
| step_cancel rid v key : step_by ctx s (final (cancel ctx rid v key) s)
| step_hold src v key su : step_by ctx s (final (apply_legal_hold ctx src v key su) s)
| step_release hid v key su :
    step_by ctx s (final (release_legal_hold ctx hid v key su) s)
| step_ack rid ref ev v key :
    step_by ctx s (final (acknowledge_local_copy ctx rid ref ev v key) s)
| step_purge rid v key su : step_by ctx s (final (purge cfg ctx rid v key su) s).

Definition step (s s' : Repo) : Prop := ∃ ctx, step_by ctx s s'.

Definition reachable (p : CleanupPort) (s : Repo) : Prop := rtc step (empty_repo p) s.

Lemma rt_reachable_ind_inv p (I : Repo → Prop) :
  I (empty_repo p) → (∀ s s', I s → step s s' → I s') → ∀ s, reachable p s → I s.
Proof. intros H0 Hs s Hr. eapply rtc_invariant; eauto. Qed.
End Steps.

(** ** What the helpers do to a store *)

Section Helpers.
Context {D : Digest} {W : World}.

Lemma same_scope_eq c c' :
  same_scope c c' = true ↔
  ctx_tenant_id c = ctx_tenant_id c' ∧ ctx_workspace_id c = ctx_workspace_id c'.
Proof. unfold same_scope. rewrite andb_true_iff, !String.eqb_eq. done. Qed.

Lemma wp_request ctx rid (Q : outcome DeletionRequest → Repo → Prop) s :
  (∀ r, requests s !! rid = Some r → same_scope (dr_context r) ctx = true → Q (Ret r) s) →
  (∀ e, Q (Raise e) s) →
  wp (request ctx rid) Q s.
Proof.
  intros HR HE. unfold request, find_request. wp_run; [|apply HE].
  destruct (requests s !! rid) as [r|] eqn:Hr; [|done].
  destruct (same_scope _ _) eqn:Hs; simplify_eq. by apply HR.
Qed.

Lemma wp_hold ctx hid (Q : outcome LegalHold → Repo → Prop) s :
  (∀ h, holds s !! hid = Some h → same_scope (lh_context h) ctx = true → Q (Ret h) s) →
  (∀ e, Q (Raise e) s) →
  wp (hold ctx hid) Q s.
Proof.
  intros HR HE. unfold hold, find_hold. wp_run; [|apply HE].
  destruct (holds s !! hid) as [h|] eqn:Hh; [|done].
  destruct (same_scope _ _) eqn:Hs; simplify_eq. by apply HR.
Qed.

Lemma rt_wp_replay key fp (Q : outcome (option string) → Repo → Prop) s :
  (idempotency s !! key = None → Q (Ret None) s) →
  (∀ id, idempotency s !! key = Some (fp, id) → Q (Ret (Some id)) s) →
  (∀ e, Q (Raise e) s) →
  wp (replay key fp) Q s.
Proof.
  intros HN HS HE. unfold replay. apply wp_bind, wp_gets.
  destruct (idempotency s !! key) as [[fp' id]|] eqn:Hk; [|by apply HN].
  apply wp_bind, wp_guard; intros H.
  - apply String.eqb_eq in H as ->. by apply wp_ret, HS.
  - apply HE.
Qed.

Lemma wp_cleanup d (Q : outcome bool → Repo → Prop) s :
  (∀ b p, cp_attempt_count p = cp_attempt_count (port s) + 1 → Q (Ret b) (set_port p s)) →
  wp (cleanup d) Q s.
Proof. intros HQ. by apply HQ. Qed.

(** An appended entry carries the current head and its own digest. *)
Definition entry_for (s : Repo) (e : AuditEntry) : Prop :=
  ae_previous_hash e = head_hash (audit s) ∧
  ae_event_hash e = sha256_hex (ev_bytes e).

Lemma rt_wp_add_audit r a (Q : outcome unit → Repo → Prop) s :
  (∀ e d, entry_for s e → ae_request_id e = dr_request_id r → ae_action e = a →
     tokens d = tokens (draws s) →
     Q (Ret tt) (set_audit (audit s ++ [e]) (set_draws d s))) →
  wp (add_audit r a) Q s.
Proof.
  intros HQ. unfold add_audit. apply wp_bind, wp_gets, wp_bind, wp_clock, wp_modify.
  apply HQ; [split; reflexivity|done..].
Qed.
End Helpers.

Ltac rt_step :=
  lazymatch goal with
  | |- wp (request _ _) _ _ => apply wp_request; [intros ? ? ?|intros ?]
  | |- wp (hold _ _) _ _ => apply wp_hold; [intros ? ? ?|intros ?]
  | |- wp (replay _ _) _ _ => apply rt_wp_replay; [intros ?|intros ? ?|intros ?]
  | |- wp (add_audit _ _) _ _ => apply rt_wp_add_audit; intros ? ? ? ? ? ?
  | |- wp (cleanup _) _ _ => apply wp_cleanup; intros ? ? ?
  | |- wp (purge_item _ _) _ _ => unfold purge_item
  | |- wp (write _ _) _ _ => unfold write
  | |- wp (safe _) _ _ => unfold safe
  | |- wp (require_sensitive _ _) _ _ => unfold require_sensitive
  | |- wp (register_scope _ _) _ _ => unfold register_scope
  | |- wp (put_request _ _) _ _ => unfold put_request
  | |- wp (put_hold _ _) _ _ => unfold put_hold
  | |- wp (remember _ _ _) _ _ => unfold remember
  | |- wp (release_request _ _) _ _ => unfold release_request
  | |- wp (live_request _) _ _ => unfold live_request
  | |- wp (live_item _ _) _ _ => unfold live_item
  | |- wp (put_item _ _ _) _ _ => unfold put_item
  | _ => wp_step
  end; cbn beta iota.
Ltac rt_run := repeat rt_step.

(** ** Purge *)

Section Purge.
Context {D : Digest} {W : World} (cfg : Config).

(** Everything the program requires before a purge changes an item or calls
    the cleanup port. *)
Record purge_due (ctx : RetentionContext) (rid : string) (v : pyobj) (su : bool)
    (s : Repo) : Prop := {
  due_admin : ctx_organization_admin ctx = true;
  due_step_up : su = true;
  due_request : ∃ r, requests s !! rid = Some r ∧
    same_scope (dr_context r) ctx = true ∧
    PyInt (dr_version r) = v ∧
    (∀ h, h ∈ map snd (map_to_list (holds s)) →
       hold_applies (dr_context r) (dr_source_id r) h = false) ∧
    dr_grace_until r <= clock_at (ticks (draws s)) ∧
    ∀ k i, (k, i) ∈ dr_inventory r →
      startswith (fixture_prefix cfg) (di_reference_id (ci_value i)) = true
}.

Definition inventories (s : Repo) : gmap string (list (string * CleanupItem)) :=
  dr_inventory <$> requests s.

Lemma no_active_hold ctx src s :
  any_active_hold ctx src s = false →
  ∀ h, h ∈ map snd (map_to_list (holds s)) → hold_applies ctx src h = false.
Proof.
  unfold any_active_hold, active_holds. intros H%negb_false_iff%bool_decide_eq_true_1 h Hh.
  destruct (hold_applies ctx src h) eqn:E; [|done].
  assert (h ∈ filter (λ h, hold_applies ctx src h = true) (map snd (map_to_list (holds s)))) as Hin.
  { by apply list_elem_of_filter. }
  rewrite H in Hin. by apply elem_of_nil in Hin.
Qed.

Lemma all_fixtures_elem r k i :
  all_fixtures cfg r = true → (k, i) ∈ dr_inventory r →
  startswith (fixture_prefix cfg) (di_reference_id (ci_value i)) = true.
Proof.
  unfold all_fixtures. rewrite forallb_forall. intros H Hi. apply H.
  apply list_elem_of_In. change i with (k, i).2. by apply list_elem_of_fmap_2.
Qed.

(** C27: whatever its arguments, a purge that calls the cleanup port or
    changes a cleanup item was due: the caller is an organization admin with
    a verified step-up, the request exists in the caller's workspace at the
    expected version, no active Legal Hold covers its source, the grace
    period has elapsed on the clock reading the method makes, and every
    reference is a fixture. *)
Theorem purge_touches_only_when_due ctx rid v key su s :
  let s' := final (purge cfg ctx rid v key su) s in
  (port s' = port s ∧ inventories s' = inventories s) ∨ purge_due ctx rid v su s.
Proof.
  cbv zeta.
  enough (wp (purge cfg ctx rid v key su) (λ _ s',
    (port s' = port s ∧ inventories s' = inventories s) ∨ purge_due ctx rid v su s) s) by done.
  unfold purge. rt_run; try (by left).
  - left. split; [done|]. unfold inventories. simpl. rewrite fmap_insert.
    apply insert_id. rewrite lookup_fmap. by simplify_option_eq.
  - assert (purge_due ctx rid v su s) as Hdue.
    { unfold version_is in *. bools. constructor; [done..|].
      exists r. split_and!; eauto using no_active_hold, all_fixtures_elem. }
    eapply (wp_mono _ (λ _ _, True)); [|done].
    intros [r'|e] s' _; [rt_run|]; by right.
Qed.
End Purge.

(** ** The audit log *)

Section AuditLog.
Context {D : Digest} {W : World} (cfg : Config).

#[export] Instance audit_entry_inj : ChainedInj AuditEntry.
Proof.
  intros [] [] H Hh. cbn in H, Hh. subst.
  vm_compute in H. by simplify_eq.
Qed.

Definition audit_chained (s : Repo) : Prop := chain_ok (audit s).

Lemma rt_audit_chained_snoc s e d :
  audit_chained s → entry_for s e →
  audit_chained (set_audit (audit s ++ [e]) (set_draws d s)).
Proof. intros Hs [Hp Hh]. by apply chain_snoc. Qed.

Lemma preserves_add_audit r a : preserves audit_chained (add_audit r a).
Proof. intros s Hs. rt_run. by apply rt_audit_chained_snoc. Qed.

Lemma preserves_purge_item rid ref : preserves audit_chained (purge_item rid ref).
Proof. intros s Hs. by rt_run. Qed.

Lemma preserves_run_purge rid r : preserves audit_chained (run_purge rid r).
Proof.
  intros s Hs. unfold run_purge. rt_run.
  apply (wp_mfor audit_chained (λ _, audit_chained)); [done| | |].
  - intros ref t _ Ht. eapply wp_mono; [|by apply preserves_purge_item]. by intros [].
  - intros t Ht. rt_run; [|done]. by apply rt_audit_chained_snoc.
  - done.
Qed.

Ltac chained := repeat (apply rt_audit_chained_snoc; [|assumption]); try done.

Lemma preserves_create ctx src inv key ifm :
  preserves audit_chained (create_request cfg ctx src inv key ifm).
Proof. intros s Hs. unfold create_request. rt_run; chained. Qed.

Lemma preserves_register ctx src : preserves audit_chained (register_source ctx src).
Proof. intros s Hs. unfold register_source. by rt_run. Qed.

Lemma preserves_cancel ctx rid v key : preserves audit_chained (cancel ctx rid v key).
Proof. intros s Hs. unfold cancel. rt_run; chained. Qed.

Lemma preserves_hold ctx src v key su :
  preserves audit_chained (apply_legal_hold ctx src v key su).
Proof. intros s Hs. unfold apply_legal_hold. rt_run; chained. Qed.

Lemma preserves_release ctx hid v key su :
  preserves audit_chained (release_legal_hold ctx hid v key su).
Proof. intros s Hs. unfold release_legal_hold. rt_run; chained. Qed.

Lemma preserves_ack ctx rid ref ev v key :
  preserves audit_chained (acknowledge_local_copy ctx rid ref ev v key).
Proof. intros s Hs. unfold acknowledge_local_copy. rt_run; chained. Qed.

Lemma preserves_purge ctx rid v key su : preserves audit_chained (purge cfg ctx rid v key su).
Proof.
  intros s Hs. unfold purge. rt_run; try done.
  eapply wp_mono; [|by apply preserves_run_purge].
  intros [] t Ht; by rt_run.
Qed.

Lemma rt_step_audit_chained s s' : audit_chained s → step cfg s s' → audit_chained s'.
Proof.
  intros Hs [ctx []]; [by apply preserves_create|by apply preserves_register|
    by apply preserves_cancel|by apply preserves_hold|by apply preserves_release|
    by apply preserves_ack|by apply preserves_purge].
Qed.

(** In every reachable store the audit log is a hash chain: each entry
    carries the hash of the one before it and the digest of its own content.
    And the log is tamper evident: another chain of the same length with the
    same head is the same log, unless two contents at one position collide. *)
Theorem retention_audit_chained p s :
  reachable cfg p s →
  chain_ok (audit s) ∧
  ∀ log, chain_ok log → length log = length (audit s) →
    head_hash log = head_hash (audit s) →
    (∀ i, ¬ collision_at i log (audit s)) → log = audit s.
Proof.
  intros Hr. assert (audit_chained s) as Hs.
  { eapply (rt_reachable_ind_inv cfg p audit_chained); eauto using rt_step_audit_chained. done. }
  split; [done|]. intros log Hl Hlen Hh Hn. by apply chain_tamper_evident.
Qed.
End AuditLog.

(** ** Well-formed requests *)

Section Requests.
Context {D : Digest} {W : World} (cfg : Config).

(** A local copy is only completed by an acknowledgement of the device or
    because it was never there, and the cleanup port never saw it. *)
Definition local_copy_acknowledged (i : CleanupItem) : Prop :=
  di_kind (ci_value i) = "known_local_copy" →
  ci_attempts i = 0 ∧
  (ci_state i = "completed" →
     (∃ ev, ci_evidence i = Some ev ∧ ev ∈ ACK_EVIDENCE) ∨
     di_disposition (ci_value i) ∈ ["not_present"; "not_applicable"]).

Definition item_wf (ki : string * CleanupItem) : Prop :=
  ki.1 = di_reference_id (ci_value ki.2) ∧ derivative_valid (ci_value ki.2) ∧
  local_copy_acknowledged ki.2.

Record request_wf (r : DeletionRequest) : Prop := {
  wf_keys : NoDup (dict_keys (dr_inventory r));
  wf_items : Forall item_wf (dr_inventory r);
  wf_kinds : list_to_set (map (λ i, di_kind (ci_value i)) (dict_values (dr_inventory r))) = KINDS;
  wf_version : 1 <= dr_version r;
  wf_grace : dr_grace_until r = dr_requested_at r + grace_period cfg;
  wf_purged : dr_state r = "purged" → all_completed r = true
}.

Definition requests_wf (s : Repo) : Prop := map_Forall (λ _ r, request_wf r) (requests s).

(** *** Derivatives *)

Lemma derivative_valid_local d :
  derivative_valid d →
  di_acknowledgement_required d = String.eqb (di_kind d) "known_local_copy".
Proof.
  unfold derivative_valid, make_derivative. intros H. repeat case_match; simplify_eq.
  bools. by apply eqb_prop.
Qed.

Lemma initial_item_wf d : derivative_valid d → item_wf (di_reference_id d, initial_item d).
Proof.
  intros Hd. split_and!; [done..|]. intros _. split; [done|].
  simpl. case_bool_decide; intros; [by right|done].
Qed.

(** *** Changes of a well-formed request *)

Lemma all_completed_set_item r k i :
  ci_state i = "completed" → all_completed r = true →
  all_completed (set_dr_inventory (dict_set k i (dr_inventory r)) r) = true.
Proof.
  unfold all_completed. simpl. rewrite !forallb_forall. intros Hi Hr j Hj%list_elem_of_In.
  apply list_elem_of_fmap in Hj as ([k' j'] & -> & Hj). simpl.
  apply dict_set_elem in Hj as [Hj|Hj]; simpl in Hj; [subst; by rewrite Hi|].
  apply Hr, list_elem_of_In. change j' with (k', j').2. by apply list_elem_of_fmap_2.
Qed.

Lemma request_wf_state st r :
  request_wf r → st ≠ "purged" ∨ all_completed r = true → request_wf (set_dr_state st r).
Proof. intros [] Hst. constructor; simpl; [done..|]. intros ->. by destruct Hst. Qed.

Lemma request_wf_version r : request_wf r → request_wf (set_dr_version (dr_version r + 1) r).
Proof. intros []. constructor; simpl; [done..|lia|done|done]. Qed.

Lemma request_wf_active b r : request_wf r → request_wf (set_dr_source_active b r).
Proof. by intros []. Qed.

Lemma request_wf_started b r : request_wf r → request_wf (set_dr_purge_started b r).
Proof. by intros []. Qed.

(** Item [i] takes the place of [i0], and the request is not purged or [i]
    is completed. *)
Lemma request_wf_item r k i0 i :
  request_wf r → dict_get k (dr_inventory r) = Some i0 →
  ci_value i = ci_value i0 → local_copy_acknowledged i →
  dr_state r ≠ "purged" ∨ ci_state i = "completed" →
  request_wf (set_dr_inventory (dict_set k i (dr_inventory r)) r).
Proof.
  intros [Hk Hi Hkinds Hv Hg Hp] Hget Hval Hack Hst.
  assert (item_wf (k, i0)) as (Hki & Hd & _).
  { eapply Forall_forall; [exact Hi|]. by apply dict_get_elem. }
  constructor; simpl; [by apply dict_keys_NoDup_set| | |done|done|].
  - apply Forall_dict_set; [|done]. simpl in *. by rewrite <- Hval in Hki, Hd.
  - rewrite (dict_set_map _ k i0); [done|done|]. by rewrite Hval.
  - intros Hpurged. destruct Hst as [|Hst]; [done|]. apply all_completed_set_item; auto.
Qed.

(** The request [create_request] builds. *)
Lemma request_wf_new rid ctx src now (inv : list DerivativeInput) (blocked : bool) :
  Forall derivative_valid inv →
  length (dict_of di_reference_id inv) = length inv → kinds_of inv = KINDS →
  request_wf (mkDeletionRequest rid ctx src now (now + grace_period cfg)
    (map (λ kv, (kv.1, initial_item kv.2)) (dict_of di_reference_id inv))
    (if blocked then "blocked_by_hold" else "grace_period") 1 false false).
Proof.
  intros Hinv Hlen Hkinds. pose proof (dict_of_NoDup di_reference_id inv) as Hnd.
  rewrite (dict_of_all _ _ Hlen) in *.
  constructor; simpl; [| | |lia|done|by destruct blocked].
  - unfold dict_keys in *. rewrite map_map in Hnd. by rewrite !map_map.
  - rewrite map_map. apply Forall_map. eapply Forall_impl; [exact Hinv|].
    intros d. apply initial_item_wf.
  - rewrite <- Hkinds. unfold kinds_of, dict_values. by rewrite !map_map.
Qed.

Lemma requests_wf_insert s rid r :
  requests_wf s → request_wf r → map_Forall (λ _ r, request_wf r) (<[rid := r]> (requests s)).
Proof. intros Hs Hr. by apply map_Forall_insert_2. Qed.

Lemma requests_wf_lookup s rid r : requests_wf s → requests s !! rid = Some r → request_wf r.
Proof. intros Hs Hr. by apply (Hs rid). Qed.

Lemma request_item_wf r ref i :
  request_wf r → dict_get ref (dr_inventory r) = Some i → item_wf (ref, i).
Proof.
  intros Hr Hi%dict_get_elem. eapply Forall_forall; [|exact Hi]. apply (wf_items _ Hr).
Qed.
End Requests.

Create HintDb retention.
#[export] Hint Resolve request_wf_version request_wf_active request_wf_started
  requests_wf_insert requests_wf_lookup : retention.

(** ** Every reachable request is well formed *)

Section ReachableRequests.
Context {D : Digest} {W : World} (cfg : Config).
Abbreviation requests_wf := (requests_wf cfg).
Abbreviation request_wf := (request_wf cfg).

(** What holds of the requests while [purge] walks over the items of [rid]. *)
Definition purging (rid : string) (m : gmap string DeletionRequest) : Prop :=
  map_Forall (λ _ r, request_wf r) m ∧ ∀ r, m !! rid = Some r → dr_state r ≠ "purged".

Lemma purging_put_item rid m r ref i0 i :
  purging rid m → m !! rid = Some r → dict_get ref (dr_inventory r) = Some i0 →
  ci_value i = ci_value i0 → local_copy_acknowledged i →
  purging rid (<[rid := set_dr_inventory (dict_set ref i (dr_inventory r)) r]> m).
Proof.
  intros [Hwf Hst] Hr Hi Hv Ha. split.
  - apply map_Forall_insert_2; [|done]. eapply request_wf_item; [by apply (Hwf rid)|done..|].
    left. by apply Hst.
  - intros r' Hr'. rewrite lookup_insert_eq in Hr'. simplify_eq. simpl. by apply Hst.
Qed.

Lemma purging_item rid m r ref i :
  purging rid m → m !! rid = Some r → dict_get ref (dr_inventory r) = Some i → item_wf (ref, i).
Proof.
  intros [Hwf _] Hr. apply (request_item_wf cfg), (Hwf _ _ Hr).
Qed.

Lemma purge_item_purging rid ref s :
  purging rid (requests s) →
  wp (purge_item rid ref) (λ _ s', purging rid (requests s')) s.
Proof.
  intros Hs. rt_run; try done; simpl in *; simplify_map_eq.
  - eapply purging_put_item; [done..|].
    pose proof (purging_item _ _ _ _ _ Hs H H0) as (_ & _ & Hack).
    intros Hk. split; [by apply Hack|done].
  - pose proof (purging_item _ _ _ _ _ Hs H H0) as (_ & Hd & _).
    assert (∀ i, ci_value i = ci_value a0 → local_copy_acknowledged i) as Hack.
    { intros i Hi Hk. rewrite Hi in Hk. apply derivative_valid_local in Hd.
      cbn in Hd. rewrite Hk, Heqb0 in Hd. done. }
    set (i1 := set_ci_attempts (ci_attempts a0 + 1) a0).
    apply (purging_put_item _ _ (set_dr_inventory (dict_set ref i1 (dr_inventory a)) a) _ i1);
      [by apply (purging_put_item _ _ a _ a0); auto|apply lookup_insert_eq| |done|by apply Hack].
    simpl. by rewrite dict_get_set, decide_True.
Qed.

Lemma run_purge_wf rid r s :
  requests_wf s → requests s !! rid = Some r →
  wp (run_purge rid r) (λ _ s', requests_wf s') s.
Proof.
  intros Hs Hr. unfold run_purge. rt_run.
  apply (wp_mfor (λ s, purging rid (requests s)) (λ _ s, purging rid (requests s))).
  - split; simpl.
    + apply requests_wf_insert; [done|]. apply request_wf_state; [|by left].
      eauto with retention.
    + intros r'. rewrite lookup_insert_eq. intros. by simplify_eq.
  - intros ref t _ Ht. eapply wp_mono; [|by apply purge_item_purging]. by intros [].
  - intros t [Ht _]. rt_run; [|done]. apply map_Forall_insert_2; [|done].
    apply request_wf_state; [eauto with retention|].
    destruct (all_completed _) eqn:Hall; [by right|by left].
  - by intros e t [].
Qed.

(** What an operation leaves in [requests] is what was there, or one insert. *)
Ltac wf_insert :=
  lazymatch goal with
  | Hs : Retention.requests_wf _ ?s |- Retention.requests_wf _ ?s' =>
      change (map_Forall (λ _ r, request_wf r) (requests s')); simpl;
      first [exact Hs | apply requests_wf_insert; [exact Hs|]]
  end.

Lemma create_requests_wf ctx src inv key ifm s :
  (∀ l, inv = Some l → Forall derivative_valid l) →
  (∀ f c src, inventory_provider cfg = Some f → Forall derivative_valid (f c src)) →
  requests_wf s → wp (create_request cfg ctx src inv key ifm) (λ _, requests_wf) s.
Proof.
  intros Hinv Hprov Hs. unfold create_request. rt_run; wf_insert; bools.
  all: apply request_wf_new; [eauto|done|done].
Qed.

Lemma preserves_register_requests ctx src s :
  requests_wf s → wp (register_source ctx src) (λ _, requests_wf) s.
Proof. intros Hs. unfold register_source. rt_run; wf_insert. Qed.

Lemma cancel_requests_wf ctx rid v key s :
  requests_wf s → wp (cancel ctx rid v key) (λ _, requests_wf) s.
Proof.
  intros Hs. unfold cancel. rt_run; wf_insert.
  apply (request_wf_version _ (set_dr_source_active true (set_dr_state "cancelled" r))).
  eauto using request_wf_state, or_introl with retention.
Qed.

Lemma hold_requests_wf ctx src v key su s :
  requests_wf s → wp (apply_legal_hold ctx src v key su) (λ _, requests_wf) s.
Proof.
  intros Hs. unfold apply_legal_hold. rt_run; wf_insert.
  apply (request_wf_version _ (set_dr_state "blocked_by_hold" r)).
  eauto using request_wf_state, or_introl with retention.
Qed.

Lemma release_requests_wf ctx hid v key su s :
  requests_wf s → wp (release_legal_hold ctx hid v key su) (λ _, requests_wf) s.
Proof.
  intros Hs. unfold release_legal_hold. rt_run; wf_insert.
  all: apply (request_wf_version _ (set_dr_state _ r)), request_wf_state;
    [eauto with retention|left; by destruct (_ <? _)].
Qed.

Lemma ack_requests_wf ctx rid ref ev v key s :
  requests_wf s → wp (acknowledge_local_copy ctx rid ref ev v key) (λ _, requests_wf) s.
Proof.
  intros Hs. unfold acknowledge_local_copy. rt_run; wf_insert. bools.
  apply (request_wf_version _ (set_dr_inventory _ r)).
  eapply request_wf_item; [by eauto with retention|done|done| |by right].
  intros _. split; [|intros _; left; eauto].
  assert (item_wf (ref, a)) as (_ & _ & Hack); [|by apply Hack].
  eapply (request_item_wf cfg); [|done]. eauto with retention.
Qed.

Lemma purge_requests_wf ctx rid v key su s :
  requests_wf s → wp (purge cfg ctx rid v key su) (λ _, requests_wf) s.
Proof.
  intros Hs. unfold purge. rt_run; try wf_insert.
  - apply request_wf_state; [eauto with retention|by left].
  - eapply wp_mono; [|by apply run_purge_wf]. intros [] t Ht; by rt_run.
Qed.

Lemma step_requests_wf s s' :
  (∀ f c src, inventory_provider cfg = Some f → Forall derivative_valid (f c src)) →
  requests_wf s → step cfg s s' → requests_wf s'.
Proof.
  intros Hprov Hs [ctx []]; [by apply create_requests_wf|
    by apply (preserves_register_requests ctx src)|
    by apply cancel_requests_wf|by apply hold_requests_wf|by apply release_requests_wf|
    by apply ack_requests_wf|by apply purge_requests_wf].
Qed.

(** In every reachable store every deletion request has an inventory
    whose keys are the distinct references of valid derivatives covering all
    six kinds, a version of at least 1 and a grace period of the configured
    length; a request is in state [purged] only when every item is
    completed; and no local copy was ever handed to the cleanup port: it is
    completed by an acknowledgement, or because it never existed. *)
Theorem reachable_requests_wf p s :
  (∀ f c src, inventory_provider cfg = Some f → Forall derivative_valid (f c src)) →
  reachable cfg p s → requests_wf s.
Proof.
  intros Hprov. apply (rt_reachable_ind_inv cfg p requests_wf); [done|].
  intros. by eapply step_requests_wf.
Qed.
End ReachableRequests.

(** ** Workspaces are isolated *)

Section Isolation.
Context {D : Digest} {W : World} (cfg : Config).

(** Requests and Legal Holds are the service's two scoped tables. *)
Definition requests_confined : RetentionContext → Repo → Repo → Prop :=
  Scoped.confined (λ r, same_scope (dr_context r)) "deletion" requests.
Definition holds_confined : RetentionContext → Repo → Repo → Prop :=
  Scoped.confined (λ h, same_scope (lh_context h)) "legal-hold" holds.
Definition confined (ctx : RetentionContext) (s s' : Repo) : Prop :=
  requests_confined ctx s s' ∧ holds_confined ctx s s'.
Definition ids_drawn (s : Repo) : Prop :=
  Scoped.ids_drawn "deletion" requests s ∧ Scoped.ids_drawn "legal-hold" holds s.

Ltac confine2 := split; confine.

Lemma rt_confined_create ctx src inv key ifm s :
  wp (create_request cfg ctx src inv key ifm) (λ _, confined ctx s) s.
Proof. unfold create_request. rt_run; confine2. Qed.

Lemma confined_register ctx src s : wp (register_source ctx src) (λ _, confined ctx s) s.
Proof. unfold register_source. rt_run; confine2. Qed.

Lemma confined_cancel ctx rid v key s : wp (cancel ctx rid v key) (λ _, confined ctx s) s.
Proof. unfold cancel. rt_run; confine2. Qed.

Lemma confined_hold ctx src v key su s :
  wp (apply_legal_hold ctx src v key su) (λ _, confined ctx s) s.
Proof. unfold apply_legal_hold. rt_run; confine2. Qed.

Lemma confined_release ctx hid v key su s :
  wp (release_legal_hold ctx hid v key su) (λ _, confined ctx s) s.
Proof. unfold release_legal_hold. rt_run; confine2. Qed.

Lemma confined_ack ctx rid ref ev v key s :
  wp (acknowledge_local_copy ctx rid ref ev v key) (λ _, confined ctx s) s.
Proof. unfold acknowledge_local_copy. rt_run; confine2. Qed.

(** What [purge] changes of a store while it works on [rid]. *)
Definition only_request (rid : string) (s s' : Repo) : Prop :=
  tokens (draws s') = tokens (draws s) ∧ holds s' = holds s ∧
  changed_only (eq rid) (requests s) (requests s').

Lemma only_request_purge_item rid ref s t :
  only_request rid s t → wp (purge_item rid ref) (λ _, only_request rid s) t.
Proof. intros (? & ? & ?). rt_run; split_and!; simpl; auto using changed_only_insert. Qed.

Lemma only_request_run_purge rid r s :
  wp (run_purge rid r) (λ _, only_request rid s) s.
Proof.
  unfold run_purge. rt_run.
  apply (wp_mfor (only_request rid s) (λ _, only_request rid s)).
  - split_and!; [done..|]. simpl. by apply changed_only_insert, changed_only_refl.
  - intros ref t _ Ht. eapply wp_mono; [|by apply only_request_purge_item]. by intros [].
  - intros t (? & ? & ?). rt_run; simpl in *; split_and!; simpl; try congruence;
      auto using changed_only_insert.
  - done.
Qed.

Lemma confined_purge ctx rid v key su s :
  wp (purge cfg ctx rid v key su) (λ _, confined ctx s) s.
Proof.
  unfold purge. rt_run; try confine2.
  eapply wp_mono; [|apply only_request_run_purge].
  intros o t (Htok & Hholds & Hreq). simpl in *.
  assert (confined ctx s t) as [[] []]; [|by destruct o; rt_run].
  split; split; simpl; [lia| |lia|rewrite Hholds; apply changed_only_refl].
  eapply changed_only_mono; [|done]. intros k <-. left. by eexists.
Qed.

Lemma rt_step_confined ctx s s' : step_by cfg ctx s s' → confined ctx s s'.
Proof.
  intros []; [apply rt_confined_create|apply confined_register|apply confined_cancel|
    apply confined_hold|apply confined_release|apply confined_ack|apply confined_purge].
Qed.

Lemma rt_reachable_ids_drawn p s : reachable cfg p s → ids_drawn s.
Proof.
  apply (rt_reachable_ind_inv cfg p ids_drawn).
  - split; intros k v; simpl; by rewrite lookup_empty.
  - intros t t' [Hr Hh] [ctx [Hreq Hholds]%rt_step_confined].
    split; by eapply confined_ids_drawn.
Qed.

(** Whatever a caller calls, with whatever arguments, the deletion
    requests and Legal Holds of every other tenant and workspace stay as
    they are.  (The tokens the identifiers are made of do not repeat.) *)
Theorem other_workspaces_untouched p s ctx s' :
  Inj (=) (=) token_at → reachable cfg p s → step_by cfg ctx s s' →
  (∀ rid r, requests s !! rid = Some r → same_scope (dr_context r) ctx = false →
     requests s' !! rid = Some r) ∧
  (∀ hid h, holds s !! hid = Some h → same_scope (lh_context h) ctx = false →
     holds s' !! hid = Some h).
Proof.
  intros Hinj [Hr Hh]%rt_reachable_ids_drawn [Hreq Hholds]%rt_step_confined.
  split; intros; [by eapply (confined_others _ _ requests)|by eapply (confined_others _ _ holds)].
Qed.
End Isolation.

(** ** Idempotency *)

Section Idempotency.
Context {D : Digest} {W : World}.

(** Two calls that an idempotency key told apart only if their digests collide. *)
Lemma version_fingerprint_inj rid rid' v v' :
  version_arg_ok v = true → version_arg_ok v' = true →
  version_fingerprint rid v = version_fingerprint rid' v' →
  (rid = rid' ∧ v = v') ∨
  collision (json_bytes true (JArr [JStr rid; json_of v]))
            (json_bytes true (JArr [JStr rid'; json_of v'])).
Proof.
  intros Hv Hv' [H|H]%fingerprint_inj; [left|by right].
  assert (JArr [JStr rid; json_of v] = JArr [JStr rid'; json_of v']) as E.
  { by destruct v, v'; simpl in *. }
  simplify_eq. split; [done|]. by apply json_of_inj.
Qed.

(** Requests are never removed and never change hands; a remembered key
    never changes what it stands for. *)
Definition same_owner (r r' : DeletionRequest) : Prop := dr_context r' = dr_context r.
#[local] Instance same_owner_preorder : PreOrder same_owner.
Proof. split; [done|]. intros r1 r2 r3. unfold same_owner. congruence. Qed.

Abbreviation grown := (Scoped.grown same_owner).

Definition grows (s s' : Repo) : Prop :=
  grown (requests s) (requests s') ∧ idempotency s ⊆ idempotency s'.

#[local] Instance grows_preorder : PreOrder grows.
Proof.
  split; [intros s; by split|].
  intros s1 s2 s3 [] []. split; by etrans.
Qed.

Ltac grow :=
  split; simpl;
  [ first [done | eapply (grown_update same_owner); done]
  | first [done | by apply insert_subseteq | idtac] ].

Lemma grows_create cfg ctx src inv key ifm s :
  Inj (=) (=) token_at → ids_drawn s →
  wp (create_request cfg ctx src inv key ifm) (λ _, grows s) s.
Proof.
  intros Hinj [Hd _]. unfold create_request. rt_run; try grow.
  all: simpl in *; split; simpl; [apply (grown_new same_owner)|by apply insert_subseteq].
  all: by eapply (next_id_new "deletion" requests).
Qed.

Lemma grows_register ctx src s : wp (register_source ctx src) (λ _, grows s) s.
Proof. unfold register_source. rt_run; grow. Qed.

Lemma grows_cancel ctx rid v key s : wp (cancel ctx rid v key) (λ _, grows s) s.
Proof. unfold cancel. rt_run; grow. Qed.

Lemma grows_hold ctx src v key su s : wp (apply_legal_hold ctx src v key su) (λ _, grows s) s.
Proof. unfold apply_legal_hold. rt_run; grow. Qed.

Lemma grows_release ctx hid v key su s :
  wp (release_legal_hold ctx hid v key su) (λ _, grows s) s.
Proof. unfold release_legal_hold. rt_run; grow. Qed.

Lemma grows_ack ctx rid ref ev v key s :
  wp (acknowledge_local_copy ctx rid ref ev v key) (λ _, grows s) s.
Proof. unfold acknowledge_local_copy. rt_run; grow. Qed.

(** Purging grows the requests and leaves the remembered keys alone. *)
Definition purge_grows (s s' : Repo) : Prop :=
  grown (requests s) (requests s') ∧ idempotency s' = idempotency s.

Lemma purge_grows_item rid ref s t :
  purge_grows s t → wp (purge_item rid ref) (λ _, purge_grows s) t.
Proof.
  intros [Hg Hi]. rt_run; try done; simpl in *; split; try done; simpl;
    repeat (etrans; [|by eapply (grown_update same_owner)]); done.
Qed.

Lemma purge_grows_run rid r s :
  requests s !! rid = Some r → wp (run_purge rid r) (λ _, purge_grows s) s.
Proof.
  intros Hr. unfold run_purge. rt_run.
  apply (wp_mfor (purge_grows s) (λ _, purge_grows s)).
  - split; [|done]. by eapply (grown_update same_owner).
  - intros ref t _ Ht. eapply wp_mono; [|by apply purge_grows_item]. by intros [].
  - intros t [Hg Hi]. rt_run; [|done]. split; [|done]. simpl.
    etrans; [done|]. by eapply (grown_update same_owner).
  - done.
Qed.

Lemma grows_purge cfg ctx rid v key su s : wp (purge cfg ctx rid v key su) (λ _, grows s) s.
Proof.
  unfold purge. rt_run; try grow.
  eapply wp_mono; [|by eapply purge_grows_run].
  intros o t [Hg Hi]. simpl in *.
  destruct o; rt_run; split; try done; simpl; rewrite Hi; [|done].
  by apply insert_subseteq.
Qed.

Lemma step_grows cfg s s' :
  Inj (=) (=) token_at → ids_drawn s → step cfg s s' → grows s s'.
Proof.
  intros Hinj Hd [ctx []]; [by apply grows_create|apply grows_register|apply grows_cancel|
    apply grows_hold|apply grows_release|apply grows_ack|apply grows_purge].
Qed.

Lemma rt_reachable_grows cfg p s t :
  Inj (=) (=) token_at → reachable cfg p s → rtc (step cfg) s t → grows s t.
Proof.
  intros Hinj Hs Ht. revert Hs. induction Ht as [s|s1 s2 s3 H12 _ IH]; intros Hs; [done|].
  etrans; [|apply IH]; [|by eapply rtc_r].
  eapply step_grows; eauto using rt_reachable_ids_drawn.
Qed.

(** What a successful, not replayed [cancel] does. *)
Definition cancelled (r : DeletionRequest) : DeletionRequest :=
  set_dr_version (dr_version r + 1) (set_dr_source_active true (set_dr_state "cancelled" r)).

Lemma cancel_result ctx rid v key s :
  idempotency s !! (ctx_actor_id ctx, "cancel", key) = None →
  wp (cancel ctx rid v key) (λ o s',
    match o with
    | Raise _ => s' = s
    | Ret w => ∃ r, requests s !! rid = Some r ∧ requests s' !! rid = Some (cancelled r) ∧
        same_scope (dr_context r) ctx = true ∧ w = view (cancelled r) ∧
        version_arg_ok v = true ∧ safe_id key = true ∧ PyInt (dr_version r) = v ∧
        dr_purge_started r = false ∧ (dr_state r ∉ ["purged"; "cancelled"]) ∧
        idempotency s' !! (ctx_actor_id ctx, "cancel", key) =
          Some (version_fingerprint rid v, dr_request_id r)
    end) s.
Proof.
  intros Hk. unfold cancel. rt_run; try done; [|congruence].
  unfold version_is in *. bools. eexists r. split_and!; try done; simpl; apply lookup_insert_eq.
Qed.

(** The replayed call. *)
Lemma cancel_again ctx rid v key s r fp id :
  safe_id key = true → version_arg_ok v = true →
  requests s !! rid = Some r → same_scope (dr_context r) ctx = true →
  idempotency s !! (ctx_actor_id ctx, "cancel", key) = Some (fp, id) →
  cancel ctx rid v key s =
    (s, if (fp =? version_fingerprint rid v)%string then Ret (view r)
        else Raise (RetentionError "IDEMPOTENCY_KEY_REUSED" 409)).
Proof.
  intros Hkey Hv Hr Hsc Hi.
  unfold cancel, write, safe, request, find_request, replay, bind, gets, guard, from_option.
  rewrite Hkey, Hv. cbn. rewrite Hr, Hsc. cbn. rewrite Hi. by destruct (fp =? _)%string.
Qed.

(** A cancellation is idempotent.  Once a call with a fresh key has
    cancelled a request, then in every later store, whatever was called in
    between, the same call returns the current view of the request, and a
    call with the same key for another request or version is refused; neither
    changes anything.  (The exception would be two fingerprints that collide.) *)
Theorem cancel_replay cfg p ctx rid v key s w t :
  Inj (=) (=) token_at → reachable cfg p s →
  idempotency s !! (ctx_actor_id ctx, "cancel", key) = None →
  result (cancel ctx rid v key) s = Ret w →
  rtc (step cfg) (final (cancel ctx rid v key) s) t →
  (∃ r, requests t !! rid = Some r ∧ cancel ctx rid v key t = (t, Ret (view r))) ∧
  ∀ rid' r' v', requests t !! rid' = Some r' → same_scope (dr_context r') ctx = true →
    version_arg_ok v' = true → (rid', v') ≠ (rid, v) →
    cancel ctx rid' v' key t = (t, Raise (RetentionError "IDEMPOTENCY_KEY_REUSED" 409)) ∨
    collision (json_bytes true (JArr [JStr rid; json_of v]))
              (json_bytes true (JArr [JStr rid'; json_of v'])).
Proof.
  intros Hinj Hreach Hk Hret Ht.
  pose proof (cancel_result ctx rid v key s Hk) as Hres. unfold wp in Hres.
  rewrite Hret in Hres.
  destruct Hres as (r & Hr & Hr' & Hsc & -> & Hv & Hkey & _ & _ & _ & Hi).
  pose proof (step_cancel cfg ctx s rid v key) as Hstep.
  assert (reachable cfg p (final (cancel ctx rid v key) s)) as Hreach'
    by (eapply rtc_r; [done|by exists ctx]).
  destruct (rt_reachable_grows cfg p _ _ Hinj Hreach' Ht) as [Hg Hsub].
  destruct (Hg _ _ Hr') as (rt & Hrt & Hct). unfold same_owner in Hct; simpl in Hct.
  eapply lookup_weaken in Hi; [|done]. split.
  - exists rt. split; [done|].
    rewrite (cancel_again ctx rid v key t rt _ _ Hkey Hv Hrt ltac:(congruence) Hi).
    by rewrite String.eqb_refl.
  - intros rid' r' v' Hrid' Hsc' Hv' Hne.
    rewrite (cancel_again ctx rid' v' key t r' _ _ Hkey Hv' Hrid' Hsc' Hi).
    destruct (String.eqb_spec (version_fingerprint rid v) (version_fingerprint rid' v')) as [E|E];
      [|by left].
    apply version_fingerprint_inj in E as [[-> ->]|E]; [done|by right|done..].
Qed.
End Idempotency.

(** ** A concrete run *)

Module Sample.
#[local] Existing Instance checksum_digest.
#[local] Existing Instance sample_world.

Definition alice : RetentionContext :=
  mkContext "tenant-1" "workspace-1" "alice" "trace-1" "policy-1" true.
Definition mallory : RetentionContext :=
  mkContext "tenant-1" "workspace-2" "mallory" "trace-2" "policy-1" true.

Definition derivative (kind : string) : DerivativeInput :=
  mkDerivative kind ("fixture-" +:+ kind) (kind =? "known_local_copy")%string
    (if (kind =? "known_local_copy")%string then "not_present" else "present").

Definition inventory : list DerivativeInput :=
  map derivative ["original_content"; "index"; "preview"; "cache"; "known_local_copy";
                  "sync_reference"].

(** No grace period, so that the clock is past it at once. *)
Definition cfg : Config := mkConfig 0 "fixture-" None.

Definition s0 : Repo := empty_repo (mkCleanupPort ∅ 0 ∅).

Lemma inventory_valid l : Some inventory = Some l → Forall derivative_valid l.
Proof. intros [= <-]. repeat constructor. Qed.

(** [alice] requests the deletion of a source. *)
Definition s1 : Repo :=
  final (create_request cfg alice "source-1" (Some inventory) "key-1" (PyStr "*")) s0.
Definition rid : string := "deletion-0".

Lemma rt_s1_reachable : reachable cfg (mkCleanupPort ∅ 0 ∅) s1.
Proof. eapply rtc_once. exists alice. apply step_create, inventory_valid. Qed.

(** She cancels it. *)
Definition s2 : Repo := final (cancel alice rid (PyInt 1) "key-2") s1.

Lemma rt_s2_reachable : reachable cfg (mkCleanupPort ∅ 0 ∅) s2.
Proof. eapply rtc_r; [apply rt_s1_reachable|]. exists alice. apply step_cancel. Qed.
End Sample.

Section Witnesses.
Import Sample.
#[local] Existing Instance checksum_digest.
#[local] Existing Instance sample_world.

(** The code's own sequence of events after a cancellation: the source is
    active again, yet the request can still be purged. *)
Theorem cancelled_request_is_purged :
  (∃ r, requests s2 !! rid = Some r ∧ dr_state r = "cancelled" ∧ dr_source_active r = true) ∧
  ∃ w, result (purge cfg alice rid (PyInt 2) "key-3" true) s2 = Ret w ∧
    drv_state w = "purged" ∧ drv_source_active w = true.
Proof. vm_compute. split; eexists; split_and!; reflexivity. Qed.

Lemma s1_request :
  ∃ r, requests s1 !! rid = Some r ∧ same_scope (dr_context r) mallory = false.
Proof. vm_compute. eexists. split; reflexivity. Qed.

Lemma s1_cancel : ∃ w, result (cancel alice rid (PyInt 1) "key-2") s1 = Ret w.
Proof. vm_compute. eexists. reflexivity. Qed.

Lemma reachable_requests_wf_witness :
  requests s1 !! rid ≠ None ∧ requests_wf cfg s1.
Proof.
  split; [by vm_compute|].
  apply (reachable_requests_wf cfg (mkCleanupPort ∅ 0 ∅)); [done|apply rt_s1_reachable].
Defined.

Lemma retention_audit_chained_witness :
  length (audit s2) = 4%nat ∧ chain_ok (audit s2).
Proof.
  split; [by vm_compute|].
  apply (retention_audit_chained cfg (mkCleanupPort ∅ 0 ∅)), rt_s2_reachable.
Defined.

Lemma other_workspaces_untouched_witness :
  let s' := final (purge cfg mallory rid (PyInt 1) "key-3" true) s1 in
  requests s1 !! rid ≠ None ∧ requests s' !! rid = requests s1 !! rid.
Proof.
  cbv zeta. split; [by vm_compute|].
  destruct s1_request as (r & E & Hr). rewrite E.
  apply (other_workspaces_untouched cfg (mkCleanupPort ∅ 0 ∅) s1 mallory);
    [apply sample_tokens_inj|apply rt_s1_reachable|apply step_purge|exact E|exact Hr].
Defined.

Lemma cancel_replay_witness :
  ∃ r, requests s2 !! rid = Some r ∧
    cancel alice rid (PyInt 1) "key-2" s2 = (s2, Ret (view r)).
Proof.
  destruct s1_cancel as [w E].
  apply (cancel_replay cfg (mkCleanupPort ∅ 0 ∅) alice rid (PyInt 1) "key-2" s1 w s2);
    [apply sample_tokens_inj|apply rt_s1_reachable|by vm_compute|exact E|apply rtc_refl].
Defined.
End Witnesses.
