(* ===== verification/Sync.v ===== *)
(** Approved copy of local items to the cloud (sync.py).

    The in-memory repository and the reference transfer port are the record
    [Repo]; each method of [SyncService] is a computation on it.  An operation
    object is written back where the program mutates it, so a loop that raises
    leaves what it had done.

    Theorems: the shape of every operation in every reachable store
    ([sync_operations_wf]); what a batch needs before it transmits
    ([transfer_only_approved]), what it records ([transfer_batch_result]) and
    that it happens once ([transfer_replay]); the transfer port
    ([transmit_once]); isolation ([sync_isolated]).  The concrete run at the
    end shows that the port's replays cross tenants. *)

From S2P Require Import Prelude Sha256 PyStr Json Scoped.
#[local] Open Scope Z_scope.

(** ** Data *)

Definition SyncError (code : string) (status : Z) : exn := Raised code status false.

Inductive ConflictResolutionChoice :=
| KEEP_LOCAL_AS_NEW_VERSION
| KEEP_CLOUD
| KEEP_BOTH.

Definition choice_value (c : ConflictResolutionChoice) : string :=
  match c with
  | KEEP_LOCAL_AS_NEW_VERSION => "keep_local_as_new_version"
  | KEEP_CLOUD => "keep_cloud"
  | KEEP_BOTH => "keep_both"
  end.

Inductive SyncItemKind := SOURCE_VERSION | OUTPUT_VERSION.

#[export] Instance sync_item_kind_eq_dec : EqDecision SyncItemKind.
Proof. solve_decision. Defined.

Definition kind_value (k : SyncItemKind) : string :=
  match k with SOURCE_VERSION => "source_version" | OUTPUT_VERSION => "output_version" end.

Record SyncContext := mkContext {
  ctx_tenant_id : string;
  ctx_workspace_id : string;
  ctx_actor_id : string;
  ctx_trace_id : string;
  ctx_policy_version : string
}.

(** [SyncContext.__post_init__] *)
Definition context_valid (c : SyncContext) : bool :=
  safe_id (ctx_tenant_id c) && safe_id (ctx_workspace_id c) && safe_id (ctx_actor_id c) &&
  safe_id (ctx_trace_id c) && safe_id (ctx_policy_version c).

Definition make_context (t w a tr p : string) : outcome SyncContext :=
  let c := mkContext t w a tr p in
  if context_valid c then Ret c else Raise (SyncError "SYNC_CONTEXT_INVALID" 400).

Record SyncItemInput := mkItem {
  it_item_id : string;
  it_source_version_id : option string;
  it_local_object_id : string;
  it_digest_sha256 : string;
  it_byte_size : Z;
  it_content_type : string;
  it_base_cloud_version_id : option string;
  it_base_cloud_digest : option string;
  it_item_kind : SyncItemKind;
  it_output_version_id : option string;
  it_dependency_item_ids : list string
}.

Definition OUTPUT_CONTENT_TYPE : string := "application/vnd.daon.offline-studio-output+json".

Definition opt_safe (o : option string) : bool :=
  match o with Some v => safe_id v | None => false end.

(** [version_contract_valid] *)
Definition version_contract_valid (i : SyncItemInput) : bool :=
  let source_valid := opt_safe (it_source_version_id i) in
  let output_valid := opt_safe (it_output_version_id i) in
  match it_item_kind i with
  | SOURCE_VERSION =>
      source_valid && negb output_valid && bool_decide (it_dependency_item_ids i = [])
  | OUTPUT_VERSION =>
      output_valid && negb source_valid && negb (bool_decide (it_dependency_item_ids i = [])) &&
      String.eqb (it_content_type i) OUTPUT_CONTENT_TYPE
  end.

(** [tuple(sorted(set(ids))) == ids], and every one is an identifier. *)
Definition dependencies_valid (i : SyncItemInput) : bool :=
  bool_decide (sorted_strings (fromkeys (it_dependency_item_ids i)) = it_dependency_item_ids i) &&
  forallb safe_id (it_dependency_item_ids i).

(** [SyncItemInput.__post_init__] *)
Definition item_valid (i : SyncItemInput) : bool :=
  safe_id (it_item_id i) && safe_id (it_local_object_id i) &&
  version_contract_valid i && dependencies_valid i &&
  is_digest (it_digest_sha256 i) && (0 <=? it_byte_size i) &&
  content_type_ok (it_content_type i) &&
  match it_base_cloud_version_id i, it_base_cloud_digest i with
  | None, None => true
  | Some v, Some d => safe_id v && is_digest d
  | _, _ => false
  end.

(** [SyncItemInput.version_id]; the assertion holds for every valid item. *)
Definition version_id (i : SyncItemInput) : option string :=
  match it_item_kind i with
  | SOURCE_VERSION => it_source_version_id i
  | OUTPUT_VERSION => it_output_version_id i
  end.

Record TransferPayload := mkPayload {
  pl_item_id : string;
  pl_content : list N;
  pl_current_cloud_version_id : option string;
  pl_current_cloud_digest : option string
}.

Record TargetVersion := mkTarget {
  tv_target_version_id : string;
  tv_target_object_id : string;
  tv_item_id : string;
  tv_digest_sha256 : string;
  tv_previous_cloud_version_id : option string;
  tv_relation : string
}.

(** [_Conflict]; [SyncConflictView] has the same fields. *)
Record Conflict := mkConflict {
  cf_conflict_id : string;
  cf_item_id : string;
  cf_local_version_id : string;
  cf_local_digest : string;
  cf_cloud_version_id : option string;
  cf_cloud_digest : option string;
  cf_base_version_id : option string;
  cf_base_digest : option string;
  cf_state : string
}.

Record TransferBatchView := mkBatch {
  tb_batch_id : string;
  tb_state : string;
  tb_sequence : Z;
  tb_cursor : option string;
  tb_next_cursor : option string;
  tb_transferred_item_ids : list string;
  tb_conflict_ids : list string;
  tb_replayed : bool
}.

Record ConflictResolutionView := mkResolution {
  cr_resolution_id : string;
  cr_conflict_id : string;
  cr_choice : ConflictResolutionChoice;
  cr_target_version_id : option string;
  cr_replayed : bool
}.

Record SyncOperationView := mkOperationView {
  ov_operation_id : string;
  ov_tenant_id : string;
  ov_workspace_id : string;
  ov_actor_id : string;
  ov_target_area : string;
  ov_state : string;
  ov_version : Z;
  ov_manifest_digest : string;
  ov_approved_item_ids : list string;
  ov_completed_item_ids : list string;
  ov_batches : list TransferBatchView;
  ov_conflicts : list Conflict;
  ov_target_versions : list TargetVersion;
  ov_reindex_state : option string;
  ov_source_mutations : Z;
  ov_overwrite_count : Z;
  ov_item_ids : list string
}.

(** [SyncOperationView.etag] *)
Definition etag (v : SyncOperationView) : string :=
  dquoted ("sync:" +:+ ov_operation_id v +:+ ":" +:+ str_int (ov_version v)).

Record Operation := mkOperation {
  op_operation_id : string;
  op_context : SyncContext;
  op_target_area : string;
  op_items : list (string * SyncItemInput);
  op_manifest_digest : string;
  op_state : string;
  op_version : Z;
  op_approved_item_ids : list string;
  op_approval_snapshot_id : option string;
  op_batches : list TransferBatchView;
  op_conflicts : list Conflict;
  op_target_versions : list TargetVersion;
  op_completed_item_ids : gset string;
  op_reindex_state : option string
}.

(** What an idempotency key stands for: an identifier or a resolution. *)
Inductive Stored :=
| StoredId (id : string)
| StoredResolution (v : ConflictResolutionView).

(** [ReferenceTransferPort] *)
Record TransferPort := mkPort {
  tp_transmission_count : Z;
  tp_replays : gmap (string * string) TargetVersion
}.

(** [ReferenceSyncRepository], the port, and what was drawn so far. *)
Record Repo := mkRepo {
  operations : gmap string Operation;
  idempotency : gmap (string * string * string * string) (string * Stored);
  audit : list (string * string * string);
  port : TransferPort;
  draws : Draws
}.

Definition empty_repo : Repo := mkRepo ∅ ∅ [] (mkPort 0 ∅) (mkDraws 0 0).

Definition set_operations (v : gmap string Operation) (r : Repo) : Repo :=
  mkRepo v (idempotency r) (audit r) (port r) (draws r).
Definition set_idempotency (v : gmap (string * string * string * string) (string * Stored)) (r : Repo) : Repo :=
  mkRepo (operations r) v (audit r) (port r) (draws r).
Definition set_audit (v : list (string * string * string)) (r : Repo) : Repo :=
  mkRepo (operations r) (idempotency r) v (port r) (draws r).
Definition set_port (v : TransferPort) (r : Repo) : Repo :=
  mkRepo (operations r) (idempotency r) (audit r) v (draws r).
Definition set_draws (v : Draws) (r : Repo) : Repo :=
  mkRepo (operations r) (idempotency r) (audit r) (port r) v.
Definition set_op_state (v : string) (r : Operation) : Operation :=
  mkOperation (op_operation_id r) (op_context r) (op_target_area r) (op_items r) (op_manifest_digest r) v (op_version r) (op_approved_item_ids r) (op_approval_snapshot_id r) (op_batches r) (op_conflicts r) (op_target_versions r) (op_completed_item_ids r) (op_reindex_state r).
Definition set_op_version (v : Z) (r : Operation) : Operation :=
  mkOperation (op_operation_id r) (op_context r) (op_target_area r) (op_items r) (op_manifest_digest r) (op_state r) v (op_approved_item_ids r) (op_approval_snapshot_id r) (op_batches r) (op_conflicts r) (op_target_versions r) (op_completed_item_ids r) (op_reindex_state r).
Definition set_op_approved_item_ids (v : list string) (r : Operation) : Operation :=
  mkOperation (op_operation_id r) (op_context r) (op_target_area r) (op_items r) (op_manifest_digest r) (op_state r) (op_version r) v (op_approval_snapshot_id r) (op_batches r) (op_conflicts r) (op_target_versions r) (op_completed_item_ids r) (op_reindex_state r).
Definition set_op_approval_snapshot_id (v : option string) (r : Operation) : Operation :=
  mkOperation (op_operation_id r) (op_context r) (op_target_area r) (op_items r) (op_manifest_digest r) (op_state r) (op_version r) (op_approved_item_ids r) v (op_batches r) (op_conflicts r) (op_target_versions r) (op_completed_item_ids r) (op_reindex_state r).
Definition set_op_batches (v : list TransferBatchView) (r : Operation) : Operation :=
  mkOperation (op_operation_id r) (op_context r) (op_target_area r) (op_items r) (op_manifest_digest r) (op_state r) (op_version r) (op_approved_item_ids r) (op_approval_snapshot_id r) v (op_conflicts r) (op_target_versions r) (op_completed_item_ids r) (op_reindex_state r).
Definition set_op_conflicts (v : list Conflict) (r : Operation) : Operation :=
  mkOperation (op_operation_id r) (op_context r) (op_target_area r) (op_items r) (op_manifest_digest r) (op_state r) (op_version r) (op_approved_item_ids r) (op_approval_snapshot_id r) (op_batches r) v (op_target_versions r) (op_completed_item_ids r) (op_reindex_state r).
Definition set_op_target_versions (v : list TargetVersion) (r : Operation) : Operation :=
  mkOperation (op_operation_id r) (op_context r) (op_target_area r) (op_items r) (op_manifest_digest r) (op_state r) (op_version r) (op_approved_item_ids r) (op_approval_snapshot_id r) (op_batches r) (op_conflicts r) v (op_completed_item_ids r) (op_reindex_state r).
Definition set_op_completed_item_ids (v : gset string) (r : Operation) : Operation :=
  mkOperation (op_operation_id r) (op_context r) (op_target_area r) (op_items r) (op_manifest_digest r) (op_state r) (op_version r) (op_approved_item_ids r) (op_approval_snapshot_id r) (op_batches r) (op_conflicts r) (op_target_versions r) v (op_reindex_state r).
Definition set_op_reindex_state (v : option string) (r : Operation) : Operation :=
  mkOperation (op_operation_id r) (op_context r) (op_target_area r) (op_items r) (op_manifest_digest r) (op_state r) (op_version r) (op_approved_item_ids r) (op_approval_snapshot_id r) (op_batches r) (op_conflicts r) (op_target_versions r) (op_completed_item_ids r) v.
Definition set_cf_state (v : string) (r : Conflict) : Conflict :=
  mkConflict (cf_conflict_id r) (cf_item_id r) (cf_local_version_id r) (cf_local_digest r) (cf_cloud_version_id r) (cf_cloud_digest r) (cf_base_version_id r) (cf_base_digest r) v.

#[export] Instance repo_drawing : Drawing Repo :=
  {| draws_of := draws; with_draws := set_draws |}.

(** ** The fingerprinted values *)

(** [repr] of a [SyncItemInput]; its strings are identifiers, digests and
    content types, none of which needs an escape. *)
Definition repr_item (i : SyncItemInput) : string :=
  "SyncItemInput(item_id=" +:+ repr_str (it_item_id i) +:+
  ", source_version_id=" +:+ repr_opt (it_source_version_id i) +:+
  ", local_object_id=" +:+ repr_str (it_local_object_id i) +:+
  ", digest_sha256=" +:+ repr_str (it_digest_sha256 i) +:+
  ", byte_size=" +:+ str_int (it_byte_size i) +:+
  ", content_type=" +:+ repr_str (it_content_type i) +:+
  ", base_cloud_version_id=" +:+ repr_opt (it_base_cloud_version_id i) +:+
  ", base_cloud_digest=" +:+ repr_opt (it_base_cloud_digest i) +:+
  ", item_kind=" +:+
    match it_item_kind i with
    | SOURCE_VERSION => "<SyncItemKind.SOURCE_VERSION: 'source_version'>"
    | OUTPUT_VERSION => "<SyncItemKind.OUTPUT_VERSION: 'output_version'>"
    end +:+
  ", output_version_id=" +:+ repr_opt (it_output_version_id i) +:+
  ", dependency_item_ids=" +:+ repr_tuple (it_dependency_item_ids i) +:+ ")".

Definition item_le (i j : SyncItemInput) : Prop := String.le (it_item_id i) (it_item_id j).
#[export] Instance item_le_dec : RelDecision item_le.
Proof. intros i j. unfold item_le. apply _. Defined.

Section Service.
Context {D : Digest} {W : World}.
Abbreviation St := (M Repo).

(** [hashlib.sha256(content).hexdigest()] of a stored content *)
Definition content_digest (content : list N) : string := sha256_hex content.

(** ** ReferenceTransferPort *)

Definition transmit (item : SyncItemInput) (content : list N) (idempotency_key relation : string)
    : St TargetVersion :=
  replay <- gets (λ s, tp_replays (port s) !! (it_item_id item, idempotency_key)) ;;
  match replay with
  | Some version => ret version
  | None =>
      guard (Z.of_nat (length content) =? it_byte_size item) (SyncError "SYNC_CONTENT_INVALID" 400) ;;
      let digest := content_digest content in
      guard (String.eqb digest (it_digest_sha256 item))
        (SyncError "SYNC_CONTENT_DIGEST_MISMATCH" 400) ;;
      let suffix := String.substring 0 24
        (sha256_hex (encode (it_item_id item +:+ "|" +:+ idempotency_key))) in
      let version := mkTarget ("cloud-version-" +:+ suffix) ("cloud-object-" +:+ suffix)
        (it_item_id item) digest (it_base_cloud_version_id item) relation in
      modify (λ s, set_port
        (mkPort (tp_transmission_count (port s) + 1)
           (<[(it_item_id item, idempotency_key) := version]> (tp_replays (port s)))) s) ;;
      ret version
  end.

(** ** SyncService *)

Definition validate_write (key : string) (expected_version : pyobj) : St unit :=
  guard (safe_id key) (SyncError "IDEMPOTENCY_KEY_INVALID" 400) ;;
  guard (version_arg_ok expected_version) (SyncError "IF_MATCH_INVALID" 400).

(** Same tenant and workspace. *)
Definition same_scope (c c' : SyncContext) : bool :=
  String.eqb (ctx_tenant_id c) (ctx_tenant_id c') &&
  String.eqb (ctx_workspace_id c) (ctx_workspace_id c').

(** [_operation] *)
Definition operation (ctx : SyncContext) (oid : string) : St Operation :=
  found <- gets (λ s, operations s !! oid) ;;
  op <- from_option found (SyncError "SYNC_OPERATION_UNAVAILABLE" 404) ;;
  guard (same_scope (op_context op) ctx) (SyncError "SYNC_OPERATION_UNAVAILABLE" 404) ;;
  ret op.

Definition add_audit (oid action trace_id : string) : St unit :=
  modify (λ s, set_audit (audit s ++ [(oid, action, trace_id)]) s).

(** The object mutation [operation.x = ...], seen from the repository. *)
Definition put_operation (oid : string) (op : Operation) : St unit :=
  modify (λ s, set_operations (<[oid := op]> (operations s)) s).

Definition live_operation (oid : string) : St Operation :=
  found <- gets (λ s, operations s !! oid) ;;
  from_option found (PyError "KeyError").

Definition update_operation (oid : string) (f : Operation → Operation) : St unit :=
  op <- live_operation oid ;;
  put_operation oid (f op).

Definition remember (key : string * string * string * string) (fp : string) (v : Stored) : St unit :=
  modify (λ s, set_idempotency (<[key := (fp, v)]> (idempotency s)) s).

(** The lookup at the head of every write. *)
Definition replay (key : string * string * string * string) (fp : string) : St (option Stored) :=
  stored <- gets (λ s, idempotency s !! key) ;;
  match stored with
  | None => ret None
  | Some (fp', v) =>
      guard (String.eqb fp' fp) (SyncError "IDEMPOTENCY_KEY_REUSED" 409) ;;
      ret (Some v)
  end.

(** [_view] *)
Definition view (op : Operation) : SyncOperationView :=
  mkOperationView (op_operation_id op) (ctx_tenant_id (op_context op))
    (ctx_workspace_id (op_context op)) (ctx_actor_id (op_context op)) (op_target_area op)
    (op_state op) (op_version op) (op_manifest_digest op) (op_approved_item_ids op)
    (sorted_strings (elements (op_completed_item_ids op))) (op_batches op) (op_conflicts op)
    (op_target_versions op) (op_reindex_state op) 0 0
    (sorted_strings (dict_keys (op_items op))).

Definition repr_resolution (v : ConflictResolutionView) : string :=
  "ConflictResolutionView(resolution_id=" +:+ repr_str (cr_resolution_id v) +:+
  ", conflict_id=" +:+ repr_str (cr_conflict_id v) +:+
  ", choice=<ConflictResolutionChoice." +:+
    match cr_choice v with
    | KEEP_LOCAL_AS_NEW_VERSION => "KEEP_LOCAL_AS_NEW_VERSION"
    | KEEP_CLOUD => "KEEP_CLOUD"
    | KEEP_BOTH => "KEEP_BOTH"
    end +:+ ": " +:+ repr_str (choice_value (cr_choice v)) +:+
  ">, target_version_id=" +:+ repr_opt (cr_target_version_id v) +:+
  ", replayed=" +:+ repr_bool (cr_replayed v) +:+ ")".

(** [str(replay[1])] *)
Definition stored_str (v : Stored) : string :=
  match v with StoredId id => id | StoredResolution r => repr_resolution r end.

Definition manifest_line (i : SyncItemInput) : string :=
  it_item_id i +:+ ":" +:+ kind_value (it_item_kind i) +:+ ":" +:+
  default "None" (version_id i) +:+ ":" +:+
  String.concat "," (it_dependency_item_ids i) +:+ ":" +:+ it_digest_sha256 i.

Definition manifest_digest (items : list SyncItemInput) : string :=
  sha256_hex (encode (String.concat "|" (map manifest_line (merge_sort item_le items)))).

Definition create_fingerprint (target_area : string) (items : list SyncItemInput) : string :=
  fingerprint (JArr [JStr target_area; JArr (map (λ i, JStr (repr_item i)) items)]).

Definition create_operation (ctx : SyncContext) (target_area : string)
    (items : list SyncItemInput) (key : string) (if_match : pyobj) : St SyncOperationView :=
  validate_write key if_match ;;
  guard (bool_decide (if_match = PyStr "*") && String.eqb target_area "cloud_sync" &&
         negb (bool_decide (length items = 0%nat))) (SyncError "SYNC_PREVIEW_INVALID" 400) ;;
  let by_id := dict_of it_item_id items in
  guard (Nat.eqb (length by_id) (length items)) (SyncError "SYNC_PREVIEW_INVALID" 400) ;;
  let fp := create_fingerprint target_area items in
  let rkey := (ctx_tenant_id ctx, ctx_workspace_id ctx, ctx_actor_id ctx, key) in
  replayed <- replay rkey fp ;;
  match replayed with
  | Some v => op <- operation ctx (stored_str v) ;; ret (view op)
  | None =>
      oid <- new_id "sync" ;;
      let op := mkOperation oid ctx target_area by_id (manifest_digest items)
        "awaiting_approval" 1 [] None [] [] [] ∅ None in
      put_operation oid op ;;
      remember rkey fp (StoredId oid) ;;
      add_audit oid "sync.preview.created" (ctx_trace_id ctx) ;;
      ret (view op)
  end.

Definition get_operation (ctx : SyncContext) (oid : string) : St SyncOperationView :=
  op <- operation ctx oid ;; ret (view op).

Definition operation_ge (o o' : Operation) : Prop :=
  String.le (op_operation_id o') (op_operation_id o).
#[export] Instance operation_ge_dec : RelDecision operation_ge.
Proof. intros o o'. unfold operation_ge. apply _. Defined.

Definition list_operations (ctx : SyncContext) : St (list SyncOperationView) :=
  gets (λ s, map view (merge_sort operation_ge
    (filter (λ op, same_scope (op_context op) ctx = true)
       (map snd (map_to_list (operations s)))))).

Definition locate_workspace (tenant_id oid : string) : St string :=
  found <- gets (λ s, operations s !! oid) ;;
  op <- from_option found (SyncError "SYNC_OPERATION_UNAVAILABLE" 404) ;;
  guard (String.eqb (ctx_tenant_id (op_context op)) tenant_id)
    (SyncError "SYNC_OPERATION_UNAVAILABLE" 404) ;;
  ret (ctx_workspace_id (op_context op)).

(** The dependencies of the item stored under [id]. *)
Definition dependencies_of (op : Operation) (id : string) : list string :=
  match dict_get id (op_items op) with
  | Some i => it_dependency_item_ids i
  | None => []
  end.

Definition approve (ctx : SyncContext) (oid : string) (approved_item_ids : list string)
    (step_up_authorization_id : string) (expected_version : pyobj) (key : string)
    (approval_verified : bool) : St SyncOperationView :=
  validate_write key expected_version ;;
  guard (approval_verified && negb (String.eqb step_up_authorization_id ""))
    (SyncError "STEP_UP_REQUIRED" 403) ;;
  let fp := fingerprint (JArr [JStr oid; JArr (map JStr approved_item_ids);
    JStr step_up_authorization_id; json_of expected_version]) in
  op <- operation ctx oid ;;
  let rkey := (oid, ctx_actor_id ctx, "approve", key) in
  replayed <- replay rkey fp ;;
  match replayed with
  | Some _ => ret (view op)
  | None =>
      guard (version_is (op_version op) expected_version) (SyncError "SYNC_VERSION_CONFLICT" 409) ;;
      let approved := fromkeys approved_item_ids in
      guard (negb (bool_decide (approved = [])) &&
             forallb (λ id, bool_decide (id ∈ dict_keys (op_items op))) approved)
        (SyncError "SYNC_SCOPE_EXPANSION_DENIED" 403) ;;
      guard (forallb (λ id, forallb (λ d, bool_decide (d ∈ approved)) (dependencies_of op id)) approved)
        (SyncError "SYNC_DEPENDENCY_REQUIRED" 409) ;;
      snapshot <- new_id "sync-approval" ;;
      let op' := set_op_version (op_version op + 1) (set_op_state "approved"
        (set_op_approval_snapshot_id (Some snapshot) (set_op_approved_item_ids approved op))) in
      put_operation oid op' ;;
      remember rkey fp (StoredId snapshot) ;;
      add_audit (op_operation_id op) "sync.approved" (ctx_trace_id ctx) ;;
      ret (view op')
  end.

Definition payload_json (p : TransferPayload) : json :=
  JArr [JStr (pl_item_id p); JStr (content_digest (pl_content p));
        JOpt (pl_current_cloud_version_id p); JOpt (pl_current_cloud_digest p)].

Definition find_batch (v : Stored) (op : Operation) : option TransferBatchView :=
  match v with
  | StoredId id => List.find (λ b, String.eqb (tb_batch_id b) id) (op_batches op)
  | StoredResolution _ => None
  end.

(** The batch of a repeated call. *)
Definition replayed_batch (b : TransferBatchView) : TransferBatchView :=
  mkBatch (tb_batch_id b) (tb_state b) (tb_sequence b) (tb_cursor b) (tb_next_cursor b)
    (tb_transferred_item_ids b) (tb_conflict_ids b) true.

(** The body of the loop of [transfer_batch]; the accumulator is
    ([transferred], [conflict_ids]). *)
Definition transfer_payload (oid key : string) (acc : list string * list string)
    (p : TransferPayload) : St (list string * list string) :=
  op <- live_operation oid ;;
  if bool_decide (pl_item_id p ∈ op_completed_item_ids op) then ret acc
  else
    item <- from_option (dict_get (pl_item_id p) (op_items op)) (PyError "KeyError") ;;
    guard (forallb (λ d, bool_decide (d ∈ op_completed_item_ids op)) (it_dependency_item_ids item))
      (SyncError "SYNC_DEPENDENCY_REQUIRED" 409) ;;
    if negb (bool_decide ((pl_current_cloud_version_id p, pl_current_cloud_digest p) =
                          (it_base_cloud_version_id item, it_base_cloud_digest item))) then
      cid <- new_id "sync-conflict" ;;
      local <- from_option (version_id item) (PyError "AssertionError") ;;
      let conflict := mkConflict cid (it_item_id item) local (it_digest_sha256 item)
        (pl_current_cloud_version_id p) (pl_current_cloud_digest p)
        (it_base_cloud_version_id item) (it_base_cloud_digest item) "unresolved" in
      update_operation oid (λ op, set_op_conflicts (op_conflicts op ++ [conflict]) op) ;;
      ret (acc.1, acc.2 ++ [cid])
    else
      target <- transmit item (pl_content p) (key +:+ ":" +:+ it_item_id item) "copy" ;;
      update_operation oid (λ op,
        set_op_completed_item_ids ({[it_item_id item]} ∪ op_completed_item_ids op)
          (set_op_target_versions (op_target_versions op ++ [target]) op)) ;;
      ret (acc.1 ++ [it_item_id item], acc.2).

Definition approved_completed (op : Operation) : bool :=
  forallb (λ id, bool_decide (id ∈ op_completed_item_ids op)) (op_approved_item_ids op).

(** The state of the operation after a batch with or without conflicts. *)
Definition after_batch (conflicts : bool) (op : Operation) : Operation :=
  if conflicts then set_op_state "conflict" op
  else if approved_completed op then
    set_op_reindex_state (Some "reindex_requested") (set_op_state "reindex_requested" op)
  else set_op_state "transferring" op.

Definition transfer_fingerprint (oid : string) (expected_version : pyobj) (cursor : option string)
    (payloads : list TransferPayload) : string :=
  fingerprint (JArr [JStr oid; json_of expected_version; JOpt cursor;
                     JArr (map payload_json payloads)]).

Definition transfer_batch (ctx : SyncContext) (oid : string) (expected_version : pyobj)
    (key : string) (cursor : option string) (payloads : list TransferPayload)
    : St TransferBatchView :=
  validate_write key expected_version ;;
  guard (negb (bool_decide (length payloads = 0%nat))) (SyncError "SYNC_BATCH_INVALID" 400) ;;
  let fp := transfer_fingerprint oid expected_version cursor payloads in
  op <- operation ctx oid ;;
  let rkey := (oid, ctx_actor_id ctx, "transfer", key) in
  replayed <- replay rkey fp ;;
  match replayed with
  | Some v =>
      prior <- from_option (find_batch v op) (PyError "StopIteration") ;;
      ret (replayed_batch prior)
  | None =>
      when (bool_decide (op_approval_snapshot_id op = None))
        (add_audit (op_operation_id op) "sync.transfer.denied" (ctx_trace_id ctx) ;;
         raise (SyncError "SYNC_APPROVAL_REQUIRED" 403)) ;;
      guard (version_is (op_version op) expected_version) (SyncError "SYNC_VERSION_CONFLICT" 409) ;;
      guard (forallb (λ p, bool_decide (pl_item_id p ∈ op_approved_item_ids op)) payloads)
        (SyncError "SYNC_SCOPE_EXPANSION_DENIED" 403) ;;
      batch_id <- new_id "sync-batch" ;;
      acc <- mfold payloads (transfer_payload oid key) ([], []) ;;
      op <- live_operation oid ;;
      let conflicts := negb (bool_decide (acc.2 = [])) in
      let batch := mkBatch batch_id (if conflicts then "conflict" else "transferred")
        (Z.of_nat (length (op_batches op)) + 1) cursor
        (Some (str_int (Z.of_nat (size (op_completed_item_ids op))))) acc.1 acc.2 false in
      put_operation oid (after_batch conflicts (set_op_version (op_version op + 1)
        (set_op_batches (op_batches op ++ [batch]) op))) ;;
      remember rkey fp (StoredId batch_id) ;;
      add_audit (op_operation_id op) "sync.transfer.batch_recorded" (ctx_trace_id ctx) ;;
      ret batch
  end.

Definition keeps_local (c : ConflictResolutionChoice) : bool :=
  match c with KEEP_CLOUD => false | _ => true end.

Definition replayed_resolution (v : ConflictResolutionView) : ConflictResolutionView :=
  mkResolution (cr_resolution_id v) (cr_conflict_id v) (cr_choice v) (cr_target_version_id v) true.

(** [conflict.state = "resolved"] on the first conflict with the identifier. *)
Fixpoint resolve_first (cid : string) (cs : list Conflict) : list Conflict :=
  match cs with
  | [] => []
  | c :: cs' => if String.eqb (cf_conflict_id c) cid then set_cf_state "resolved" c :: cs'
                else c :: resolve_first cid cs'
  end.

(** Completing the item of the resolved conflict. *)
Definition after_resolution (cid item_id : string) (op : Operation) : Operation :=
  let op := set_op_version (op_version op + 1)
    (set_op_completed_item_ids ({[item_id]} ∪ op_completed_item_ids op)
      (set_op_conflicts (resolve_first cid (op_conflicts op)) op)) in
  if forallb (λ c, String.eqb (cf_state c) "resolved") (op_conflicts op) && approved_completed op then
    set_op_reindex_state (Some "reindex_requested") (set_op_state "reindex_requested" op)
  else op.

(** The transfer of a resolution that keeps the local version. *)
Definition keep_local (oid key : string) (item : SyncItemInput)
    (choice : ConflictResolutionChoice) (content : option (list N)) : St (option string) :=
  if keeps_local choice then
    content <- from_option content (SyncError "SYNC_CONTENT_REQUIRED" 400) ;;
    target <- transmit item content (key +:+ ":" +:+ it_item_id item) (choice_value choice) ;;
    update_operation oid (λ op, set_op_target_versions (op_target_versions op ++ [target]) op) ;;
    ret (Some (tv_target_version_id target))
  else ret None.

Definition resolve_conflict (ctx : SyncContext) (oid cid : string) (expected_version : pyobj)
    (key : string) (choice : ConflictResolutionChoice) (content : option (list N))
    : St ConflictResolutionView :=
  validate_write key expected_version ;;
  let fp := fingerprint (JArr [JStr oid; JStr cid; json_of expected_version;
    JStr (choice_value choice); JOpt (content_digest <$> content)]) in
  op <- operation ctx oid ;;
  let rkey := (oid, ctx_actor_id ctx, "resolution", key) in
  replayed <- replay rkey fp ;;
  match replayed with
  | Some (StoredResolution prior) => ret (replayed_resolution prior)
  | Some (StoredId _) => raise (PyError "AssertionError")
  | None =>
      guard (version_is (op_version op) expected_version) (SyncError "SYNC_VERSION_CONFLICT" 409) ;;
      conflict <- from_option (List.find (λ c, String.eqb (cf_conflict_id c) cid) (op_conflicts op))
        (SyncError "SYNC_CONFLICT_UNAVAILABLE" 404) ;;
      guard (String.eqb (cf_state conflict) "unresolved") (SyncError "SYNC_CONFLICT_UNAVAILABLE" 404) ;;
      item <- from_option (dict_get (cf_item_id conflict) (op_items op)) (PyError "KeyError") ;;
      target_version_id <- keep_local oid key item choice content ;;
      update_operation oid (after_resolution cid (it_item_id item)) ;;
      rid <- new_id "sync-resolution" ;;
      let resolution := mkResolution rid cid choice target_version_id false in
      remember rkey fp (StoredResolution resolution) ;;
      add_audit (op_operation_id op) "sync.conflict.resolved" (ctx_trace_id ctx) ;;
      ret resolution
  end.

(** ** Steps *)

(** One call of the service by [ctx].  [SyncItemInput] objects exist only once
    their constructor accepted them. *)
Inductive step_by (ctx : SyncContext) (s : Repo) : Repo → Prop :=
| step_create area items key ifm :
    Forall (λ i, item_valid i = true) items →
    step_by ctx s (final (create_operation ctx area items key ifm) s)
| step_approve oid ids su v key ok :
    step_by ctx s (final (approve ctx oid ids su v key ok) s)
| step_transfer oid v key cursor payloads :
    step_by ctx s (final (transfer_batch ctx oid v key cursor payloads) s)
| step_resolve oid cid v key choice content :
    step_by ctx s (final (resolve_conflict ctx oid cid v key choice content) s).

Definition step (s s' : Repo) : Prop := ∃ ctx, step_by ctx s s'.

Definition reachable (s : Repo) : Prop := rtc step empty_repo s.

Lemma sy_reachable_ind_inv (I : Repo → Prop) :
  I empty_repo → (∀ s s', I s → step s s' → I s') → ∀ s, reachable s → I s.
Proof. intros H0 Hs s Hr. eapply rtc_invariant; eauto. Qed.
End Service.

(** ** What the helpers do to a store *)

Section Helpers.
Context {D : Digest} {W : World}.

Lemma wp_operation ctx oid (Q : outcome Operation → Repo → Prop) s :
  (∀ op, operations s !! oid = Some op → same_scope (op_context op) ctx = true → Q (Ret op) s) →
  (∀ e, Q (Raise e) s) →
  wp (operation ctx oid) Q s.
Proof. intros HR HE. unfold operation. wp_run; auto. Qed.

Lemma sy_wp_replay key fp (Q : outcome (option Stored) → Repo → Prop) s :
  (idempotency s !! key = None → Q (Ret None) s) →
  (∀ v, idempotency s !! key = Some (fp, v) → Q (Ret (Some v)) s) →
  (∀ e, Q (Raise e) s) →
  wp (replay key fp) Q s.
Proof.
  intros HN HS HE. unfold replay. wp_run; auto.
  match goal with H : String.eqb _ _ = true |- _ => apply String.eqb_eq in H as -> end. auto.
Qed.

Lemma operation_known ctx oid op s :
  operations s !! oid = Some op → same_scope (op_context op) ctx = true →
  operation ctx oid s = (s, Ret op).
Proof. intros Hop Hs. unfold operation, bind, gets. rewrite Hop. simpl. by rewrite Hs. Qed.

Lemma replay_known key fp fp' v s :
  idempotency s !! key = Some (fp', v) →
  replay key fp s = (s, if (fp' =? fp)%string then Ret (Some v)
                        else Raise (SyncError "IDEMPOTENCY_KEY_REUSED" 409)).
Proof. intros Hi. unfold replay, bind, gets. rewrite Hi. by destruct (fp' =? fp)%string. Qed.

Lemma wp_live_operation oid op (Q : outcome Operation → Repo → Prop) s :
  operations s !! oid = Some op → Q (Ret op) s → wp (live_operation oid) Q s.
Proof. intros Hop HQ. unfold live_operation. by wp_run; simplify_eq. Qed.

Lemma wp_update_operation oid f op (Q : outcome unit → Repo → Prop) s :
  operations s !! oid = Some op →
  Q (Ret tt) (set_operations (<[oid := f op]> (operations s)) s) →
  wp (update_operation oid f) Q s.
Proof.
  intros Hop HQ. unfold update_operation, put_operation.
  apply wp_bind. by eapply wp_live_operation.
Qed.

(** A transmission touches nothing but the port. *)
Lemma wp_transmit item content key rel (Q : outcome TargetVersion → Repo → Prop) s :
  (∀ v, tp_replays (port s) !! (it_item_id item, key) = Some v → Q (Ret v) s) →
  (∀ v, tp_replays (port s) !! (it_item_id item, key) = None →
     Z.of_nat (length content) = it_byte_size item →
     content_digest content = it_digest_sha256 item →
     tv_item_id v = it_item_id item → tv_digest_sha256 v = it_digest_sha256 item →
     tv_previous_cloud_version_id v = it_base_cloud_version_id item → tv_relation v = rel →
     Q (Ret v) (set_port (mkPort (tp_transmission_count (port s) + 1)
        (<[(it_item_id item, key) := v]> (tp_replays (port s)))) s)) →
  (∀ e, tp_replays (port s) !! (it_item_id item, key) = None → Q (Raise e) s) →
  wp (transmit item content key rel) Q s.
Proof. intros HS HN HE. unfold transmit. wp_run; auto. bools. by apply HN. Qed.
End Helpers.

Ltac sy_step :=
  lazymatch goal with
  | |- wp (operation _ _) _ _ => apply wp_operation; [intros ? ? ?|intros ?]
  | |- wp (replay _ _) _ _ => apply sy_wp_replay; [intros ?|intros ? ?|intros ?]
  | |- wp (transmit _ _ _ _) _ _ =>
      apply wp_transmit; [intros ? ?|intros ? ? ? ? ? ? ? ?|intros ? ?]
  | |- wp (validate_write _ _) _ _ => unfold validate_write
  | |- wp (add_audit _ _ _) _ _ => unfold add_audit
  | |- wp (put_operation _ _) _ _ => unfold put_operation
  | |- wp (live_operation _) _ _ => unfold live_operation
  | |- wp (update_operation _ _) _ _ => unfold update_operation
  | |- wp (remember _ _ _) _ _ => unfold remember
  | _ => wp_step
  end; cbn beta iota.
Ltac sy_run := repeat sy_step.

(** ** Well-formed operations *)

Section Operations.
Context {D : Digest} {W : World}.

Definition item_wf (ki : string * SyncItemInput) : Prop :=
  ki.1 = it_item_id ki.2 ∧ item_valid ki.2 = true.

(** The identifiers that name items of the operation. *)
Definition has_item (op : Operation) (id : string) : Prop := id ∈ dict_keys (op_items op).

(** Every dependency of [id] is in [done]. *)
Definition depends_on (op : Operation) (done : gset string) (id : string) : Prop :=
  ∀ d, d ∈ dependencies_of op id → d ∈ done.

(** A conflict records what the item was based on and what the cloud had. *)
Definition conflict_of (op : Operation) (c : Conflict) : Prop :=
  ∃ i, dict_get (cf_item_id c) (op_items op) = Some i ∧
    version_id i = Some (cf_local_version_id c) ∧ cf_local_digest c = it_digest_sha256 i ∧
    cf_base_version_id c = it_base_cloud_version_id i ∧
    cf_base_digest c = it_base_cloud_digest i ∧
    (cf_cloud_version_id c, cf_cloud_digest c) ≠ (cf_base_version_id c, cf_base_digest c).

Record op_wf (oid : string) (op : Operation) : Prop := {
  wf_id : op_operation_id op = oid;
  wf_keys : NoDup (dict_keys (op_items op));
  wf_items : Forall item_wf (op_items op);
  wf_version : 1 <= op_version op;
  (** what is approved is part of the preview and closed under dependencies *)
  wf_approved : ∀ id, id ∈ op_approved_item_ids op →
    has_item op id ∧ depends_on op (list_to_set (op_approved_item_ids op)) id;
  (** an item is completed after the items it depends on *)
  wf_completed : ∀ id, id ∈ op_completed_item_ids op →
    has_item op id ∧ depends_on op (op_completed_item_ids op) id;
  (** a conflict is about an item whose dependencies are completed *)
  wf_conflicts : ∀ c, c ∈ op_conflicts op →
    conflict_of op c ∧ depends_on op (op_completed_item_ids op) (cf_item_id c);
  (** every version in the cloud is of a completed item *)
  wf_targets : ∀ t, t ∈ op_target_versions op → tv_item_id t ∈ op_completed_item_ids op;
  (** reindexing waits for everything that was approved *)
  wf_reindex : op_state op = "reindex_requested" →
    op_reindex_state op = Some "reindex_requested" ∧
    ∀ id, id ∈ op_approved_item_ids op → id ∈ op_completed_item_ids op;
  (** nothing happens before the approval *)
  wf_unapproved : op_approval_snapshot_id op = None →
    op_approved_item_ids op = [] ∧ op_completed_item_ids op = ∅ ∧
    op_conflicts op = [] ∧ op_target_versions op = [] ∧ op_batches op = [];
  (** batches are numbered from 1 *)
  wf_sequence : ∀ n b, op_batches op !! n = Some b → tb_sequence b = Z.of_nat n + 1
}.

(** The port remembers versions under their item. *)
Definition port_wf (p : TransferPort) : Prop :=
  ∀ k v, tp_replays p !! k = Some v → tv_item_id v = k.1.

Definition wf (s : Repo) : Prop :=
  map_Forall op_wf (operations s) ∧ port_wf (port s).

(** *** Changes of a well-formed operation *)

Lemma op_wf_new oid ctx area items m :
  Forall (λ i, item_valid i = true) items →
  length (dict_of it_item_id items) = length items →
  op_wf oid (mkOperation oid ctx area (dict_of it_item_id items) m "awaiting_approval" 1
    [] None [] [] [] ∅ None).
Proof.
  intros Hi Hlen. pose proof (dict_of_NoDup it_item_id items) as Hnd.
  rewrite (dict_of_all _ _ Hlen) in *.
  constructor; simpl; try done; try (intros ? ?; set_solver).
  apply Forall_map. eapply Forall_impl; [exact Hi|]. by intros i.
Qed.

Lemma op_wf_approve oid op approved snapshot :
  op_wf oid op →
  forallb (λ id, bool_decide (id ∈ dict_keys (op_items op))) approved = true →
  forallb (λ id, forallb (λ d, bool_decide (d ∈ approved)) (dependencies_of op id)) approved = true →
  op_wf oid (set_op_version (op_version op + 1) (set_op_state "approved"
    (set_op_approval_snapshot_id (Some snapshot) (set_op_approved_item_ids approved op)))).
Proof.
  intros [] Hin Hdeps. rewrite forallb_decide in Hin. rewrite forallb_elem in Hdeps.
  constructor; simpl; try done; [lia|].
  intros id Hid. split; [by apply Hin|].
  intros d Hd. apply elem_of_list_to_set.
  specialize (Hdeps _ Hid). rewrite forallb_decide in Hdeps. by apply Hdeps.
Qed.

Lemma depends_on_mono op done done' id :
  done ⊆ done' → depends_on op done id → depends_on op done' id.
Proof. intros H Hd d Hin. by apply H, Hd. Qed.

Lemma dict_get_has_item op id i : dict_get id (op_items op) = Some i → has_item op id.
Proof.
  intros H%dict_get_elem. unfold has_item, dict_keys.
  change id with (id, i).1. by apply list_elem_of_fmap_2.
Qed.

Lemma op_item_wf oid op id i :
  op_wf oid op → dict_get id (op_items op) = Some i → it_item_id i = id ∧ item_valid i = true.
Proof.
  intros Hop H%dict_get_elem. pose proof (wf_items _ _ Hop) as Hi.
  rewrite Forall_forall in Hi. by destruct (Hi _ H).
Qed.

Lemma depends_on_item op id i (P : gset string) :
  dict_get id (op_items op) = Some i →
  forallb (λ d, bool_decide (d ∈ P)) (it_dependency_item_ids i) = true → depends_on op P id.
Proof.
  intros Hi Hd. rewrite forallb_decide in Hd. intros d. unfold depends_on, dependencies_of.
  rewrite Hi. apply Hd.
Qed.

Lemma op_wf_conflict oid op c :
  op_wf oid op → op_approval_snapshot_id op ≠ None → conflict_of op c →
  depends_on op (op_completed_item_ids op) (cf_item_id c) →
  op_wf oid (set_op_conflicts (op_conflicts op ++ [c]) op).
Proof.
  intros [] Happ Hc Hd. constructor; simpl; try done.
  intros c' [Hc'| ->%list_elem_of_singleton]%elem_of_app; [by apply wf_conflicts0|done].
Qed.

Lemma op_wf_target oid op t :
  op_wf oid op → op_approval_snapshot_id op ≠ None → tv_item_id t ∈ op_completed_item_ids op →
  op_wf oid (set_op_target_versions (op_target_versions op ++ [t]) op).
Proof.
  intros [] Happ Ht. constructor; simpl; try done.
  intros t' [Ht'| ->%list_elem_of_singleton]%elem_of_app; [by apply wf_targets0|done].
Qed.

Lemma op_wf_complete oid op id :
  op_wf oid op → op_approval_snapshot_id op ≠ None → has_item op id →
  depends_on op (op_completed_item_ids op) id →
  op_wf oid (set_op_completed_item_ids ({[id]} ∪ op_completed_item_ids op) op).
Proof.
  intros [] Happ Hid Hd. constructor; simpl; try done.
  - intros id' [->%elem_of_singleton|Hid']%elem_of_union.
    + split; [done|]. eapply depends_on_mono; [|done]. set_solver.
    + destruct (wf_completed0 _ Hid'). split; [done|].
      eapply depends_on_mono; [|done]. set_solver.
  - intros c Hc. destruct (wf_conflicts0 _ Hc). split; [done|].
    eapply depends_on_mono; [|done]. set_solver.
  - intros t Ht. apply wf_targets0 in Ht. set_solver.
  - intros Hst. destruct (wf_reindex0 Hst) as [? Hall]. split; [done|].
    intros id' Hid'%Hall. set_solver.
Qed.

(** A batch that was recorded, and the state that follows from it. *)
Lemma op_wf_batch oid op b conflicts :
  op_wf oid op → op_approval_snapshot_id op ≠ None →
  tb_sequence b = Z.of_nat (length (op_batches op)) + 1 →
  op_wf oid (after_batch conflicts (set_op_version (op_version op + 1)
    (set_op_batches (op_batches op ++ [b]) op))).
Proof.
  intros [] Happ Hb. assert (∀ n b', (op_batches op ++ [b]) !! n = Some b' →
    tb_sequence b' = Z.of_nat n + 1) as Hseq.
  { intros n b' [Hn|[Hn Hb']]%lookup_app_Some; [by apply wf_sequence0|].
    apply list_lookup_singleton_Some in Hb' as [Hl <-]. rewrite Hb. lia. }
  unfold after_batch. destruct conflicts; [constructor; simpl; (done || lia)|].
  case_match eqn:E; constructor; simpl in *; try (done || lia).
  intros _. split; [done|]. unfold approved_completed in E. by rewrite forallb_decide in E.
Qed.

Lemma elem_of_resolve_first c cid cs :
  c ∈ resolve_first cid cs → ∃ c', c' ∈ cs ∧ (c = c' ∨ c = set_cf_state "resolved" c').
Proof.
  induction cs as [|c0 cs IH]; simpl; [by rewrite elem_of_nil|].
  case_match; rewrite elem_of_cons; intros [->|Hc].
  - exists c0. rewrite elem_of_cons. auto.
  - exists c. rewrite elem_of_cons. auto.
  - exists c0. rewrite elem_of_cons. auto.
  - destruct (IH Hc) as (c' & ? & ?). exists c'. rewrite elem_of_cons. auto.
Qed.

Lemma op_wf_resolved oid op cid :
  op_wf oid op → op_wf oid (set_op_conflicts (resolve_first cid (op_conflicts op)) op).
Proof.
  intros []. constructor; simpl; try done.
  - intros c (c' & Hc' & Hc)%elem_of_resolve_first.
    destruct (wf_conflicts0 _ Hc') as [Hcf ?]. by destruct Hc as [->| ->].
  - intros Happ. destruct (wf_unapproved0 Happ) as (? & ? & -> & ?). done.
Qed.

Lemma op_wf_resolution oid op cid id :
  op_wf oid op → op_approval_snapshot_id op ≠ None → has_item op id →
  depends_on op (op_completed_item_ids op) id → op_wf oid (after_resolution cid id op).
Proof.
  intros Hop Happ Hid Hd. unfold after_resolution.
  pose proof (op_wf_complete oid _ id (op_wf_resolved oid op cid Hop) Happ Hid Hd) as [].
  case_match eqn:E; constructor; simpl in *; try (done || lia).
  intros _. split; [done|]. bools. unfold approved_completed in *. by rewrite forallb_decide in *.
Qed.

Lemma op_wf_resolution_target oid op cid id t :
  op_wf oid (after_resolution cid id op) → op_approval_snapshot_id op ≠ None →
  tv_item_id t = id →
  op_wf oid (after_resolution cid id
    (set_op_target_versions (op_target_versions op ++ [t]) op)).
Proof.
  intros Hop Happ Ht.
  assert (∀ ts, after_resolution cid id (set_op_target_versions ts op) =
    set_op_target_versions ts (after_resolution cid id op)) as ->.
  { intros ts. unfold after_resolution, approved_completed. simpl. by case_match. }
  assert (op_target_versions op = op_target_versions (after_resolution cid id op)) as ->.
  { unfold after_resolution. by case_match. }
  apply op_wf_target; [done| |]; unfold after_resolution; case_match; simpl; set_solver.
Qed.
End Operations.

(** ** Every reachable operation is well formed *)

Section Reachable.
Context {D : Digest} {W : World}.

Lemma wf_insert s oid op : wf s → op_wf oid op → map_Forall op_wf (<[oid := op]> (operations s)).
Proof. intros [Hs _] Hop. by apply map_Forall_insert_2. Qed.

Lemma wf_lookup s oid op : wf s → operations s !! oid = Some op → op_wf oid op.
Proof. intros [Hs _] Hop. by apply (Hs oid). Qed.

Lemma port_wf_insert p n k v : port_wf p → tv_item_id v = k.1 → port_wf (mkPort n (<[k := v]> (tp_replays p))).
Proof.
  intros Hp Hv k' v'. simpl. destruct (decide (k = k')) as [<-|].
  - rewrite lookup_insert_eq. by intros [= <-].
  - rewrite lookup_insert_ne by done. apply Hp.
Qed.

(** The operation exists and has been approved. *)
Definition approved (oid : string) (s : Repo) : Prop :=
  wf s ∧ ∃ op, operations s !! oid = Some op ∧ op_approval_snapshot_id op ≠ None.

Lemma approved_insert s t oid op :
  operations t = <[oid := op]> (operations s) → wf s → op_wf oid op →
  op_approval_snapshot_id op ≠ None → port_wf (port t) → approved oid t.
Proof.
  intros Ht Hs Hop Happ Hp. split; [split; [rewrite Ht; by apply wf_insert|done]|].
  exists op. by rewrite Ht, lookup_insert_eq.
Qed.

Lemma create_wf ctx area items key ifm s :
  Forall (λ i, item_valid i = true) items → wf s →
  wp (create_operation ctx area items key ifm) (λ _, wf) s.
Proof.
  intros Hi Hs. unfold create_operation. sy_run; try done.
  split; [|by apply Hs]. apply wf_insert; [done|]. apply op_wf_new; [done|]. by bools.
Qed.

Lemma approve_wf ctx oid ids su v key ok s : wf s → wp (approve ctx oid ids su v key ok) (λ _, wf) s.
Proof.
  intros Hs. unfold approve. sy_run; try done.
  split; [|by apply Hs]. apply wf_insert; [done|].
  match goal with H : negb _ && _ = true |- _ => apply andb_true_iff in H as [_ H] end.
  by apply op_wf_approve; [eapply wf_lookup| |].
Qed.

(** A transmitted version is of the item it was transmitted for. *)
Lemma transmit_item s item key rel content :
  port_wf (port s) →
  wp (transmit item content key rel) (λ o s',
    operations s' = operations s ∧ port_wf (port s') ∧
    match o with Ret v => tv_item_id v = it_item_id item | Raise _ => True end) s.
Proof.
  intros Hp. sy_run; split_and!; try done.
  - by apply (Hp (it_item_id item, key)).
  - by apply port_wf_insert.
Qed.

Lemma transfer_payload_wf oid key acc p s :
  approved oid s → wp (transfer_payload oid key acc p) (λ _, approved oid) s.
Proof.
  intros Ha. pose proof Ha as (Hs & op & Hop & Happ). pose proof (wf_lookup _ _ _ Hs Hop) as Hwf.
  unfold transfer_payload. apply wp_bind. eapply wp_live_operation; [done|]. cbn iota.
  wp_step; [by apply wp_ret|].
  apply wp_bind, wp_from_option; [intros item Hi|done].
  apply wp_bind, wp_guard; intros Hd; [|done].
  pose proof (depends_on_item _ _ _ _ Hi Hd) as Hdeps.
  destruct (op_item_wf _ _ _ _ Hwf Hi) as [Hid _]. wp_step; bools.
  - (* a conflict *)
    apply wp_bind, wp_new_id, wp_bind, wp_from_option; [intros local Hlocal|done].
    cbv zeta. apply wp_bind. eapply wp_update_operation; [done|]. apply wp_ret.
    eapply (approved_insert s); [done|done| |exact Happ|apply Hs].
    apply op_wf_conflict; [done|done| |simpl; by rewrite Hid].
    exists item. simpl. by rewrite Hid.
  - (* a transmission *)
    apply wp_bind. eapply wp_mono; [|apply transmit_item, Hs].
    intros [t|e] s' (Hops & Hp & Ht).
    + apply wp_bind. eapply wp_update_operation; [by rewrite Hops|]. apply wp_ret.
      eapply (approved_insert s); [by simpl; rewrite Hops|done| |exact Happ|done].
      set (op' := set_op_completed_item_ids ({[it_item_id item]} ∪ op_completed_item_ids op) op).
      change (op_wf oid (set_op_target_versions (op_target_versions op' ++ [t]) op')).
      apply op_wf_target; [|done|simpl; rewrite Ht; by apply elem_of_union_l, elem_of_singleton_2].
      unfold op'.
      rewrite Hid. apply op_wf_complete; [done..|by eapply dict_get_has_item|done].
    + split; [split; [by rewrite Hops; apply Hs|done]|]. rewrite Hops. by eauto.
Qed.

Lemma transfer_wf ctx oid v key cursor payloads s :
  wf s → wp (transfer_batch ctx oid v key cursor payloads) (λ _, wf) s.
Proof.
  intros Hs. unfold transfer_batch. sy_run; try done.
  apply (wp_mfold (λ _, approved oid) (λ _, approved oid)).
  - split; [done|]. bools. by eauto.
  - intros acc p t _ Ht. eapply wp_mono; [|by apply transfer_payload_wf]. by intros [].
  - intros acc t (Ht & op' & Hop & Happ). apply wp_bind. eapply wp_live_operation; [done|].
    sy_run. split; [|apply Ht]. apply wf_insert; [done|].
    apply op_wf_batch; [by eapply wf_lookup|done|done].
  - by intros e t [].
Qed.

(** An unresolved conflict is about an item of an approved operation. *)
Lemma find_conflict oid op cid c item :
  op_wf oid op → List.find (λ c, String.eqb (cf_conflict_id c) cid) (op_conflicts op) = Some c →
  dict_get (cf_item_id c) (op_items op) = Some item →
  op_approval_snapshot_id op ≠ None ∧ has_item op (it_item_id item) ∧
  depends_on op (op_completed_item_ids op) (it_item_id item).
Proof.
  intros Hop [Hc%list_elem_of_In _]%List.find_some Hi.
  destruct (op_item_wf _ _ _ _ Hop Hi) as [-> _].
  destruct (wf_conflicts _ _ Hop _ Hc) as [_ Hd]. split_and!; [|by eapply dict_get_has_item|done].
  intros Hn. destruct (wf_unapproved _ _ Hop Hn) as (_ & _ & He & _). rewrite He in Hc. set_solver.
Qed.

Lemma keep_local_wp oid key item choice content op s :
  operations s !! oid = Some op → port_wf (port s) →
  wp (keep_local oid key item choice content) (λ o s', port_wf (port s') ∧
    match o with
    | Ret (Some v) => ∃ t, tv_item_id t = it_item_id item ∧ v = tv_target_version_id t ∧
        operations s' =
          <[oid := set_op_target_versions (op_target_versions op ++ [t]) op]> (operations s)
    | _ => operations s' = operations s
    end) s.
Proof.
  intros Hop Hp. unfold keep_local. sy_step; [|by apply wp_ret].
  apply wp_bind, wp_from_option; [intros bytes _|done].
  apply wp_bind. eapply wp_mono; [|by apply transmit_item].
  intros [t|e] s' (Hops & Hp' & Ht); [|done].
  apply wp_bind. eapply wp_update_operation; [by rewrite Hops|]. apply wp_ret.
  split; [done|]. exists t. simpl. by rewrite Hops.
Qed.

Lemma resolve_wf ctx oid cid v key choice content s :
  wf s → wp (resolve_conflict ctx oid cid v key choice content) (λ _, wf) s.
Proof.
  intros Hs. unfold resolve_conflict. sy_run; try done.
  match goal with H : List.find _ _ = Some _ |- _ => rename H into Hfind end.
  match goal with H : dict_get _ _ = Some ?i |- _ => rename H into Hi, i into item end.
  match goal with H : operations _ !! _ = Some ?o |- _ => rename H into Hop, o into op' end.
  pose proof (wf_lookup _ _ _ Hs Hop) as Hwf.
  destruct (find_conflict _ _ _ _ _ Hwf Hfind Hi) as (Happ & Hit & Hd).
  eapply wp_mono; [|by apply keep_local_wp, Hs].
  intros [[tv|]|e] s' [Hp Hops].
  - destruct Hops as (t & Ht & _ & Hops). apply wp_bind.
    eapply wp_update_operation; [by rewrite Hops, lookup_insert_eq|].
    sy_run. split; [|done]. simpl. rewrite Hops, insert_insert_eq. apply wf_insert; [done|].
    apply op_wf_resolution_target; [by apply op_wf_resolution|done|done].
  - apply wp_bind. eapply wp_update_operation; [by rewrite Hops|].
    sy_run. split; [|done]. simpl. rewrite Hops. apply wf_insert; [done|].
    by apply op_wf_resolution.
  - split; [|done]. rewrite Hops. apply Hs.
Qed.

Lemma step_wf s s' : wf s → step s s' → wf s'.
Proof.
  intros Hs [ctx []]; [by apply create_wf|by apply approve_wf|by apply transfer_wf|
    by apply resolve_wf].
Qed.

Lemma reachable_wf s : reachable s → wf s.
Proof.
  apply (sy_reachable_ind_inv wf); [|apply step_wf].
  split; [apply map_Forall_empty|]. intros k v. simpl. by rewrite lookup_empty.
Qed.

(** C28: in every reachable store every operation is well formed: what is
    approved is part of the preview and closed under dependencies, an item is
    completed after the items it depends on and a version in the cloud belongs
    to a completed item, a conflict is about a known item whose state in the
    cloud is not the one it was based on, nothing is transferred before an
    approval, batches are numbered consecutively, and reindexing is requested
    only when every approved item is completed. *)
Theorem sync_operations_wf s : reachable s → map_Forall op_wf (operations s).
Proof. by intros [Hs _]%reachable_wf. Qed.
End Reachable.

(** ** Workspaces are isolated *)

Section Isolation.
Context {D : Digest} {W : World}.

Definition confined : SyncContext → Repo → Repo → Prop :=
  Scoped.confined (λ op, same_scope (op_context op)) "sync" operations.
Definition ids_drawn : Repo → Prop := Scoped.ids_drawn "sync" operations.

(** What a call changes of a store while it works on one operation. *)
Definition only_operation (oid : string) (s s' : Repo) : Prop :=
  (tokens (draws s) <= tokens (draws s'))%nat ∧ changed_only (eq oid) (operations s) (operations s').

Lemma only_operation_refl oid s : only_operation oid s s.
Proof. split; [done|apply changed_only_refl]. Qed.

Lemma only_operation_confined ctx oid op s s' :
  operations s !! oid = Some op → same_scope (op_context op) ctx = true →
  only_operation oid s s' → confined ctx s s'.
Proof.
  intros Hop Hs [Hle Hch]. split; [done|]. eapply changed_only_mono; [|done].
  intros k <-. left. by exists op.
Qed.

Ltac only_op := split; simpl in *; [lia|]; repeat apply changed_only_insert; try first [done | apply changed_only_refl].

Lemma only_operation_transfer_payload oid key acc p s t :
  only_operation oid s t → wp (transfer_payload oid key acc p) (λ _, only_operation oid s) t.
Proof. intros [Hle Hch]. unfold transfer_payload. sy_run; only_op. Qed.

Lemma only_operation_keep_local oid key item choice content s t :
  only_operation oid s t → wp (keep_local oid key item choice content) (λ _, only_operation oid s) t.
Proof. intros [Hle Hch]. unfold keep_local. sy_run; only_op. Qed.

Lemma confined_transfer ctx oid v key cursor payloads s :
  wp (transfer_batch ctx oid v key cursor payloads) (λ _, confined ctx s) s.
Proof.
  unfold transfer_batch. sy_run; try confine.
  match goal with H : operations s !! _ = Some _ |- _ => rename H into Hop end.
  apply (wp_mfold (λ _, only_operation oid s) (λ _, only_operation oid s)).
  - by only_op.
  - intros acc p t _ Ht. eapply wp_mono; [|by apply only_operation_transfer_payload]. by intros [].
  - intros acc t [Hle Hch]. sy_run; eapply (only_operation_confined _ _ _ _ _ Hop); try done; only_op.
  - intros e t Ht. by eapply (only_operation_confined _ _ _ _ _ Hop).
Qed.

Lemma confined_resolve ctx oid cid v key choice content s :
  wp (resolve_conflict ctx oid cid v key choice content) (λ _, confined ctx s) s.
Proof.
  unfold resolve_conflict. sy_run; try confine.
  match goal with H : operations s !! _ = Some _ |- _ => rename H into Hop end.
  eapply wp_mono; [|apply (only_operation_keep_local _ _ _ _ _ s), only_operation_refl].
  intros [tv|e] t [Hle Hch]; [sy_run|]; eapply (only_operation_confined _ _ _ _ _ Hop);
    try done; only_op.
Qed.

Lemma sy_confined_create ctx area items key ifm s :
  wp (create_operation ctx area items key ifm) (λ _, confined ctx s) s.
Proof. unfold create_operation. sy_run; confine. Qed.

Lemma confined_approve ctx oid ids su v key ok s :
  wp (approve ctx oid ids su v key ok) (λ _, confined ctx s) s.
Proof. unfold approve. sy_run; confine. Qed.

Lemma sy_step_confined ctx s s' : step_by ctx s s' → confined ctx s s'.
Proof.
  intros []; [apply sy_confined_create|apply confined_approve|apply confined_transfer|
    apply confined_resolve].
Qed.

Lemma sy_reachable_ids_drawn s : reachable s → ids_drawn s.
Proof.
  apply (sy_reachable_ind_inv ids_drawn).
  - intros k v. simpl. by rewrite lookup_empty.
  - intros t t' Ht [ctx Hc%sy_step_confined]. by eapply confined_ids_drawn.
Qed.

(** A caller cannot change the operations of another tenant or workspace. *)
Theorem sync_isolated s ctx s' oid op :
  Inj (=) (=) token_at → reachable s → step_by ctx s s' →
  operations s !! oid = Some op → same_scope (op_context op) ctx = false →
  operations s' !! oid = Some op.
Proof.
  intros Hinj Hr%sy_reachable_ids_drawn Hc%sy_step_confined. 
  by eapply (confined_others (λ op, same_scope (op_context op)) "sync" operations).
Qed.
End Isolation.

(** ** Transfers *)

Section Transfer.
Context {D : Digest} {W : World}.

(** What the program requires of a batch before it transmits anything or
    changes the operation. *)
Record transfer_allowed (ctx : SyncContext) (oid : string) (v : pyobj)
    (payloads : list TransferPayload) (op : Operation) : Prop := {
  ta_scope : same_scope (op_context op) ctx = true;
  ta_approved : op_approval_snapshot_id op ≠ None;
  ta_version : PyInt (op_version op) = v;
  ta_items : ∀ p, p ∈ payloads → pl_item_id p ∈ op_approved_item_ids op
}.

(** Whatever its arguments, a batch that transmits content or changes an
    operation was allowed to: the operation belongs to the caller's workspace,
    has been approved, is at the expected version, and every payload is of an
    approved item. *)
Theorem transfer_only_approved ctx oid v key cursor payloads s :
  let s' := final (transfer_batch ctx oid v key cursor payloads) s in
  (port s' = port s ∧ operations s' = operations s) ∨
  ∃ op, operations s !! oid = Some op ∧ transfer_allowed ctx oid v payloads op.
Proof.
  cbv zeta. enough (wp (transfer_batch ctx oid v key cursor payloads) (λ _ s',
    (port s' = port s ∧ operations s' = operations s) ∨
    ∃ op, operations s !! oid = Some op ∧ transfer_allowed ctx oid v payloads op) s) by done.
  unfold transfer_batch. sy_run; try (by left).
  unfold version_is in *. bools.
  eapply (wp_mono _ (λ _ _, True)); [|done]. intros o t _.
  assert (∃ op, operations s !! oid = Some op ∧ transfer_allowed ctx oid v payloads op)
    by (eexists; split; [done|by constructor]).
  destruct o; sy_run; by right.
Qed.

(** The operation after some payloads: [done] items were transferred as the
    versions [ts], the others ended in the conflicts [cs]. *)
Definition progressed (op : Operation) (done : list string) (cs : list Conflict)
    (ts : list TargetVersion) : Operation :=
  set_op_conflicts (op_conflicts op ++ cs)
    (set_op_completed_item_ids (list_to_set done ∪ op_completed_item_ids op)
      (set_op_target_versions (op_target_versions op ++ ts) op)).

(** Every payload is of an item that is completed or in conflict. *)
Definition settled (op : Operation) (done : list string) (cs : list Conflict)
    (ps : list TransferPayload) : Prop :=
  ∀ p, p ∈ ps → pl_item_id p ∈ op_completed_item_ids op ∨ pl_item_id p ∈ done ∨
    pl_item_id p ∈ map cf_item_id cs.

Definition batch_progress (oid : string) (op : Operation) (pre : list TransferPayload)
    (acc : list string * list string) (t : Repo) : Prop :=
  ∃ cs ts, operations t !! oid = Some (progressed op acc.1 cs ts) ∧
    map cf_conflict_id cs = acc.2 ∧ map tv_item_id ts = acc.1 ∧ settled op acc.1 cs pre.

Lemma settled_snoc op done done' cs cs' pre p :
  settled op done cs pre → done ⊆ done' → map cf_item_id cs ⊆ map cf_item_id cs' →
  pl_item_id p ∈ op_completed_item_ids op ∨ pl_item_id p ∈ done' ∨
    pl_item_id p ∈ map cf_item_id cs' →
  settled op done' cs' (pre ++ [p]).
Proof.
  intros Hs Hd Hc Hp q [Hq| ->%list_elem_of_singleton]%elem_of_app; [|done].
  destruct (Hs q Hq) as [|[|]]; auto.
Qed.

Lemma progressed_transfer op done cs ts i t :
  set_op_completed_item_ids ({[i]} ∪ op_completed_item_ids (progressed op done cs ts))
    (set_op_target_versions (op_target_versions (progressed op done cs ts) ++ [t])
      (progressed op done cs ts)) =
  progressed op (done ++ [i]) cs (ts ++ [t]).
Proof.
  unfold progressed, set_op_conflicts, set_op_completed_item_ids, set_op_target_versions. simpl.
  rewrite <- app_assoc. f_equal. apply leibniz_equiv. set_solver.
Qed.

Lemma progressed_conflict op done cs ts c :
  set_op_conflicts (op_conflicts (progressed op done cs ts) ++ [c]) (progressed op done cs ts) =
  progressed op done (cs ++ [c]) ts.
Proof. unfold progressed, set_op_conflicts. simpl. by rewrite <- app_assoc. Qed.

Lemma transfer_payload_progress oid key op acc p pre s :
  approved oid s → batch_progress oid op pre acc s →
  wp (transfer_payload oid key acc p) (λ o s', match o with
      | Ret acc' => batch_progress oid op (pre ++ [p]) acc' s'
      | Raise _ => True
      end) s.
Proof.
  intros [Hs _] (cs & ts & Hop & Hcs & Hts & Hset).
  unfold transfer_payload. apply wp_bind. eapply wp_live_operation; [done|]. cbn iota.
  wp_step; bools.
  { apply wp_ret. exists cs, ts. split_and!; try done. eapply settled_snoc; [done..|].
    simpl in *. set_solver. }
  apply wp_bind, wp_from_option; [intros item Hi|done].
  apply wp_bind, wp_guard; intros _; [|done].
  destruct (op_item_wf _ _ _ _ (wf_lookup _ _ _ Hs Hop) Hi) as [Hid _].
  destruct (negb _) eqn:Hbase.
  - apply wp_bind, wp_new_id, wp_bind, wp_from_option; [intros local _|done].
    cbv zeta. apply wp_bind. eapply wp_update_operation; [done|]. apply wp_ret.
    eexists (cs ++ [_]), ts. simpl.
    split; [rewrite lookup_insert_eq; f_equal; apply progressed_conflict|].
    split_and!; [by rewrite map_app, Hcs|done|].
    eapply settled_snoc; [done|done| |]; rewrite map_app; simpl; set_solver.
  - apply wp_bind. eapply wp_mono; [|apply transmit_item, Hs].
    intros [t|e] s' (Hops & _ & Ht); [|done].
    apply wp_bind. eapply wp_update_operation; [by rewrite Hops|]. apply wp_ret.
    exists cs, (ts ++ [t]). split_and!; simpl; [|done|by rewrite map_app, Hts, <- Ht|].
    + rewrite lookup_insert_eq. f_equal. apply progressed_transfer.
    + eapply settled_snoc; [done|set_solver|done|]. rewrite Hid. set_solver.
Qed.

(** What a batch records.  A call with a fresh key that returns a batch
    changes the operation exactly so: the batch is appended under the next
    sequence number, the version grows by one, one version per transferred item
    and one conflict per reported conflict are appended, the transferred items
    become completed and nothing else does, and every item of the payloads is
    completed or in conflict; without conflicts, completing everything that was
    approved requests the reindexing. *)
Theorem transfer_batch_result ctx oid v key cursor payloads s op b :
  reachable s → operations s !! oid = Some op →
  idempotency s !! (oid, ctx_actor_id ctx, "transfer", key) = None →
  result (transfer_batch ctx oid v key cursor payloads) s = Ret b →
  transfer_allowed ctx oid v payloads op ∧
  tb_sequence b = Z.of_nat (length (op_batches op)) + 1 ∧ tb_replayed b = false ∧
  ∃ cs ts,
    operations (final (transfer_batch ctx oid v key cursor payloads) s) !! oid =
      Some (after_batch (negb (bool_decide (tb_conflict_ids b = [])))
        (set_op_version (op_version op + 1) (set_op_batches (op_batches op ++ [b])
          (progressed op (tb_transferred_item_ids b) cs ts)))) ∧
    map cf_conflict_id cs = tb_conflict_ids b ∧ map tv_item_id ts = tb_transferred_item_ids b ∧
    settled op (tb_transferred_item_ids b) cs payloads.
Proof.
  intros Hs%reachable_wf Hop Hk Hret.
  enough (wp (transfer_batch ctx oid v key cursor payloads) (λ o s', match o with
    | Raise _ => True
    | Ret b => transfer_allowed ctx oid v payloads op ∧
        tb_sequence b = Z.of_nat (length (op_batches op)) + 1 ∧ tb_replayed b = false ∧
        ∃ cs ts, operations s' !! oid =
            Some (after_batch (negb (bool_decide (tb_conflict_ids b = [])))
              (set_op_version (op_version op + 1) (set_op_batches (op_batches op ++ [b])
                (progressed op (tb_transferred_item_ids b) cs ts)))) ∧
          map cf_conflict_id cs = tb_conflict_ids b ∧
          map tv_item_id ts = tb_transferred_item_ids b ∧
          settled op (tb_transferred_item_ids b) cs payloads
    end) s) as H by (unfold wp in H; by rewrite Hret in H).
  unfold transfer_batch. sy_run; try done; try congruence. simplify_eq.
  unfold version_is in *. bools.
  apply (wp_mfold_prefix (λ pre acc t, approved oid t ∧ batch_progress oid op pre acc t)
    (λ _ _, True)); [| | |done].
  - split; [split; [done|by eauto]|]. exists [], []. split_and!; try done; [|intros p ?; set_solver].
    simpl. rewrite Hop. f_equal. unfold progressed, set_op_conflicts. simpl.
    destruct op. simpl. unfold set_op_completed_item_ids, set_op_target_versions. simpl.
    rewrite !app_nil_r. f_equal. apply leibniz_equiv. set_solver.
  - intros pre p acc t _ [Ha Hb]. eapply wp_mono;
      [|apply (wp_and _ _ _ _ (transfer_payload_wf _ _ _ _ _ Ha)
                 (transfer_payload_progress _ _ _ _ _ _ _ Ha Hb))].
    by intros [] ? [].
  - intros acc t [_ (cs & ts & Ht & Hcs & Hts & Hset)].
    apply wp_bind. eapply wp_live_operation; [done|]. sy_run. split_and!; try done.
    exists cs, ts. split_and!; try done. simpl. by rewrite lookup_insert_eq.
Qed.

(** The transfer port.  With a fresh key, a transmission succeeds exactly
    when the content has the announced size and digest; it then returns a
    version of the item with that digest, counts once, and every later
    transmission for the same item identifier under that key, whatever its item
    and content, returns this very version and transmits nothing.  Otherwise
    the refusal says which of the two failed and nothing changes. *)
Theorem transmit_once item content key rel s :
  tp_replays (port s) !! (it_item_id item, key) = None →
  match transmit item content key rel s with
  | (s', Ret v) =>
      Z.of_nat (length content) = it_byte_size item ∧
      content_digest content = it_digest_sha256 item ∧
      tv_item_id v = it_item_id item ∧ tv_digest_sha256 v = it_digest_sha256 item ∧
      tv_previous_cloud_version_id v = it_base_cloud_version_id item ∧ tv_relation v = rel ∧
      tp_transmission_count (port s') = tp_transmission_count (port s) + 1 ∧
      operations s' = operations s ∧
      ∀ item' content' rel', it_item_id item' = it_item_id item →
        transmit item' content' key rel' s' = (s', Ret v)
  | (s', Raise e) =>
      s' = s ∧
      if Z.of_nat (length content) =? it_byte_size item
      then content_digest content ≠ it_digest_sha256 item ∧
           e = SyncError "SYNC_CONTENT_DIGEST_MISMATCH" 400
      else e = SyncError "SYNC_CONTENT_INVALID" 400
  end.
Proof.
  intros Hk. unfold transmit, bind, gets, guard. rewrite Hk. cbv zeta.
  destruct (_ =? it_byte_size item) eqn:Hlen; [|done].
  destruct (String.eqb_spec (content_digest content) (it_digest_sha256 item)) as [Hd|Hd]; simpl;
    [|done].
  bools. split_and!; try done. intros item' content' rel' ->. by rewrite lookup_insert_eq.
Qed.
End Transfer.

(** ** Replays *)

Section Replay.
Context {D : Digest} {W : World}.

(** An operation keeps its owner, and its batches are only ever appended to. *)
Definition continues (op op' : Operation) : Prop :=
  op_context op' = op_context op ∧ op_batches op `prefix_of` op_batches op'.
#[local] Instance continues_preorder : PreOrder continues.
Proof.
  split; [by intros op|]. intros o1 o2 o3 [? H12] [? H23]. split; [congruence|by etrans].
Qed.

Definition grows (s s' : Repo) : Prop :=
  Scoped.grown continues (operations s) (operations s') ∧ idempotency s ⊆ idempotency s'.

(** Every batch carries an identifier that was drawn. *)
Definition batches_drawn (s : Repo) : Prop :=
  ∀ oid op b, operations s !! oid = Some op → b ∈ op_batches op →
    ∃ n, (n < tokens (draws s))%nat ∧ tb_batch_id b = Scoped.drawn_id "sync-batch" n.

(** The store while a call works on one operation: only that operation has
    changed, and not its owner or its batches. *)
Definition working (oid : string) (op : Operation) (s t : Repo) : Prop :=
  (tokens (draws s) <= tokens (draws t))%nat ∧ idempotency t = idempotency s ∧
  ∃ op', operations t = <[oid := op']> (operations s) ∧
    op_context op' = op_context op ∧ op_batches op' = op_batches op.

Lemma working_refl oid op s : operations s !! oid = Some op → working oid op s s.
Proof. intros Hop. split_and!; [done..|]. exists op. by rewrite insert_id. Qed.

Lemma working_put oid op s t t' o o' :
  working oid op s t → operations t !! oid = Some o →
  operations t' = <[oid := o']> (operations t) → idempotency t' = idempotency t →
  (tokens (draws t) <= tokens (draws t'))%nat →
  op_context o' = op_context o → op_batches o' = op_batches o → working oid op s t'.
Proof.
  intros (Hle & Hi & op' & Ht & Hc & Hb) Ho Ht' Hi' Hle' Hc' Hb'.
  rewrite Ht, lookup_insert_eq in Ho. simplify_eq.
  split_and!; [lia|congruence|]. exists o'. rewrite Ht', Ht, insert_insert_eq.
  split_and!; congruence.
Qed.

Lemma working_draw oid op s t t' :
  working oid op s t → operations t' = operations t → idempotency t' = idempotency t →
  (tokens (draws t) <= tokens (draws t'))%nat → working oid op s t'.
Proof.
  intros (Hle & Hi & op' & Ht & Ho) Ht' Hi' Hle'.
  split_and!; [lia|congruence|]. exists op'. by rewrite Ht'.
Qed.

Ltac working :=
  simpl in *; first
    [ done
    | eapply working_put; try done; simpl; lia
    | eapply working_draw; try done; simpl; lia ].

Lemma working_transfer_payload oid op s t key acc p :
  working oid op s t → wp (transfer_payload oid key acc p) (λ _, working oid op s) t.
Proof. intros Ht. unfold transfer_payload. sy_run; working. Qed.

Lemma working_keep_local oid op s t key item choice content :
  working oid op s t → wp (keep_local oid key item choice content) (λ _, working oid op s) t.
Proof. intros Ht. unfold keep_local. sy_run; working. Qed.

(** What is known of the store when a call has ended. *)
Definition continued (s s' : Repo) : Prop :=
  grows s s' ∧ (batches_drawn s → batches_drawn s').

Lemma batches_drawn_mono s oid op b s' :
  batches_drawn s → (tokens (draws s) <= tokens (draws s'))%nat →
  operations s !! oid = Some op → b ∈ op_batches op →
  ∃ n, (n < tokens (draws s'))%nat ∧ tb_batch_id b = Scoped.drawn_id "sync-batch" n.
Proof. intros Hd Hle Hop Hb. destruct (Hd _ _ _ Hop Hb) as (n & ? & ?). exists n. split; [lia|done]. Qed.

(** A call that changed one operation, appended the batches [bs] to it and
    remembered at most one new key. *)
Lemma continued_one oid op op' bs s s' :
  operations s !! oid = Some op →
  operations s' = <[oid := op']> (operations s) →
  op_context op' = op_context op → op_batches op' = op_batches op ++ bs →
  idempotency s ⊆ idempotency s' → (tokens (draws s) <= tokens (draws s'))%nat →
  (∀ b, b ∈ bs → ∃ n, (n < tokens (draws s'))%nat ∧
     tb_batch_id b = Scoped.drawn_id "sync-batch" n) →
  continued s s'.
Proof.
  intros Hop Ht Hc Hb Hi Hle Hbs. split; [split; [|done]|].
  - rewrite Ht. apply (Scoped.grown_update continues _ _ op); [done|].
    split; [done|]. rewrite Hb. by apply prefix_app_r.
  - intros Hd oid' o b Ho Hin. rewrite Ht in Ho. destruct (decide (oid = oid')) as [<-|].
    + rewrite lookup_insert_eq in Ho. simplify_eq. rewrite Hb in Hin.
      apply elem_of_app in Hin as [Hin|Hin]; [by eapply batches_drawn_mono|auto].
    + rewrite lookup_insert_ne in Ho by done. by eapply batches_drawn_mono.
Qed.

Lemma continued_same s s' :
  operations s' = operations s → idempotency s ⊆ idempotency s' →
  (tokens (draws s) <= tokens (draws s'))%nat → continued s s'.
Proof.
  intros Ht Hi Hle. split; [split; [by rewrite Ht|done]|].
  intros Hd oid op b Hop Hb. rewrite Ht in Hop. by eapply batches_drawn_mono.
Qed.

Lemma working_continued oid op s t : operations s !! oid = Some op → working oid op s t → continued s t.
Proof.
  intros Hop (Hle & Hi & op' & Ht & Hc & Hb).
  eapply (continued_one oid op op' []); rewrite ?app_nil_r, ?Hi; try done. set_solver.
Qed.

Ltac continue := apply continued_same; simpl; try done; lia.

Lemma after_batch_same c o :
  op_context (after_batch c o) = op_context o ∧ op_batches (after_batch c o) = op_batches o.
Proof. unfold after_batch. destruct c; [done|]. by case_match. Qed.

Lemma after_resolution_same cid i o :
  op_context (after_resolution cid i o) = op_context o ∧
  op_batches (after_resolution cid i o) = op_batches o.
Proof. unfold after_resolution. by case_match. Qed.

Lemma continued_transfer ctx oid v key cursor payloads s :
  wp (transfer_batch ctx oid v key cursor payloads) (λ _, continued s) s.
Proof.
  unfold transfer_batch. sy_run; try continue.
  match goal with H : operations s !! _ = Some _ |- _ => rename H into Hop end.
  match goal with H : idempotency s !! _ = None |- _ => rename H into Hk end.
  match goal with |- wp _ _ ?s1 => set (s0 := s1) end.
  apply (wp_mfold (λ _, working oid op s0) (λ _, working oid op s0)).
  - by apply working_refl.
  - intros acc p t _ Ht. eapply wp_mono; [|by apply working_transfer_payload]. by intros [].
  - intros acc t (Hle & Hi & op' & Ht & Hc & Hb). apply wp_bind.
    eapply wp_live_operation; [by rewrite Ht, lookup_insert_eq|]. sy_run. simpl in *.
    eapply (continued_one oid op _ [_]); [done|simpl; by rewrite Ht, insert_insert_eq| | | |simpl; lia|].
    + by rewrite (proj1 (after_batch_same _ _)).
    + rewrite (proj2 (after_batch_same _ _)). simpl. by rewrite Hb.
    + simpl. rewrite Hi. by apply insert_subseteq.
    + intros b ->%list_elem_of_singleton. exists (tokens (draws s)). by split; [simpl; lia|].
  - intros e t (Hle & Hi & op' & Ht & Hc & Hb). simpl in *.
    eapply (continued_one oid op op' []); rewrite ?app_nil_r, ?Hi; try done; [lia|set_solver].
Qed.

Lemma continued_resolve ctx oid cid v key choice content s :
  wp (resolve_conflict ctx oid cid v key choice content) (λ _, continued s) s.
Proof.
  unfold resolve_conflict. sy_run; try continue.
  match goal with H : operations s !! _ = Some _ |- _ => rename H into Hop end.
  match goal with H : idempotency s !! _ = None |- _ => rename H into Hk end.
  eapply wp_mono; [|by apply working_keep_local, working_refl].
  intros [tv|e] t Ht; [|by eapply working_continued].
  destruct Ht as (Hle & Hi & op' & Ht & Hc & Hb). apply wp_bind.
  eapply wp_update_operation; [by rewrite Ht, lookup_insert_eq|]. sy_run. simpl in *.
  eapply (continued_one oid op _ []); [done|simpl; by rewrite Ht, insert_insert_eq| | | |simpl; lia|].
  - by rewrite (proj1 (after_resolution_same _ _ _)).
  - by rewrite (proj2 (after_resolution_same _ _ _)), Hb, app_nil_r.
  - simpl. rewrite Hi. by apply insert_subseteq.
  - set_solver.
Qed.

Lemma continued_approve ctx oid ids su v key ok s :
  wp (approve ctx oid ids su v key ok) (λ _, continued s) s.
Proof.
  unfold approve. sy_run; try continue.
  eapply (continued_one oid _ _ []); rewrite ?app_nil_r; simpl; try done;
    [by apply insert_subseteq|lia|set_solver].
Qed.

Lemma continued_create ctx area items key ifm s :
  Inj (=) (=) token_at → ids_drawn s →
  wp (create_operation ctx area items key ifm) (λ _, continued s) s.
Proof.
  intros Hinj Hd. unfold create_operation. sy_run; try continue. simpl.
  pose proof (Scoped.next_id_new "sync" operations Hinj s (tokens (draws s)) Hd ltac:(simpl; lia))
    as Hnew.
  split; [split; simpl; [by apply (Scoped.grown_new continues)|by apply insert_subseteq]|].
  intros Hb oid op b Hop Hin. simpl in *.
  destruct (decide (oid = Scoped.drawn_id "sync" (tokens (draws s)))) as [->|Hne].
  - rewrite lookup_insert_eq in Hop. simplify_eq. simpl in Hin. set_solver.
  - rewrite lookup_insert_ne in Hop by done.
    destruct (Hb _ _ _ Hop Hin) as (n & ? & ?). exists n. split; [lia|done].
Qed.

Lemma step_continued s s' : Inj (=) (=) token_at → reachable s → step s s' → continued s s'.
Proof.
  intros Hinj Hd%sy_reachable_ids_drawn [ctx []]; [by apply continued_create|
    apply continued_approve|apply continued_transfer|apply continued_resolve].
Qed.

Lemma reachable_batches_drawn s : Inj (=) (=) token_at → reachable s → batches_drawn s.
Proof.
  intros Hinj Hr. enough (reachable s ∧ batches_drawn s) by tauto. revert s Hr.
  apply rtc_ind_r; [split; [apply rtc_refl|]; intros oid op b; simpl; by rewrite lookup_empty|].
  intros s s' _ Hstep [Hr Hb]. split; [by eapply rtc_r|]. by eapply step_continued.
Qed.

Lemma sy_reachable_grows s t : Inj (=) (=) token_at → reachable s → rtc step s t → grows s t.
Proof.
  intros Hinj Hs Ht. revert Hs. induction Ht as [s|s1 s2 s3 H12 _ IH]; intros Hs; [by split|].
  destruct (step_continued _ _ Hinj Hs H12) as [[Hg1 Hi1] _].
  destruct IH as [Hg2 Hi2]; [by eapply rtc_r|]. split; by etrans.
Qed.

(** The batch just recorded is the one its identifier finds, now and later. *)
Lemma find_batch_appended bs b rest :
  (∀ b', b' ∈ bs → tb_batch_id b' ≠ tb_batch_id b) →
  List.find (λ b', String.eqb (tb_batch_id b') (tb_batch_id b)) ((bs ++ [b]) ++ rest) = Some b.
Proof.
  induction bs as [|b0 bs IH]; simpl; intros Hne; [by rewrite String.eqb_refl|].
  destruct (String.eqb_spec (tb_batch_id b0) (tb_batch_id b)) as [E|_].
  - exfalso. by apply (Hne b0); [left|].
  - apply IH. intros b' Hb'. apply Hne. by right.
Qed.

(** What a returned, not replayed batch leaves behind. *)
Lemma transfer_remembered ctx oid v key cursor payloads s op b :
  operations s !! oid = Some op →
  idempotency s !! (oid, ctx_actor_id ctx, "transfer", key) = None →
  result (transfer_batch ctx oid v key cursor payloads) s = Ret b →
  safe_id key = true ∧ version_arg_ok v = true ∧ payloads ≠ [] ∧
  tb_batch_id b = Scoped.drawn_id "sync-batch" (tokens (draws s)) ∧
  idempotency (final (transfer_batch ctx oid v key cursor payloads) s) !!
      (oid, ctx_actor_id ctx, "transfer", key) =
    Some (transfer_fingerprint oid v cursor payloads, StoredId (tb_batch_id b)).
Proof.
  intros Hop Hk Hret. enough (wp (transfer_batch ctx oid v key cursor payloads) (λ o s',
    match o with
    | Raise _ => True
    | Ret b => safe_id key = true ∧ version_arg_ok v = true ∧ payloads ≠ [] ∧
        tb_batch_id b = Scoped.drawn_id "sync-batch" (tokens (draws s)) ∧
        idempotency s' !! (oid, ctx_actor_id ctx, "transfer", key) =
          Some (transfer_fingerprint oid v cursor payloads, StoredId (tb_batch_id b))
    end) s) as H by (unfold wp in H; by rewrite Hret in H).
  unfold transfer_batch. sy_run; try done; try congruence. bools.
  eapply (wp_mono _ (λ _ _, True)); [|done]. intros [acc|e] t _; [|done].
  sy_run; try done. split_and!; [done|done|by destruct payloads|done|].
  simpl. apply lookup_insert_eq.
Qed.

(** The call once its key is known. *)
Lemma transfer_again ctx oid v key cursor payloads s op fp id :
  safe_id key = true → version_arg_ok v = true → payloads ≠ [] →
  operations s !! oid = Some op → same_scope (op_context op) ctx = true →
  idempotency s !! (oid, ctx_actor_id ctx, "transfer", key) = Some (fp, StoredId id) →
  transfer_batch ctx oid v key cursor payloads s =
    (s, if (fp =? transfer_fingerprint oid v cursor payloads)%string
        then match find_batch (StoredId id) op with
             | Some b => Ret (replayed_batch b)
             | None => Raise (PyError "StopIteration")
             end
        else Raise (SyncError "IDEMPOTENCY_KEY_REUSED" 409)).
Proof.
  intros Hkey Hv Hp Hop Hsc Hi. unfold transfer_batch.
  rewrite (bind_Ret _ _ s s tt) by (by unfold validate_write, bind; rewrite !guard_Ret).
  rewrite (bind_Ret _ _ s s tt) by (apply guard_Ret; by destruct payloads).
  cbv zeta. rewrite (bind_Ret _ _ s s op) by by apply operation_known.
  destruct (fp =? _)%string eqn:Hfp.
  - rewrite (bind_Ret _ _ s s (Some (StoredId id))) by (by rewrite (replay_known _ _ _ _ _ Hi), Hfp).
    unfold bind, from_option. by destruct (find_batch _ _).
  - by rewrite (bind_Raise _ _ s s (SyncError "IDEMPOTENCY_KEY_REUSED" 409))
      by (by rewrite (replay_known _ _ _ _ _ Hi), Hfp).
Qed.

(** A batch is transferred once.  Once a call with a fresh key has returned
    a batch, then in every later store, whatever was called in between, the
    same call returns that batch, marked as replayed, and transmits and changes
    nothing. *)
Theorem transfer_replay ctx oid v key cursor payloads s op b t :
  Inj (=) (=) token_at → reachable s → operations s !! oid = Some op →
  idempotency s !! (oid, ctx_actor_id ctx, "transfer", key) = None →
  result (transfer_batch ctx oid v key cursor payloads) s = Ret b →
  rtc step (final (transfer_batch ctx oid v key cursor payloads) s) t →
  transfer_batch ctx oid v key cursor payloads t = (t, Ret (replayed_batch b)).
Proof.
  intros Hinj Hr Hop Hk Hret Ht.
  destruct (transfer_remembered _ _ _ _ _ _ _ _ _ Hop Hk Hret) as (Hkey & Hv & Hps & Hid & Hi).
  assert (reachable (final (transfer_batch ctx oid v key cursor payloads) s)) as Hr'.
  { eapply rtc_r; [done|]. exists ctx. apply step_transfer. }
  destruct (sy_reachable_grows _ _ Hinj Hr' Ht) as [Hg Hsub].
  destruct (transfer_batch_result _ _ _ _ _ _ _ _ _ Hr Hop Hk Hret) as ([Hsc _ _ _] & _ & _ & cs & ts & Hop' & _).
  destruct (Hg _ _ Hop') as (opt & Hopt & Hct & rest & Hbt).
  rewrite (proj1 (after_batch_same _ _)) in Hct. rewrite (proj2 (after_batch_same _ _)) in Hbt.
  simpl in Hct, Hbt.
  rewrite (transfer_again ctx oid v key cursor payloads t opt _ _ Hkey Hv Hps Hopt
    ltac:(congruence) (lookup_weaken _ _ _ _ Hi Hsub)), String.eqb_refl.
  simpl. rewrite Hbt, find_batch_appended; [done|].
  intros b' Hb'. rewrite Hid.
  destruct (reachable_batches_drawn _ Hinj Hr _ _ _ Hop Hb') as (n & Hn & ->).
  intros Heq%(Scoped.drawn_id_inj _ Hinj). lia.
Qed.
End Replay.

(** ** A concrete run *)

Module Sample.
#[local] Existing Instance checksum_digest.
#[local] Existing Instance sample_world.

Definition alice : SyncContext := mkContext "tenant-1" "workspace-1" "alice" "trace-1" "policy-1".
Definition mallory : SyncContext := mkContext "tenant-2" "workspace-2" "mallory" "trace-2" "policy-1".

Definition content : list N := [1%N; 2%N; 3%N].

(** A source version whose digest is that of [bytes]. *)
Definition source (bytes : list N) : SyncItemInput :=
  mkItem "item-1" (Some "version-1") "object-1" (content_digest bytes) (Z.of_nat (length bytes))
    "text/plain" None None SOURCE_VERSION None [].

Lemma source_valid bytes : item_valid (source bytes) = true.
Proof.
  unfold item_valid. cbn [it_digest_sha256 source]. unfold content_digest.
  rewrite sha256_hex_shape. simpl. destruct (length bytes); reflexivity.
Qed.

Definition payload (bytes : list N) : TransferPayload := mkPayload "item-1" bytes None None.

(** [alice] previews, approves and transfers one item. *)
Definition s1 : Repo :=
  final (create_operation alice "cloud_sync" [source content] "key-1" (PyStr "*")) empty_repo.
Definition oid : string := "sync-0".
Definition s2 : Repo := final (approve alice oid ["item-1"] "step-up-1" (PyInt 1) "key-2" true) s1.
Definition s3 : Repo :=
  final (transfer_batch alice oid (PyInt 2) "key-3" None [payload content]) s2.

(** [mallory], of another tenant, does the same with other bytes. *)
Definition other : list N := [4%N; 5%N].
Definition m1 : Repo :=
  final (create_operation mallory "cloud_sync" [source other] "key-1" (PyStr "*")) s3.
Definition moid : string := "sync-3".
Definition m2 : Repo := final (approve mallory moid ["item-1"] "step-up-1" (PyInt 1) "key-2" true) m1.
Definition m3 : Repo :=
  final (transfer_batch mallory moid (PyInt 2) "key-3" None [payload []]) m2.

Lemma sy_s1_reachable : reachable s1.
Proof.
  eapply rtc_once. exists alice. apply step_create. constructor; [apply source_valid|done].
Qed.
Lemma sy_s2_reachable : reachable s2.
Proof. eapply rtc_r; [apply sy_s1_reachable|]. exists alice. apply step_approve. Qed.
Lemma sy_s3_reachable : reachable s3.
Proof. eapply rtc_r; [apply sy_s2_reachable|]. exists alice. apply step_transfer. Qed.

Lemma s2_operation :
  ∃ op, operations s2 !! oid = Some op ∧ same_scope (op_context op) mallory = false.
Proof. vm_compute. eexists. split; reflexivity. Qed.

Lemma s2_batch :
  ∃ b, result (transfer_batch alice oid (PyInt 2) "key-3" None [payload content]) s2 = Ret b.
Proof. vm_compute. eexists. reflexivity. Qed.

Lemma s2_key : idempotency s2 !! (oid, ctx_actor_id alice, "transfer", "key-3") = None.
Proof. by vm_compute. Qed.
End Sample.

Section Witnesses.
Import Sample.
#[local] Existing Instance checksum_digest.
#[local] Existing Instance sample_world.

(** The port keeps its replays under the item identifier and the key alone: a
    caller of another tenant whose item and key happen to agree is handed
    [alice]'s version, with her digest, and its own content, empty here, is
    never looked at. *)
Theorem replay_crosses_tenants :
  ∃ op op', operations m3 !! oid = Some op ∧ operations m3 !! moid = Some op' ∧
    op_state op' = "reindex_requested" ∧ op_target_versions op' = op_target_versions op ∧
    map tv_digest_sha256 (op_target_versions op') = [content_digest content] ∧
    map (λ ki, it_digest_sha256 ki.2) (op_items op') = [content_digest other] ∧
    content_digest other ≠ content_digest content.
Proof. vm_compute. eexists _, _. split_and!; try reflexivity. done. Qed.

Lemma sync_operations_wf_witness :
  operations s3 !! oid ≠ None ∧ map_Forall op_wf (operations s3).
Proof. split; [by vm_compute|]. apply sync_operations_wf, sy_s3_reachable. Defined.

Lemma sync_isolated_witness :
  ∃ op, operations s2 !! oid = Some op ∧
    operations (final (transfer_batch mallory oid (PyInt 2) "key-3" None [payload content]) s2)
      !! oid = Some op.
Proof.
  destruct s2_operation as (op & Hop & Hs). exists op. split; [exact Hop|].
  apply (sync_isolated s2 mallory);
    [apply sample_tokens_inj|apply sy_s2_reachable|apply step_transfer|exact Hop|exact Hs].
Defined.

Lemma transfer_batch_result_witness :
  ∃ op, operations s2 !! oid = Some op ∧
    transfer_allowed alice oid (PyInt 2) [payload content] op.
Proof.
  destruct s2_operation as (op & Hop & _), s2_batch as (b & Hb). exists op. split; [exact Hop|].
  apply (transfer_batch_result alice oid (PyInt 2) "key-3" None [payload content] s2 op b);
    [apply sy_s2_reachable|exact Hop|apply s2_key|exact Hb].
Defined.

Lemma transmit_once_witness :
  match transmit (source content) content "key-3" "copy" s2 with
  | (_, Ret v) => tv_digest_sha256 v = content_digest content
  | (_, Raise _) => False
  end.
Proof.
  assert (∃ v, result (transmit (source content) content "key-3" "copy") s2 = Ret v) as [v Hv]
    by (vm_compute; eexists; reflexivity).
  pose proof (transmit_once (source content) content "key-3" "copy" s2) as H.
  destruct (transmit (source content) content "key-3" "copy" s2) as [s' [v'|e]]; [|discriminate Hv].
  apply H. by vm_compute.
Defined.

Lemma transfer_replay_witness :
  ∃ b, transfer_batch alice oid (PyInt 2) "key-3" None [payload content] s3 =
    (s3, Ret (replayed_batch b)).
Proof.
  destruct s2_operation as (op & Hop & _), s2_batch as (b & Hb). exists b.
  apply (transfer_replay alice oid (PyInt 2) "key-3" None [payload content] s2 op b);
    [apply sample_tokens_inj|apply sy_s2_reachable|exact Hop|apply s2_key|exact Hb|apply rtc_refl].
Defined.
End Witnesses.
