(* ===== verification/Recovery.v ===== *)
(** Backups and isolated restores (recovery.py).

    The in-memory repository and the restore port are the record [Repo]; each
    method of [RecoveryService] is a computation on it, and
    [_resolved_backup_metadata] a computation that touches no store.  A restore
    request is written back at every transition the program makes, so that a
    refused or failed restore leaves the request as the program does.

    Theorems: what a restore needs and what it writes, and where
    ([restores_only_isolated]); a request at its end stays there
    ([terminal_restores_frozen]); the shape of backups and requests in every
    reachable store ([recovery_wf]); isolation ([recovery_isolated]); the audit
    chain ([recovery_audit_chained]); selections do not depend on the order of
    their bindings ([resolved_selection_canonical]). *)

From S2P Require Import Prelude Sha256 PyStr Json HashChain Scoped.
#[local] Open Scope Z_scope.

(** ** Data *)

Definition RecoveryError (code : string) (status : Z) : exn := Raised code status false.

Definition INPUT_INVALID : exn := RecoveryError "RECOVERY_INPUT_INVALID" 400.
Definition MANIFEST_INVALID (status : Z) : exn := RecoveryError "BACKUP_MANIFEST_INVALID" status.

Record RecoveryContext := mkContext {
  ctx_tenant_id : string;
  ctx_workspace_id : string;
  ctx_actor_id : string;
  ctx_trace_id : string;
  ctx_policy_version : string;
  ctx_organization_admin : bool;
  ctx_session_id : option string;
  ctx_device_id : option string
}.

Definition opt_all (p : string → bool) (o : option string) : bool :=
  match o with Some v => p v | None => true end.

(** [RecoveryContext.__post_init__] *)
Definition context_valid (c : RecoveryContext) : bool :=
  safe_id (ctx_tenant_id c) && safe_id (ctx_workspace_id c) && safe_id (ctx_actor_id c) &&
  safe_id (ctx_trace_id c) && safe_id (ctx_policy_version c) &&
  opt_all safe_id (ctx_session_id c) && opt_all safe_id (ctx_device_id c).

Record BackupObjectInput := mkObject {
  bo_object_id : string;
  bo_checksum_sha256 : string;
  bo_byte_size : Z
}.

#[export] Instance backup_object_eq_dec : EqDecision BackupObjectInput.
Proof. solve_decision. Defined.

(** [BackupObjectInput.__post_init__], in the order of its checks. *)
Definition make_object (id checksum : string) (size : Z) : outcome BackupObjectInput :=
  if negb (safe_id id) then Raise INPUT_INVALID
  else if negb (is_digest checksum) then Raise (MANIFEST_INVALID 400)
  else if size <? 0 then Raise (MANIFEST_INVALID 400)
  else Ret (mkObject id checksum size).

Definition object_valid (o : BackupObjectInput) : Prop :=
  make_object (bo_object_id o) (bo_checksum_sha256 o) (bo_byte_size o) = Ret o.

Record BackupSelectionInput := mkSelection {
  bs_notebook_id : string;
  bs_source_version_ids : list string
}.

(** [BackupSelectionInput.__post_init__]: the identifiers end up sorted. *)
Definition make_selection (notebook : string) (ids : list string) : outcome BackupSelectionInput :=
  if negb (safe_id notebook) then Raise INPUT_INVALID
  else if negb ((1 <=? Z.of_nat (length ids)) && (Z.of_nat (length ids) <=? 100)) then
    Raise INPUT_INVALID
  else if negb (forallb safe_id ids) then Raise INPUT_INVALID
  else if negb (Nat.eqb (length (fromkeys ids)) (length ids)) then Raise INPUT_INVALID
  else Ret (mkSelection notebook (sorted_strings ids)).

(** [_ResolvedBackupSelection] *)
Record ResolvedBackupSelection := mkResolved {
  rs_selection : BackupSelectionInput;
  rs_schema_revision : string;
  rs_retention_watermark : string;
  rs_objects : list BackupObjectInput;
  rs_fingerprint : string
}.

Definition require_replay (r : ResolvedBackupSelection) (fp : string) : outcome unit :=
  if String.eqb fp (rs_fingerprint r) then Ret tt
  else Raise (RecoveryError "IDEMPOTENCY_KEY_REUSED" 409).

Definition object_leb (a b : BackupObjectInput) : bool := string_leb (bo_object_id a) (bo_object_id b).

Definition object_ids (objects : list BackupObjectInput) : list string := map bo_object_id objects.

(** [len({item.object_id for item in objects}) == len(objects)] *)
Definition distinct_objects (objects : list BackupObjectInput) : bool :=
  Nat.eqb (length (fromkeys (object_ids objects))) (length objects).

Definition require_legacy_match (r : ResolvedBackupSelection) (schema watermark : string)
    (objects : list BackupObjectInput) : outcome unit :=
  if String.eqb schema (rs_schema_revision r) && String.eqb watermark (rs_retention_watermark r) &&
     distinct_objects objects && bool_decide (sort_stable object_leb objects = rs_objects r)
  then Ret tt else Raise (MANIFEST_INVALID 409).

Record RestoreDestination := mkDestination {
  rd_tenant_id : string;
  rd_workspace_id : string;
  rd_database_id : string;
  rd_bucket_id : string
}.

(** [RestoreDestination.__post_init__] *)
Definition destination_valid (d : RestoreDestination) : bool :=
  safe_id (rd_tenant_id d) && safe_id (rd_workspace_id d) && safe_id (rd_database_id d) &&
  safe_id (rd_bucket_id d).

Record BackupView := mkBackupView {
  bv_backup_id : string;
  bv_tenant_id : string;
  bv_workspace_id : string;
  bv_state : string;
  bv_version : Z;
  bv_trigger : string;
  bv_created_at : Z;
  bv_verified_at : option Z;
  bv_schema_revision : string;
  bv_retention_watermark : string;
  bv_manifest_digest : string;
  bv_object_count : Z;
  bv_transitions : list string
}.

(** [BackupView.etag] *)
Definition backup_etag (v : BackupView) : string :=
  dquoted ("backup:" +:+ bv_backup_id v +:+ ":" +:+ str_int (bv_version v)).

Record RestorePreviewView := mkPreview {
  pv_version : Z;
  pv_included_object_ids : list string;
  pv_excluded_object_ids : list string;
  pv_exclusion_reasons : list (string * string);
  pv_destination : RestoreDestination;
  pv_created_at : Z
}.

Record RestoreRequestView := mkRestoreView {
  rv_request_id : string;
  rv_backup_id : string;
  rv_tenant_id : string;
  rv_workspace_id : string;
  rv_state : string;
  rv_version : Z;
  rv_preview : RestorePreviewView;
  rv_transitions : list string;
  rv_verification_digest : option string
}.

(** [RestoreRequestView.etag] *)
Definition restore_etag (v : RestoreRequestView) : string :=
  dquoted ("restore:" +:+ rv_request_id v +:+ ":" +:+ str_int (rv_version v)).

(** [_Backup] *)
Record Backup := mkBackup {
  bk_backup_id : string;
  bk_context : RecoveryContext;
  bk_trigger : string;
  bk_created_at : Z;
  bk_schema_revision : string;
  bk_retention_watermark : string;
  bk_objects : list BackupObjectInput;
  bk_state : string;
  bk_version : Z;
  bk_verified_at : option Z;
  bk_transitions : list string
}.

(** [_RestoreRequest] *)
Record RestoreRequest := mkRestore {
  rr_request_id : string;
  rr_context : RecoveryContext;
  rr_backup_id : string;
  rr_preview : RestorePreviewView;
  rr_state : string;
  rr_version : Z;
  rr_transitions : list string;
  rr_verification_digest : option string
}.

(** The current retention of a workspace. *)
Record RetentionSets := mkRetention {
  rt_purged : gset string;
  rt_held : gset string;
  rt_tombstoned : gset string
}.

Record AuditEntry := mkAuditEntry {
  ae_actor_id : string;
  ae_action : string;
  ae_target : string;
  ae_policy_version : string;
  ae_trace_id : string;
  ae_timestamp : string;
  ae_previous_hash : string;
  ae_event_hash : string
}.

(** [ReferenceRestorePort] *)
Record RestorePort := mkPort {
  rp_restored_object_ids : list string;
  rp_destinations : list RestoreDestination;
  rp_original_mutations : Z;
  rp_fail_object_ids : gset string
}.

(** [ReferenceRecoveryRepository], the port, and what was drawn so far.
    [backup_order] is the insertion order of the dict [backups]. *)
Record Repo := mkRepo {
  backups : gmap string Backup;
  backup_order : list string;
  restores : gmap string RestoreRequest;
  idempotency : gmap (string * string * string) (string * string);
  retention : gmap (string * string) RetentionSets;
  audit : list AuditEntry;
  port : RestorePort;
  draws : Draws
}.

Definition empty_repo (p : RestorePort) : Repo := mkRepo ∅ [] ∅ ∅ ∅ [] p (mkDraws 0 0).

Definition set_backups (v : gmap string Backup) (r : Repo) : Repo :=
  mkRepo v (backup_order r) (restores r) (idempotency r) (retention r) (audit r) (port r) (draws r).
Definition set_backup_order (v : list string) (r : Repo) : Repo :=
  mkRepo (backups r) v (restores r) (idempotency r) (retention r) (audit r) (port r) (draws r).
Definition set_restores (v : gmap string RestoreRequest) (r : Repo) : Repo :=
  mkRepo (backups r) (backup_order r) v (idempotency r) (retention r) (audit r) (port r) (draws r).
Definition set_idempotency (v : gmap (string * string * string) (string * string)) (r : Repo) : Repo :=
  mkRepo (backups r) (backup_order r) (restores r) v (retention r) (audit r) (port r) (draws r).
Definition set_retention (v : gmap (string * string) RetentionSets) (r : Repo) : Repo :=
  mkRepo (backups r) (backup_order r) (restores r) (idempotency r) v (audit r) (port r) (draws r).
Definition set_audit (v : list AuditEntry) (r : Repo) : Repo :=
  mkRepo (backups r) (backup_order r) (restores r) (idempotency r) (retention r) v (port r) (draws r).
Definition set_port (v : RestorePort) (r : Repo) : Repo :=
  mkRepo (backups r) (backup_order r) (restores r) (idempotency r) (retention r) (audit r) v (draws r).
Definition set_draws (v : Draws) (r : Repo) : Repo :=
  mkRepo (backups r) (backup_order r) (restores r) (idempotency r) (retention r) (audit r) (port r) v.
Definition set_bk_state (v : string) (r : Backup) : Backup :=
  mkBackup (bk_backup_id r) (bk_context r) (bk_trigger r) (bk_created_at r) (bk_schema_revision r) (bk_retention_watermark r) (bk_objects r) v (bk_version r) (bk_verified_at r) (bk_transitions r).
Definition set_bk_version (v : Z) (r : Backup) : Backup :=
  mkBackup (bk_backup_id r) (bk_context r) (bk_trigger r) (bk_created_at r) (bk_schema_revision r) (bk_retention_watermark r) (bk_objects r) (bk_state r) v (bk_verified_at r) (bk_transitions r).
Definition set_bk_verified_at (v : option Z) (r : Backup) : Backup :=
  mkBackup (bk_backup_id r) (bk_context r) (bk_trigger r) (bk_created_at r) (bk_schema_revision r) (bk_retention_watermark r) (bk_objects r) (bk_state r) (bk_version r) v (bk_transitions r).
Definition set_bk_transitions (v : list string) (r : Backup) : Backup :=
  mkBackup (bk_backup_id r) (bk_context r) (bk_trigger r) (bk_created_at r) (bk_schema_revision r) (bk_retention_watermark r) (bk_objects r) (bk_state r) (bk_version r) (bk_verified_at r) v.
Definition set_rr_preview (v : RestorePreviewView) (r : RestoreRequest) : RestoreRequest :=
  mkRestore (rr_request_id r) (rr_context r) (rr_backup_id r) v (rr_state r) (rr_version r) (rr_transitions r) (rr_verification_digest r).
Definition set_rr_state (v : string) (r : RestoreRequest) : RestoreRequest :=
  mkRestore (rr_request_id r) (rr_context r) (rr_backup_id r) (rr_preview r) v (rr_version r) (rr_transitions r) (rr_verification_digest r).
Definition set_rr_version (v : Z) (r : RestoreRequest) : RestoreRequest :=
  mkRestore (rr_request_id r) (rr_context r) (rr_backup_id r) (rr_preview r) (rr_state r) v (rr_transitions r) (rr_verification_digest r).
Definition set_rr_transitions (v : list string) (r : RestoreRequest) : RestoreRequest :=
  mkRestore (rr_request_id r) (rr_context r) (rr_backup_id r) (rr_preview r) (rr_state r) (rr_version r) v (rr_verification_digest r).
Definition set_rr_verification_digest (v : option string) (r : RestoreRequest) : RestoreRequest :=
  mkRestore (rr_request_id r) (rr_context r) (rr_backup_id r) (rr_preview r) (rr_state r) (rr_version r) (rr_transitions r) v.

#[export] Instance repo_drawing : Drawing Repo :=
  {| draws_of := draws; with_draws := set_draws |}.

Definition audit_payload (e : AuditEntry) : json :=
  JObj [("actor_id", JStr (ae_actor_id e)); ("action", JStr (ae_action e));
        ("target", JStr (ae_target e)); ("policy_version", JStr (ae_policy_version e));
        ("trace_id", JStr (ae_trace_id e)); ("timestamp", JStr (ae_timestamp e));
        ("previous_hash", JStr (ae_previous_hash e))].

#[export] Instance audit_entry_chained : Chained AuditEntry := {|
  ev_previous := ae_previous_hash;
  ev_hash := ae_event_hash;
  ev_payload := audit_payload;
  ev_ascii := true;
|}.

(** ** The fingerprinted values *)

Definition repr_object (o : BackupObjectInput) : string :=
  "BackupObjectInput(object_id=" +:+ repr_str (bo_object_id o) +:+
  ", checksum_sha256=" +:+ repr_str (bo_checksum_sha256 o) +:+
  ", byte_size=" +:+ str_int (bo_byte_size o) +:+ ")".

Definition repr_destination (d : RestoreDestination) : string :=
  "RestoreDestination(tenant_id=" +:+ repr_str (rd_tenant_id d) +:+
  ", workspace_id=" +:+ repr_str (rd_workspace_id d) +:+
  ", database_id=" +:+ repr_str (rd_database_id d) +:+
  ", bucket_id=" +:+ repr_str (rd_bucket_id d) +:+ ")".

Definition objects_json (objects : list BackupObjectInput) : json :=
  JArr (map (λ o, JStr (repr_object o)) objects).

(** ** Selections *)

(** One binding of a source version: version, source, object, canonical digest. *)
Definition Binding : Type := string * string * BackupObjectInput * string.

Definition binding_version (b : Binding) : string := let '(v, _, _, _) := b in v.
Definition binding_object (b : Binding) : BackupObjectInput := let '(_, _, o, _) := b in o.
Definition binding_leb (a b : Binding) : bool := string_leb (binding_version a) (binding_version b).

Definition binding_json (b : Binding) : json :=
  let '(version, source, o, digest) := b in
  JArr [JStr version; JStr source; JStr (bo_object_id o); JStr (bo_checksum_sha256 o);
        JInt (bo_byte_size o); JStr digest].

Definition MAX_SELECTION_BYTES : Z := 512 * 1024 * 1024.

Section Selection.
Context {D : Digest} {S : Type}.

(** The body of the loop: [objects[item.object_id] = item]. *)
Definition bind_object (objects : list (string * BackupObjectInput)) (b : Binding)
    : M S (list (string * BackupObjectInput)) :=
  let '(_, source, o, digest) := b in
  guard (canon_id source) (MANIFEST_INVALID 409) ;;
  guard (is_digest digest) (MANIFEST_INVALID 409) ;;
  guard (match dict_get (bo_object_id o) objects with
         | Some o' => bool_decide (o' = o)
         | None => true
         end) (MANIFEST_INVALID 409) ;;
  ret (dict_set (bo_object_id o) o objects).

Definition selection_fingerprint (ctx : RecoveryContext) (sel : BackupSelectionInput)
    (schema watermark trigger : string) (ordered : list Binding) : string :=
  fingerprint (JArr [JStr "backup-selection-v1"; JStr (ctx_tenant_id ctx);
    JStr (ctx_workspace_id ctx); JStr (ctx_actor_id ctx); JOpt (ctx_session_id ctx);
    JOpt (ctx_device_id ctx); JStr (ctx_policy_version ctx); JStr (bs_notebook_id sel);
    JStr trigger; JArr (map JStr (bs_source_version_ids sel)); JArr (map binding_json ordered);
    JStr schema; JStr watermark]).

Definition total_bytes (bindings : list Binding) : Z :=
  foldr Z.add 0 (map (λ b, bo_byte_size (binding_object b)) bindings).

(** [_resolved_backup_metadata] *)
Definition resolved_backup_metadata (ctx : RecoveryContext) (sel : BackupSelectionInput)
    (schema watermark : string) (bindings : list Binding) (trigger : string)
    : M S ResolvedBackupSelection :=
  guard (safe_id schema) INPUT_INVALID ;;
  guard (safe_id watermark) INPUT_INVALID ;;
  guard (bool_decide (trigger ∈ ["manual"; "automatic"])) INPUT_INVALID ;;
  guard (ctx_organization_admin ctx) (RecoveryError "CURRENT_ACCESS_DENIED" 403) ;;
  let ordered := sort_stable binding_leb bindings in
  guard (bool_decide (map binding_version ordered = bs_source_version_ids sel))
    (RecoveryError "BACKUP_UNAVAILABLE" 404) ;;
  objects <- mfold ordered bind_object [] ;;
  let canonical := omap (λ k, dict_get k objects) (sorted_strings (dict_keys objects)) in
  guard (total_bytes ordered <=? MAX_SELECTION_BYTES)
    (RecoveryError "BACKUP_SELECTION_TOO_LARGE" 413) ;;
  ret (mkResolved sel schema watermark canonical
         (selection_fingerprint ctx sel schema watermark trigger ordered)).
End Selection.

(** ** Selections are canonical *)

Section SelectionFacts.
Context {D : Digest} {S : Type}.

Lemma string_leb_iff a b : string_leb a b = true ↔ String.le a b.
Proof. apply bool_decide_eq_true. Qed.

Lemma binding_leb_total x y : binding_leb x y = true ∨ binding_leb y x = true.
Proof. unfold binding_leb. rewrite !string_leb_iff. apply (total String.le). Qed.

Lemma binding_leb_trans x y z :
  binding_leb x y = true → binding_leb y z = true → binding_leb x z = true.
Proof. unfold binding_leb. rewrite !string_leb_iff. apply (transitivity (R:=String.le)). Qed.

(** Sorting forgets the order in which the bindings were read. *)
Lemma sort_bindings_perm bs bs' :
  NoDup (map binding_version bs) → bs ≡ₚ bs' →
  sort_stable binding_leb bs = sort_stable binding_leb bs'.
Proof.
  intros Hnd Hp.
  eapply (StronglySorted_unique_strong (λ x y, binding_leb x y = true)).
  - intros x y Hx Hy. rewrite sort_stable_perm in Hx, Hy. rewrite <- Hp in Hy.
    unfold binding_leb. rewrite !string_leb_iff. intros Hxy Hyx.
    apply (NoDup_map_inj binding_version bs); [done..|]. by apply (anti_symm String.le).
  - apply sort_stable_sorted; [apply binding_leb_total|apply binding_leb_trans].
  - apply sort_stable_sorted; [apply binding_leb_total|apply binding_leb_trans].
  - by rewrite !sort_stable_perm.
Qed.

(** The objects collected from the bindings [pre]. *)
Definition collected (pre : list Binding) (d : list (string * BackupObjectInput)) : Prop :=
  NoDup (dict_keys d) ∧
  (∀ k o, dict_get k d = Some o → k = bo_object_id o ∧ ∃ b, b ∈ pre ∧ binding_object b = o) ∧
  ∀ b, b ∈ pre → dict_get (bo_object_id (binding_object b)) d = Some (binding_object b).

Lemma bind_object_collected pre b d (s : S) :
  collected pre d →
  wp (bind_object d b) (λ o s', s' = s ∧ match o with
      | Ret d' => collected (pre ++ [b]) d' | Raise _ => True end) s.
Proof.
  intros (Hnd & Hget & Hall). destruct b as [[[version source] o] digest]. unfold bind_object.
  wp_run; try done. split; [done|]. split_and!; [by apply dict_keys_NoDup_set| |].
  - intros k o'. rewrite dict_get_set. case_decide as Hk.
    + intros [= <-]. split; [done|]. exists (version, source, o, digest). split; [set_solver|done].
    + intros (? & b & ? & ?)%Hget. split; [done|]. exists b. split; [set_solver|done].
  - intros b [Hb| ->%list_elem_of_singleton]%elem_of_app; rewrite dict_get_set; simpl;
      [|by rewrite decide_True].
    pose proof (Hall _ Hb) as Hb'. case_decide as Hk; [|done].
    rewrite Hk in Hb'. rewrite Hb' in *. bools. by subst.
Qed.

Lemma collected_objects bs d :
  collected bs d →
  let objects := omap (λ k, dict_get k d) (sorted_strings (dict_keys d)) in
  object_ids objects = sorted_strings (dict_keys d) ∧
  ∀ o, o ∈ objects ↔ ∃ b, b ∈ bs ∧ binding_object b = o.
Proof.
  intros (Hnd & Hget & Hall). simpl. split.
  - assert (∀ k, k ∈ sorted_strings (dict_keys d) → k ∈ dict_keys d) as Hin
      by (intros k; by rewrite elem_of_sorted_strings).
    revert Hin. generalize (sorted_strings (dict_keys d)).
    induction l as [|k l IH]; intros Hin; simpl; [done|].
    destruct (dict_get k d) as [o|] eqn:E.
    + simpl. f_equal; [by destruct (Hget _ _ E)|]. apply IH. set_solver.
    + exfalso. assert (k ∈ dict_keys d) as Hk by set_solver.
      apply list_elem_of_fmap in Hk as ([k' o] & -> & Hk).
      apply (dict_elem_get _ _ _ Hnd) in Hk. simpl in E. congruence.
  - intros o. rewrite list_elem_of_omap. split.
    + intros (k & _ & Hk). by destruct (Hget _ _ Hk).
    + intros (b & Hb & <-). exists (bo_object_id (binding_object b)). split; [|by apply Hall].
      apply elem_of_sorted_strings. apply Hall, dict_get_elem in Hb.
      change (bo_object_id (binding_object b)) with (bo_object_id (binding_object b), binding_object b).1.
      by apply list_elem_of_fmap_2.
Qed.

Lemma total_bytes_perm bs bs' : bs ≡ₚ bs' → total_bytes bs = total_bytes bs'.
Proof. unfold total_bytes. induction 1; simpl; lia. Qed.

Lemma make_selection_NoDup notebook ids sel :
  make_selection notebook ids = Ret sel → NoDup (bs_source_version_ids sel).
Proof.
  unfold make_selection. intros H. repeat case_match; simplify_eq. simpl. bools.
  rewrite sorted_strings_perm. by apply fromkeys_length_NoDup.
Qed.

(** A backup selection is resolved independently of the order in which its
    bindings were read, fingerprint included; a resolved selection holds exactly
    the objects of the bindings, each once, sorted by identifier, and never
    more than 512 MiB. *)
Theorem resolved_selection_canonical notebook ids sel ctx schema watermark bs trigger :
  make_selection notebook ids = Ret sel →
  (∀ bs', bs ≡ₚ bs' → ∀ s : S,
     resolved_backup_metadata ctx sel schema watermark bs trigger s =
     resolved_backup_metadata ctx sel schema watermark bs' trigger s) ∧
  ∀ (s s' : S) r, resolved_backup_metadata ctx sel schema watermark bs trigger s = (s', Ret r) →
    s' = s ∧ (∀ o, o ∈ rs_objects r ↔ ∃ b, b ∈ bs ∧ binding_object b = o) ∧
    NoDup (object_ids (rs_objects r)) ∧ Sorted String.le (object_ids (rs_objects r)) ∧
    total_bytes bs <= MAX_SELECTION_BYTES.
Proof.
  intros Hsel%make_selection_NoDup. split.
  - intros bs' Hp s. destruct (decide (NoDup (map binding_version bs))) as [Hnd|Hnd].
    { unfold resolved_backup_metadata. by rewrite (sort_bindings_perm bs bs'). }
    assert (∀ l, l ≡ₚ bs → bool_decide (map binding_version (sort_stable binding_leb l) =
      bs_source_version_ids sel) = false) as Hf.
    { intros l Hl. apply bool_decide_eq_false_2. intros Heq. apply Hnd.
      rewrite <- Hl, <- (sort_stable_perm binding_leb l), Heq. done. }
    unfold resolved_backup_metadata. cbv zeta. rewrite !Hf by (done || by rewrite Hp). done.
  - intros s s' r Hr.
    enough (wp (resolved_backup_metadata ctx sel schema watermark bs trigger) (λ o s', match o with
      | Ret r => s' = s ∧ (∀ o, o ∈ rs_objects r ↔ ∃ b, b ∈ bs ∧ binding_object b = o) ∧
          NoDup (object_ids (rs_objects r)) ∧ Sorted String.le (object_ids (rs_objects r)) ∧
          total_bytes bs <= MAX_SELECTION_BYTES
      | Raise _ => True end) s) as H by (unfold wp in H; by rewrite Hr in H).
    unfold resolved_backup_metadata. wp_run; try done.
    apply (wp_mfold_prefix (λ pre d s', s' = s ∧ collected pre d) (λ _ _, True)); [| | |done].
    + split; [done|]. split_and!; [constructor|done|set_solver].
    + intros pre b d t _ [-> Hd]. eapply wp_mono; [|by apply bind_object_collected].
      by intros [] ? [].
    + intros d t [-> Hd]. wp_run; [|done]. split; [done|]. simpl.
      destruct (collected_objects _ _ Hd) as [Hids Hobj]. simpl in Hids, Hobj.
      rewrite Hids. split_and!.
      * intros o. rewrite Hobj. by setoid_rewrite (sort_stable_perm binding_leb bs).
      * rewrite sorted_strings_perm. apply Hd.
      * apply Sorted_merge_sort, _.
      * bools. rewrite <- (total_bytes_perm _ _ (sort_stable_perm binding_leb bs)). lia.
Qed.
End SelectionFacts.

(** ** RecoveryService *)

(** The constructor arguments. *)
Record Config := mkConfig {
  fixture_prefix : string;
  rpo : Z
}.

Section Service.
Context {D : Digest} {W : World} (cfg : Config).
Abbreviation St := (M Repo).

(** [ReferenceRestorePort.restore] *)
Definition restore (destination : RestoreDestination) (objects : list BackupObjectInput) : St bool := λ s,
  let p := port s in
  if existsb (λ o, bool_decide (bo_object_id o ∈ rp_fail_object_ids p)) objects then (s, Ret false)
  else (set_port (mkPort (rp_restored_object_ids p ++ object_ids objects)
                    (rp_destinations p ++ [destination]) (rp_original_mutations p)
                    (rp_fail_object_ids p)) s, Ret true).

(** Every operation of [UnavailableRecoveryService]. *)
Definition unavailable {A} : St A := raise (RecoveryError "RESOURCE_UNAVAILABLE" 503).

(** [_safe] *)
Definition safe (v : string) : St unit := guard (safe_id v) INPUT_INVALID.

Definition require_admin (ctx : RecoveryContext) : St unit :=
  guard (ctx_organization_admin ctx) (RecoveryError "CURRENT_ACCESS_DENIED" 403).

Definition require_step_up (ctx : RecoveryContext) (verified : bool) : St unit :=
  require_admin ctx ;;
  guard verified (RecoveryError "STEP_UP_REQUIRED" 403).

Definition make_entry (ctx : RecoveryContext) (action target timestamp previous : string)
    : AuditEntry :=
  let e := mkAuditEntry (ctx_actor_id ctx) action target (ctx_policy_version ctx)
    (ctx_trace_id ctx) timestamp previous "" in
  mkAuditEntry (ae_actor_id e) (ae_action e) (ae_target e) (ae_policy_version e)
    (ae_trace_id e) (ae_timestamp e) (ae_previous_hash e) (fingerprint (audit_payload e)).

(** [_audit] *)
Definition add_audit (ctx : RecoveryContext) (action target : string) : St unit :=
  previous <- gets (λ s, head_hash (audit s)) ;;
  now <- clock ;;
  modify (λ s, set_audit (audit s ++ [make_entry ctx action target (isoformat now) previous]) s).

(** [_replay] *)
Definition replay (key : string * string * string) (fp : string) : St (option string) :=
  stored <- gets (λ s, idempotency s !! key) ;;
  match stored with
  | None => ret None
  | Some (fp', id) =>
      guard (String.eqb fp' fp) (RecoveryError "IDEMPOTENCY_KEY_REUSED" 409) ;;
      ret (Some id)
  end.

Definition remember (key : string * string * string) (fp id : string) : St unit :=
  modify (λ s, set_idempotency (<[key := (fp, id)]> (idempotency s)) s).

(** Same tenant and workspace. *)
Definition same_scope (c c' : RecoveryContext) : bool :=
  String.eqb (ctx_tenant_id c) (ctx_tenant_id c') &&
  String.eqb (ctx_workspace_id c) (ctx_workspace_id c').

(** [_backup] *)
Definition backup (ctx : RecoveryContext) (bid : string) : St Backup :=
  found <- gets (λ s, backups s !! bid) ;;
  b <- from_option found (RecoveryError "BACKUP_UNAVAILABLE" 404) ;;
  guard (same_scope (bk_context b) ctx) (RecoveryError "BACKUP_UNAVAILABLE" 404) ;;
  ret b.

(** [_restore_request] *)
Definition restore_request (ctx : RecoveryContext) (rid : string) : St RestoreRequest :=
  found <- gets (λ s, restores s !! rid) ;;
  r <- from_option found (RecoveryError "RESTORE_REQUEST_UNAVAILABLE" 404) ;;
  guard (same_scope (rr_context r) ctx) (RecoveryError "RESTORE_REQUEST_UNAVAILABLE" 404) ;;
  ret r.

Definition put_backup (bid : string) (b : Backup) : St unit :=
  modify (λ s, set_backups (<[bid := b]> (backups s))
    (set_backup_order (match backups s !! bid with
                       | Some _ => backup_order s
                       | None => backup_order s ++ [bid]
                       end) s)).

Definition put_restore (rid : string) (r : RestoreRequest) : St unit :=
  modify (λ s, set_restores (<[rid := r]> (restores s)) s).

(** [_manifest_digest] *)
Definition manifest_digest (b : Backup) : string :=
  fingerprint (JArr [JStr (ctx_tenant_id (bk_context b)); JStr (ctx_workspace_id (bk_context b));
    JStr (bk_schema_revision b); JStr (bk_retention_watermark b); objects_json (bk_objects b)]).

(** [_backup_view] *)
Definition backup_view (b : Backup) : BackupView :=
  mkBackupView (bk_backup_id b) (ctx_tenant_id (bk_context b)) (ctx_workspace_id (bk_context b))
    (bk_state b) (bk_version b) (bk_trigger b) (bk_created_at b) (bk_verified_at b)
    (bk_schema_revision b) (bk_retention_watermark b) (manifest_digest b)
    (Z.of_nat (length (bk_objects b))) (bk_transitions b).

(** [_restore_view] *)
Definition restore_view (r : RestoreRequest) : RestoreRequestView :=
  mkRestoreView (rr_request_id r) (rr_backup_id r) (ctx_tenant_id (rr_context r))
    (ctx_workspace_id (rr_context r)) (rr_state r) (rr_version r) (rr_preview r)
    (rr_transitions r) (rr_verification_digest r).

(** [state] becomes the state and is appended to the transitions. *)
Definition backup_to (state : string) (b : Backup) : Backup :=
  set_bk_transitions (bk_transitions b ++ [state]) (set_bk_state state b).

Definition restore_to (state : string) (r : RestoreRequest) : RestoreRequest :=
  set_rr_transitions (rr_transitions r ++ [state]) (set_rr_state state r).

Definition backup_fingerprint (ctx : RecoveryContext) (trigger schema watermark : string)
    (objects : list BackupObjectInput) : string :=
  fingerprint (JArr [JStr (ctx_tenant_id ctx); JStr (ctx_workspace_id ctx); JStr trigger;
    JStr schema; JStr watermark; objects_json objects]).

Definition create_backup (ctx : RecoveryContext) (trigger schema watermark : string)
    (objects : list BackupObjectInput) (key : string) : St BackupView :=
  require_admin ctx ;;
  safe key ;;
  safe schema ;;
  safe watermark ;;
  guard (bool_decide (trigger ∈ ["automatic"; "manual"]) &&
         negb (bool_decide (length objects = 0%nat))) INPUT_INVALID ;;
  guard (distinct_objects objects) (MANIFEST_INVALID 400) ;;
  let fp := backup_fingerprint ctx trigger schema watermark objects in
  let rkey := (ctx_actor_id ctx, "backup", key) in
  replayed <- replay rkey fp ;;
  match replayed with
  | Some bid => b <- backup ctx bid ;; ret (backup_view b)
  | None =>
      now <- clock ;;
      bid <- new_id "backup" ;;
      let b := mkBackup bid ctx trigger now schema watermark objects "queued" 1 None ["queued"] in
      let b := foldl (λ b state, backup_to state b) b ["capturing"; "verifying"; "ready"] in
      let b := set_bk_version (bk_version b + 1) (set_bk_verified_at (Some now) b) in
      put_backup bid b ;;
      remember rkey fp bid ;;
      add_audit ctx "backup.verified" bid ;;
      ret (backup_view b)
  end.

(** The backups in insertion order. *)
Definition all_backups (s : Repo) : list Backup := omap (λ k, backups s !! k) (backup_order s).

Definition newer_first (a b : Backup) : bool := bk_created_at b <=? bk_created_at a.

Definition list_backups (ctx : RecoveryContext) : St (list BackupView) :=
  require_admin ctx ;;
  gets (λ s, map backup_view (filter (λ b, same_scope (bk_context b) ctx = true)
    (sort_stable newer_first (all_backups s)))).

Definition get_backup (ctx : RecoveryContext) (bid : string) : St BackupView :=
  require_admin ctx ;;
  b <- backup ctx bid ;; ret (backup_view b).

Definition locate_backup_workspace (tenant_id bid : string) : St string :=
  found <- gets (λ s, backups s !! bid) ;;
  b <- from_option found (RecoveryError "BACKUP_UNAVAILABLE" 404) ;;
  guard (String.eqb (ctx_tenant_id (bk_context b)) tenant_id)
    (RecoveryError "BACKUP_UNAVAILABLE" 404) ;;
  ret (ctx_workspace_id (bk_context b)).

Definition locate_restore_workspace (tenant_id rid : string) : St string :=
  found <- gets (λ s, restores s !! rid) ;;
  r <- from_option found (RecoveryError "RESTORE_REQUEST_UNAVAILABLE" 404) ;;
  guard (String.eqb (ctx_tenant_id (rr_context r)) tenant_id)
    (RecoveryError "RESTORE_REQUEST_UNAVAILABLE" 404) ;;
  ret (ctx_workspace_id (rr_context r)).

(** When each ready backup of the caller was verified. *)
Definition verified_times (ctx : RecoveryContext) (s : Repo) : list Z :=
  omap bk_verified_at (filter (λ b, same_scope (bk_context b) ctx && String.eqb (bk_state b) "ready" = true)
    (all_backups s)).

Definition backup_due (ctx : RecoveryContext) : St bool :=
  ready <- gets (verified_times ctx) ;;
  match ready with
  | [] => ret true
  | t :: ts => now <- clock ;; ret (rpo cfg <=? now - foldl Z.max t ts)
  end.

Definition set_current_retention (ctx : RecoveryContext) (purged held tombstoned : gset string)
    : St unit :=
  guard (forallb safe_id (elements (purged ∪ held ∪ tombstoned))) INPUT_INVALID ;;
  modify (λ s, set_retention (<[(ctx_tenant_id ctx, ctx_workspace_id ctx) :=
    mkRetention purged held tombstoned]> (retention s)) s).

(** Why the object is left out, if it is. *)
Definition exclusion_reason (sets : RetentionSets) (oid : string) : option string :=
  if bool_decide (oid ∈ rt_purged sets) then Some "purged"
  else if bool_decide (oid ∈ rt_held sets) then Some "held"
  else if bool_decide (oid ∈ rt_tombstoned sets) then Some "tombstoned"
  else None.

Definition current_retention (ctx : RecoveryContext) (s : Repo) : RetentionSets :=
  default (mkRetention ∅ ∅ ∅) (retention s !! (ctx_tenant_id ctx, ctx_workspace_id ctx)).

Definition excluded (sets : RetentionSets) (oids : list string) : list (string * string) :=
  omap (λ oid, reason ← exclusion_reason sets oid; Some (oid, reason)) oids.

Definition included (sets : RetentionSets) (oids : list string) : list string :=
  filter (λ oid, exclusion_reason sets oid = None) oids.

Definition fixture_destination (d : RestoreDestination) : bool :=
  startswith (fixture_prefix cfg) (rd_tenant_id d) &&
  startswith (fixture_prefix cfg) (rd_workspace_id d) &&
  startswith (fixture_prefix cfg) (rd_database_id d) &&
  startswith (fixture_prefix cfg) (rd_bucket_id d).

(** [_preview] *)
Definition preview (ctx : RecoveryContext) (b : Backup) (d : RestoreDestination) (version : Z)
    : St RestorePreviewView :=
  guard (fixture_destination d) (RecoveryError "FIXTURE_ONLY_RESTORE_REQUIRED" 403) ;;
  guard (negb (String.eqb (rd_tenant_id d) (ctx_tenant_id (bk_context b)) ||
               String.eqb (rd_workspace_id d) (ctx_workspace_id (bk_context b))))
    (RecoveryError "IN_PLACE_RESTORE_FORBIDDEN" 403) ;;
  sets <- gets (current_retention ctx) ;;
  let oids := object_ids (bk_objects b) in
  let reasons := excluded sets oids in
  now <- clock ;;
  ret (mkPreview version (included sets oids) (map fst reasons) reasons d now).

Definition preview_fingerprint (bid : string) (d : RestoreDestination) (policy : string) : string :=
  fingerprint (JArr [JStr bid; JStr (repr_destination d); JStr policy]).

Definition create_restore_preview (ctx : RecoveryContext) (bid : string) (d : RestoreDestination)
    (key : string) (step_up_verified : bool) : St RestoreRequestView :=
  require_step_up ctx step_up_verified ;;
  safe key ;;
  let fp := preview_fingerprint bid d (ctx_policy_version ctx) in
  let rkey := (ctx_actor_id ctx, "restore-preview", key) in
  b <- backup ctx bid ;;
  guard (String.eqb (bk_state b) "ready") (RecoveryError "BACKUP_NOT_READY" 409) ;;
  replayed <- replay rkey fp ;;
  match replayed with
  | Some rid => r <- restore_request ctx rid ;; ret (restore_view r)
  | None =>
      pv <- preview ctx b d 1 ;;
      rid <- new_id "restore" ;;
      let r := mkRestore rid ctx bid pv "requested" 1 ["requested"] None in
      let r := restore_to "preview_ready" r in
      let r := set_rr_version (rr_version r + 1) r in
      put_restore rid r ;;
      remember rkey fp rid ;;
      add_audit ctx "restore.previewed" rid ;;
      ret (restore_view r)
  end.

Definition get_restore_request (ctx : RecoveryContext) (rid : string) : St RestoreRequestView :=
  require_admin ctx ;;
  r <- restore_request ctx rid ;; ret (restore_view r).

Definition execute_fingerprint (rid : string) (expected preview_version : Z) (policy : string) : string :=
  fingerprint (JArr [JStr rid; JInt expected; JInt preview_version; JStr policy]).

Definition verification_fingerprint (rid : string) (d : RestoreDestination)
    (objects : list BackupObjectInput) (log : list AuditEntry) : string :=
  fingerprint (JArr [JStr rid; JStr (repr_destination d); objects_json objects;
    JOpt (ae_event_hash <$> last log)]).

(** What follows the guards of [execute_restore]. *)
Definition run_restore (ctx : RecoveryContext) (rid : string) (r : RestoreRequest)
    : St RestoreRequest :=
  b <- backup ctx (rr_backup_id r) ;;
  pv <- preview ctx b (pv_destination (rr_preview r)) (pv_version (rr_preview r) + 1) ;;
  let r := restore_to "restoring" (restore_to "authorized" (set_rr_preview pv r)) in
  put_restore rid r ;;
  let objects := filter (λ o, bo_object_id o ∈ pv_included_object_ids pv) (bk_objects b) in
  restored <- restore (pv_destination pv) objects ;;
  if negb restored then
    let r := restore_to "failed" r in
    put_restore rid (set_rr_version (rr_version r + 1) r) ;;
    raise (Raised "RESOURCE_UNAVAILABLE" 503 true)
  else
    let r := restore_to "verifying" r in
    put_restore rid r ;;
    log <- gets audit ;;
    let r := set_rr_verification_digest
      (Some (verification_fingerprint (rr_request_id r) (pv_destination pv) objects log)) r in
    let r := restore_to "completed" r in
    let r := set_rr_version (rr_version r + 1) r in
    put_restore rid r ;;
    ret r.

Definition execute_restore (ctx : RecoveryContext) (rid : string)
    (expected_version preview_version : Z) (key : string) (step_up_verified : bool)
    : St RestoreRequestView :=
  require_step_up ctx step_up_verified ;;
  safe key ;;
  let fp := execute_fingerprint rid expected_version preview_version (ctx_policy_version ctx) in
  let rkey := (ctx_actor_id ctx, "restore-execute", key) in
  r <- restore_request ctx rid ;;
  replayed <- replay rkey fp ;;
  match replayed with
  | Some _ => ret (restore_view r)
  | None =>
      guard ((rr_version r =? expected_version) && (pv_version (rr_preview r) =? preview_version))
        (RecoveryError "RESTORE_VERSION_CONFLICT" 409) ;;
      guard (String.eqb (rr_state r) "preview_ready") (RecoveryError "RESTORE_STATE_INVALID" 409) ;;
      r' <- run_restore ctx rid r ;;
      remember rkey fp (rr_request_id r') ;;
      add_audit ctx "restore.completed" (rr_request_id r') ;;
      ret (restore_view r')
  end.

Definition CANCELLABLE : list string := ["requested"; "preview_ready"; "authorized"].

Definition cancel_restore (ctx : RecoveryContext) (rid : string) (expected_version : Z)
    (key : string) : St RestoreRequestView :=
  require_admin ctx ;;
  safe key ;;
  let fp := fingerprint (JArr [JStr rid; JInt expected_version]) in
  let rkey := (ctx_actor_id ctx, "restore-cancel", key) in
  r <- restore_request ctx rid ;;
  replayed <- replay rkey fp ;;
  match replayed with
  | Some _ => ret (restore_view r)
  | None =>
      guard (rr_version r =? expected_version) (RecoveryError "RESTORE_VERSION_CONFLICT" 409) ;;
      guard (bool_decide (rr_state r ∈ CANCELLABLE)) (RecoveryError "RESTORE_STATE_INVALID" 409) ;;
      let r := restore_to "cancelled" r in
      let r := set_rr_version (rr_version r + 1) r in
      put_restore rid r ;;
      remember rkey fp (rr_request_id r) ;;
      add_audit ctx "restore.cancelled" (rr_request_id r) ;;
      ret (restore_view r)
  end.

(** ** Steps *)

(** One call of the service by [ctx], whether it returns or raises. *)
Inductive step_by (ctx : RecoveryContext) (s : Repo) : Repo → Prop :=
| step_backup trigger schema watermark objects key :
    Forall object_valid objects →
    step_by ctx s (final (create_backup ctx trigger schema watermark objects key) s)
| step_due : step_by ctx s (final (backup_due ctx) s)
| step_retention purged held tombstoned :
    step_by ctx s (final (set_current_retention ctx purged held tombstoned) s)
| step_preview bid d key su :
    destination_valid d = true →
    step_by ctx s (final (create_restore_preview ctx bid d key su) s)
| step_execute rid v pv key su :
    step_by ctx s (final (execute_restore ctx rid v pv key su) s)
| step_cancel rid v key : step_by ctx s (final (cancel_restore ctx rid v key) s).

Definition step (s s' : Repo) : Prop := ∃ ctx, step_by ctx s s'.

Definition reachable (p : RestorePort) (s : Repo) : Prop := rtc step (empty_repo p) s.

Lemma rc_reachable_ind_inv p (I : Repo → Prop) :
  I (empty_repo p) → (∀ s s', I s → step s s' → I s') → ∀ s, reachable p s → I s.
Proof. intros H0 Hs s Hr. eapply rtc_invariant; eauto. Qed.
End Service.

(** ** What the helpers do to a store *)

Section Helpers.
Context {D : Digest} {W : World} (cfg : Config).

Lemma rc_same_scope_eq c c' :
  same_scope c c' = true ↔
  ctx_tenant_id c = ctx_tenant_id c' ∧ ctx_workspace_id c = ctx_workspace_id c'.
Proof. unfold same_scope. rewrite andb_true_iff, !String.eqb_eq. done. Qed.

Lemma wp_backup ctx bid (Q : outcome Backup → Repo → Prop) s :
  (∀ b, backups s !! bid = Some b → same_scope (bk_context b) ctx = true → Q (Ret b) s) →
  (∀ e, Q (Raise e) s) →
  wp (backup ctx bid) Q s.
Proof. intros HR HE. unfold backup. wp_run; auto. Qed.

Lemma wp_restore_request ctx rid (Q : outcome RestoreRequest → Repo → Prop) s :
  (∀ r, restores s !! rid = Some r → same_scope (rr_context r) ctx = true → Q (Ret r) s) →
  (∀ e, Q (Raise e) s) →
  wp (restore_request ctx rid) Q s.
Proof. intros HR HE. unfold restore_request. wp_run; auto. Qed.

Lemma rc_wp_replay key fp (Q : outcome (option string) → Repo → Prop) s :
  (idempotency s !! key = None → Q (Ret None) s) →
  (∀ id, idempotency s !! key = Some (fp, id) → Q (Ret (Some id)) s) →
  (∀ e, Q (Raise e) s) →
  wp (replay key fp) Q s.
Proof.
  intros HN HS HE. unfold replay. wp_run; auto.
  match goal with H : String.eqb _ _ = true |- _ => apply String.eqb_eq in H as -> end. auto.
Qed.

(** An appended entry carries the current head and its own digest. *)
Definition entry_for (s : Repo) (e : AuditEntry) : Prop :=
  ae_previous_hash e = head_hash (audit s) ∧ ae_event_hash e = sha256_hex (ev_bytes e).

Lemma rc_wp_add_audit ctx a t (Q : outcome unit → Repo → Prop) s :
  (∀ e d, entry_for s e → tokens d = tokens (draws s) →
     Q (Ret tt) (set_audit (audit s ++ [e]) (set_draws d s))) →
  wp (add_audit ctx a t) Q s.
Proof.
  intros HQ. unfold add_audit. wp_run. apply HQ; [split; reflexivity|done].
Qed.

(** A destination the program accepts for a backup: every identifier is a
    fixture, and it is neither the tenant nor the workspace of the backup. *)
Definition isolated (b : Backup) (d : RestoreDestination) : Prop :=
  fixture_destination cfg d = true ∧
  rd_tenant_id d ≠ ctx_tenant_id (bk_context b) ∧
  rd_workspace_id d ≠ ctx_workspace_id (bk_context b).

(** A preview shows every object once, as included or with the reason why not. *)
Definition preview_of (sets : RetentionSets) (b : Backup) (d : RestoreDestination) (version : Z)
    (pv : RestorePreviewView) : Prop :=
  pv_version pv = version ∧ pv_destination pv = d ∧ isolated b d ∧
  pv_included_object_ids pv = included sets (object_ids (bk_objects b)) ∧
  pv_exclusion_reasons pv = excluded sets (object_ids (bk_objects b)) ∧
  pv_excluded_object_ids pv = map fst (pv_exclusion_reasons pv).

Lemma wp_preview ctx b d version (Q : outcome RestorePreviewView → Repo → Prop) s :
  (∀ pv dr, preview_of (current_retention ctx s) b d version pv → tokens dr = tokens (draws s) →
     Q (Ret pv) (set_draws dr s)) →
  (∀ e, Q (Raise e) s) →
  wp (preview cfg ctx b d version) Q s.
Proof.
  intros HR HE. unfold preview. wp_run; auto. bools.
  apply HR; [|done]. by repeat split.
Qed.

Lemma wp_restore d objects (Q : outcome bool → Repo → Prop) s :
  Q (Ret false) s →
  Q (Ret true) (set_port (mkPort (rp_restored_object_ids (port s) ++ object_ids objects)
    (rp_destinations (port s) ++ [d]) (rp_original_mutations (port s))
    (rp_fail_object_ids (port s))) s) →
  wp (restore d objects) Q s.
Proof. intros HF HT. unfold wp, restore. by destruct (existsb _ _). Qed.
End Helpers.

Ltac rc_step :=
  lazymatch goal with
  | |- wp (backup _ _) _ _ => apply wp_backup; [intros ? ? ?|intros ?]
  | |- wp (restore_request _ _) _ _ => apply wp_restore_request; [intros ? ? ?|intros ?]
  | |- wp (replay _ _) _ _ => apply rc_wp_replay; [intros ?|intros ? ?|intros ?]
  | |- wp (add_audit _ _ _) _ _ => apply rc_wp_add_audit; intros ? ? ? ?
  | |- wp (preview _ _ _ _ _) _ _ => apply wp_preview; [intros ? ? ? ?|intros ?]
  | |- wp (restore _ _) _ _ => apply wp_restore
  | |- wp (safe _) _ _ => unfold safe
  | |- wp (require_admin _) _ _ => unfold require_admin
  | |- wp (require_step_up _ _) _ _ => unfold require_step_up
  | |- wp (put_backup _ _) _ _ => unfold put_backup
  | |- wp (put_restore _ _) _ _ => unfold put_restore
  | |- wp (remember _ _ _) _ _ => unfold remember
  | |- wp (run_restore _ _ _ _) _ _ => unfold run_restore
  | _ => wp_step
  end; cbn beta iota.
Ltac rc_run := repeat rc_step.

(** ** What a restore writes, and where *)

Section Restores.
Context {D : Digest} {W : World} (cfg : Config).

(** Everything the program requires before it restores anything, and what it
    then restores. *)
Record restore_due (ctx : RecoveryContext) (rid : string) (v pvv : Z) (su : bool)
    (s s' : Repo) : Prop := {
  rd_admin : ctx_organization_admin ctx = true;
  rd_step_up : su = true;
  rd_restored : ∃ r b,
    restores s !! rid = Some r ∧ same_scope (rr_context r) ctx = true ∧
    rr_state r = "preview_ready" ∧ rr_version r = v ∧ pv_version (rr_preview r) = pvv ∧
    backups s !! rr_backup_id r = Some b ∧ same_scope (bk_context b) ctx = true ∧
    isolated cfg b (pv_destination (rr_preview r)) ∧
    rp_destinations (port s') = rp_destinations (port s) ++ [pv_destination (rr_preview r)] ∧
    ∃ ids, rp_restored_object_ids (port s') = rp_restored_object_ids (port s) ++ ids ∧
      ∀ id, id ∈ ids → (id ∈ object_ids (bk_objects b)) ∧
        exclusion_reason (current_retention ctx s) id = None
}.

Lemma exclusion_reason_None sets id :
  exclusion_reason sets id = None ↔
  (id ∉ rt_purged sets) ∧ (id ∉ rt_held sets) ∧ (id ∉ rt_tombstoned sets).
Proof. unfold exclusion_reason. repeat case_bool_decide; naive_solver. Qed.

Lemma port_unused {A} (m : M Repo A) s (P : Prop) :
  wp m (λ _ s', port s' = port s) s →
  rp_original_mutations (port (final m s)) = rp_original_mutations (port s) ∧
  (port (final m s) = port s ∨ P).
Proof. unfold wp. intros ->. auto. Qed.

Lemma elem_of_restored b sets pv d version id :
  preview_of cfg sets b d version pv →
  id ∈ object_ids (filter (λ o, bo_object_id o ∈ pv_included_object_ids pv) (bk_objects b)) →
  id ∈ object_ids (bk_objects b) ∧ exclusion_reason sets id = None.
Proof.
  intros (_ & _ & _ & Hinc & _) (o & -> & [Ho Hb]%list_elem_of_filter)%list_elem_of_fmap.
  rewrite Hinc in Ho. apply list_elem_of_filter in Ho as [Hr Hin]. done.
Qed.

Lemma execute_port ctx rid v pvv key su s :
  wp (execute_restore cfg ctx rid v pvv key su) (λ _ s',
    rp_original_mutations (port s') = rp_original_mutations (port s) ∧
    (port s' = port s ∨ restore_due ctx rid v pvv su s s')) s.
Proof.
  unfold execute_restore. rc_run; try (split; [done|by left]).
  bools. split; [done|]. right. simpl in *.
  match goal with H : preview_of _ _ _ _ _ _ |- _ => rename H into Hpv end.
  pose proof Hpv as (_ & Hd & Hiso & _). constructor; [done..|].
  exists r, b. simpl. split_and!; try done; [by rewrite Hd|].
  eexists. split; [reflexivity|]. intros id. by eapply elem_of_restored.
Qed.

(** C29: whatever is called, the restore port is only used by an execution, of
    a request that is ready and at the expected versions, by an administrator
    with a verified step-up; it then writes once, to an isolated destination
    that is entirely made of fixtures, only objects of the backup, and none that
    is purged, held or tombstoned at that moment; originals are never written. *)
Theorem restores_only_isolated ctx s s' :
  step_by cfg ctx s s' →
  rp_original_mutations (port s') = rp_original_mutations (port s) ∧
  (port s' = port s ∨ ∃ rid v pvv su, restore_due ctx rid v pvv su s s').
Proof.
  intros [| | | |rid v pvv key su|].
  - apply port_unused. unfold create_backup. by rc_run.
  - apply port_unused. unfold backup_due. by rc_run.
  - apply port_unused. unfold set_current_retention. by rc_run.
  - apply port_unused. unfold create_restore_preview. by rc_run.
  - destruct (execute_port ctx rid v pvv key su s) as [? [|]]; eauto 10.
  - apply port_unused. unfold cancel_restore. by rc_run.
Qed.
End Restores.


(** ** The life of a restore request *)

Section Lifecycle.
Context {D : Digest} {W : World} (cfg : Config).

(** The transitions the program makes. *)
Inductive transition : string → string → Prop :=
| tr_preview : transition "requested" "preview_ready"
| tr_cancel : transition "preview_ready" "cancelled"
| tr_authorize : transition "preview_ready" "authorized"
| tr_restore : transition "authorized" "restoring"
| tr_fail : transition "restoring" "failed"
| tr_verify : transition "restoring" "verifying"
| tr_complete : transition "verifying" "completed".

(** [l] is a path of transitions from [x] to [y]. *)
Fixpoint path (x : string) (l : list string) (y : string) : Prop :=
  match l with
  | [] => x = y
  | z :: l' => transition x z ∧ path z l' y
  end.

Lemma path_snoc x l y z : path x l y → transition y z → path x (l ++ [z]) z.
Proof.
  revert x. induction l as [|w l IH]; simpl; intros x; [by intros ->|].
  intros [? ?] ?. split; [done|]. by apply IH.
Qed.

Definition TERMINAL : list string := ["cancelled"; "failed"; "completed"].

(** What one call does to a request, [m] being the backups. *)
Inductive advances (m : gmap string Backup) (r : RestoreRequest) : RestoreRequest → Prop :=
| adv_same : advances m r r
| adv_cancel :
    rr_state r ∈ CANCELLABLE →
    advances m r (set_rr_version (rr_version r + 1) (restore_to "cancelled" r))
| adv_fail sets b pv :
    rr_state r = "preview_ready" → m !! rr_backup_id r = Some b →
    preview_of cfg sets b (pv_destination (rr_preview r)) (pv_version (rr_preview r) + 1) pv →
    advances m r (set_rr_version (rr_version r + 1)
      (restore_to "failed" (restore_to "restoring" (restore_to "authorized" (set_rr_preview pv r)))))
| adv_complete sets b pv v :
    rr_state r = "preview_ready" → m !! rr_backup_id r = Some b →
    preview_of cfg sets b (pv_destination (rr_preview r)) (pv_version (rr_preview r) + 1) pv →
    advances m r (set_rr_version (rr_version r + 1) (restore_to "completed"
      (set_rr_verification_digest (Some (fingerprint v)) (restore_to "verifying"
      (restore_to "restoring" (restore_to "authorized" (set_rr_preview pv r))))))).

#[local] Instance advances_refl m : Reflexive (advances m).
Proof. intros r. apply adv_same. Qed.

Definition backups_confined : RecoveryContext → Repo → Repo → Prop :=
  Scoped.confined (λ b, same_scope (bk_context b)) "backup" backups.
Definition restores_confined : RecoveryContext → Repo → Repo → Prop :=
  Scoped.confined (λ r, same_scope (rr_context r)) "restore" restores.
Definition ids_drawn (s : Repo) : Prop :=
  Scoped.ids_drawn "backup" backups s ∧ Scoped.ids_drawn "restore" restores s.
Definition confined (ctx : RecoveryContext) (s s' : Repo) : Prop :=
  backups_confined ctx s s' ∧ restores_confined ctx s s'.

Ltac confine2 := split; confine.

Lemma step_confined ctx s s' : step_by cfg ctx s s' → confined ctx s s'.
Proof.
  intros [trigger schema watermark objects key| |purged held tombstoned|bid d key su|
          rid v pvv key su|rid v key].
  - enough (wp (create_backup ctx trigger schema watermark objects key) (λ _, confined ctx s) s)
      by done. unfold create_backup. rc_run; confine2.
  - enough (wp (backup_due cfg ctx) (λ _, confined ctx s) s) by done.
    unfold backup_due. rc_run; confine2.
  - enough (wp (set_current_retention ctx purged held tombstoned) (λ _, confined ctx s) s) by done.
    unfold set_current_retention. rc_run; confine2.
  - enough (wp (create_restore_preview cfg ctx bid d key su) (λ _, confined ctx s) s) by done.
    unfold create_restore_preview. rc_run; confine2.
  - enough (wp (execute_restore cfg ctx rid v pvv key su) (λ _, confined ctx s) s) by done.
    unfold execute_restore. rc_run; confine2.
  - enough (wp (cancel_restore ctx rid v key) (λ _, confined ctx s) s) by done.
    unfold cancel_restore. rc_run; confine2.
Qed.

Lemma reachable_ids_drawn p s : reachable cfg p s → ids_drawn s.
Proof.
  apply (rc_reachable_ind_inv cfg p ids_drawn).
  - split; intros k v; simpl; by rewrite lookup_empty.
  - intros t t' [Hb Hr] [ctx [Hcb Hcr]%step_confined]. split; by eapply confined_ids_drawn.
Qed.

(** Backups never change, requests advance. *)
Definition progress (s s' : Repo) : Prop :=
  backups s ⊆ backups s' ∧ Scoped.grown (advances (backups s)) (restores s) (restores s').

Lemma step_progress s s' :
  Inj (=) (=) token_at → ids_drawn s → step cfg s s' → progress s s'.
Proof.
  intros Hinj [Hdb Hdr] [ctx [trigger schema watermark objects key| |purged held tombstoned|
    bid d key su|rid v pvv key su|rid v key]].
  - enough (wp (create_backup ctx trigger schema watermark objects key) (λ _, progress s) s) by done.
    pose proof (Scoped.next_id_new "backup" backups Hinj s (tokens (draws s)) Hdb ltac:(simpl; lia)).
    unfold create_backup. rc_run; split; simpl; try done; try apply (Scoped.grown_refl (advances (backups s))).
    by apply insert_subseteq.
  - enough (wp (backup_due cfg ctx) (λ _, progress s) s) by done.
    unfold backup_due. rc_run; by (split; simpl; [done|try apply (Scoped.grown_refl (advances (backups s)))]).
  - enough (wp (set_current_retention ctx purged held tombstoned) (λ _, progress s) s) by done.
    unfold set_current_retention. rc_run; by (split; simpl; [done|try apply (Scoped.grown_refl (advances (backups s)))]).
  - enough (wp (create_restore_preview cfg ctx bid d key su) (λ _, progress s) s) by done.
    unfold create_restore_preview. rc_run; (split; simpl; [done|try apply (Scoped.grown_refl (advances (backups s)))]).
    apply (Scoped.grown_new (advances (backups s))).
    eapply (Scoped.next_id_new "restore" restores Hinj s); [done|simpl in *; lia].
  - enough (wp (execute_restore cfg ctx rid v pvv key su) (λ _, progress s) s) by done.
    unfold execute_restore. rc_run; (split; simpl; [done|try apply (Scoped.grown_refl (advances (backups s)))]); rewrite ?insert_insert_eq;
      (eapply (Scoped.grown_update (advances (backups s))); [done|]).
    all: bools; first [by eapply adv_fail | by eapply adv_complete].
  - enough (wp (cancel_restore ctx rid v key) (λ _, progress s) s) by done.
    unfold cancel_restore. rc_run; (split; simpl; [done|try apply (Scoped.grown_refl (advances (backups s)))]).
    eapply (Scoped.grown_update (advances (backups s))); [done|]. bools. by apply adv_cancel.
Qed.

Lemma cancellable_not_terminal st : st ∈ CANCELLABLE → st ∈ TERMINAL → False.
Proof.
  unfold CANCELLABLE, TERMINAL. rewrite !elem_of_cons, !elem_of_nil. intros ? ?.
  destruct_or!; congruence.
Qed.

(** A request at the end of its life stays as it is. *)
Lemma advances_terminal m r r' : advances m r r' → rr_state r ∈ TERMINAL → r' = r.
Proof.
  intros [] Ht; [done|..]; exfalso.
  all: eapply cancellable_not_terminal; [|exact Ht]; try done.
  all: match goal with H : rr_state _ = _ |- _ => rewrite H end; by right; left.
Qed.

(** A request that has been completed, has failed or was cancelled is never
    changed again, by any sequence of calls: nothing is restored twice under
    one request. *)
Theorem terminal_restores_frozen p s t rid r :
  Inj (=) (=) token_at → reachable cfg p s → rtc (step cfg) s t →
  restores s !! rid = Some r → rr_state r ∈ TERMINAL → restores t !! rid = Some r.
Proof.
  intros Hinj Hs Ht. revert Hs. induction Ht as [|s1 s2 s3 H12 _ IH]; intros Hs Hr Hst; [done|].
  apply IH; [by eapply rtc_r| |done].
  destruct (step_progress _ _ Hinj (reachable_ids_drawn _ _ Hs) H12) as [_ Hg].
  destruct (Hg _ _ Hr) as (r' & Hr' & Ha). by rewrite (advances_terminal _ _ _ Ha Hst) in Hr'.
Qed.

(** *** The shape of requests and backups *)

(** A backup was captured and verified when it was created. *)
Record backup_wf (bid : string) (b : Backup) : Prop := {
  bw_id : bk_backup_id b = bid;
  bw_state : bk_state b = "ready";
  bw_transitions : bk_transitions b = ["queued"; "capturing"; "verifying"; "ready"];
  bw_version : bk_version b = 2;
  bw_verified : bk_verified_at b = Some (bk_created_at b);
  bw_trigger : bk_trigger b ∈ ["automatic"; "manual"];
  bw_objects : Forall object_valid (bk_objects b);
  bw_distinct : NoDup (object_ids (bk_objects b)) ∧ bk_objects b ≠ []
}.

(** A request went through transitions of the program to its state, ends up
    with a verification digest exactly when it completed, and its preview shows
    every object of its backup once, for an isolated destination. *)
Record restore_wf (m : gmap string Backup) (rid : string) (r : RestoreRequest) : Prop := {
  rw_id : rr_request_id r = rid;
  rw_path : ∃ l, rr_transitions r = "requested" :: l ∧ path "requested" l (rr_state r);
  rw_state : (rr_state r = "preview_ready" ∧ rr_version r = 2) ∨
             (rr_state r ∈ TERMINAL ∧ rr_version r = 3);
  rw_digest : (∃ h, rr_verification_digest r = Some h ∧ is_digest h = true) ∧ rr_state r = "completed" ∨
              rr_verification_digest r = None ∧ rr_state r ≠ "completed";
  rw_preview : ∃ b, m !! rr_backup_id r = Some b ∧
    isolated cfg b (pv_destination (rr_preview r)) ∧
    pv_included_object_ids (rr_preview r) ++ pv_excluded_object_ids (rr_preview r) ≡ₚ
      object_ids (bk_objects b)
}.

Definition wf (s : Repo) : Prop :=
  map_Forall backup_wf (backups s) ∧ map_Forall (restore_wf (backups s)) (restores s).

Lemma preview_partition sets ids :
  included sets ids ++ map fst (excluded sets ids) ≡ₚ ids.
Proof.
  induction ids as [|id ids IH]; [done|]. unfold included, excluded in *. simpl.
  rewrite filter_cons. destruct (exclusion_reason sets id) as [reason|] eqn:E; case_decide;
    try congruence; simpl.
  - by rewrite <- Permutation_middle, IH.
  - by rewrite IH.
Qed.

Lemma restore_wf_mono m m' rid r : m ⊆ m' → restore_wf m rid r → restore_wf m' rid r.
Proof.
  intros Hm []. split; try done. destruct rw_preview0 as (b & Hb & ?). exists b.
  split; [by eapply lookup_weaken|done].
Qed.

Lemma path_extend (ts : list string) st st' :
  (∃ l, ts = "requested" :: l ∧ path "requested" l st) → transition st st' →
  ∃ l, ts ++ [st'] = "requested" :: l ∧ path "requested" l st'.
Proof. intros (l & -> & Hl) Ht. exists (l ++ [st']). split; [done|by eapply path_snoc]. Qed.

(** A request that is not at its end is ready and not verified. *)
Lemma restore_wf_ready m rid r :
  restore_wf m rid r → rr_state r ∈ CANCELLABLE →
  rr_state r = "preview_ready" ∧ rr_version r = 2 ∧ rr_verification_digest r = None.
Proof.
  intros [_ _ Hst Hd _] Hc. destruct Hst as [[Hst Hv]|[Ht _]];
    [|by destruct (cancellable_not_terminal _ Hc Ht)].
  split_and!; [done..|]. destruct Hd as [[_ Hs]|[? _]]; [congruence|done].
Qed.

Lemma fingerprint_is_digest v : is_digest (fingerprint v) = true.
Proof. apply sha256_hex_shape. Qed.

Lemma preview_of_wf (m : gmap string Backup) sets b r version pv :
  m !! rr_backup_id r = Some b →
  preview_of cfg sets b (pv_destination (rr_preview r)) version pv →
  ∃ b, m !! rr_backup_id r = Some b ∧ isolated cfg b (pv_destination pv) ∧
    pv_included_object_ids pv ++ pv_excluded_object_ids pv ≡ₚ object_ids (bk_objects b).
Proof.
  intros Hb (_ & -> & Hiso & -> & Hx & ->). exists b. rewrite Hx.
  split_and!; [done..|apply preview_partition].
Qed.

Lemma advances_wf m rid r r' : advances m r r' → restore_wf m rid r → restore_wf m rid r'.
Proof.
  intros Ha Hr. destruct Ha as [|Hc|sets b pv Hst Hb Hpv|sets b pv v Hst Hb Hpv]; [done| | |].
  all: destruct (restore_wf_ready _ _ _ Hr) as (Hs & Hv & Hd); [by rewrite ?Hst; (done || right; left)|].
  all: destruct Hr as [Hid Hp _ _ Hpre]; rewrite Hs in Hp; constructor; simpl; try done.
  - eapply path_extend; [done|constructor].
  - right. rewrite Hv. split; [by left|done].
  - by right.
  - by do 3 (eapply path_extend; [|constructor]).
  - right. rewrite Hv. split; [by right; left|done].
  - by right.
  - by eapply preview_of_wf.
  - by do 4 (eapply path_extend; [|constructor]).
  - right. rewrite Hv. split; [by right; right; left|done].
  - left. split; [|done]. eexists. split; [done|apply fingerprint_is_digest].
  - by eapply preview_of_wf.
Qed.

Lemma wf_progress s s' :
  progress s s' → (∀ k b, backups s' !! k = Some b → backups s !! k = None → backup_wf k b) →
  (∀ k r, restores s' !! k = Some r → restores s !! k = None → restore_wf (backups s') k r) →
  wf s → wf s'.
Proof.
  intros [Hb Hg] Hnb Hnr [Hwb Hwr]. split.
  - intros k b Hk. destruct (backups s !! k) as [b'|] eqn:E; [|by apply Hnb].
    pose proof (lookup_weaken _ _ _ _ E Hb). simplify_eq. by apply Hwb.
  - intros k r Hk. destruct (restores s !! k) as [r'|] eqn:E; [|by apply Hnr].
    destruct (Hg _ _ E) as (r'' & Hr'' & Ha). simplify_eq.
    eapply restore_wf_mono; [done|]. eapply advances_wf; [done|]. by apply Hwr.
Qed.

(** What is new after a call is well formed. *)
Definition news_wf (s s' : Repo) : Prop :=
  (∀ k b, backups s' !! k = Some b → backups s !! k = None → backup_wf k b) ∧
  (∀ k r, restores s' !! k = Some r → restores s !! k = None → restore_wf (backups s') k r).

Lemma news_none s s' :
  backups s' = backups s → (∀ k, restores s !! k = None → restores s' !! k = None) → news_wf s s'.
Proof.
  intros Hb Hr. split; intros k x Hx Hn; [congruence|]. by rewrite (Hr _ Hn) in Hx.
Qed.

Ltac no_news :=
  apply news_none; simpl; [done|]; intros ? ?; try done;
  repeat (rewrite lookup_insert_ne by congruence); done.

Lemma news_backup ctx trigger schema watermark objects key s :
  Forall object_valid objects →
  wp (create_backup ctx trigger schema watermark objects key) (λ _, news_wf s) s.
Proof.
  intros Hobj. unfold create_backup. rc_run; try no_news. bools. split; simpl; [|congruence].
  intros k b Hk Hn. destruct (lookup_insert_added _ _ _ _ _ Hk Hn) as [-> ->].
  constructor; simpl; try done. unfold distinct_objects in *. bools.
  split; [|by destruct objects]. apply fromkeys_length_NoDup.
  match goal with H : length (fromkeys _) = _ |- _ => rewrite H end.
  unfold object_ids. by rewrite length_map.
Qed.

Lemma news_preview ctx bid d key su s :
  wp (create_restore_preview cfg ctx bid d key su) (λ _, news_wf s) s.
Proof.
  unfold create_restore_preview. rc_run; try no_news. bools. split; simpl; [congruence|].
  intros k r Hk Hn. destruct (lookup_insert_added _ _ _ _ _ Hk Hn) as [-> ->].
  constructor; simpl; try done; [by exists ["preview_ready"]; repeat constructor|by left|by right|].
  match goal with H : preview_of _ _ _ _ _ _ |- _ => destruct H as (_ & -> & Hiso & -> & Hx & ->) end.
  exists b. rewrite Hx. split_and!; [done..|apply preview_partition].
Qed.

Lemma step_news s s' : step cfg s s' → news_wf s s'.
Proof.
  intros [ctx [trigger schema watermark objects key| |purged held tombstoned|bid d key su|
    rid v pvv key su|rid v key]]; [by apply news_backup| | |apply news_preview| |].
  - enough (wp (backup_due cfg ctx) (λ _, news_wf s) s) by done.
    unfold backup_due. rc_run; no_news.
  - enough (wp (set_current_retention ctx purged held tombstoned) (λ _, news_wf s) s) by done.
    unfold set_current_retention. rc_run; no_news.
  - enough (wp (execute_restore cfg ctx rid v pvv key su) (λ _, news_wf s) s) by done.
    unfold execute_restore. rc_run; no_news.
  - enough (wp (cancel_restore ctx rid v key) (λ _, news_wf s) s) by done.
    unfold cancel_restore. rc_run; no_news.
Qed.

(** In every reachable store every backup is verified and has distinct
    valid objects, and every restore request has gone from [requested] to its
    state by the program's transitions, is ready or at its end, carries a
    verification digest exactly when it completed, and previews every object of
    its existing backup exactly once, for an isolated destination. *)
Theorem recovery_wf p s :
  Inj (=) (=) token_at → reachable cfg p s →
  map_Forall backup_wf (backups s) ∧ map_Forall (restore_wf (backups s)) (restores s).
Proof.
  intros Hinj Hr. enough (reachable cfg p s ∧ wf s) as [_ Hs] by exact Hs. revert s Hr.
  apply rtc_ind_r; [split; [apply rtc_refl|split; apply map_Forall_empty]|].
  intros s s' _ Hstep [Hr Hwf]. split; [by eapply rtc_r|].
  destruct (step_news _ _ Hstep).
  eapply wf_progress; [eapply step_progress|..]; eauto using reachable_ids_drawn.
Qed.

(** Backups and restore requests of other tenants and workspaces are out of
    a caller's reach. *)
Theorem recovery_isolated p s ctx s' :
  Inj (=) (=) token_at → reachable cfg p s → step_by cfg ctx s s' →
  (∀ k b, backups s !! k = Some b → same_scope (bk_context b) ctx = false →
     backups s' !! k = Some b) ∧
  (∀ k r, restores s !! k = Some r → same_scope (rr_context r) ctx = false →
     restores s' !! k = Some r).
Proof.
  intros Hinj [Hb Hr]%reachable_ids_drawn [Hcb Hcr]%step_confined.
  split; intros; [by eapply (confined_others _ _ backups)|by eapply (confined_others _ _ restores)].
Qed.
End Lifecycle.

(** ** The audit log *)

Section AuditLog.
Context {D : Digest} {W : World} (cfg : Config).

#[export] Instance audit_entry_inj : ChainedInj AuditEntry.
Proof.
  intros [] [] H Hh. cbn in H, Hh. subst.
  vm_compute in H. by simplify_eq.
Qed.

Definition audit_chained (s : Repo) : Prop := chain_ok (audit s).

Lemma rc_audit_chained_snoc s e :
  audit_chained s → entry_for s e → chain_ok (audit s ++ [e]).
Proof. intros Hs [Hp Hh]. by apply chain_snoc. Qed.

Ltac chained := first [done | by apply rc_audit_chained_snoc].

Lemma rc_step_audit_chained s s' : audit_chained s → step cfg s s' → audit_chained s'.
Proof.
  intros Hs [ctx [trigger schema watermark objects key| |purged held tombstoned|bid d key su|
    rid v pvv key su|rid v key]].
  - enough (wp (create_backup ctx trigger schema watermark objects key) (λ _, audit_chained) s)
      by done. unfold create_backup. rc_run; chained.
  - enough (wp (backup_due cfg ctx) (λ _, audit_chained) s) by done.
    unfold backup_due. rc_run; chained.
  - enough (wp (set_current_retention ctx purged held tombstoned) (λ _, audit_chained) s) by done.
    unfold set_current_retention. rc_run; chained.
  - enough (wp (create_restore_preview cfg ctx bid d key su) (λ _, audit_chained) s) by done.
    unfold create_restore_preview. rc_run; chained.
  - enough (wp (execute_restore cfg ctx rid v pvv key su) (λ _, audit_chained) s) by done.
    unfold execute_restore. rc_run; chained.
  - enough (wp (cancel_restore ctx rid v key) (λ _, audit_chained) s) by done.
    unfold cancel_restore. rc_run; chained.
Qed.

(** In every reachable store the audit log is a hash chain, and tamper
    evident: another chain of the same length and head is the same log, unless
    two contents at one position collide. *)
Theorem recovery_audit_chained p s :
  reachable cfg p s →
  chain_ok (audit s) ∧
  ∀ log, chain_ok log → length log = length (audit s) →
    head_hash log = head_hash (audit s) →
    (∀ i, ¬ collision_at i log (audit s)) → log = audit s.
Proof.
  intros Hr. assert (audit_chained s) as Hs.
  { eapply (rc_reachable_ind_inv cfg p audit_chained); eauto using rc_step_audit_chained. done. }
  split; [done|]. intros log Hl Hlen Hh Hn. by apply chain_tamper_evident.
Qed.
End AuditLog.

(** ** A concrete run *)

Module Sample.
#[local] Existing Instance checksum_digest.
#[local] Existing Instance sample_world.

Definition cfg : Config := mkConfig "fixture-" 900000000.
Definition alice : RecoveryContext :=
  mkContext "tenant-1" "workspace-1" "alice" "trace-1" "policy-1" true None None.
Definition mallory : RecoveryContext :=
  mkContext "tenant-2" "workspace-2" "mallory" "trace-2" "policy-1" true None None.

Definition object (id : string) : BackupObjectInput := mkObject id GENESIS_HASH 3.
Definition destination : RestoreDestination :=
  mkDestination "fixture-t" "fixture-w" "fixture-db" "fixture-bucket".

Definition port0 : RestorePort := mkPort [] [] 0 ∅.

(** Backup, retention, preview, restore. *)
Definition s1 : Repo :=
  final (create_backup alice "manual" "schema-1" "mark-1" [object "object-1"; object "object-2"]
    "key-1") (empty_repo port0).
Definition s2 : Repo := final (set_current_retention alice {["object-2"]} ∅ ∅) s1.
Definition s3 : Repo :=
  final (create_restore_preview cfg alice "backup-0" destination "key-2" true) s2.
Definition s4 : Repo := final (execute_restore cfg alice "restore-1" 2 1 "key-3" true) s3.

Lemma objects_valid : Forall object_valid [object "object-1"; object "object-2"].
Proof. repeat constructor. Qed.

Lemma rc_s1_reachable : reachable cfg port0 s1.
Proof. eapply rtc_once. exists alice. apply step_backup, objects_valid. Qed.
Lemma rc_s2_reachable : reachable cfg port0 s2.
Proof. eapply rtc_r; [apply rc_s1_reachable|]. exists alice. apply step_retention. Qed.
Lemma rc_s3_reachable : reachable cfg port0 s3.
Proof. eapply rtc_r; [apply rc_s2_reachable|]. exists alice. by apply step_preview. Qed.
Lemma s4_reachable : reachable cfg port0 s4.
Proof. eapply rtc_r; [apply rc_s3_reachable|]. exists alice. apply step_execute. Qed.

(** The purged object is not restored. *)
Lemma s4_restored : rp_restored_object_ids (port s4) = ["object-1"].
Proof. by vm_compute. Qed.

Lemma s4_request :
  ∃ r, restores s4 !! "restore-1" = Some r ∧ rr_state r ∈ TERMINAL ∧
    same_scope (rr_context r) mallory = false.
Proof. vm_compute. eexists. split; [reflexivity|]. split; [|reflexivity]. by right; right; left. Qed.

Definition bindings : list Binding :=
  [("version-2", "source-2", object "object-2", GENESIS_HASH);
   ("version-1", "source-1", object "object-1", GENESIS_HASH)].

Definition selection : BackupSelectionInput :=
  mkSelection "notebook-1" ["version-1"; "version-2"].

Lemma selection_made : make_selection "notebook-1" ["version-2"; "version-1"] = Ret selection.
Proof. by vm_compute. Qed.

Lemma selection_resolved :
  ∃ r, resolved_backup_metadata alice selection "schema-1" "mark-1" bindings "manual" tt =
      (tt, Ret r) ∧ object_ids (rs_objects r) = ["object-1"; "object-2"].
Proof. vm_compute. eexists. split; reflexivity. Qed.
End Sample.

Section Witnesses.
Import Sample.
#[local] Existing Instance checksum_digest.
#[local] Existing Instance sample_world.

Lemma restores_only_isolated_witness :
  port s4 ≠ port s3 ∧ ∃ rid v pvv su, restore_due cfg alice rid v pvv su s3 s4.
Proof.
  assert (port s4 ≠ port s3) as Hp by (intros H%(f_equal rp_restored_object_ids); by vm_compute in H).
  split; [exact Hp|].
  destruct (restores_only_isolated cfg alice s3 s4) as [_ [H|H]]; [apply step_execute| |exact H].
  by destruct (Hp H).
Defined.

Lemma terminal_restores_frozen_witness :
  ∃ r, restores (final (cancel_restore alice "restore-1" 3 "key-4") s4) !! "restore-1" = Some r.
Proof.
  destruct s4_request as (r & Hr & Ht & _). exists r.
  apply (terminal_restores_frozen cfg port0 s4);
    [apply sample_tokens_inj|apply s4_reachable| |exact Hr|exact Ht].
  eapply rtc_once. exists alice. apply step_cancel.
Defined.

Lemma recovery_wf_witness :
  restores s4 !! "restore-1" ≠ None ∧ map_Forall (restore_wf cfg (backups s4)) (restores s4).
Proof.
  split; [by vm_compute|]. apply (recovery_wf cfg port0); [apply sample_tokens_inj|apply s4_reachable].
Defined.

Lemma recovery_isolated_witness :
  ∃ r, restores (final (cancel_restore mallory "restore-1" 3 "key-4") s4) !! "restore-1" = Some r.
Proof.
  destruct s4_request as (r & Hr & _ & Hs). exists r.
  apply (recovery_isolated cfg port0 s4 mallory);
    [apply sample_tokens_inj|apply s4_reachable|apply step_cancel|exact Hr|exact Hs].
Defined.

Lemma recovery_audit_chained_witness : length (audit s4) = 3%nat ∧ chain_ok (audit s4).
Proof.
  split; [by vm_compute|]. apply (recovery_audit_chained cfg port0), s4_reachable.
Defined.

Lemma resolved_selection_canonical_witness :
  resolved_backup_metadata alice selection "schema-1" "mark-1" bindings "manual" tt =
    resolved_backup_metadata alice selection "schema-1" "mark-1" (rev bindings) "manual" tt ∧
  ∃ r, NoDup (object_ids (rs_objects r)) ∧ object_ids (rs_objects r) = ["object-1"; "object-2"].
Proof.
  destruct (resolved_selection_canonical (S:=unit) "notebook-1" ["version-2"; "version-1"] selection
    alice "schema-1" "mark-1" bindings "manual" selection_made) as [Hperm Hres].
  split; [apply Hperm, Permutation_rev|].
  destruct selection_resolved as (r & Hr & Hids). exists r. split; [apply (Hres _ _ _ Hr)|exact Hids].
Defined.
End Witnesses.
