(* ===== verification/Bytes.v ===== *)
(** Bytes: [base64.b64decode], [int.from_bytes], [int.to_bytes], [bytes.fromhex]
    and three-argument [pow], as license.py uses them.

    A byte string is a list of [N]; [be_bytes k n] (Sha256.v) is
    [n.to_bytes(k, "big")]. *)

From S2P Require Import Prelude Sha256 PyStr Json.
From Stdlib Require Import NArith Ascii.
#[local] Open Scope N_scope.
#[local] Arguments String.append !_ _ /.

(** ** Base 64 *)

(** The value of a digit.  [altchars=b"-_"] adds the two characters of the URL
    alphabet to the standard one. *)
Definition b64_digit (c : ascii) : option N :=
  let n := N_of_ascii c in
  if in_range 65 90 c then Some (n - 65)
  else if in_range 97 122 c then Some (n - 71)
  else if in_range 48 57 c then Some (n + 4)
  else if has_char c "+-" then Some 62
  else if has_char c "/_" then Some 63
  else None.

Fixpoint b64_digits (s : string) : option (list N) :=
  match s with
  | EmptyString => Some []
  | String c s' => d ← b64_digit c; ds ← b64_digits s'; Some (d :: ds)
  end.

(** Four digits are three bytes; two or three at the end are one or two, and
    their lowest bits are not looked at. *)
Fixpoint b64_bytes (ds : list N) : option (list N) :=
  match ds with
  | [] => Some []
  | [_] => None
  | [a; b] => Some [N.lor (N.shiftl a 2) (N.shiftr b 4)]
  | [a; b; c] =>
      Some [N.lor (N.shiftl a 2) (N.shiftr b 4);
            N.lor (N.shiftl (N.land b 15) 4) (N.shiftr c 2)]
  | a :: b :: c :: d :: ds' =>
      bs ← b64_bytes ds';
      Some (N.lor (N.shiftl a 2) (N.shiftr b 4) ::
            N.lor (N.shiftl (N.land b 15) 4) (N.shiftr c 2) ::
            N.lor (N.shiftl (N.land c 3) 6) d :: bs)
  end.

(** [base64.b64decode(s + "=" * (-len(s) % 4), altchars=b"-_", validate=True)] *)
Definition b64decode (s : string) : option (list N) := ds ← b64_digits s; b64_bytes ds.

Example b64decode_example : b64decode "AQ-_" = Some [1; 15; 191].
Proof. reflexivity. Qed.
Example b64decode_one_digit : b64decode "AQ-_A" = None.
Proof. reflexivity. Qed.

(** *** The encoder and the lenient decoder of the cursors *)

Definition b64_char (n : N) : ascii :=
  ascii_of_N (if n <? 26 then n + 65 else if n <? 52 then n + 71 else if n <? 62 then n - 4
              else if n =? 62 then 45 else 95).

(** [base64.urlsafe_b64encode(bs).decode("ascii").rstrip("=")] *)
Fixpoint b64encode (bs : list N) : string :=
  match bs with
  | [] => EmptyString
  | [x] => String (b64_char (N.shiftr x 2)) (String (b64_char (N.land (N.shiftl x 4) 63)) EmptyString)
  | [x; y] =>
      String (b64_char (N.shiftr x 2))
        (String (b64_char (N.lor (N.land (N.shiftl x 4) 63) (N.shiftr y 4)))
          (String (b64_char (N.land (N.shiftl y 2) 63)) EmptyString))
  | x :: y :: z :: bs' =>
      String (b64_char (N.shiftr x 2))
        (String (b64_char (N.lor (N.land (N.shiftl x 4) 63) (N.shiftr y 4)))
          (String (b64_char (N.lor (N.land (N.shiftl y 2) 63) (N.shiftr z 6)))
            (String (b64_char (N.land z 63)) (b64encode bs'))))
  end.

(** [binascii.a2b_base64(s)] without [strict_mode]: what is no digit is passed
    over, and a complete padding ends the text.  [q] digits of the current
    group were read, [left] holds the bits that were not yet put out, and
    [pads] counts the padding since the last digit. *)
Fixpoint a2b_base64 (q : nat) (left : N) (pads : nat) (s : string) : option (list N) :=
  match s with
  | EmptyString => if Nat.eqb q 0 then Some [] else None
  | String c s' =>
      if Ascii.eqb c "=" then
        if Nat.leb 2 q then (if Nat.leb 4 (q + S pads) then Some [] else a2b_base64 q left (S pads) s')
        else a2b_base64 q left pads s'
      else match b64_digit c with
      | None => a2b_base64 q left pads s'
      | Some d =>
          match q with
          | 0%nat => a2b_base64 1 d 0 s'
          | 1%nat => bs ← a2b_base64 2 (N.land d 15) 0 s';
                     Some (N.lor (N.shiftl left 2) (N.shiftr d 4) :: bs)
          | 2%nat => bs ← a2b_base64 3 (N.land d 3) 0 s';
                     Some (N.lor (N.shiftl left 4) (N.shiftr d 2) :: bs)
          | _ => bs ← a2b_base64 0 0 0 s'; Some (N.lor (N.shiftl left 6) d :: bs)
          end
      end
  end.

(** [base64.urlsafe_b64decode(s + "=" * (-len(s) % 4))] *)
Fixpoint equals (n : nat) (s : string) : string :=
  match n with O => s | S n' => equals n' (s +:+ "=") end.
Definition b64decode_padded (s : string) : option (list N) :=
  a2b_base64 0 0 0 (equals ((4 - String.length s mod 4) mod 4) s).

(** [bs.decode("ascii")] *)
Fixpoint decode_ascii (bs : list N) : option string :=
  match bs with
  | [] => Some EmptyString
  | b :: bs' => if b <? 128 then s ← decode_ascii bs'; Some (String (ascii_of_N b) s) else None
  end.

Example b64encode_example : b64encode (encode "audit-v1:10") = "YXVkaXQtdjE6MTA".
Proof. reflexivity. Qed.
Example b64decode_padded_example :
  (b64decode_padded "YXVkaXQtdjE6MTA" ≫= decode_ascii) = Some "audit-v1:10".
Proof. reflexivity. Qed.

(** ** Integers *)

(** [int.from_bytes(bs, "big")] *)
Definition from_bytes (bs : list N) : N := fold_left (λ acc b, acc * 256 + b) bs 0.

(** [pow(b, e, m)] *)
Fixpoint pow_pos (b : N) (e : positive) (m : N) : N :=
  match e with
  | xH => b mod m
  | xO e' => let h := pow_pos b e' m in (h * h) mod m
  | xI e' => let h := pow_pos b e' m in ((h * h) mod m * b) mod m
  end.

Definition pow_mod (b e m : N) : N :=
  match e with 0 => 1 mod m | Npos p => pow_pos b p m end.

(** [bytes.fromhex(s)] of an even number of hexadecimal digits *)
Fixpoint from_hex (s : string) : list N :=
  match s with
  | String a (String b s') => (16 * unhex a + unhex b) :: from_hex s'
  | _ => []
  end.

(** ** Lemmas *)

Lemma pow_pos_spec b e m : pow_pos b e m = b ^ Npos e mod m.
Proof.
  induction e as [e IH|e IH|]; simpl pow_pos.
  - rewrite IH, <- N.Div0.mul_mod, N.Div0.mul_mod_idemp_l, <- N.pow_add_r.
    replace (N.pos e~1) with (N.succ (N.pos e + N.pos e)) by lia.
    by rewrite N.pow_succ_r', N.mul_comm.
  - rewrite IH. replace (N.pos e~0) with (N.pos e + N.pos e) by lia.
    by rewrite N.pow_add_r, <- N.Div0.mul_mod.
  - by rewrite N.pow_1_r.
Qed.

Lemma pow_mod_spec b e m : pow_mod b e m = b ^ e mod m.
Proof. destruct e; [done|]. apply pow_pos_spec. Qed.

Lemma from_bytes_acc bs a :
  fold_left (λ acc b, acc * 256 + b) bs a = a * 256 ^ N.of_nat (length bs) + from_bytes bs.
Proof.
  unfold from_bytes. revert a. induction bs as [|b bs IH]; intros a.
  { simpl. rewrite N.mul_1_r. lia. }
  cbn [fold_left length]. rewrite IH, (IH (0 * 256 + b)).
  rewrite Nat2N.inj_succ, N.pow_succ_r'. lia.
Qed.

Lemma from_bytes_cons b bs :
  from_bytes (b :: bs) = b * 256 ^ N.of_nat (length bs) + from_bytes bs.
Proof. unfold from_bytes at 1. cbn [fold_left]. rewrite from_bytes_acc. lia. Qed.

(** The bytes of the number that the bytes stand for. *)
Lemma from_be_bytes k n : from_bytes (be_bytes k n) = n mod 256 ^ N.of_nat k.
Proof.
  induction k as [|k IH]; [by rewrite N.mod_1_r|].
  cbn [be_bytes]. rewrite from_bytes_cons, be_bytes_length, IH.
  change 255 with (N.ones 8). rewrite N.land_ones, N.shiftr_div_pow2, N.pow_mul_r.
  change (2 ^ 8) with 256. rewrite Nat2N.inj_succ, N.pow_succ_r', (N.mul_comm 256).
  rewrite N.Div0.mod_mul_r. lia.
Qed.

Lemma from_bytes_lt bs : Forall (λ b, b < 256) bs → from_bytes bs < 256 ^ N.of_nat (length bs).
Proof.
  induction 1 as [|b bs Hb _ IH]; [unfold from_bytes; simpl; lia|].
  rewrite from_bytes_cons. cbn [length]. rewrite Nat2N.inj_succ, N.pow_succ_r'. nia.
Qed.

Lemma from_bytes_inj bs cs :
  Forall (λ b, b < 256) bs → Forall (λ b, b < 256) cs → length bs = length cs →
  from_bytes bs = from_bytes cs → bs = cs.
Proof.
  intros Hb. revert cs. induction Hb as [|b bs Hb Hbs IH]; intros [|c cs] Hc Hl H; try done.
  apply Forall_cons_1 in Hc as [Hc Hcs]. injection Hl as Hl. rewrite !from_bytes_cons, Hl in H.
  pose proof (from_bytes_lt _ Hbs) as H1. pose proof (from_bytes_lt _ Hcs) as H2. rewrite Hl in H1.
  set (p := 256 ^ N.of_nat (length cs)) in *.
  assert (b = c) as <- by nia. f_equal. apply IH; [done..|]. lia.
Qed.

(** A number that fits is equal to the one the expected bytes stand for
    exactly when its own bytes are the expected ones. *)
Lemma be_bytes_eq k n bs :
  n < 256 ^ N.of_nat k → Forall (λ b, b < 256) bs → length bs = k →
  be_bytes k n = bs ↔ n = from_bytes bs.
Proof.
  intros Hn Hb Hl. rewrite <- (N.mod_small n (256 ^ N.of_nat k)) at 2 by done.
  rewrite <- from_be_bytes. split; [by intros ->|].
  apply from_bytes_inj; [apply be_bytes_lt|done|]. by rewrite be_bytes_length.
Qed.

Lemma b64_digit_lt c d : b64_digit c = Some d → d < 64.
Proof. destruct c as [[] [] [] [] [] [] [] []]; vm_compute; intros [= <-]; done. Qed.

Lemma unhex_lt c : is_hex_digit c = true → unhex c < 16.
Proof. destruct c as [[] [] [] [] [] [] [] []]; vm_compute; done. Qed.

Lemma from_hex_lt s : all_chars is_hex_digit s = true → Forall (λ b, b < 256) (from_hex s).
Proof.
  enough (∀ n s, (String.length s <= n)%nat → all_chars is_hex_digit s = true →
    Forall (λ b, b < 256) (from_hex s)) as H by eauto.
  clear s. induction n as [|n IH]; intros [|a [|b s]]; simpl; intros Hn H; try lia; try constructor; bools.
  2: { apply IH; [lia|done]. }
  pose proof (unhex_lt a ltac:(done)). pose proof (unhex_lt b ltac:(done)). lia.
Qed.

Lemma from_hex_length n s : String.length s = (2 * n)%nat → length (from_hex s) = n.
Proof.
  revert s. induction n as [|n IH]; intros s Hs.
  { by destruct s. }
  destruct s as [|a [|b s]]; simpl in *; try lia. f_equal. apply IH. lia.
Qed.

(** ** What was encoded decodes *)

(** A test on small numbers, checked one by one. *)
Lemma forall_below k (p : N → bool) :
  forallb p (map N.of_nat (seq 0 k)) = true → ∀ n, n < N.of_nat k → p n = true.
Proof.
  rewrite forallb_elem. intros Hp n Hn. apply Hp, list_elem_of_fmap.
  exists (N.to_nat n). split; [lia|]. apply elem_of_seq. lia.
Qed.

Lemma forall_below2 k m (p : N → N → bool) :
  forallb (λ x, forallb (p x) (map N.of_nat (seq 0 m))) (map N.of_nat (seq 0 k)) = true →
  ∀ x y, x < N.of_nat k → y < N.of_nat m → p x y = true.
Proof.
  intros Hp x y Hx Hy. apply (forall_below m (p x)); [|done].
  by apply (forall_below k (λ x, forallb (p x) (map N.of_nat (seq 0 m)))).
Qed.

Lemma b64_digit_char n : n < 64 → b64_digit (b64_char n) = Some n ∧ b64_char n ≠ "="%char ∧
  in_range 0 127 (b64_char n) = true.
Proof.
  intros Hn. pose proof (forall_below 64 (λ n, bool_decide (b64_digit (b64_char n) = Some n) &&
    negb (Ascii.eqb (b64_char n) "=") && in_range 0 127 (b64_char n)) ltac:(by vm_compute) n Hn) as H.
  cbv beta in H. apply andb_true_iff in H as [H Ha]. apply andb_true_iff in H as [H1 H2].
  apply bool_decide_eq_true in H1. split_and!; [done| |done]. by intros Heq; rewrite Heq in H2.
Qed.

(** The second digit of a group, and the third. *)
Abbreviation second x h := (N.lor (N.land (N.shiftl x 4) 63) h).
Abbreviation third y g := (N.lor (N.land (N.shiftl y 2) 63) g).

Lemma second_spec x h : x < 256 → h < 16 →
  second x h < 64 ∧ N.land (second x h) 15 = h ∧
  N.lor (N.shiftl (N.shiftr x 2) 2) (N.shiftr (second x h) 4) = x.
Proof.
  intros Hx Hh. pose proof (forall_below2 256 16 (λ x h, (second x h <? 64) &&
    (N.land (second x h) 15 =? h) && (N.lor (N.shiftl (N.shiftr x 2) 2) (N.shiftr (second x h) 4) =? x))
    ltac:(by vm_compute) x h Hx Hh) as H.
  cbv beta in H. rewrite !andb_true_iff, N.ltb_lt, !N.eqb_eq in H. tauto.
Qed.

Lemma third_spec y g : y < 256 → g < 4 →
  third y g < 64 ∧ N.land (third y g) 3 = g ∧
  N.lor (N.shiftl (N.shiftr y 4) 4) (N.shiftr (third y g) 2) = y.
Proof.
  intros Hy Hg. pose proof (forall_below2 256 4 (λ y g, (third y g <? 64) &&
    (N.land (third y g) 3 =? g) && (N.lor (N.shiftl (N.shiftr y 4) 4) (N.shiftr (third y g) 2) =? y))
    ltac:(by vm_compute) y g Hy Hg) as H.
  cbv beta in H. rewrite !andb_true_iff, N.ltb_lt, !N.eqb_eq in H. tauto.
Qed.

Lemma parts_spec x : x < 256 →
  N.shiftr x 2 < 64 ∧ N.shiftr x 4 < 16 ∧ N.shiftr x 6 < 4 ∧ N.land x 63 < 64 ∧
  N.lor (N.shiftl (N.shiftr x 6) 6) (N.land x 63) = x.
Proof.
  intros Hx. pose proof (forall_below 256 (λ x, (N.shiftr x 2 <? 64) && (N.shiftr x 4 <? 16) &&
    (N.shiftr x 6 <? 4) && (N.land x 63 <? 64) &&
    (N.lor (N.shiftl (N.shiftr x 6) 6) (N.land x 63) =? x)) ltac:(by vm_compute) x Hx) as H.
  cbv beta in H. rewrite !andb_true_iff, !N.ltb_lt, N.eqb_eq in H. tauto.
Qed.

(** Reading one digit. *)
Lemma a2b_digit q left pads n s : n < 64 →
  a2b_base64 q left pads (String (b64_char n) s) =
  match q with
  | 0%nat => a2b_base64 1 n 0 s
  | 1%nat => bs ← a2b_base64 2 (N.land n 15) 0 s; Some (N.lor (N.shiftl left 2) (N.shiftr n 4) :: bs)
  | 2%nat => bs ← a2b_base64 3 (N.land n 3) 0 s; Some (N.lor (N.shiftl left 4) (N.shiftr n 2) :: bs)
  | _ => bs ← a2b_base64 0 0 0 s; Some (N.lor (N.shiftl left 6) n :: bs)
  end.
Proof.
  intros Hn. destruct (b64_digit_char n Hn) as (Hd & He & _). cbn [a2b_base64].
  destruct (Ascii.eqb_spec (b64_char n) "="); [done|]. by rewrite Hd.
Qed.

(** The padding that is taken off and put back. *)
Definition padding (bs : list N) : string :=
  match (length bs mod 3)%nat with 1%nat => "==" | 2%nat => "=" | _ => "" end.

Lemma list_ind3 {A} (P : list A → Prop) :
  P [] → (∀ x, P [x]) → (∀ x y, P [x; y]) → (∀ x y z l, P l → P (x :: y :: z :: l)) → ∀ l, P l.
Proof.
  intros H0 H1 H2 H3. fix go 1. intros [|x [|y [|z l]]]; [done|apply H1|apply H2|apply H3, go].
Qed.

Lemma padding_step x y z bs : padding (x :: y :: z :: bs) = padding bs.
Proof.
  unfold padding. cbn [length].
  replace (S (S (S (length bs)))) with (length bs + 1 * 3)%nat by lia. by rewrite Nat.Div0.mod_add.
Qed.

Lemma a2b_encode bs : Forall (λ b, b < 256) bs →
  a2b_base64 0 0 0 (b64encode bs +:+ padding bs) = Some bs.
Proof.
  induction bs as [|x|x y|x y z bs IH] using list_ind3; intros Hb;
    repeat match goal with H : Forall _ (_ :: _) |- _ => apply Forall_cons_1 in H as [? ?] end; [done| | |].
  - destruct (parts_spec x) as (? & _); [done|]. destruct (second_spec x 0) as (Hs & Hl & He); [done..|].
    rewrite N.lor_0_r in *. change (padding [x]) with "=="%string. cbn [b64encode String.append].
    do 2 (rewrite a2b_digit by done; cbn beta iota). cbn. by rewrite He.
  - destruct (parts_spec x) as (? & _); [done|]. destruct (parts_spec y) as (_ & ? & _); [done|].
    destruct (second_spec x (N.shiftr y 4)) as (Hs & Hl & He); [done..|].
    destruct (third_spec y 0) as (Ht & Hl' & He'); [done..|].
    rewrite N.lor_0_r in *. change (padding [x; y]) with "="%string. cbn [b64encode String.append].
    do 3 (rewrite a2b_digit by done; cbn beta iota). rewrite Hl. cbn. by rewrite He, He'.
  - destruct (parts_spec x) as (? & _); [done|]. destruct (parts_spec y) as (_ & ? & _); [done|].
    destruct (parts_spec z) as (_ & _ & ? & ? & Hez); [done|].
    destruct (second_spec x (N.shiftr y 4)) as (Hs & Hl & He); [done..|].
    destruct (third_spec y (N.shiftr z 6)) as (Ht & Hl' & He'); [done..|].
    rewrite padding_step. cbn [b64encode String.append].
    do 4 (rewrite a2b_digit by done; cbn beta iota). rewrite Hl, Hl', IH by done. cbn.
    by rewrite He, He', Hez.
Qed.

Lemma equals_app n s : equals n s = s +:+ equals n "".
Proof.
  revert s. induction n as [|n IH]; intros s; simpl; [by rewrite string_app_nil_r|].
  by rewrite IH, (IH "="), string_app_assoc.
Qed.

Lemma b64encode_padding bs :
  equals ((4 - String.length (b64encode bs) mod 4) mod 4) "" = padding bs.
Proof.
  induction bs as [|x|x y|x y z bs IH] using list_ind3; try reflexivity.
  rewrite padding_step, <- IH. cbn [b64encode String.length].
  replace (S (S (S (S (String.length (b64encode bs)))))) with
    (String.length (b64encode bs) + 1 * 4)%nat by lia. by rewrite Nat.Div0.mod_add.
Qed.

Lemma b64decode_encode bs : Forall (λ b, b < 256) bs → b64decode_padded (b64encode bs) = Some bs.
Proof.
  intros Hb. unfold b64decode_padded. rewrite equals_app, b64encode_padding. by apply a2b_encode.
Qed.

Lemma b64encode_ascii bs : Forall (λ b, b < 256) bs → all_chars (in_range 0 127) (b64encode bs) = true.
Proof.
  assert (∀ n, n < 64 → in_range 0 127 (b64_char n) = true) as Hc by (intros; by apply b64_digit_char).
  induction bs as [|x|x y|x y z bs IH] using list_ind3; intros Hb;
    repeat match goal with H : Forall _ (_ :: _) |- _ => apply Forall_cons_1 in H as [? ?] end; [done| | |].
  all: cbn [b64encode all_chars].
  - destruct (parts_spec x) as (? & _); [done|]. destruct (second_spec x 0) as (Hs & _); [done..|].
    rewrite N.lor_0_r in *. by rewrite !Hc.
  - destruct (parts_spec x) as (? & _); [done|]. destruct (parts_spec y) as (_ & ? & _); [done|].
    destruct (second_spec x (N.shiftr y 4)) as (Hs & _); [done..|].
    destruct (third_spec y 0) as (Ht & _); [done..|]. rewrite N.lor_0_r in *. by rewrite !Hc.
  - destruct (parts_spec x) as (? & _); [done|]. destruct (parts_spec y) as (_ & ? & _); [done|].
    destruct (parts_spec z) as (_ & _ & ? & ? & _); [done|].
    destruct (second_spec x (N.shiftr y 4)) as (Hs & _); [done..|].
    destruct (third_spec y (N.shiftr z 6)) as (Ht & _); [done..|]. by rewrite !Hc, IH.
Qed.

Lemma b64encode_length bs : (String.length (b64encode bs) <= 2 * length bs)%nat.
Proof. induction bs as [|x|x y|x y z bs IH] using list_ind3; simpl in *; lia. Qed.

Lemma b64encode_nonempty bs : (1 <= length bs → 1 <= String.length (b64encode bs))%nat.
Proof. destruct bs as [|x [|y [|z bs]]]; simpl; lia. Qed.

Lemma decode_encode_ascii s :
  all_chars (in_range 0 127) s = true →
  decode_ascii (encode s) = Some s ∧ Forall (λ b, b < 256) (encode s) ∧ length (encode s) = String.length s.
Proof.
  induction s as [|c s IH]; simpl; [done|]. intros [Hc Hs]%andb_true_iff.
  destruct (IH Hs) as (Hd & Hf & Hl). unfold utf8_char. unfold in_range in Hc.
  apply andb_true_iff in Hc as [_ Hc%N.leb_le].
  assert (N_of_ascii c < 128) as Hlt by lia. apply N.ltb_lt in Hlt as Hlt'. rewrite Hlt'. simpl.
  rewrite Hlt', Hd. simpl. rewrite ascii_N_embedding, Hl. split_and!; [done| |done]. by constructor; [lia|].
Qed.

(** ** Digests *)

Section Digests.
Context {D : Digest}.

(** [hashlib.sha256(payload).digest()] *)
Definition sha256_digest (payload : list N) : list N := from_hex (sha256_hex payload).

Lemma sha256_digest_length payload : length (sha256_digest payload) = 32%nat.
Proof.
  apply from_hex_length. pose proof (sha256_hex_shape payload) as H. unfold is_digest in H.
  by bools.
Qed.

Lemma sha256_digest_lt payload : Forall (λ b, b < 256)%N (sha256_digest payload).
Proof.
  apply from_hex_lt. pose proof (sha256_hex_shape payload) as H. unfold is_digest in H. by bools.
Qed.
End Digests.
