(* ===== verification/PyUrl.v ===== *)
(** [urllib.parse.urlsplit] of a string, and [hmac] over SHA-256. *)

From S2P Require Import Prelude Sha256 PyStr Bytes.
From Stdlib Require Import NArith Ascii.
#[local] Open Scope Z_scope.

(** ** urlsplit *)

Record SplitResult := mkSplit {
  sp_scheme : string;
  sp_netloc : string;
  sp_path : string;
  sp_query : string;
  sp_fragment : string
}.

(** Whether a host in brackets is an IP address, which [ipaddress] decides *)
Class BracketedHost := { bracketed_netloc_ok : string → bool }.

(** [_WHATWG_C0_CONTROL_OR_SPACE] and [_UNSAFE_URL_BYTES_TO_REMOVE] *)
Definition control_or_space : ascii → bool := in_range 0 32.
Definition unsafe_byte (c : ascii) : bool := in_range 9 10 c || in_range 13 13 c.

Definition is_letter (c : ascii) : bool := is_lower c || is_upper c.
Definition scheme_char (c : ascii) : bool := is_alnum c || has_char c "+-.".

Definition lower_char (c : ascii) : ascii :=
  if is_upper c then ascii_of_N (N_of_ascii c + 32) else c.
Fixpoint lower_ascii (s : string) : string :=
  match s with EmptyString => EmptyString | String c s' => String (lower_char c) (lower_ascii s') end.

(** [url.split(c, 1)], with nothing after where there is no [c] *)
Definition cut (c : ascii) (s : string) : string * string :=
  match split_once c s with Some p => p | None => (s, "") end.

(** [_splitnetloc(url, 0)] *)
Fixpoint splitnetloc (s : string) : string * string :=
  match s with
  | EmptyString => (EmptyString, EmptyString)
  | String c s' =>
      if has_char c "/?#" then (EmptyString, s)
      else let '(netloc, rest) := splitnetloc s' in (String c netloc, rest)
  end.

(** [url[2:]] where [url[:2] == "//"] *)
Definition after_slashes (s : string) : option string :=
  match s with
  | String c (String d s') => if Ascii.eqb c "/" && Ascii.eqb d "/" then Some s' else None
  | _ => None
  end.

Definition has_letter_head (s : string) : bool :=
  match s with String c _ => is_letter c | EmptyString => false end.

Definition split_scheme (url : string) : string * string :=
  match split_once ":" url with
  | Some (head, rest) =>
      if has_letter_head head && all_chars scheme_char head then (lower_ascii head, rest) else ("", url)
  | None => ("", url)
  end.

Section UrlSplit.
Context {B : BracketedHost}.

(** The brackets of a network location are in order. *)
Definition brackets_ok (netloc : string) : bool :=
  match has_char "[" netloc, has_char "]" netloc with
  | true, true => bracketed_netloc_ok netloc
  | false, false => true
  | _, _ => false
  end.

(** What is cleaned away before the URL is split *)
Definition clean_url (url : string) : string :=
  string_filter (λ c, negb (unsafe_byte c)) (lstrip_by control_or_space url).

(** [urlsplit(url)]; [None] is a [ValueError]. *)
Definition urlsplit (url : string) : option SplitResult :=
  let '(scheme, rest) := split_scheme (clean_url url) in
  let '(netloc, rest) := match after_slashes rest with
                         | Some rest' => splitnetloc rest'
                         | None => ("", rest)
                         end in
  if brackets_ok netloc then
    let '(rest, fragment) := cut "#" rest in
    let '(path, query) := cut "?" rest in
    Some (mkSplit scheme netloc path query fragment)
  else None.
End UrlSplit.

(** [parsed.username is not None] *)
Definition has_userinfo (sp : SplitResult) : bool := has_char "@" (sp_netloc sp).

(** What follows the last [@] *)
Fixpoint after_last_at (s : string) : string :=
  match s with
  | EmptyString => EmptyString
  | String c s' => if has_char "@" s then (if Ascii.eqb c "@" && negb (has_char "@" s') then s' else after_last_at s') else s
  end.

(** [parsed.hostname], empty where it is [None] *)
Definition url_host (sp : SplitResult) : string :=
  let info := after_last_at (sp_netloc sp) in
  let host := match split_once "[" info with
              | Some (_, bracketed) => (cut "]" bracketed).1
              | None => (cut ":" info).1
              end in
  match split_once "%" host with
  | Some (name, zone) => lower_ascii name +:+ "%" +:+ zone
  | None => lower_ascii host
  end.

Section Examples.
#[local] Instance no_brackets : BracketedHost := {| bracketed_netloc_ok _ := false |}.

Example urlsplit_full :
  urlsplit "HTTPS://user@host:8080/a/b?q=1#top" =
  Some (mkSplit "https" "user@host:8080" "/a/b" "q=1" "top").
Proof. reflexivity. Qed.

Example url_host_example :
  (λ sp, (url_host sp, has_userinfo sp)) <$> urlsplit "https://a@b@Host:80/x" = Some ("host", true).
Proof. reflexivity. Qed.

Example urlsplit_path : urlsplit "/operations/1?x" = Some (mkSplit "" "" "/operations/1" "x" "").
Proof. reflexivity. Qed.

Example urlsplit_three_slashes : urlsplit "///operations" = Some (mkSplit "" "" "/operations" "" "").
Proof. reflexivity. Qed.
End Examples.

(** ** hmac *)

Section Hmac.
Context {D : Digest}.

(** The key of a block's length *)
Definition hmac_block (key : list N) : list N :=
  let key := if Nat.leb (length key) 64 then key else sha256_digest key in
  key ++ repeat 0%N (64 - length key).

(** [hmac.new(key, msg, hashlib.sha256).digest()] *)
Definition hmac_sha256 (key msg : list N) : list N :=
  let block := hmac_block key in
  sha256_digest (map (N.lxor 92) block ++ sha256_digest (map (N.lxor 54) block ++ msg)).
End Hmac.

(** The second test case of RFC 4231 *)
Example hmac_rfc4231 :
  hex (hmac_sha256 (encode "Jefe") (encode "what do ya want for nothing?")) =
  "5bdcc146bf60754e6a042426089575c75a003f089d2739839dec58b964ec3843".
Proof. vm_compute. reflexivity. Qed.
