(* ===== verification/PyUrlFacts.v ===== *)
(** How [PyUrl.urlsplit] takes a URL apart, and that a path appended to a base
    URL leaves its scheme and network location. *)

From S2P Require Import Prelude Sha256 PyStr Bytes PyUrl.
From Stdlib Require Import NArith Ascii.

#[local] Arguments String.append !_ _ /.

(** ** Splitting strings *)

Lemma split_once_some c s a b : split_once c s = Some (a, b) → s = a +:+ String c b.
Proof.
  revert a b. induction s as [|d s IH]; simpl; [done|]. intros a b. destruct (Ascii.eqb_spec c d) as [->|].
  - by intros [= <- <-].
  - destruct (split_once c s) as [[x y]|]; simpl; [|done]. intros [= <- <-]. simpl. by rewrite (IH x y).
Qed.

(** Nothing more follows, or what follows starts with one of [stops]. *)
Definition ends (stops s : string) : Prop :=
  s = "" ∨ ∃ c s', s = String c s' ∧ has_char c stops = true.

Lemma cut_ends c stops s : has_char c stops = true → ∃ rest, s = (cut c s).1 +:+ rest ∧ ends stops rest.
Proof.
  intros Hc. unfold cut. destruct (split_once c s) as [[a b]|] eqn:Hs.
  - apply split_once_some in Hs. exists (String c b). split; [done|]. right. eauto.
  - exists "". split; [by rewrite string_app_nil_r|by left].
Qed.

Lemma ends_app stops a b : ends stops a → ends stops b → ends stops (a +:+ b).
Proof. by intros [->|(c & a' & -> & Hc)] Hb; [|right; eauto]. Qed.

Lemma rstrip_by_rest p s : ∃ rest, s = rstrip_by p s +:+ rest ∧ all_chars p rest = true.
Proof.
  induction s as [|c s (rest & Hs & Hp)]; simpl; [by exists ""|].
  destruct (rstrip_by p s) as [|d r] eqn:Hr; [|exists rest; split; [|done]; simpl in *; by f_equal].
  simpl in Hs. subst rest. destruct (p c) eqn:Hc; [exists (String c s); simpl; by rewrite Hc|by exists s].
Qed.

Lemma strip_by_length p s : (String.length (lstrip_by p s) <= String.length s)%nat ∧
  (String.length (rstrip_by p s) <= String.length s)%nat.
Proof.
  induction s as [|c s [Hl Hr]]; simpl; [lia|]. split; [destruct (p c); simpl; lia|].
  destruct (rstrip_by p s); simpl in *; [destruct (p c); simpl|]; lia.
Qed.

Lemma string_filter_all p s : all_chars p s = true → string_filter p s = s.
Proof. induction s as [|c s IH]; simpl; [done|]. intros [-> H]%andb_true_iff. by rewrite IH. Qed.

(** ** What urlsplit finds *)

(** What a network location leaves *)
Lemma splitnetloc_rest s netloc rest : splitnetloc s = (netloc, rest) → s = netloc +:+ rest ∧ ends "/?#" rest.
Proof.
  revert netloc rest. induction s as [|c s IH]; intros netloc rest; simpl; [intros [= <- <-]; split; [done|by left]|].
  destruct (Ascii.eqb c "/" || _) eqn:Hc.
  - intros [= <- <-]. split; [done|]. right. exists c, s. split; [done|]. exact Hc.
  - destruct (splitnetloc s) as [n r]. intros [= <- <-]. destruct (IH n r eq_refl) as [-> He]. by split.
Qed.

Lemma after_slashes_some s s' : after_slashes s = Some s' → s = "//" +:+ s'.
Proof.
  destruct s as [|c [|d s]]; simpl; [done..|].
  destruct (Ascii.eqb_spec c "/") as [->|]; [|done]. destruct (Ascii.eqb_spec d "/") as [->|]; [|done].
  by intros [= ->].
Qed.

Lemma split_scheme_some url scheme rest :
  split_scheme url = (scheme, rest) → scheme ≠ "" →
  ∃ head, url = head +:+ String ":" rest ∧ scheme = lower_ascii head.
Proof.
  unfold split_scheme. destruct (split_once ":" url) as [[head r]|] eqn:Hs; [|by intros [= <-]].
  destruct (_ && _); [|by intros [= <-]]. intros [= <- ->] _. exists head. split; [|done]. by apply split_once_some.
Qed.

(** ** Appending a path *)

Lemma string_filter_app p s t : string_filter p (s +:+ t) = string_filter p s +:+ string_filter p t.
Proof. induction s as [|c s IH]; simpl; [done|]. destruct (p c); simpl; by rewrite IH. Qed.

(** [x] is empty or does not start with a character of [p]. *)
Definition starts_clear (p : ascii → bool) (x : string) : Prop :=
  match x with EmptyString => True | String c _ => p c = false end.

Lemma lstrip_by_app p s x : starts_clear p x → lstrip_by p (s +:+ x) = lstrip_by p s +:+ x.
Proof.
  intros Hx. induction s as [|c s IH]; simpl; [|by destruct (p c)].
  destruct x as [|c x]; [done|]. simpl in *. by rewrite Hx.
Qed.

Lemma split_once_app c s x :
  split_once c (s +:+ x) = match split_once c s with
                           | Some (h, r) => Some (h, r +:+ x)
                           | None => prod_map (String.append s) id <$> split_once c x
                           end.
Proof.
  induction s as [|d s IH]; simpl; [by destruct (split_once c x) as [[]|]|].
  destruct (Ascii.eqb c d); [done|]. rewrite IH. destruct (split_once c s) as [[]|]; [done|].
  by destruct (split_once c x) as [[]|].
Qed.

Lemma splitnetloc_app s x : ends "/?#" x → (splitnetloc (s +:+ x)).1 = (splitnetloc s).1.
Proof.
  intros Hx. induction s as [|c s IH]; simpl.
  - destruct Hx as [->|(c & x' & -> & Hc)]; [done|]. simpl in *. by rewrite Hc.
  - destruct (Ascii.eqb c "/" || _); [done|]. destruct (splitnetloc (s +:+ x)), (splitnetloc s). simpl in *. by f_equal.
Qed.

Lemma slashes_cons c x : all_chars (Ascii.eqb "/") (String c x) = true → c = "/"%char ∧ all_chars (Ascii.eqb "/") x = true.
Proof. cbn [all_chars]. by intros [<-%Ascii.eqb_eq ?]%andb_true_iff. Qed.

Lemma has_slash_eq c : has_char c "/" = true → c = "/"%char.
Proof. unfold has_char. rewrite orb_false_r. by intros ?%Ascii.eqb_eq. Qed.

(** What can follow a base URL: slashes, or a path *)
Definition tail_ok (x : string) : Prop :=
  ends "/" x ∧ all_chars (λ c, negb (unsafe_byte c)) x = true ∧ split_once ":" x = None.

Lemma slashes_tail x : all_chars (Ascii.eqb "/") x = true → tail_ok x.
Proof.
  induction x as [|c x IH]; [split; [by left|done]|]. intros [-> Hx]%slashes_cons. destruct (IH Hx) as (_ & Hs & Hc).
  split; [by right; exists "/"%char, x|]. split; [done|]. simpl. by rewrite Hc.
Qed.

Lemma clean_url_tail b x : tail_ok x → clean_url (b +:+ x) = clean_url b +:+ x.
Proof.
  intros (He & Hs & _). unfold clean_url. rewrite lstrip_by_app.
  - by rewrite string_filter_app, (string_filter_all _ x).
  - destruct He as [->|(c & x' & -> & Hc)]; [done|]. by apply has_slash_eq in Hc as ->.
Qed.

(** The scheme and the network location *)
Definition authority (url : string) : string * string :=
  let '(scheme, rest) := split_scheme (clean_url url) in
  (scheme, match after_slashes rest with Some r => (splitnetloc r).1 | None => "" end).

Lemma urlsplit_authority {B : BracketedHost} url sp : urlsplit url = Some sp →
  authority url = (sp_scheme sp, sp_netloc sp) ∧ brackets_ok (sp_netloc sp) = true.
Proof.
  unfold urlsplit, authority. destruct (split_scheme (clean_url url)) as [scheme rest].
  destruct (after_slashes rest) as [r|]; [destruct (splitnetloc r) as [netloc r']|]; simpl.
  - destruct (brackets_ok netloc) eqn:Hb; [|done]. destruct (cut "#" r') as [r1 f]. destruct (cut "?" r1). by intros [= <-].
  - destruct (cut "#" rest) as [r1 f]. destruct (cut "?" r1). by intros [= <-].
Qed.

Lemma authority_urlsplit {B : BracketedHost} url scheme netloc :
  authority url = (scheme, netloc) → brackets_ok netloc = true →
  ∃ sp, urlsplit url = Some sp ∧ sp_scheme sp = scheme ∧ sp_netloc sp = netloc.
Proof.
  unfold urlsplit, authority. destruct (split_scheme (clean_url url)) as [sch rest].
  destruct (after_slashes rest) as [r|]; [destruct (splitnetloc r) as [net r']|]; simpl; intros [= <- <-] Hb.
  - rewrite Hb. destruct (cut "#" r') as [r1 f]. destruct (cut "?" r1). by eexists.
  - destruct (cut "#" rest) as [r1 f]. destruct (cut "?" r1). by eexists.
Qed.

Lemma split_scheme_tail b x y : tail_ok x → tail_ok y → (split_scheme (b +:+ x)).1 ≠ "" →
  ∃ scheme r, split_scheme (b +:+ x) = (scheme, r +:+ x) ∧ split_scheme (b +:+ y) = (scheme, r +:+ y).
Proof.
  intros (_ & _ & Hx) (_ & _ & Hy). unfold split_scheme. rewrite !split_once_app, Hx, Hy.
  destruct (split_once ":" b) as [[h r]|]; [|done]. simpl. destruct (_ && _); [|done]. intros _. by exists (lower_ascii h), r.
Qed.

Lemma after_slashes_tail r x : all_chars (Ascii.eqb "/") x = true →
  match after_slashes (r +:+ x) with Some s => (splitnetloc s).1 | None => "" end ≠ "" →
  ∃ s, r = "//" +:+ s.
Proof.
  assert (∀ x, all_chars (Ascii.eqb "/") x = true → (splitnetloc x).1 = "") as Hsl.
  { by intros [|c y]; [|intros [-> _]%slashes_cons]. }
  intros Hx. destruct r as [|c [|d r]].
  - destruct x as [|c [|d x]]; try done. apply slashes_cons in Hx as [-> Hx]. apply slashes_cons in Hx as [-> Hx].
    simpl. by rewrite Hsl.
  - destruct x as [|d x]; [done|]. apply slashes_cons in Hx as [-> Hx]. simpl. destruct (_ && _); [|done]. by rewrite Hsl.
  - simpl. destruct (Ascii.eqb_spec c "/") as [->|]; [|done]. destruct (Ascii.eqb_spec d "/") as [->|]; [|done]. by exists r.
Qed.

(** A path after a base URL, in the place of its last slashes *)
Lemma authority_append b x y :
  all_chars (Ascii.eqb "/") x = true → tail_ok y → (authority (b +:+ x)).1 ≠ "" → (authority (b +:+ x)).2 ≠ "" →
  authority (b +:+ y) = authority (b +:+ x).
Proof.
  intros Hx Hy. pose proof (slashes_tail x Hx) as Hx'. unfold authority. rewrite !clean_url_tail by done.
  intros Hs Hn. destruct (split_scheme_tail (clean_url b) x y Hx' Hy) as (scheme & r & E1 & E2).
  { by destruct (split_scheme (clean_url b +:+ x)). }
  rewrite E1 in Hn |- *. rewrite E2. simpl in Hn. destruct (after_slashes_tail r x Hx Hn) as [s ->]. f_equal. simpl.
  assert (∀ z, ends "/" z → ends "/?#" z) as Hends.
  { intros z [->|(c & z' & -> & Hc)]; [by left|]. right. apply has_slash_eq in Hc as ->. by exists "/"%char, z'. }
  rewrite !splitnetloc_app; [done|apply Hends, Hx'|apply Hends, Hy].
Qed.
