(* ===== verification/PyText.v ===== *)
(** Texts of any characters: a [str] as its list of code points, the values of
    [json], [json.dumps] without escapes of characters and [json.loads].

    [json.loads] is modelled up to Python's limit on the depth of recursion.  A
    floating-point number is kept as it is written, since no component computes
    with one. *)

From S2P Require Import Prelude Sha256 PyStr.
From Stdlib Require Import NArith Ascii.
#[local] Open Scope N_scope.

(** ** Texts *)

Abbreviation text := (list N).

(** The code points of a literal, which is written in UTF-8 *)
Fixpoint utf8_text (s : string) : text :=
  match s with
  | EmptyString => []
  | String a s1 =>
      let x := N_of_ascii a in
      if x <? 128 then x :: utf8_text s1
      else match s1 with
           | EmptyString => []
           | String b s2 =>
               let y := N.land (N_of_ascii b) 63 in
               if x <? 224 then N.lor (N.shiftl (N.land x 31) 6) y :: utf8_text s2
               else match s2 with
                    | EmptyString => []
                    | String c s3 =>
                        let z := N.land (N_of_ascii c) 63 in
                        if x <? 240
                        then N.lor (N.shiftl (N.land x 15) 12) (N.lor (N.shiftl y 6) z) :: utf8_text s3
                        else match s3 with
                             | EmptyString => []
                             | String d s4 =>
                                 N.lor (N.shiftl (N.land x 7) 18) (N.lor (N.shiftl y 12)
                                   (N.lor (N.shiftl z 6) (N.land (N_of_ascii d) 63))) :: utf8_text s4
                             end
                    end
           end
  end.

Notation u s := (utf8_text s%string).

Example text_example : u "a년₩" = [97; 45380; 8361].
Proof. reflexivity. Qed.

(** [str.isspace], which [strip] and [\s] use *)
Definition space_char (c : N) : bool :=
  (9 <=? c) && (c <=? 13) || (28 <=? c) && (c <=? 32) || (c =? 133) || (c =? 160) || (c =? 5760) ||
  (8192 <=? c) && (c <=? 8202) || (c =? 8232) || (c =? 8233) || (c =? 8239) || (c =? 8287) || (c =? 12288).

Fixpoint lstrip_text (p : N → bool) (t : text) : text :=
  match t with c :: t' => if p c then lstrip_text p t' else t | [] => [] end.
Definition rstrip_text (p : N → bool) (t : text) : text := rev (lstrip_text p (rev t)).

(** [t.strip()] *)
Definition strip_text (t : text) : text := rstrip_text space_char (lstrip_text space_char t).

(** [sep.join(l)] *)
Fixpoint join (sep : text) (l : list text) : text :=
  match l with
  | [] => []
  | [t] => t
  | t :: l' => t ++ sep ++ join sep l'
  end.

(** Characters of ASCII *)
Definition ascii_digit (c : N) : bool := (48 <=? c) && (c <=? 57).
Definition ascii_lower (c : N) : bool := (97 <=? c) && (c <=? 122).
Definition ascii_upper (c : N) : bool := (65 <=? c) && (c <=? 90).
Definition ascii_alnum (c : N) : bool := ascii_digit c || ascii_upper c || ascii_lower c.
Definition one_of (chars : string) (c : N) : bool := existsb (N.eqb c) (u chars).

(** [^[A-Za-z0-9][A-Za-z0-9._:-]{0,255}$] with [fullmatch] *)
Definition canon_id_text (t : text) : bool :=
  match t with
  | [] => false
  | c :: t' => ascii_alnum c && forallb (λ c, ascii_alnum c || one_of "._:-" c) t' && (length t <=? 256)%nat
  end.

(** The tables of Unicode that [unicodedata], [str.casefold] and [\d] use *)
Class UnicodeData := {
  nfkc_text : text → text;
  casefold_text : text → text;
  decimal_char : N → bool;
  decimal_value : N → N
}.

(** ** Values of [json] *)

Unset Elimination Schemes.
Inductive value :=
| VNull
| VBool (b : bool)
| VInt (z : Z)
| VFloat (written : text)
| VStr (t : text)
| VList (l : list value)
| VDict (d : list (text * value)).
Set Elimination Schemes.

Section ValueInd.
Context (P : value → Prop).
Context (Hnull : P VNull) (Hbool : ∀ b, P (VBool b)) (Hint : ∀ z, P (VInt z)) (Hfloat : ∀ t, P (VFloat t))
  (Hstr : ∀ t, P (VStr t)) (Hlist : ∀ l, Forall P l → P (VList l))
  (Hdict : ∀ d, Forall (λ kv, P (snd kv)) d → P (VDict d)).

Fixpoint value_ind (v : value) : P v :=
  match v with
  | VNull => Hnull
  | VBool b => Hbool b
  | VInt z => Hint z
  | VFloat t => Hfloat t
  | VStr t => Hstr t
  | VList l => Hlist l ((fix go l : Forall P l :=
      match l with
      | [] => Forall_nil_2 _
      | x :: l' => Forall_cons_2 _ _ _ (value_ind x) (go l')
      end) l)
  | VDict d => Hdict d ((fix go d : Forall (λ kv, P (snd kv)) d :=
      match d with
      | [] => Forall_nil_2 _
      | x :: d' => Forall_cons_2 _ _ _ (value_ind (snd x)) (go d')
      end) d)
  end.
End ValueInd.

Abbreviation tdict := (list (text * value)).

(** [d.get(key)] *)
Fixpoint tget (key : text) (d : tdict) : option value :=
  match d with
  | [] => None
  | (k, v) :: d' => if decide (k = key) then Some v else tget key d'
  end.

(** [d[key] = v] *)
Fixpoint tset (key : text) (v : value) (d : tdict) : tdict :=
  match d with
  | [] => [(key, v)]
  | (k, x) :: d' => if decide (k = key) then (k, v) :: d' else (k, x) :: tset key v d'
  end.

(** [set(d) == set(keys)] *)
Definition has_keys (keys : list text) (d : tdict) : bool :=
  forallb (λ kv, bool_decide (kv.1 ∈ keys)) d && forallb (λ k, bool_decide (is_Some (tget k d))) keys.

(** ** [json.dumps(v, ensure_ascii=False, separators=(",", ":"))] *)

Definition hex_char (n : N) : N := if n <? 10 then 48 + n else 87 + n.

Definition quote : N := 34.
Definition bslash : N := 92.

Definition esc_char (c : N) : text :=
  if c =? 34 then [bslash; quote]
  else if c =? 92 then [bslash; bslash]
  else if c =? 10 then u "\n"
  else if c =? 13 then u "\r"
  else if c =? 9 then u "\t"
  else if c =? 12 then u "\f"
  else if c =? 8 then u "\b"
  else if c <? 32 then u "\u00" ++ [hex_char (N.shiftr c 4); hex_char (N.land c 15)]
  else [c].

Definition print_text (t : text) : text := quote :: concat (map esc_char t) ++ [quote].

Fixpoint print_value (v : value) : text :=
  match v with
  | VNull => u "null"
  | VBool b => if b then u "true" else u "false"
  | VInt z => utf8_text (str_int z)
  | VFloat t => t
  | VStr t => print_text t
  | VList l => u "[" ++ join (u ",") (map print_value l) ++ u "]"
  | VDict d => u "{" ++ join (u ",") (map (λ kv, print_text kv.1 ++ u ":" ++ print_value kv.2) d) ++ u "}"
  end.

(** ** [json.loads] *)

Definition json_space (c : N) : bool := (c =? 32) || (c =? 9) || (c =? 10) || (c =? 13).
Definition skip_space : text → text := lstrip_text json_space.

Definition hex_value (c : N) : option N :=
  if ascii_digit c then Some (c - 48)
  else if (97 <=? c) && (c <=? 102) then Some (c - 87)
  else if (65 <=? c) && (c <=? 70) then Some (c - 55)
  else None.

(** The character after a backslash *)
Definition simple_escape (c : N) : option N :=
  if (c =? 34) || (c =? 92) || (c =? 47) then Some c
  else if c =? 98 then Some 8 else if c =? 102 then Some 12 else if c =? 110 then Some 10
  else if c =? 114 then Some 13 else if c =? 116 then Some 9 else None.

(** The units of a string up to its closing quote, and whether each was written
    as [\uXXXX] *)
Fixpoint string_units (t : text) : option (list (bool * N) * text) :=
  match t with
  | [] => None
  | c :: t1 =>
      if c =? quote then Some ([], t1)
      else if c =? bslash then
        match t1 with
        | [] => None
        | e :: t2 =>
            if e =? 117 then
              match t2 with
              | h1 :: h2 :: h3 :: h4 :: t3 =>
                  h1 ← hex_value h1; h2 ← hex_value h2; h3 ← hex_value h3; h4 ← hex_value h4;
                  '(us, rest) ← string_units t3;
                  Some ((true, 4096 * h1 + 256 * h2 + 16 * h3 + h4) :: us, rest)
              | _ => None
              end
            else
              x ← simple_escape e; '(us, rest) ← string_units t2; Some ((false, x) :: us, rest)
        end
      else if c <? 32 then None
      else '(us, rest) ← string_units t1; Some ((false, c) :: us, rest)
  end.

(** Two escaped surrogates that follow one another are one character. *)
Fixpoint join_surrogates (us : list (bool * N)) : text :=
  match us with
  | [] => []
  | (ea, a) :: us' =>
      match us' with
      | (eb, b) :: us'' =>
          if ea && eb && (55296 <=? a) && (a <=? 56319) && (56320 <=? b) && (b <=? 57343)
          then 65536 + N.shiftl (a - 55296) 10 + (b - 56320) :: join_surrogates us''
          else a :: join_surrogates us'
      | [] => [a]
      end
  end.

Definition json_string (t : text) : option (text * text) :=
  '(us, rest) ← string_units t; Some (join_surrogates us, rest).

Fixpoint span (p : N → bool) (t : text) : text * text :=
  match t with
  | [] => ([], [])
  | c :: t' => if p c then let '(a, b) := span p t' in (c :: a, b) else ([], t)
  end.

Definition digits_value : text → Z := foldl (λ n c, (10 * n + Z.of_N (c - 48))%Z) 0%Z.

(** [t] after the text [p] *)
Fixpoint after_text (p t : text) : option text :=
  match p, t with
  | [], _ => Some t
  | c :: p', d :: t' => if c =? d then after_text p' t' else None
  | _, [] => None
  end.

(** The fraction and the exponent of a number, where there are any *)
Definition json_fraction (t : text) : text * text :=
  match after_text (u ".") t with
  | Some t' => match span ascii_digit t' with
               | ([], _) => ([], t)
               | (ds, rest) => (46 :: ds, rest)
               end
  | None => ([], t)
  end.

Definition json_exponent (t : text) : text * text :=
  match t with
  | e :: t' =>
      if (e =? 101) || (e =? 69) then
        let '(sign, t'') := match t' with
                            | s :: t'' => if (s =? 43) || (s =? 45) then ([s], t'') else ([], t')
                            | [] => ([], t')
                            end in
        match span ascii_digit t'' with
        | ([], _) => ([], t)
        | (ds, rest) => (e :: sign ++ ds, rest)
        end
      else ([], t)
  | [] => ([], t)
  end.

(** A number; an integer of more than 4300 digits is a [ValueError]. *)
Definition json_number (t : text) : option (value * text) :=
  let '(sign, t1) := match after_text (u "-") t with Some t' => ([45], t') | None => ([], t) end in
  '(ds, t2) ← match after_text (u "0") t1 with
              | Some t' => Some ([48], t')
              | None => match span ascii_digit t1 with ([], _) => None | p => Some p end
              end;
  let '(fraction, t3) := json_fraction t2 in
  let '(exponent, t4) := json_exponent t3 in
  if bool_decide (fraction ++ exponent = []) then
    if (4300 <? length ds)%nat then None
    else Some (VInt (if bool_decide (sign = []) then digits_value ds else - digits_value ds), t4)
  else Some (VFloat (sign ++ ds ++ fraction ++ exponent), t4).

Definition json_constant (t : text) : option (value * text) :=
  let parse '(w, v) := (λ rest, (v, rest)) <$> after_text w t in
  match omap parse [(u "null", VNull); (u "true", VBool true); (u "false", VBool false);
                    (u "NaN", VFloat (u "NaN")); (u "Infinity", VFloat (u "Infinity"));
                    (u "-Infinity", VFloat (u "-Infinity"))] with
  | p :: _ => Some p
  | [] => None
  end.

Definition pairs_dict (l : list (text * value)) : tdict := foldl (λ d kv, tset kv.1 kv.2 d) [] l.

(** A value, the rest of a list, and the rest of an object; [fuel] bounds the
    number of values. *)
Fixpoint json_value (fuel : nat) (t : text) {struct fuel} : option (value * text) :=
  match fuel, t with
  | S fuel, c :: t1 =>
      if c =? quote then '(s, rest) ← json_string t1; Some (VStr s, rest)
      else if c =? 91 then
        match after_text (u "]") (skip_space t1) with
        | Some rest => Some (VList [], rest)
        | None => '(l, rest) ← json_items fuel (skip_space t1); Some (VList l, rest)
        end
      else if c =? 123 then
        match after_text (u "}") (skip_space t1) with
        | Some rest => Some (VDict [], rest)
        | None => '(l, rest) ← json_members fuel (skip_space t1); Some (VDict (pairs_dict l), rest)
        end
      else match json_constant t with
           | Some p => Some p
           | None => json_number t
           end
  | _, _ => None
  end
with json_items (fuel : nat) (t : text) {struct fuel} : option (list value * text) :=
  match fuel with
  | O => None
  | S fuel =>
      '(v, t1) ← json_value fuel t;
      match after_text (u "]") (skip_space t1) with
      | Some rest => Some ([v], rest)
      | None =>
          t2 ← after_text (u ",") (skip_space t1);
          '(l, rest) ← json_items fuel (skip_space t2);
          Some (v :: l, rest)
      end
  end
with json_members (fuel : nat) (t : text) {struct fuel} : option (list (text * value) * text) :=
  match fuel with
  | O => None
  | S fuel =>
      t1 ← after_text [quote] t;
      '(k, t2) ← json_string t1;
      t3 ← after_text (u ":") (skip_space t2);
      '(v, t4) ← json_value fuel (skip_space t3);
      match after_text (u "}") (skip_space t4) with
      | Some rest => Some ([(k, v)], rest)
      | None =>
          t5 ← after_text (u ",") (skip_space t4);
          '(l, rest) ← json_members fuel (skip_space t5);
          Some ((k, v) :: l, rest)
      end
  end.

(** [json.loads(t)]; [None] is a [ValueError]. *)
Definition loads (t : text) : option value :=
  '(v, rest) ← json_value (2 * length t + 1) (skip_space t);
  if bool_decide (skip_space rest = []) then Some v else None.

(** A text with double quotes, written with single ones *)
Definition q (s : string) : text := map (λ c, if c =? 39 then quote else c) (u s).

Example loads_example :
  loads (q " {'a': [1, -20, 1.5e3, true, null], 'b\n\uD83D\ude00': {}, 'a': 'x\/'} ") =
  Some (VDict [(u "a", VStr (u "x/")); (u "b" ++ [10; 128512], VDict [])]).
Proof. vm_compute. reflexivity. Qed.

Example loads_refused :
  map loads [q ""; q "[1,]"; q "01"; q "'a"; q "{'a' 1}"; q "[1] 2"; q "nul"; q "-"; q "1."; [34; 10; 34]] =
  repeat None 10.
Proof. vm_compute. reflexivity. Qed.
