(* ===== verification/PyTextFacts.v ===== *)
(** [PyText.loads] does not depend on its fuel, and reads back what
    [print_value] writes. *)

From S2P Require Import Prelude Sha256 PyStr PyText.
From Stdlib Require Import NArith Ascii.
#[local] Open Scope nat_scope.

(** ** Lengths *)

Lemma lstrip_text_length p t : length (lstrip_text p t) ≤ length t.
Proof. induction t as [|c t IH]; simpl; [done|]. destruct (p c); simpl; lia. Qed.

Lemma skip_space_length t : length (skip_space t) ≤ length t.
Proof. apply lstrip_text_length. Qed.

Lemma after_text_Some p t t' : after_text p t = Some t' → t = p ++ t'.
Proof.
  revert t. induction p as [|c p IH]; intros t; simpl; [by destruct t; intros [= ->]|].
  destruct t as [|d t]; [done|]. destruct (N.eqb_spec c d) as [->|]; [|done]. by intros ->%IH.
Qed.

Lemma after_text_app p t : after_text p (p ++ t) = Some t.
Proof. induction p as [|c p IH]; simpl; [by destruct t|]. by rewrite N.eqb_refl. Qed.

Lemma after_text_length p t t' : after_text p t = Some t' → length t = length p + length t'.
Proof. intros ->%after_text_Some. by rewrite length_app. Qed.

Lemma span_length p t a b : span p t = (a, b) → length t = length a + length b.
Proof.
  revert a b. induction t as [|c t IH]; intros a b; simpl; [by intros [= <- <-]|].
  destruct (p c); [|by intros [= <- <-]]. destruct (span p t) as [x y]. intros [= <- <-].
  simpl. by rewrite (IH x y).
Qed.

Lemma string_units_length t us rest : string_units t = Some (us, rest) → length rest < length t.
Proof.
  revert us rest. induction t as [t IH] using (induction_ltof1 _ length). unfold ltof in IH.
  destruct t as [|c t1]; [done|]. intros us rest. simpl.
  destruct (c =? quote)%N; [intros [= <- <-]; simpl; lia|].
  destruct (c =? bslash)%N.
  - destruct t1 as [|e t2]; [done|]. destruct (e =? 117)%N.
    + destruct t2 as [|h1 [|h2 [|h3 [|h4 t3]]]]; try done. 
      destruct (hex_value h1); simpl; [|done]. destruct (hex_value h2); simpl; [|done].
      destruct (hex_value h3); simpl; [|done]. destruct (hex_value h4); simpl; [|done].
      destruct (string_units t3) as [[us' r]|] eqn:Hr; [|done]. simpl. intros [= <- <-].
      apply IH in Hr; simpl in *; lia.
    + destruct (simple_escape e); [|done]. simpl. destruct (string_units t2) as [[us' r]|] eqn:Hr; [|done].
      simpl. intros [= <- <-]. apply IH in Hr; simpl in *; lia.
  - destruct (c <? 32)%N; [done|]. destruct (string_units t1) as [[us' r]|] eqn:Hr; [|done].
    simpl. intros [= <- <-]. apply IH in Hr; simpl in *; lia.
Qed.

Lemma json_string_length t s rest : json_string t = Some (s, rest) → length rest < length t.
Proof.
  unfold json_string. destruct (string_units t) as [[us r]|] eqn:H; [|done]. simpl. intros [= _ <-].
  exact (string_units_length _ _ _ H).
Qed.

Lemma json_fraction_length t a b : json_fraction t = (a, b) → length b ≤ length t.
Proof.
  unfold json_fraction. destruct (after_text _ t) as [t'|] eqn:Ht; [|by intros [= <- <-]].
  apply after_text_length in Ht. destruct (span ascii_digit t') as [[|d ds] r] eqn:Hs; intros [= <- <-]; [done|].
  apply span_length in Hs. simpl in *. lia.
Qed.

Lemma json_exponent_length t a b : json_exponent t = (a, b) → length b ≤ length t.
Proof.
  unfold json_exponent. destruct t as [|e t]; [by intros [= <- <-]|].
  destruct (_ || _); [|by intros [= <- <-]].
  destruct (match t with [] => _ | _ => _ end) as [sign t''] eqn:Hsign.
  assert (length t'' ≤ length t).
  { destruct t as [|s t]; [by simplify_eq|]. destruct (_ || _); simplify_eq; simpl; lia. }
  destruct (span ascii_digit t'') as [[|d ds] r] eqn:Hs; intros [= <- <-]; [done|].
  apply span_length in Hs. simpl in *. lia.
Qed.

Lemma json_number_length t v rest : json_number t = Some (v, rest) → length rest < length t.
Proof.
  unfold json_number.
  destruct (match after_text (u "-") t with Some _ => _ | None => _ end) as [sign t1] eqn:H1.
  assert (length t1 ≤ length t) as L1.
  { destruct (after_text _ t) as [x|] eqn:Hx; [apply after_text_length in Hx|]; simplify_eq/=; lia. }
  destruct (match after_text (u "0") t1 with Some _ => _ | None => _ end) as [[ds t2]|] eqn:H2; [|done].
  assert (length t2 < length t1) as L2.
  { destruct (after_text _ t1) as [x|] eqn:Hx; [apply after_text_length in Hx; simplify_eq/=; lia|].
    destruct (span ascii_digit t1) as [[|d a] b] eqn:Hs; [done|]. apply span_length in Hs. simplify_eq/=. lia. }
  simpl. destruct (json_fraction t2) as [fr t3] eqn:H3. apply json_fraction_length in H3.
  destruct (json_exponent t3) as [ex t4] eqn:H4. apply json_exponent_length in H4.
  case_bool_decide; [destruct (_ <? _)%nat; [done|]|]; intros [= _ <-]; lia.
Qed.

#[local] Arguments after_text : simpl never.

Lemma json_constant_length t v rest : json_constant t = Some (v, rest) → length rest < length t.
Proof.
  unfold json_constant. intros H.
  assert (∃ w, (0 < length w)%nat ∧ after_text w t = Some rest) as (w & Hw & Ha%after_text_length); [|lia].
  simpl in H. repeat match type of H with context [after_text ?w t] =>
    let E := fresh in destruct (after_text w t) eqn:E; simpl in H;
      [injection H as _ <-; exists w; split; [simpl; lia|exact E]|clear E] end. done.
Qed.

(** ** Fuel *)

Section Lengths.
Variable fuel : nat.

Lemma json_value_S t v rest (Hi : ∀ t l rest, json_items fuel t = Some (l, rest) → length rest < length t)
    (Hm : ∀ t l rest, json_members fuel t = Some (l, rest) → length rest < length t) :
  json_value (S fuel) t = Some (v, rest) → length rest < length t.
Proof.
  destruct t as [|c t1]; [done|]. simpl. destruct (c =? quote)%N.
  { destruct (json_string t1) as [[s r]|] eqn:H; [|done]. simpl. intros [= _ <-].
    apply json_string_length in H. lia. }
  pose proof (skip_space_length t1). destruct (c =? 91)%N.
  { destruct (after_text _ _) as [r|] eqn:Ha; [intros [= _ <-]; apply after_text_length in Ha; simpl in *; lia|].
    destruct (json_items fuel _) as [[l r]|] eqn:H1; [|done]. simpl. intros [= _ <-]. apply Hi in H1. lia. }
  destruct (c =? 123)%N.
  { destruct (after_text _ _) as [r|] eqn:Ha; [intros [= _ <-]; apply after_text_length in Ha; simpl in *; lia|].
    destruct (json_members fuel _) as [[l r]|] eqn:H1; [|done]. simpl. intros [= _ <-]. apply Hm in H1. lia. }
  destruct (json_constant _) as [[v' r]|] eqn:Hc; [intros [= -> ->]; by apply json_constant_length in Hc|].
  intros Hn%json_number_length. done.
Qed.
End Lengths.

(** The next character that is looked for, and what follows it *)
Ltac next_is rest H :=
  match goal with |- context [after_text ?w ?t] => destruct (after_text w t) as [rest|] eqn:H end.

Lemma json_lengths fuel :
  (∀ t v rest, json_value fuel t = Some (v, rest) → length rest < length t) ∧
  (∀ t l rest, json_items fuel t = Some (l, rest) → length rest < length t) ∧
  (∀ t l rest, json_members fuel t = Some (l, rest) → length rest < length t).
Proof.
  induction fuel as [|fuel (Hv & Hi & Hm)]; [by split_and!|]. split_and!.
  - intros t v rest. by apply json_value_S.
  - intros t l rest. simpl. destruct (json_value fuel t) as [[v t1]|] eqn:Hval; [|done]. simpl.
    apply Hv in Hval. pose proof (skip_space_length t1). next_is r Ha.
    { intros [= _ <-]. apply after_text_length in Ha. simpl in *. lia. }
    next_is t2 Hc; [|done]. simpl. apply after_text_length in Hc.
    pose proof (skip_space_length t2). destruct (json_items fuel _) as [[l' r]|] eqn:Hrec; [|done]. simpl.
    intros [= _ <-]. apply Hi in Hrec. simpl in *. lia.
  - intros t l rest. simpl. next_is t1 H0; [|done]. simpl.
    apply after_text_length in H0. destruct (json_string t1) as [[k t2]|] eqn:Hs; [|done]. simpl.
    apply json_string_length in Hs. pose proof (skip_space_length t2).
    next_is t3 Hc; [|done]. simpl. apply after_text_length in Hc.
    pose proof (skip_space_length t3). destruct (json_value fuel _) as [[v t4]|] eqn:Hval; [|done]. simpl.
    apply Hv in Hval. pose proof (skip_space_length t4). next_is r Ha.
    { intros [= _ <-]. apply after_text_length in Ha. simpl in *. lia. }
    next_is t5 Hc5; [|done]. simpl. apply after_text_length in Hc5.
    pose proof (skip_space_length t5). destruct (json_members fuel _) as [[l' r]|] eqn:Hrec; [|done]. simpl.
    intros [= _ <-]. apply Hm in Hrec. simpl in *. lia.
Qed.

(** Fuel beyond what the length of the text demands changes nothing. *)
Lemma json_fuel n :
  (∀ t f g, length t ≤ n → 2 * length t + 1 ≤ f → 2 * length t + 1 ≤ g → json_value f t = json_value g t) ∧
  (∀ t f g, length t ≤ n → 2 * length t + 2 ≤ f → 2 * length t + 2 ≤ g → json_items f t = json_items g t) ∧
  (∀ t f g, length t ≤ n → 2 * length t + 2 ≤ f → 2 * length t + 2 ≤ g → json_members f t = json_members g t).
Proof.
  induction n as [|n (IHv & IHi & IHm)].
  { split_and!; intros [|c t] f g Hn Hf Hg; simpl in *; try lia; destruct f as [|[|f]], g as [|[|g]]; done || lia. }
  assert (∀ t f g, length t ≤ S n → 2 * length t + 1 ≤ f → 2 * length t + 1 ≤ g →
    json_value f t = json_value g t) as Hv.
  { intros t f g Hn Hf Hg. destruct f as [|f]; [lia|]. destruct g as [|g]; [lia|]. destruct t as [|c t1]; [done|].
    simpl in *. destruct (c =? quote)%N; [done|]. pose proof (skip_space_length t1).
    rewrite (IHi (skip_space t1) f g), (IHm (skip_space t1) f g) by lia. done. }
  split_and!; [done| |].
  - intros t f g Hn Hf Hg. destruct f as [|f]; [lia|]. destruct g as [|g]; [lia|]. simpl.
    rewrite (Hv t f g) by lia. destruct (json_value g t) as [[v t1]|] eqn:Hval; [|done]. simpl.
    apply (proj1 (json_lengths g)) in Hval. pose proof (skip_space_length t1).
    next_is r Hend; [done|clear Hend]. next_is t2 Hc; [|done]. simpl.
    apply after_text_length in Hc. pose proof (skip_space_length t2). simpl in *.
    by rewrite (IHi (skip_space t2) f g) by lia.
  - intros t f g Hn Hf Hg. destruct f as [|f]; [lia|]. destruct g as [|g]; [lia|]. simpl.
    next_is t1 H0; [|done]. simpl. apply after_text_length in H0.
    destruct (json_string t1) as [[k t2]|] eqn:Hs; [|done]. simpl. apply json_string_length in Hs.
    pose proof (skip_space_length t2). next_is t3 Hc; [|done]. simpl.
    apply after_text_length in Hc. pose proof (skip_space_length t3). simpl in *.
    rewrite (IHv (skip_space t3) f g) by lia. destruct (json_value g _) as [[v t4]|] eqn:Hval; [|done]. simpl.
    apply (proj1 (json_lengths g)) in Hval. pose proof (skip_space_length t4).
    next_is r Hend; [done|clear Hend]. next_is t5 Hc5; [|done]. simpl.
    apply after_text_length in Hc5. pose proof (skip_space_length t5). simpl in *.
    by rewrite (IHm (skip_space t5) f g) by lia.
Qed.

Lemma json_value_fuel t f : 2 * length t + 1 ≤ f → json_value f t = json_value (2 * length t + 1) t.
Proof. intros Hf. by apply (proj1 (json_fuel (length t))). Qed.

(** [loads] with any fuel that is enough *)
Lemma loads_fuel t f :
  2 * length t + 1 ≤ f →
  loads t = '(v, rest) ← json_value f (skip_space t); if bool_decide (skip_space rest = []) then Some v else None.
Proof.
  intros Hf. unfold loads. pose proof (skip_space_length t).
  by rewrite (json_value_fuel _ (2 * length t + 1)), (json_value_fuel _ f) by lia.
Qed.

(** ** Reading back what was written *)

(** A value without floating-point numbers, whose objects have no key twice and
    whose integers [json.loads] reads *)
Fixpoint plain (v : value) : Prop :=
  match v with
  | VFloat _ => False
  | VInt z => (String.length (str_int z) ≤ 4300)%nat
  | VList l => (fix all l := match l with [] => True | v :: l' => plain v ∧ all l' end) l
  | VDict d =>
      NoDup (map fst d) ∧ (fix all d := match d with [] => True | kv :: d' => plain kv.2 ∧ all d' end) d
  | _ => True
  end.

(** What can follow a value *)
Definition stops (k : text) : Prop :=
  match k with [] => True | c :: _ => c = 44%N ∨ c = 93%N ∨ c = 125%N end.

(** *** Strings *)

Lemma small_N (P : N → Prop) k : Forall P (map N.of_nat (seq 0 k)) → ∀ n, (n < N.of_nat k)%N → P n.
Proof.
  intros H n Hn. rewrite Forall_forall in H. apply H. rewrite <-(N2Nat.id n).
  apply (list_elem_of_fmap_2 N.of_nat), elem_of_seq. lia.
Qed.

(** One character, as it is written and read *)
Lemma units_esc_char c rest us t :
  string_units t = Some (us, rest) →
  ∃ b, string_units (esc_char c ++ t) = Some ((b, c) :: us, rest) ∧ (b = true → (c < 32)%N).
Proof.
  intros Ht. destruct (N.ltb_spec c 32) as [Hc|Hc].
  - revert c Hc. apply (small_N _ 32). simpl.
    repeat constructor; simpl; rewrite Ht; simpl; eexists; (split; [reflexivity|done]).
  - unfold esc_char. assert (∀ m, (m < 32)%N → (c =? m)%N = false) as Hne by (intros; apply N.eqb_neq; lia).
    destruct (N.eqb_spec c 34) as [->|H34]; [|destruct (N.eqb_spec c 92) as [->|H92]].
    1-2: simpl; rewrite Ht; eexists; split; [reflexivity|done].
    rewrite !Hne by lia. rewrite (proj2 (N.ltb_ge c 32) Hc). exists false. split; [|done].
    simpl. unfold quote, bslash. rewrite (proj2 (N.eqb_neq c 34) H34), (proj2 (N.eqb_neq c 92) H92).
    by rewrite (proj2 (N.ltb_ge c 32) Hc), Ht.
Qed.

Lemma json_string_print t k : json_string (concat (map esc_char t) ++ quote :: k) = Some (t, k).
Proof.
  assert (∃ us, string_units (concat (map esc_char t) ++ quote :: k) = Some (us, k) ∧ map snd us = t ∧
    Forall (λ x, x.1 = true → (x.2 < 32)%N) us) as (us & Hu & <- & Hf).
  { induction t as [|c t (us & Hu & <- & Hf)]; simpl; [by exists []|].
    rewrite <-app_assoc. destruct (units_esc_char c k us _ Hu) as (b & Hb & Hc). exists ((b, c) :: us).
    split; [done|]. split; [done|]. by constructor. }
  unfold json_string. rewrite Hu. simpl. do 2 f_equal. clear Hu. induction Hf as [|[ea a] us Ha Hf IH]; [done|].
  destruct us as [|[eb b] us]; [done|].
  assert (join_surrogates ((ea, a) :: (eb, b) :: us) = a :: join_surrogates ((eb, b) :: us)) as ->; [|by rewrite IH].
  cbn [join_surrogates]. destruct ea; [|done]. rewrite (proj2 (N.leb_gt 55296 a)); [by rewrite !andb_false_r|].
  simpl in Ha. specialize (Ha eq_refl). lia.
Qed.

(** *** Integers *)

Lemma utf8_digit c s : is_digit c = true → utf8_text (String c s) = N_of_ascii c :: utf8_text s.
Proof.
  intros Hc. unfold is_digit, in_range in Hc. apply andb_true_iff in Hc as [_ Hc%N.leb_le]. simpl.
  by rewrite (proj2 (N.ltb_lt (N_of_ascii c) 128)) by lia.
Qed.

Lemma digits_text s acc :
  all_chars is_digit s = true →
  forallb ascii_digit (utf8_text s) = true ∧ length (utf8_text s) = String.length s ∧
  int_digits acc s = Some (foldl (λ n c, 10 * n + Z.of_N (c - 48))%Z acc (utf8_text s)).
Proof.
  revert acc. induction s as [|c s IH]; intros acc; [done|]. cbn [all_chars]. intros [Hc Hs]%andb_true_iff.
  rewrite (utf8_digit c s Hc). cbn [int_digits forallb length String.length foldl]. rewrite Hc.
  destruct (IH (acc * 10 + digit_value c)%Z Hs) as (-> & -> & ->). split_and!; [|done|].
  - rewrite andb_true_r. exact Hc.
  - do 2 f_equal. unfold digit_value. unfold is_digit, in_range in Hc. apply andb_true_iff in Hc as [Hc%N.leb_le _]. lia.
Qed.

(** A positive number does not start with a zero. *)
Lemma pretty_head n : (0 < n)%N → ∃ c s, pretty n = String c s ∧ c ≠ "0"%char.
Proof.
  intros Hn. unfold pretty, pretty_N. rewrite decide_False by lia. generalize EmptyString.
  induction (N.lt_wf_0 n) as [n _ IH]; intros s. rewrite pretty_N_go_step by done.
  destruct (decide (0 < n / 10)%N) as [Hd|Hd].
  - apply IH; [apply N.div_lt; lia|done].
  - assert (n / 10 = 0)%N as H0 by (by apply N.le_0_r, N.nlt_ge). rewrite H0, pretty_N_go_0. eexists _, _. split; [done|].
    assert (n < 10)%N as H10 by (by apply N.div_small_iff). rewrite N.mod_small by done.
    clear IH Hd H0. revert n H10 Hn. apply (small_N (λ n, (0 < n)%N → pretty_N_char n ≠ "0"%char) 10).
    repeat constructor; done.
Qed.

Lemma span_digits ds k : forallb ascii_digit ds = true → stops k → span ascii_digit (ds ++ k) = (ds, k).
Proof.
  intros Hd Hk. induction ds as [|d ds IH]; simpl in *.
  - destruct k as [|c k]; [done|]. simpl. by destruct Hk as [-> | [-> | ->]].
  - apply andb_true_iff in Hd as [-> Hd]. by rewrite IH.
Qed.

Lemma stops_number k : stops k → json_fraction k = ([], k) ∧ json_exponent k = ([], k).
Proof. destruct k as [|c k]; [done|]. by intros [-> | [-> | ->]]. Qed.

(** The digits of a number that is not negative *)
Lemma json_digits (n : N) k (sign : bool) t :
  stops k → after_text (u "-") t = (if sign then Some (utf8_text (pretty n) ++ k) else None) →
  (sign = false → t = utf8_text (pretty n) ++ k) → (String.length (pretty n) ≤ 4300)%nat →
  json_number t = Some (VInt (if sign then - Z.of_N n else Z.of_N n), k).
Proof.
  intros Hk Hs Ht Hl. unfold json_number. rewrite Hs.
  destruct (digits_text (pretty n) 0 (pretty_N_digits n)) as (Hd & Hlen & Hv).
  assert (int_digits 0 (pretty n) = Some (Z.of_N n)) as Hi.
  { unfold pretty, pretty_N. case_decide as Hz; [by rewrite Hz|]. by rewrite int_digits_pretty_go. }
  rewrite Hi in Hv. injection Hv as Hv. destruct (stops_number k Hk) as [Hf He].
  assert (match after_text (u "0") (utf8_text (pretty n) ++ k) with
          | Some t' => Some ([48%N], t')
          | None => match span ascii_digit (utf8_text (pretty n) ++ k) with ([], _) => None | p => Some p end
          end = Some (utf8_text (pretty n), k)) as Hds.
  { rewrite span_digits by done. destruct (decide (n = 0%N)) as [->|Hn].
    - change (utf8_text (pretty 0%N)) with (u "0"). by rewrite after_text_app.
    - destruct (pretty_head n) as (c & s & E & Hc); [lia|]. pose proof (pretty_N_digits n) as Hall. rewrite E in Hall |- *.
      simpl in Hall. apply andb_true_iff in Hall as [Hall _]. rewrite (utf8_digit c s Hall).
      cbn [app]. next_is x Hx; [|done]. exfalso. apply after_text_Some in Hx.
      simpl in Hx. injection Hx as Hx _. apply Hc. rewrite <-(ascii_N_embedding c), Hx. done. }
  destruct sign; [|rewrite (Ht eq_refl)]; rewrite Hds; simpl; rewrite Hf, He; simpl;
    rewrite (proj2 (Nat.ltb_ge 4300 _)) by lia; unfold digits_value; by rewrite <-Hv.
Qed.

(** *** Values *)

Lemma after_none c p ps t : c ≠ p → after_text (p :: ps) (c :: t) = None.
Proof. intros Hne. unfold after_text. by rewrite (proj2 (N.eqb_neq p c)). Qed.

Lemma after_same p ps t : after_text (p :: ps) (p :: t) = after_text ps t.
Proof. unfold after_text at 1. by rewrite N.eqb_refl. Qed.

Lemma after_one p t : after_text [p] (p :: t) = Some t.
Proof. apply (after_text_app [p]). Qed.

Lemma digit_no_constant c t : ascii_digit c = true → json_constant (c :: t) = None ∧ json_constant (45%N :: c :: t) = None.
Proof.
  intros Hc. unfold ascii_digit in Hc. apply andb_true_iff in Hc as [H1%N.leb_le H2%N.leb_le].
  unfold json_constant. simpl. rewrite !(after_none c) by lia. rewrite after_same, !after_none by lia. done.
Qed.

Lemma print_int z k f :
  (String.length (str_int z) ≤ 4300)%nat → stops k → (0 < f)%nat →
  json_value f (utf8_text (str_int z) ++ k) = Some (VInt z, k).
Proof.
  intros Hl Hk Hf. destruct f as [|f]; [lia|].
  assert (∃ n sign, utf8_text (str_int z) = (if sign : bool then [45%N] else []) ++ utf8_text (pretty n) ∧
    (String.length (pretty n) ≤ 4300)%nat ∧ z = if sign then (- Z.of_N n)%Z else Z.of_N n)
    as (n & sign & -> & Hl' & ->).
  { destruct z as [|p|p].
    - by exists 0%N, false.
    - exists (N.pos p), false. by split_and!.
    - exists (N.pos p), true. split_and!; [done| |done]. change (str_int (Z.neg p)) with (String "-" (pretty (N.pos p))) in Hl. simpl in Hl. lia. }
  destruct (pretty n) as [|c s] eqn:E.
  { exfalso. apply (str_int_nonempty (Z.of_N n)). by rewrite str_int_of_N. }
  pose proof (pretty_N_digits n) as Hall. rewrite E in Hall. simpl in Hall. apply andb_true_iff in Hall as [Hc _].
  assert (ascii_digit (N_of_ascii c) = true) as Hd by exact Hc.
  assert (json_number (((if sign then [45%N] else []) ++ utf8_text (pretty n)) ++ k) =
    Some (VInt (if sign then - Z.of_N n else Z.of_N n), k)) as Hn.
  { apply json_digits; [done| | |by rewrite E].
    - destruct sign; [by rewrite <-app_assoc, (after_text_app (u "-"))|]. rewrite E, (utf8_digit c s Hc).
      apply after_none. intros H45. by rewrite H45 in Hd.
    - by intros ->. }
  destruct (digit_no_constant (N_of_ascii c) (utf8_text s ++ k) Hd) as [H1 H2].
  assert (∀ m, (57 < m)%N ∨ (m < 48)%N → (N_of_ascii c =? m)%N = false) as Hne.
  { intros m Hm. unfold ascii_digit in Hd. apply andb_true_iff in Hd as [L1%N.leb_le L2%N.leb_le]. apply N.eqb_neq. lia. }
  rewrite E in Hn. rewrite (utf8_digit c s Hc) in Hn |- *. destruct sign; simpl in Hn |- *.
  - by rewrite H2.
  - unfold quote. rewrite !Hne by lia. by rewrite H1.
Qed.

Lemma print_head v : plain v → ∃ c r, print_value v = c :: r ∧ json_space c = false ∧ c ≠ 93%N ∧ c ≠ 125%N.
Proof.
  destruct v as [|b|z|t|t|l|d]; simpl; intros Hp; try done; try (by eexists _, _); [by destruct b; eexists _, _|].
  destruct z as [|p|p]; [by eexists _, _| |by eexists _, _].
  destruct (pretty_head (N.pos p)) as (c & s & E & _); [lia|]. pose proof (pretty_N_digits (N.pos p)) as Hall.
  change (str_int (Z.pos p)) with (pretty (N.pos p)). rewrite E in Hall |- *. simpl in Hall.
  apply andb_true_iff in Hall as [Hc _]. rewrite (utf8_digit c s Hc). eexists _, _. split; [done|].
  assert (48 ≤ N_of_ascii c ≤ 57)%N as [L1 L2].
  { unfold is_digit, in_range in Hc. by apply andb_true_iff in Hc as [?%N.leb_le ?%N.leb_le]. }
  split_and!; [|lia..]. unfold json_space. rewrite !orb_false_iff, !N.eqb_neq. lia.
Qed.

Lemma skip_print v k : plain v → skip_space (print_value v ++ k) = print_value v ++ k.
Proof.
  intros Hp. destruct (print_head v Hp) as (c & r & -> & Hc & _). unfold skip_space. simpl. by rewrite Hc.
Qed.

Lemma skip_stop c t : json_space c = false → skip_space (c :: t) = c :: t.
Proof. intros Hc. unfold skip_space. simpl. by rewrite Hc. Qed.

Definition reads v : Prop := plain v → ∀ f k, stops k →
  (2 * length (print_value v ++ k) + 1 ≤ f)%nat → json_value f (print_value v ++ k) = Some (v, k).

(** The step of the parser, with the characters as numbers *)
Lemma json_items_S f t : json_items (S f) t =
  '(v, t1) ← json_value f t;
  match after_text [93%N] (skip_space t1) with
  | Some rest => Some ([v], rest)
  | None => t2 ← after_text [44%N] (skip_space t1); '(l, rest) ← json_items f (skip_space t2); Some (v :: l, rest)
  end.
Proof. reflexivity. Qed.

Lemma json_members_S f t : json_members (S f) t =
  t1 ← after_text [quote] t;
  '(k, t2) ← json_string t1;
  t3 ← after_text [58%N] (skip_space t2);
  '(v, t4) ← json_value f (skip_space t3);
  match after_text [125%N] (skip_space t4) with
  | Some rest => Some ([(k, v)], rest)
  | None => t5 ← after_text [44%N] (skip_space t4); '(l, rest) ← json_members f (skip_space t5); Some ((k, v) :: l, rest)
  end.
Proof. reflexivity. Qed.

Lemma join_map {X} sep (f : X → text) x y l :
  join sep (map f (x :: y :: l)) = f x ++ sep ++ join sep (map f (y :: l)).
Proof. reflexivity. Qed.

Lemma skip_join v l k : plain v → skip_space (join [44%N] (map print_value (v :: l)) ++ k) =
  join [44%N] (map print_value (v :: l)) ++ k.
Proof.
  intros Hp. destruct l; [by apply skip_print|]. rewrite join_map, <-app_assoc. by apply skip_print.
Qed.

Lemma reads_items l : Forall reads l → Forall plain l → l ≠ [] → ∀ f k,
  (2 * length (join [44%N] (map print_value l) ++ 93%N :: k) + 2 ≤ f)%nat →
  json_items f (join [44%N] (map print_value l) ++ 93%N :: k) = Some (l, k).
Proof.
  intros Hr Hp. induction l as [|v l IH]; [done|]. intros _ f k Hf. apply Forall_cons in Hr as [Hv Hr].
  apply Forall_cons in Hp as [Hpv Hp]. destruct f as [|f]; [lia|]. rewrite json_items_S. destruct l as [|v' l].
  - cbn [map join] in *. rewrite (Hv Hpv) by first [lia|simpl; auto]. cbn [mbind option_bind].
    by rewrite skip_stop, after_one.
  - rewrite join_map, <-app_assoc in *. cbn [app] in *.
    rewrite (Hv Hpv) by first [lia|simpl; auto]. cbn [mbind option_bind]. rewrite skip_stop by done.
    rewrite after_none, after_one by done. cbn [mbind option_bind]. apply Forall_cons in Hp as Hp'.
    rewrite skip_join by apply Hp'. rewrite IH; [done..|]. rewrite !length_app in *. simpl in *.
    rewrite !length_app in *. simpl in *. lia.
Qed.

Definition print_member (kv : text * value) : text := print_text kv.1 ++ 58%N :: print_value kv.2.

Lemma skip_members kv d k : skip_space (join [44%N] (map print_member (kv :: d)) ++ k) =
  join [44%N] (map print_member (kv :: d)) ++ k.
Proof. by destruct d. Qed.

Lemma reads_members d : Forall (λ kv, reads kv.2) d → Forall (λ kv, plain kv.2) d → d ≠ [] → ∀ f k,
  (2 * length (join [44%N] (map print_member d) ++ 125%N :: k) + 2 ≤ f)%nat →
  json_members f (join [44%N] (map print_member d) ++ 125%N :: k) = Some (d, k).
Proof.
  intros Hr Hp. induction d as [|[key v] d IH]; [done|]. intros _ f k Hf. apply Forall_cons in Hr as [Hv Hr].
  apply Forall_cons in Hp as [Hpv Hp]. destruct f as [|f]; [lia|]. rewrite json_members_S.
  assert (∀ t, after_text [quote] (print_member (key, v) ++ t) =
    Some (concat (map esc_char key) ++ quote :: 58%N :: print_value v ++ t)) as Hkey.
  { intros t. unfold print_member, print_text. cbn [fst snd app]. rewrite after_one. by rewrite <-!app_assoc. }
  assert (∀ t, length (print_value v ++ t) + 3 ≤ length (print_member (key, v) ++ t)) as Hlen.
  { intros t. unfold print_member, print_text. cbn [fst snd]. rewrite !length_app. simpl. rewrite !length_app. simpl. lia. }
  simpl in Hv, Hpv. destruct d as [|[key' v'] d].
  - cbn [map join] in *. rewrite Hkey. cbn [mbind option_bind]. rewrite json_string_print. cbn [mbind option_bind].
    rewrite skip_stop, after_one by done. cbn [mbind option_bind]. rewrite skip_print by done.
    specialize (Hlen (125%N :: k)). rewrite (Hv Hpv) by first [lia|simpl; auto]. cbn [mbind option_bind].
    by rewrite skip_stop, after_one.
  - rewrite join_map, <-app_assoc in *. cbn [app] in *. rewrite Hkey. cbn [mbind option_bind].
    rewrite json_string_print. cbn [mbind option_bind]. rewrite skip_stop, after_one by done. cbn [mbind option_bind].
    rewrite skip_print by done.
    match type of Hf with context [print_member (key, v) ++ ?t] => specialize (Hlen t) end.
    rewrite (Hv Hpv) by first [lia|simpl; auto]. cbn [mbind option_bind].
    rewrite skip_stop by done. rewrite after_none, after_one by done. cbn [mbind option_bind].
    rewrite skip_members, IH; [done..|]. rewrite !length_app in *. simpl in *. rewrite !length_app in *. simpl in *. lia.
Qed.

Lemma plain_list l : plain (VList l) ↔ Forall plain l.
Proof. induction l as [|v l IH]; simpl; [done|]. rewrite Forall_cons. simpl in IH. by rewrite IH. Qed.

Lemma plain_dict d : plain (VDict d) ↔ NoDup (map fst d) ∧ Forall (λ kv, plain kv.2) d.
Proof.
  simpl. assert ((fix all d := match d with [] => True | kv :: d' => plain kv.2 ∧ all d' end) d ↔
    Forall (λ kv, plain kv.2) d) as E; [|by rewrite E].
  induction d as [|kv d IH]; [done|]. by rewrite Forall_cons, IH.
Qed.

(** An object whose keys are different is read as it is written. *)
Lemma pairs_dict_id d : NoDup (map fst d) → pairs_dict d = d.
Proof.
  intros Hd. unfold pairs_dict. assert (∀ acc, NoDup (map fst (acc ++ d)) → foldl (λ d kv, tset kv.1 kv.2 d) acc d = acc ++ d) as H.
  { clear Hd. induction d as [|[k v] d IH]; intros acc; [by rewrite app_nil_r|]. intros Hd. simpl.
    assert (tset k v acc = acc ++ [(k, v)]) as ->.
    { rewrite map_app in Hd. apply NoDup_app in Hd as (_ & Hk & _). clear IH. induction acc as [|[k' v'] acc IH]; [done|].
      simpl. rewrite decide_False.
      - rewrite IH; [done|]. intros x Hx. apply Hk. by right.
      - intros ->. apply (Hk k); [by left|by left]. }
    rewrite IH; [by rewrite <-app_assoc|]. by rewrite <-app_assoc. }
  by apply H.
Qed.

Lemma json_value_list f t : json_value (S f) (91%N :: t) =
  match after_text [93%N] (skip_space t) with
  | Some rest => Some (VList [], rest)
  | None => '(l, rest) ← json_items f (skip_space t); Some (VList l, rest)
  end.
Proof. reflexivity. Qed.

Lemma json_value_dict f t : json_value (S f) (123%N :: t) =
  match after_text [125%N] (skip_space t) with
  | Some rest => Some (VDict [], rest)
  | None => '(l, rest) ← json_members f (skip_space t); Some (VDict (pairs_dict l), rest)
  end.
Proof. reflexivity. Qed.

Lemma print_list l k : print_value (VList l) ++ k = 91%N :: join [44%N] (map print_value l) ++ 93%N :: k.
Proof. cbn [print_value]. by rewrite <-!app_assoc. Qed.

Lemma print_dict d k : print_value (VDict d) ++ k = 123%N :: join [44%N] (map print_member d) ++ 125%N :: k.
Proof. cbn [print_value]. by rewrite <-!app_assoc. Qed.

Lemma reads_all v : reads v.
Proof.
  induction v as [|b|z|t|t|l IH|d IH] using value_ind; intros Hp f k Hk Hf; destruct f as [|f]; try lia; try done.
  - by destruct b.
  - apply print_int; [done|done|lia].
  - cbn [print_value]. unfold print_text. cbn [app]. rewrite <-app_assoc. cbn [app json_value].
    change (quote =? quote)%N with true. cbn iota. by rewrite json_string_print.
  - apply plain_list in Hp. rewrite print_list in *. rewrite json_value_list. destruct l as [|v l]; [done|].
    apply Forall_cons in Hp as Hpv. rewrite skip_join by apply Hpv. destruct (print_head v) as (c & r & Hc & _ & H93 & _); [apply Hpv|].
    assert (∃ r', join [44%N] (map print_value (v :: l)) ++ 93%N :: k = c :: r') as [r' Hr'].
    { destruct l; [cbn [map join]|rewrite join_map]; rewrite Hc; eexists; reflexivity. }
    assert (json_items f (c :: r') = Some (v :: l, k)) as Hi.
    { rewrite <-Hr'. apply reads_items; [done..|]. cbn [length] in Hf. lia. }
    by rewrite Hr', after_none, Hi.
  - apply plain_dict in Hp as [Hn Hp]. rewrite print_dict in *. rewrite json_value_dict. destruct d as [|kv d]; [done|].
    rewrite skip_members.
    assert (∃ r', join [44%N] (map print_member (kv :: d)) ++ 125%N :: k = quote :: r') as [r' Hr'].
    { destruct d; [cbn [map join]|rewrite join_map]; eexists; reflexivity. }
    assert (json_members f (quote :: r') = Some (kv :: d, k)) as Hm.
    { rewrite <-Hr'. apply reads_members; [done..|]. cbn [length] in Hf. lia. }
    rewrite Hr', after_none, Hm by done. cbn [mbind option_bind]. by rewrite pairs_dict_id.
Qed.

(** What [print_value] writes is read back. *)
Lemma loads_print v : plain v → loads (print_value v) = Some v.
Proof.
  intros Hp. rewrite (loads_fuel _ (2 * length (print_value v ++ []) + 1)) by (rewrite app_nil_r; lia).
  rewrite <-(app_nil_r (print_value v)) at 2. rewrite skip_print by done. by rewrite (reads_all v Hp).
Qed.
