(* ===== verification/PyRe.v ===== *)
(** The matcher of [re]: greedy, with backtracking.  The patterns of the
    program never match the empty text, so [sub] and [finditer] are modelled
    for such patterns only. *)

From S2P Require Import Prelude PyStr PyText.
From Stdlib Require Import NArith Ascii.
#[local] Open Scope N_scope.

Inductive re :=
| REmpty
| RChar (p : N → bool)
| RSeq (a b : re)
| RAlt (a b : re)
| RStar (a : re)
| RGroup (a : re)
(** [(?<!p)] and [(?!p)] *)
| RNotAfter (p : N → bool)
| RNotBefore (p : N → bool).

Section Matching.
Context {R : Type}.

(** The text is [t], after the character [prev]; [gs] are the groups closed so
    far, and [k] goes on with the match. *)
Fixpoint rmatch (r : re) (prev : option N) (t : text) (gs : list text)
    (k : option N → text → list text → option R) {struct r} : option R :=
  match r with
  | REmpty => k prev t gs
  | RChar p => match t with
               | c :: t' => if p c then k (Some c) t' gs else None
               | [] => None
               end
  | RSeq a b => rmatch a prev t gs (λ prev t gs, rmatch b prev t gs k)
  | RAlt a b => match rmatch a prev t gs k with
                | Some x => Some x
                | None => rmatch b prev t gs k
                end
  | RStar a =>
      (fix go (n : nat) (prev : option N) (t : text) (gs : list text) : option R :=
         match n with
         | O => k prev t gs
         | S n =>
             match rmatch a prev t gs (λ prev' t' gs',
               if (length t' <? length t)%nat then go n prev' t' gs' else None) with
             | Some x => Some x
             | None => k prev t gs
             end
         end) (length t) prev t gs
  | RGroup a => rmatch a prev t gs (λ prev' t' gs', k prev' t' (gs' ++ [take (length t - length t') t]))
  | RNotAfter p => match prev with
                   | Some c => if p c then None else k prev t gs
                   | None => k prev t gs
                   end
  | RNotBefore p => match t with
                    | c :: _ => if p c then None else k prev t gs
                    | [] => k prev t gs
                    end
  end.
End Matching.

Record match_ := mkMatch { m_text : text; m_groups : list text }.

(** [r.match] at this place *)
Definition match_at (r : re) (prev : option N) (t : text) : option match_ :=
  rmatch r prev t [] (λ _ t' gs, Some (mkMatch (take (length t - length t') t) gs)).

(** The characters outside the matches, and the matches, from left to right *)
Fixpoint pieces (fuel : nat) (r : re) (prev : option N) (t : text) : list (N + match_) :=
  match fuel, t with
  | S fuel, c :: t' =>
      match match_at r prev t with
      | Some m => inr m :: pieces fuel r (list.last (m_text m)) (drop (length (m_text m)) t)
      | None => inl c :: pieces fuel r (Some c) t'
      end
  | _, _ => []
  end.

(** [list(r.finditer(t))] *)
Definition finditer (r : re) (t : text) : list match_ :=
  omap (λ p : N + match_, match p with inr m => Some m | inl _ => None end) (pieces (length t) r None t).

(** [r.sub(f, t)] *)
Definition sub (r : re) (f : match_ → text) (t : text) : text :=
  concat (map (λ p : N + match_, match p with inl c => [c] | inr m => f m end) (pieces (length t) r None t)).

(** ** Patterns *)

Definition rseq : list re → re := foldr RSeq REmpty.
Definition rword (t : text) : re := rseq (map (λ c, RChar (N.eqb c)) t).
Definition ropt (r : re) : re := RAlt r REmpty.
Definition rplus (r : re) : re := RSeq r (RStar r).
Definition ralts (l : list re) : re :=
  match l with [] => RChar (λ _, false) | r :: l => foldl RAlt r l end.

(** [r{lo,lo+more}] *)
Fixpoint rupto (more : nat) (r : re) : re :=
  match more with O => REmpty | S more => ropt (RSeq r (rupto more r)) end.
Fixpoint rtimes (lo more : nat) (r : re) : re :=
  match lo with O => rupto more r | S lo => RSeq r (rtimes lo more r) end.

Example finditer_example :
  map m_text (finditer (RSeq (RNotAfter ascii_lower) (RSeq (rplus (RChar ascii_digit)) (RNotBefore ascii_lower)))
    (u "12 a34 56b 7")) = [u "12"; u "4"; u "5"; u "7"].
Proof. vm_compute. reflexivity. Qed.

Example sub_example :
  sub (rtimes 2 1 (RChar ascii_digit)) (λ m, u "<" ++ m_text m ++ u ">") (u "1-12-1234-12345") =
  u "1-<12>-<123>4-<123><45>".
Proof. vm_compute. reflexivity. Qed.
