(* ===== verification/Notebook.v ===== *)
(** Notebooks (notebook.py).

    A notebook has a title with versions, bindings of verified sources, an
    activity list and a deletion state.  [NotebookService] validates and
    normalizes its arguments and calls a repository, which is the interface
    [NotebookRepository]; [ReferenceNotebookRepository] is its instance over the
    record [Repo], each [ref_*] operation on the entity tags, versions and keys
    as the program has them.

    Theorems: what reaches a repository is canonical, so that an invariant kept
    on canonical arguments is kept behind the service ([service_keeps]); the
    shape of every reachable reference store ([notebooks_wf]); two changes of a
    title against one entity tag ([title_update_race]); an ended source stays
    ended ([unbound_source_final]). *)

From S2P Require Import Prelude Sha256 PyStr Json.
From Stdlib Require Import Ascii.
#[local] Open Scope Z_scope.

(** ** Data *)

Definition NotebookError (code : string) (status : Z) : exn := Raised code status false.

Definition BINDING_KINDS : list string :=
  ["source"; "knowledge_context"; "conversation_thread"; "studio_output"; "output_version";
   "generation_settings"].

Record NotebookContext := mkContext {
  ctx_tenant_id : string;
  ctx_workspace_id : string;
  ctx_actor_id : string;
  ctx_trace_id : string;
  ctx_policy_version : string
}.

(** [NotebookContext.__post_init__] *)
Definition context_valid (c : NotebookContext) : bool :=
  safe_id (ctx_tenant_id c) && safe_id (ctx_workspace_id c) && safe_id (ctx_actor_id c) &&
  safe_id (ctx_trace_id c) && safe_id (ctx_policy_version c).

Definition make_context (t w a tr p : string) : outcome NotebookContext :=
  let c := mkContext t w a tr p in
  if context_valid c then Ret c else Raise (NotebookError "NOTEBOOK_CONTEXT_INVALID" 400).

Record Notebook := mkNotebook {
  nb_notebook_id : string;
  nb_tenant_id : string;
  nb_workspace_id : string;
  nb_created_by : string;
  nb_created_at : Z
}.

Record NotebookBinding := mkBinding {
  bi_tenant_id : string;
  bi_workspace_id : string;
  bi_notebook_id : string;
  bi_binding_kind : string;
  bi_record_id : string;
  bi_version_id : option string
}.

#[export] Instance notebook_binding_eq_dec : EqDecision NotebookBinding.
Proof. solve_decision. Defined.

Record NotebookBindingChangeView := mkChange {
  bc_notebook_id : string;
  bc_source_id : string;
  bc_source_version_id : string;
  bc_status : string;
  bc_etag : string
}.

Record NotebookActivity := mkActivity {
  ac_tenant_id : string;
  ac_workspace_id : string;
  ac_notebook_id : string;
  ac_activity_kind : string;
  ac_occurred_at : Z;
  ac_actor_id : string
}.

Record NotebookHomeView := mkHome {
  hv_notebook_id : string;
  hv_title : string;
  hv_source_count : Z;
  hv_output_count : Z;
  hv_updated_at : string;
  hv_status : string;
  hv_etag : string
}.

Record NotebookConversationCitation := mkCitation {
  nc_citation_id : string;
  nc_source_id : string;
  nc_source_version_id : string;
  nc_evidence_span_id : string;
  nc_page : Z;
  nc_origin : string;
  nc_context_item_id : string;
  nc_locator : list (string * string)
}.

Record NotebookConversationView := mkConversation {
  cv_conversation_thread_id : string;
  cv_run_id : string;
  cv_run_result_id : string;
  cv_answer : string;
  cv_insufficient : bool;
  cv_citations : list NotebookConversationCitation
}.

Record NotebookSourceDeletionView := mkSourceDeletion {
  sd_request_id : string;
  sd_source_id : string;
  sd_state : string;
  sd_version : Z;
  sd_grace_until : Z;
  sd_legal_hold_active : bool
}.

Record NotebookDeletionView := mkDeletion {
  nd_request_id : string;
  nd_notebook_id : string;
  nd_state : string;
  nd_current_step : string;
  nd_attempts : Z;
  nd_safe_error_code : option string;
  nd_requested_at : Z;
  nd_completed_at : option Z
}.

Record NotebookSelectedContext := mkSelected {
  sc_notebook_id : string;
  sc_sources : list (string * string);
  sc_knowledge_context_ids : list string;
  sc_conversation_thread_ids : list string;
  sc_studio_output_ids : list string;
  sc_output_version_ids : list string;
  sc_generation_settings_ids : list string;
  sc_source_deletion_requests : list NotebookSourceDeletionView;
  sc_conversation : option NotebookConversationView;
  sc_etag : string
}.

(** [NotebookSelectedContext.is_empty] *)
Definition is_empty (c : NotebookSelectedContext) : bool :=
  bool_decide (sc_sources c = []) && bool_decide (sc_knowledge_context_ids c = []) &&
  bool_decide (sc_conversation_thread_ids c = []) && bool_decide (sc_studio_output_ids c = []) &&
  bool_decide (sc_output_version_ids c = []) && bool_decide (sc_generation_settings_ids c = []).

(** [_Metadata] *)
Record Metadata := mkMetadata {
  md_version : Z;
  md_title : string;
  md_description : option string;
  md_updated_at : Z;
  md_updated_by : string
}.

Definition notebook_etag (version : Z) : string := dquoted ("notebook:" +:+ str_int version).
Definition binding_etag (version : Z) : string := dquoted ("notebook-binding:" +:+ str_int version).

(** ** Validation *)

(** [unicodedata.normalize("NFKC", value)]: the tables of the Unicode standard.
    Of the four forms' documented behaviour the program relies on one fact:
    text in ASCII is unchanged. *)
Definition is_ascii (c : ascii) : bool := in_range 0 127 c.

Class Unicode := {
  nfkc : string → string;
  nfkc_ascii : ∀ s, all_chars is_ascii s = true → nfkc s = s
}.

(** [_CONTROL.search(value)] *)
Definition is_control (c : ascii) : bool := in_range 0 31 c || in_range 127 127 c.

Definition no_control (s : string) : bool := all_chars (λ c, negb (is_control c)) s.

(** [_IDEMPOTENCY_KEY.fullmatch] *)
Definition key_ok (s : string) : bool := safe_id s && Nat.leb 8 (String.length s).

Fixpoint digits_quote (s : string) : bool :=
  match s with
  | EmptyString => false
  | String c s' => if is_digit c then digits_quote s' else bool_decide (s = String quote_char EmptyString)
  end.

(** [re.fullmatch(r'"<name>:[1-9][0-9]*"', s)] *)
Definition etag_ok (name : string) (s : string) : bool :=
  let p := String quote_char (name +:+ ":") in
  startswith p s &&
  match String.substring (String.length p) (String.length s - String.length p) s with
  | String c rest => in_range 49 57 c && digits_quote rest
  | EmptyString => false
  end.

Section Validation.
Context {U : Unicode} {T : Type}.

(** [_canonical_text] *)
Definition canonical_text (field : string) (minimum maximum : nat) (value : pyobj) : M T string :=
  let invalid := NotebookError ("NOTEBOOK_" +:+ field +:+ "_INVALID") 400 in
  text <- from_option (match value with PyStr s => Some s | _ => None end) invalid ;;
  guard (no_control text) invalid ;;
  let normalized := collapse_ws (nfkc text) in
  guard (Nat.leb minimum (String.length normalized) && Nat.leb (String.length normalized) maximum)
    invalid ;;
  ret normalized.

(** [_canonical_description] *)
Definition canonical_description (value : pyobj) : M T (option string) :=
  match value with
  | PyNone => ret None
  | _ =>
      normalized <- canonical_text "DESCRIPTION" 0 500 value ;;
      ret (if String.eqb normalized "" then None else Some normalized)
  end.

(** [_key] *)
Definition idempotency_key (value : pyobj) : M T string :=
  from_option (match value with PyStr s => if key_ok s then Some s else None | _ => None end)
    (NotebookError "IDEMPOTENCY_KEY_INVALID" 400).

(** [_binding] *)
Definition binding (field : string) (value : pyobj) : M T string :=
  from_option (match value with PyStr s => if safe_id s then Some s else None | _ => None end)
    (NotebookError ("NOTEBOOK_BINDING_" +:+ field +:+ "_INVALID") 400).

(** [_binding_values] *)
Definition binding_values (kind record version : pyobj) : M T (string * string * option string) :=
  kind <- from_option (match kind with
                       | PyStr s => if bool_decide (s ∈ BINDING_KINDS) then Some s else None
                       | _ => None
                       end) (NotebookError "NOTEBOOK_BINDING_KIND_INVALID" 400) ;;
  record <- binding "RECORD_ID" record ;;
  if String.eqb kind "source" then
    version <- binding "VERSION_ID" version ;;
    ret (kind, record, Some version)
  else
    guard (bool_decide (version = PyNone)) (NotebookError "NOTEBOOK_BINDING_VERSION_ID_INVALID" 400) ;;
    ret (kind, record, None).

(** [expected_etag] has the shape of a notebook's or a binding's tag. *)
Definition etag_arg (name : string) (e : exn) (value : pyobj) : M T string :=
  from_option (match value with PyStr s => if etag_ok name s then Some s else None | _ => None end) e.

(** [isinstance(notebook_id, str) and _SAFE_ID.fullmatch(notebook_id)] *)
Definition known_id (value : pyobj) : M T string :=
  from_option (match value with PyStr s => if safe_id s then Some s else None | _ => None end)
    (NotebookError "NOTEBOOK_NOT_FOUND" 404).
End Validation.

(** [_fingerprint] *)
Definition nb_fingerprint {D : Digest} (members : list (string * json)) : string :=
  sha256_hex (json_bytes false (JObj members)).

(** [_selected_context] *)
Definition records (kind : string) (bs : list NotebookBinding) : list string :=
  sorted_strings (map bi_record_id (filter (λ b, bi_binding_kind b = kind) bs)).

Definition pair_leb (a b : string * string) : bool :=
  if decide (a.1 = b.1) then string_leb a.2 b.2 else string_leb a.1 b.1.

Definition sources_of (bs : list NotebookBinding) : list (string * string) :=
  sort_stable pair_leb (omap (λ b,
    if decide (bi_binding_kind b = "source") then
      v ← bi_version_id b; Some (bi_record_id b, v)
    else None) bs).

(** [l[-1:]] *)
Definition last_one {A} (l : list A) : list A := match last l with Some x => [x] | None => [] end.

Definition selected_context (notebook_id : string) (bs : list NotebookBinding)
    (conversation : option NotebookConversationView) (binding_version : Z) : NotebookSelectedContext :=
  mkSelected notebook_id (sources_of bs) (records "knowledge_context" bs)
    (match conversation with
     | Some c => [cv_conversation_thread_id c]
     | None => last_one (records "conversation_thread" bs)
     end)
    (records "studio_output" bs) (records "output_version" bs) (records "generation_settings" bs)
    [] conversation (binding_etag binding_version).

(** ** The repository interface *)

(** [NotebookRepository], the protocol the service is written against. *)
Class NotebookRepository (T : Type) := {
  creation_license_authoritative : bool;
  repo_create : NotebookContext → string → option string → string → string → Z →
    M T (NotebookHomeView * bool);
  repo_list : NotebookContext → M T (list NotebookHomeView);
  repo_get : NotebookContext → string → M T NotebookHomeView;
  repo_update_title : NotebookContext → string → string → string → string → string → Z →
    M T (NotebookHomeView * bool);
  repo_bind_verified : NotebookContext → string → string → string → option string → Z → M T bool;
  repo_read_selected_context : NotebookContext → string → option string → option string →
    M T NotebookSelectedContext;
  repo_unbind_source : NotebookContext → string → string → string → string → string → string → Z →
    M T (NotebookBindingChangeView * bool);
  repo_request_deletion : NotebookContext → string → string → string → string → string → Z →
    M T (NotebookDeletionView * bool);
  repo_get_deletion : NotebookContext → string → string → M T NotebookDeletionView
}.

(** ** ReferenceNotebookRepository *)

Definition Scope : Type := string * string * string.
Definition IdemScope : Type := string * string * string * string.

Record Repo := mkRepo {
  notebooks : gmap Scope Notebook;
  metadata : gmap Scope (list Metadata);
  idempotency : gmap IdemScope (string * NotebookHomeView);
  binding_targets : gset (string * string * option string);
  bindings : gmap Scope (list NotebookBinding);
  activities : gmap Scope (list NotebookActivity);
  binding_terminations : gmap Scope (gset (string * string));
  unbind_idempotency : gmap IdemScope (string * NotebookBindingChangeView);
  deletions : gmap Scope (string * NotebookDeletionView);
  deletion_idempotency : gmap IdemScope (string * NotebookDeletionView);
  draws : Draws
}.

Definition empty_repo (targets : gset (string * string * option string)) : Repo :=
  mkRepo ∅ ∅ ∅ targets ∅ ∅ ∅ ∅ ∅ ∅ (mkDraws 0 0).

Definition set_notebooks (v : gmap Scope Notebook) (r : Repo) : Repo :=
  mkRepo v (metadata r) (idempotency r) (binding_targets r) (bindings r) (activities r) (binding_terminations r) (unbind_idempotency r) (deletions r) (deletion_idempotency r) (draws r).
Definition set_metadata (v : gmap Scope (list Metadata)) (r : Repo) : Repo :=
  mkRepo (notebooks r) v (idempotency r) (binding_targets r) (bindings r) (activities r) (binding_terminations r) (unbind_idempotency r) (deletions r) (deletion_idempotency r) (draws r).
Definition set_idempotency (v : gmap IdemScope (string * NotebookHomeView)) (r : Repo) : Repo :=
  mkRepo (notebooks r) (metadata r) v (binding_targets r) (bindings r) (activities r) (binding_terminations r) (unbind_idempotency r) (deletions r) (deletion_idempotency r) (draws r).
Definition set_binding_targets (v : gset (string * string * option string)) (r : Repo) : Repo :=
  mkRepo (notebooks r) (metadata r) (idempotency r) v (bindings r) (activities r) (binding_terminations r) (unbind_idempotency r) (deletions r) (deletion_idempotency r) (draws r).
Definition set_bindings (v : gmap Scope (list NotebookBinding)) (r : Repo) : Repo :=
  mkRepo (notebooks r) (metadata r) (idempotency r) (binding_targets r) v (activities r) (binding_terminations r) (unbind_idempotency r) (deletions r) (deletion_idempotency r) (draws r).
Definition set_activities (v : gmap Scope (list NotebookActivity)) (r : Repo) : Repo :=
  mkRepo (notebooks r) (metadata r) (idempotency r) (binding_targets r) (bindings r) v (binding_terminations r) (unbind_idempotency r) (deletions r) (deletion_idempotency r) (draws r).
Definition set_binding_terminations (v : gmap Scope (gset (string * string))) (r : Repo) : Repo :=
  mkRepo (notebooks r) (metadata r) (idempotency r) (binding_targets r) (bindings r) (activities r) v (unbind_idempotency r) (deletions r) (deletion_idempotency r) (draws r).
Definition set_unbind_idempotency (v : gmap IdemScope (string * NotebookBindingChangeView)) (r : Repo) : Repo :=
  mkRepo (notebooks r) (metadata r) (idempotency r) (binding_targets r) (bindings r) (activities r) (binding_terminations r) v (deletions r) (deletion_idempotency r) (draws r).
Definition set_deletions (v : gmap Scope (string * NotebookDeletionView)) (r : Repo) : Repo :=
  mkRepo (notebooks r) (metadata r) (idempotency r) (binding_targets r) (bindings r) (activities r) (binding_terminations r) (unbind_idempotency r) v (deletion_idempotency r) (draws r).
Definition set_deletion_idempotency (v : gmap IdemScope (string * NotebookDeletionView)) (r : Repo) : Repo :=
  mkRepo (notebooks r) (metadata r) (idempotency r) (binding_targets r) (bindings r) (activities r) (binding_terminations r) (unbind_idempotency r) (deletions r) v (draws r).
Definition set_draws (v : Draws) (r : Repo) : Repo :=
  mkRepo (notebooks r) (metadata r) (idempotency r) (binding_targets r) (bindings r) (activities r) (binding_terminations r) (unbind_idempotency r) (deletions r) (deletion_idempotency r) v.

#[export] Instance repo_drawing : Drawing Repo :=
  {| draws_of := draws; with_draws := set_draws |}.

Section Reference.
Context {D : Digest}.
Abbreviation St := (M Repo).

Definition scope_of (ctx : NotebookContext) (nid : string) : Scope :=
  (ctx_tenant_id ctx, ctx_workspace_id ctx, nid).

Definition idem_scope (ctx : NotebookContext) (key : string) : IdemScope :=
  (ctx_tenant_id ctx, ctx_workspace_id ctx, ctx_actor_id ctx, key).

(** [_view] *)
Definition home_view (n : Notebook) (m : Metadata) : NotebookHomeView :=
  mkHome (nb_notebook_id n) (md_title m) 0 0 (iso_z (md_updated_at m)) "empty"
    (notebook_etag (md_version m)).

(** The lookup at the head of every write: a remembered key returns what it
    stands for, or is refused for another request. *)
Definition replayed {V} (table : Repo → gmap IdemScope (string * V)) (key : IdemScope) (fp : string)
    : St (option V) :=
  stored <- gets (λ s, table s !! key) ;;
  match stored with
  | None => ret None
  | Some (fp', v) =>
      guard (String.eqb fp' fp) (NotebookError "IDEMPOTENCY_KEY_REUSED" 409) ;;
      ret (Some v)
  end.

(** [self._notebooks.get(scope)], or the refusal *)
Definition notebook_at (scope : Scope) : St Notebook :=
  found <- gets (λ s, notebooks s !! scope) ;;
  from_option found (NotebookError "NOTEBOOK_NOT_FOUND" 404).

(** [self._metadata[scope][-1]] *)
Definition current_metadata (scope : Scope) : St Metadata :=
  found <- gets (λ s, metadata s !! scope) ;;
  l <- from_option found (PyError "KeyError") ;;
  from_option (last l) (PyError "IndexError").

Definition bindings_at (scope : Scope) : St (list NotebookBinding) :=
  found <- gets (λ s, bindings s !! scope) ;;
  from_option found (PyError "KeyError").

Definition terminations_at (scope : Scope) : St (gset (string * string)) :=
  found <- gets (λ s, binding_terminations s !! scope) ;;
  from_option found (PyError "KeyError").

Definition add_activity (ctx : NotebookContext) (nid kind : string) (now : Z) : St unit :=
  found <- gets (λ s, activities s !! scope_of ctx nid) ;;
  l <- from_option found (PyError "KeyError") ;;
  modify (λ s, set_activities (<[scope_of ctx nid := l ++ [mkActivity (ctx_tenant_id ctx)
    (ctx_workspace_id ctx) nid kind now (ctx_actor_id ctx)]]> (activities s)) s).

Definition new_notebook_id (ctx : NotebookContext) (key : string) : string :=
  "notebook-" +:+ String.substring 0 32 (sha256_hex (encode
    (ctx_tenant_id ctx +:+ "|" +:+ ctx_workspace_id ctx +:+ "|" +:+ ctx_actor_id ctx +:+ "|" +:+ key))).

Definition ref_create (ctx : NotebookContext) (title : string) (description : option string)
    (key fp : string) (now : Z) : St (NotebookHomeView * bool) :=
  replay <- replayed idempotency (idem_scope ctx key) fp ;;
  match replay with
  | Some view => ret (view, true)
  | None =>
      let nid := new_notebook_id ctx key in
      let n := mkNotebook nid (ctx_tenant_id ctx) (ctx_workspace_id ctx) (ctx_actor_id ctx) now in
      let m := mkMetadata 1 title description now (ctx_actor_id ctx) in
      let scope := scope_of ctx nid in
      modify (λ s, set_notebooks (<[scope := n]> (notebooks s)) s) ;;
      modify (λ s, set_metadata (<[scope := [m]]> (metadata s)) s) ;;
      modify (λ s, set_bindings (<[scope := []]> (bindings s)) s) ;;
      modify (λ s, set_activities (<[scope := [mkActivity (ctx_tenant_id ctx) (ctx_workspace_id ctx)
        nid "created" now (ctx_actor_id ctx)]]> (activities s)) s) ;;
      modify (λ s, set_binding_terminations (<[scope := ∅]> (binding_terminations s)) s) ;;
      let view := home_view n m in
      modify (λ s, set_idempotency (<[idem_scope ctx key := (fp, view)]> (idempotency s)) s) ;;
      ret (view, false)
  end.

(** Newest first, [reverse=True] on (updated_at, notebook_id). *)
Definition home_geb (a b : NotebookHomeView) : bool :=
  pair_leb (hv_updated_at b, hv_notebook_id b) (hv_updated_at a, hv_notebook_id a).

Definition in_workspace (ctx : NotebookContext) (scope : Scope) : bool :=
  String.eqb scope.1.1 (ctx_tenant_id ctx) && String.eqb scope.1.2 (ctx_workspace_id ctx).

Definition ref_list (ctx : NotebookContext) : St (list NotebookHomeView) :=
  mine <- gets (λ s, filter (λ kv, in_workspace ctx kv.1 = true) (map_to_list (notebooks s))) ;;
  views <- mfold mine (λ views kv,
    m <- current_metadata kv.1 ;;
    ret (views ++ [home_view kv.2 m])) [] ;;
  ret (sort_stable home_geb views).

Definition ref_get (ctx : NotebookContext) (nid : string) : St NotebookHomeView :=
  n <- notebook_at (scope_of ctx nid) ;;
  m <- current_metadata (scope_of ctx nid) ;;
  ret (home_view n m).

Definition ref_update_title (ctx : NotebookContext) (nid title etag key fp : string) (now : Z)
    : St (NotebookHomeView * bool) :=
  replay <- replayed idempotency (idem_scope ctx key) fp ;;
  match replay with
  | Some view => ret (view, true)
  | None =>
      let scope := scope_of ctx nid in
      n <- notebook_at scope ;;
      current <- current_metadata scope ;;
      guard (String.eqb etag (notebook_etag (md_version current)))
        (NotebookError "NOTEBOOK_ETAG_MISMATCH" 412) ;;
      let m := mkMetadata (md_version current + 1) title (md_description current) now
        (ctx_actor_id ctx) in
      modify (λ s, set_metadata (<[scope := default [] (metadata s !! scope) ++ [m]]> (metadata s)) s) ;;
      let view := home_view n m in
      modify (λ s, set_idempotency (<[idem_scope ctx key := (fp, view)]> (idempotency s)) s) ;;
      ret (view, false)
  end.

Definition ref_bind_verified (ctx : NotebookContext) (nid kind record : string)
    (version : option string) (now : Z) : St bool :=
  let scope := scope_of ctx nid in
  notebook_at scope ;;
  targets <- gets binding_targets ;;
  guard (bool_decide ((kind, record, version) ∈ targets))
    (NotebookError "NOTEBOOK_BINDING_TARGET_NOT_FOUND" 404) ;;
  let b := mkBinding (ctx_tenant_id ctx) (ctx_workspace_id ctx) nid kind record version in
  bs <- bindings_at scope ;;
  if bool_decide (b ∈ bs) then ret true
  else
    modify (λ s, set_bindings (<[scope := bs ++ [b]]> (bindings s)) s) ;;
    add_activity ctx nid "context_bound" now ;;
    ret false.

(** The bindings that have not been ended. *)
Definition live_bindings (ended : gset (string * string)) (bs : list NotebookBinding)
    : list NotebookBinding :=
  filter (λ b, (bi_record_id b, default "" (bi_version_id b)) ∉ ended) bs.

Definition ref_read_selected_context (ctx : NotebookContext) (nid : string)
    (run_id studio_job_id : option string) : St NotebookSelectedContext :=
  guard (bool_decide (run_id = None) && bool_decide (studio_job_id = None))
    (NotebookError "NOTEBOOK_NOT_FOUND" 404) ;;
  let scope := scope_of ctx nid in
  notebook_at scope ;;
  ended <- terminations_at scope ;;
  bs <- bindings_at scope ;;
  ret (selected_context nid (live_bindings ended bs) None 1).

Definition source_bound (target : string * string) (bs : list NotebookBinding) : bool :=
  existsb (λ b, String.eqb (bi_binding_kind b) "source" &&
    bool_decide ((bi_record_id b, bi_version_id b) = (target.1, Some target.2))) bs.

Definition ref_unbind_source (ctx : NotebookContext) (nid source version etag key fp : string)
    (now : Z) : St (NotebookBindingChangeView * bool) :=
  let scope := scope_of ctx nid in
  replay <- replayed unbind_idempotency (idem_scope ctx key) fp ;;
  match replay with
  | Some view => ret (view, true)
  | None =>
      notebook_at scope ;;
      let target := (source, version) in
      bs <- bindings_at scope ;;
      ended <- terminations_at scope ;;
      guard (source_bound target bs && bool_decide (target ∉ ended))
        (NotebookError "NOTEBOOK_BINDING_NOT_FOUND" 404) ;;
      let current := 1 + Z.of_nat (size ended) in
      guard (String.eqb etag (binding_etag current))
        (NotebookError "NOTEBOOK_BINDING_ETAG_MISMATCH" 412) ;;
      modify (λ s, set_binding_terminations (<[scope := {[target]} ∪ ended]> (binding_terminations s)) s) ;;
      let view := mkChange nid source version "unbound" (binding_etag (current + 1)) in
      modify (λ s, set_unbind_idempotency
        (<[idem_scope ctx key := (fp, view)]> (unbind_idempotency s)) s) ;;
      add_activity ctx nid "context_unbound" now ;;
      ret (view, false)
  end.

Definition deletion_id (ctx : NotebookContext) (nid key : string) : string :=
  "notebook-deletion-" +:+ String.substring 0 32 (sha256_hex (encode
    (ctx_tenant_id ctx +:+ "|" +:+ ctx_workspace_id ctx +:+ "|" +:+ nid +:+ "|" +:+ key))).

(** A deletion of the notebook is under way. *)
Definition deletion_in_progress (scope : Scope) (s : Repo) : bool :=
  match deletions s !! scope with
  | Some (_, v) => bool_decide (nd_state v ∈ ["accepted"; "deleting"])
  | None => false
  end.

Definition ref_request_deletion (ctx : NotebookContext) (nid title_confirmation etag key fp : string)
    (now : Z) : St (NotebookDeletionView * bool) :=
  let scope := scope_of ctx nid in
  replay <- replayed deletion_idempotency (idem_scope ctx key) fp ;;
  match replay with
  | Some view => ret (view, true)
  | None =>
      notebook_at scope ;;
      current <- current_metadata scope ;;
      guard (String.eqb (md_title current) title_confirmation)
        (NotebookError "NOTEBOOK_TITLE_CONFIRMATION_MISMATCH" 409) ;;
      guard (String.eqb etag (notebook_etag (md_version current)))
        (NotebookError "NOTEBOOK_ETAG_MISMATCH" 412) ;;
      busy <- gets (deletion_in_progress scope) ;;
      guard (negb busy) (NotebookError "NOTEBOOK_DELETION_IN_PROGRESS" 409) ;;
      let view := mkDeletion (deletion_id ctx nid key) nid "accepted" "accepted" 0 None now None in
      modify (λ s, set_deletions (<[scope := (fp, view)]> (deletions s)) s) ;;
      modify (λ s, set_deletion_idempotency
        (<[idem_scope ctx key := (fp, view)]> (deletion_idempotency s)) s) ;;
      ret (view, false)
  end.

Definition ref_get_deletion (ctx : NotebookContext) (nid rid : string) : St NotebookDeletionView :=
  let scope := scope_of ctx nid in
  notebook_at scope ;;
  item <- gets (λ s, deletions s !! scope) ;;
  item <- from_option item (NotebookError "NOTEBOOK_DELETION_NOT_FOUND" 404) ;;
  guard (String.eqb (nd_request_id item.2) rid) (NotebookError "NOTEBOOK_DELETION_NOT_FOUND" 404) ;;
  ret item.2.

#[export] Instance reference_repository : NotebookRepository Repo := {|
  creation_license_authoritative := false;
  repo_create := ref_create;
  repo_list := ref_list;
  repo_get := ref_get;
  repo_update_title := ref_update_title;
  repo_bind_verified := ref_bind_verified;
  repo_read_selected_context := ref_read_selected_context;
  repo_unbind_source := ref_unbind_source;
  repo_request_deletion := ref_request_deletion;
  repo_get_deletion := ref_get_deletion;
|}.
End Reference.

(** ** NotebookService *)

Section Service.
Context {D : Digest} {W : World} {U : Unicode} {T : Type} {Dr : Drawing T}
  {R : NotebookRepository T}.
(** [require_create], the licence check, when there is one. *)
Context (require_create : option (NotebookContext → M T unit)).
Abbreviation St := (M T).

Definition scope_members (ctx : NotebookContext) : list (string * json) :=
  [("tenant_id", JStr (ctx_tenant_id ctx)); ("workspace_id", JStr (ctx_workspace_id ctx))].

Definition create_fingerprint (ctx : NotebookContext) (title : string) (description : option string)
    : string :=
  nb_fingerprint (scope_members ctx ++ [("actor_id", JStr (ctx_actor_id ctx));
    ("title", JStr title); ("description", JOpt description)]).

Definition create (ctx : NotebookContext) (title description key : pyobj)
    : St (NotebookHomeView * bool) :=
  title <- canonical_text "TITLE" 1 120 title ;;
  description <- canonical_description description ;;
  key <- idempotency_key key ;;
  let fp := create_fingerprint ctx title description in
  match require_create with
  | Some check => when (negb creation_license_authoritative) (check ctx)
  | None => ret tt
  end ;;
  now <- clock ;;
  repo_create ctx title description key fp now.

Definition list_notebooks (ctx : NotebookContext) : St (list NotebookHomeView) := repo_list ctx.

Definition get (ctx : NotebookContext) (nid : pyobj) : St NotebookHomeView :=
  nid <- known_id nid ;;
  repo_get ctx nid.

Definition title_fingerprint (ctx : NotebookContext) (nid title etag : string) : string :=
  nb_fingerprint (scope_members ctx ++ [("actor_id", JStr (ctx_actor_id ctx));
    ("notebook_id", JStr nid); ("title", JStr title); ("expected_etag", JStr etag)]).

Definition update_title (ctx : NotebookContext) (nid title etag key : pyobj)
    : St (NotebookHomeView * bool) :=
  nid <- known_id nid ;;
  title <- canonical_text "TITLE" 1 120 title ;;
  etag <- etag_arg "notebook" (NotebookError "NOTEBOOK_ETAG_INVALID" 400) etag ;;
  key <- idempotency_key key ;;
  let fp := title_fingerprint ctx nid title etag in
  now <- clock ;;
  repo_update_title ctx nid title etag key fp now.

Definition request_deletion (ctx : NotebookContext) (nid title etag key : pyobj)
    : St (NotebookDeletionView * bool) :=
  nid <- binding "NOTEBOOK_ID" nid ;;
  title <- canonical_text "TITLE_CONFIRMATION" 1 120 title ;;
  etag <- etag_arg "notebook" (NotebookError "NOTEBOOK_ETAG_INVALID" 400) etag ;;
  key <- idempotency_key key ;;
  let fp := nb_fingerprint (scope_members ctx ++ [("actor_id", JStr (ctx_actor_id ctx));
    ("notebook_id", JStr nid); ("title_confirmation", JStr title); ("expected_etag", JStr etag)]) in
  now <- clock ;;
  repo_request_deletion ctx nid title etag key fp now.

Definition get_deletion (ctx : NotebookContext) (nid rid : pyobj) : St NotebookDeletionView :=
  nid <- binding "NOTEBOOK_ID" nid ;;
  rid <- binding "REQUEST_ID" rid ;;
  repo_get_deletion ctx nid rid.

Definition bind_verified (ctx : NotebookContext) (nid kind record version : pyobj) : St bool :=
  nid <- binding "NOTEBOOK_ID" nid ;;
  values <- binding_values kind record version ;;
  now <- clock ;;
  let '(kind, record, version) := values in
  repo_bind_verified ctx nid kind record version now.

(** [run_id] or [studio_job_id] as the repository takes it. *)
Definition selector (value : pyobj) : St (option string) :=
  match value with
  | PyNone => ret None
  | _ => s <- from_option (match value with PyStr s => if safe_id s then Some s else None | _ => None end)
           (NotebookError "INVALID_REQUEST" 400) ;;
         ret (Some s)
  end.

Definition read_selected_context (ctx : NotebookContext) (nid run_id studio_job_id : pyobj)
    : St NotebookSelectedContext :=
  nid <- binding "NOTEBOOK_ID" nid ;;
  guard (bool_decide (run_id = PyNone) || bool_decide (studio_job_id = PyNone))
    (NotebookError "INVALID_REQUEST" 400) ;;
  run <- selector run_id ;;
  job <- selector studio_job_id ;;
  repo_read_selected_context ctx nid run job.

(** [_conversation_method] and the five methods that look one up by name, on a
    repository that has none. *)
Definition conversation_unavailable {A} (nid : pyobj) : St A :=
  binding "NOTEBOOK_ID" nid ;;
  raise (NotebookError "NOTEBOOK_CONVERSATION_UNAVAILABLE" 503).

Definition unbind_fingerprint (ctx : NotebookContext) (nid source version etag : string) : string :=
  nb_fingerprint (scope_members ctx ++ [("notebook_id", JStr nid); ("source_id", JStr source);
    ("source_version_id", JStr version); ("expected_etag", JStr etag)]).

Definition unbind_source (ctx : NotebookContext) (nid source version etag key : pyobj)
    : St (NotebookBindingChangeView * bool) :=
  nid <- binding "NOTEBOOK_ID" nid ;;
  source <- binding "RECORD_ID" source ;;
  version <- binding "VERSION_ID" version ;;
  etag <- etag_arg "notebook-binding" (NotebookError "NOTEBOOK_BINDING_ETAG_INVALID" 400) etag ;;
  key <- idempotency_key key ;;
  let fp := unbind_fingerprint ctx nid source version etag in
  now <- clock ;;
  repo_unbind_source ctx nid source version etag key fp now.

Definition available (c : NotebookSelectedContext) : list (string * string * option string) :=
  map (λ sv, ("source", sv.1, Some sv.2)) (sc_sources c) ++
  map (λ v, ("knowledge_context", v, None)) (sc_knowledge_context_ids c) ++
  map (λ v, ("conversation_thread", v, None)) (sc_conversation_thread_ids c) ++
  map (λ v, ("studio_output", v, None)) (sc_studio_output_ids c) ++
  map (λ v, ("output_version", v, None)) (sc_output_version_ids c) ++
  map (λ v, ("generation_settings", v, None)) (sc_generation_settings_ids c).

Definition require_selected_bindings (ctx : NotebookContext) (nid : pyobj)
    (required : list (pyobj * pyobj * pyobj)) : St NotebookSelectedContext :=
  nid <- binding "NOTEBOOK_ID" nid ;;
  selected <- repo_read_selected_context ctx nid None None ;;
  expected <- mfold required (λ acc r,
    v <- binding_values r.1.1 r.1.2 r.2 ;; ret (acc ++ [v])) [] ;;
  guard (forallb (λ v, bool_decide (v ∈ available selected)) expected)
    (NotebookError "NOTEBOOK_SCOPE_MISMATCH" 409) ;;
  ret selected.
End Service.

(** ** What reaches the repository *)

Section Canonical.
Context {U : Unicode} {T : Type}.

Definition valid_title (t : string) : Prop := (1 <= String.length t <= 120)%nat.
Definition valid_description (d : option string) : Prop :=
  match d with Some t => (1 <= String.length t <= 500)%nat | None => True end.
(** A source has a version and nothing else has. *)
Definition valid_target (kind record : string) (version : option string) : Prop :=
  (kind ∈ BINDING_KINDS) ∧ safe_id record = true ∧
  match version with
  | Some v => kind = "source" ∧ safe_id v = true
  | None => kind ≠ "source"
  end.

Lemma wp_canonical_text field lo hi v (Q : outcome string → T → Prop) s :
  (∀ t, (lo <= String.length t <= hi)%nat → Q (Ret t) s) → (∀ e, Q (Raise e) s) →
  wp (canonical_text field lo hi v) Q s.
Proof.
  intros HR HE. unfold canonical_text. wp_run; auto. apply HR.
  match goal with H : _ && _ = true |- _ => apply andb_true_iff in H as [?%Nat.leb_le ?%Nat.leb_le] end.
  done.
Qed.

Lemma wp_canonical_description v (Q : outcome (option string) → T → Prop) s :
  (∀ d, valid_description d → Q (Ret d) s) → (∀ e, Q (Raise e) s) →
  wp (canonical_description v) Q s.
Proof.
  intros HR HE. unfold canonical_description.
  enough (wp (normalized <- canonical_text "DESCRIPTION" 0 500 v ;;
      ret (if String.eqb normalized "" then None else Some normalized)) Q s).
  { destruct v; try done. by apply HR. }
  apply wp_bind, wp_canonical_text; [intros t Ht|intros; apply HE]. apply wp_ret, HR.
  destruct (String.eqb_spec t "") as [->|Hne]; [done|]. destruct t; simpl in *; [done|lia].
Qed.

(** An argument that a pattern accepted. *)
Lemma wp_checked (p : string → bool) e v (Q : outcome string → T → Prop) s :
  (∀ t, v = PyStr t → p t = true → Q (Ret t) s) → (∀ e, Q (Raise e) s) →
  wp (from_option (match v with PyStr t => if p t then Some t else None | _ => None end) e) Q s.
Proof. intros HR HE. destruct v; wp_run; simplify_option_eq; auto. case_match; simplify_eq; auto. Qed.

Lemma wp_binding_values k r v (Q : outcome (string * string * option string) → T → Prop) s :
  (∀ kind record version, valid_target kind record version → Q (Ret (kind, record, version)) s) →
  (∀ e, Q (Raise e) s) →
  wp (binding_values k r v) Q s.
Proof.
  intros HR HE. unfold binding_values, binding. apply wp_bind.
  apply (wp_checked (λ s, bool_decide (s ∈ BINDING_KINDS))); [intros kind -> Hk|intros; apply HE].
  bools. apply wp_bind, wp_checked; [intros record -> Hrec|intros; apply HE].
  destruct (String.eqb_spec kind "source") as [->|Hne].
  - apply wp_bind, wp_checked; [intros version -> Hv|intros; apply HE]. by apply wp_ret, HR.
  - wp_run; auto. by apply HR.
Qed.
End Canonical.

(** [I] is kept by every operation of the repository on the arguments the
    service lets through. *)
Record RepositoryKeeps {T} {Dr : Drawing T} (R : NotebookRepository T) (I : T → Prop) : Prop := {
  keeps_draws : ∀ d s, I s → I (with_draws d s);
  keeps_create : ∀ ctx title d key fp now, valid_title title → valid_description d →
    key_ok key = true → preserves I (repo_create ctx title d key fp now);
  keeps_list : ∀ ctx, preserves I (repo_list ctx);
  keeps_get : ∀ ctx nid, preserves I (repo_get ctx nid);
  keeps_update : ∀ ctx nid title etag key fp now, valid_title title → key_ok key = true →
    etag_ok "notebook" etag = true → preserves I (repo_update_title ctx nid title etag key fp now);
  keeps_bind : ∀ ctx nid kind record version now, valid_target kind record version →
    preserves I (repo_bind_verified ctx nid kind record version now);
  keeps_read : ∀ ctx nid run job, preserves I (repo_read_selected_context ctx nid run job);
  keeps_unbind : ∀ ctx nid source version etag key fp now, safe_id source = true →
    safe_id version = true → key_ok key = true →
    preserves I (repo_unbind_source ctx nid source version etag key fp now);
  keeps_deletion : ∀ ctx nid title etag key fp now, key_ok key = true →
    preserves I (repo_request_deletion ctx nid title etag key fp now);
  keeps_get_deletion : ∀ ctx nid rid, preserves I (repo_get_deletion ctx nid rid)
}.

Ltac nb_step :=
  lazymatch goal with
  | |- wp (canonical_text _ _ _ _) _ _ => apply wp_canonical_text; [intros ? ?|intros ?]
  | |- wp (canonical_description _) _ _ => apply wp_canonical_description; [intros ? ?|intros ?]
  | |- wp (binding_values _ _ _) _ _ => apply wp_binding_values; [intros ? ? ? ?|intros ?]
  | |- wp (idempotency_key _) _ _ => apply wp_checked; [intros ? ? ?|intros ?]
  | |- wp (binding _ _) _ _ => apply wp_checked; [intros ? ? ?|intros ?]
  | |- wp (known_id _) _ _ => apply wp_checked; [intros ? ? ?|intros ?]
  | |- wp (etag_arg _ _ _) _ _ => apply wp_checked; [intros ? ? ?|intros ?]
  | _ => wp_step
  end; cbn beta iota.
Ltac nb_run := repeat nb_step.

Section ServiceKeeps.
Context {D : Digest} {W : World} {U : Unicode} {T : Type} {Dr : Drawing T}
  {R : NotebookRepository T} (require_create : option (NotebookContext → M T unit)).

(** One call of the service by [ctx], with any arguments. *)
Inductive step_by (ctx : NotebookContext) (s : T) : T → Prop :=
| step_create title d key : step_by ctx s (final (create require_create ctx title d key) s)
| step_list : step_by ctx s (final (list_notebooks ctx) s)
| step_get nid : step_by ctx s (final (get ctx nid) s)
| step_update nid title etag key : step_by ctx s (final (update_title ctx nid title etag key) s)
| step_bind nid k r v : step_by ctx s (final (bind_verified ctx nid k r v) s)
| step_read nid run job : step_by ctx s (final (read_selected_context ctx nid run job) s)
| step_unbind nid source version etag key :
    step_by ctx s (final (unbind_source ctx nid source version etag key) s)
| step_require nid required : step_by ctx s (final (require_selected_bindings ctx nid required) s)
| step_deletion nid title etag key :
    step_by ctx s (final (request_deletion ctx nid title etag key) s)
| step_get_deletion nid rid : step_by ctx s (final (get_deletion ctx nid rid) s).

Definition step (s s' : T) : Prop := ∃ ctx, step_by ctx s s'.

Context (I : T → Prop) (HR : RepositoryKeeps R I)
  (check_keeps : ∀ f ctx, require_create = Some f → preserves I (f ctx)).

Lemma preserves_selector v (s : T) : wp (selector v) (λ _ s', s' = s) s.
Proof. unfold selector. destruct v; nb_run; try done. Qed.

Lemma create_keeps ctx title d key s :
  I s → wp (create require_create ctx title d key) (λ _, I) s.
Proof.
  intros Hs. pose proof (keeps_draws _ _ HR). pose proof (keeps_create _ _ HR).
  unfold create. nb_run; auto; try (apply keeps_create; auto; done).
  eapply wp_mono; [|by eapply check_keeps]. intros [[]|e] t' Ht; [|done].
  nb_run. apply keeps_create; auto.
Qed.

(** Whatever the repository behind the interface, an invariant that its
    operations keep on canonical arguments (titles of 1 to 120 characters,
    identifiers and keys that match their patterns, versions exactly for
    sources) is kept by every call of the service, with any arguments. *)
Theorem service_keeps ctx s s' : step_by ctx s s' → I s → I s'.
Proof.
  intros Hstep Hs. destruct HR. destruct Hstep.
  - apply create_keeps; auto.
  - by apply keeps_list0.
  - enough (wp (get ctx nid) (λ _, I) s) by done. unfold get. nb_run; auto. by apply keeps_get0.
  - enough (wp (update_title ctx nid title etag key) (λ _, I) s) by done.
    unfold update_title. nb_run; auto. by apply keeps_update0; auto.
  - enough (wp (bind_verified ctx nid k r v) (λ _, I) s) by done.
    unfold bind_verified. nb_run; auto. by apply keeps_bind0; auto.
  - enough (wp (read_selected_context ctx nid run job) (λ _, I) s) by done.
    unfold read_selected_context. nb_run; auto.
    eapply wp_mono; [|apply preserves_selector]. intros [run'|e] t1 ->; [|done].
    apply wp_bind. eapply wp_mono; [|apply preserves_selector]. intros [job'|e] t2 ->; [|done].
    by apply keeps_read0.
  - enough (wp (unbind_source ctx nid source version etag key) (λ _, I) s) by done.
    unfold unbind_source. nb_run; auto. by apply keeps_unbind0; auto.
  - enough (wp (require_selected_bindings ctx nid required) (λ _, I) s) by done.
    unfold require_selected_bindings. nb_run; auto.
    eapply wp_mono; [|by apply keeps_read0]. intros [c|e] t1 Ht; [|done].
    apply wp_bind. apply (wp_mfold (λ _, I) (λ _, I)); [done| |by intros; nb_run|done].
    intros acc x u _ Hu. by nb_run.
  - enough (wp (request_deletion ctx nid title etag key) (λ _, I) s) by done.
    unfold request_deletion. nb_run; auto. by apply keeps_deletion0; auto.
  - enough (wp (get_deletion ctx nid rid) (λ _, I) s) by done.
    unfold get_deletion. nb_run; auto. by apply keeps_get_deletion0.
Qed.
End ServiceKeeps.

(** ** The reference repository keeps its tables together *)

Section ReferenceKeeps.
Context {D : Digest}.

(** The tables of one notebook: versions count up from 1, every binding is the
    notebook's own, verified and listed once, only bound sources have been
    ended, and one activity was recorded per change of the bindings. *)
Record tables_ok (targets : gset (string * string * option string)) (scope : Scope)
    (ms : list Metadata) (bs : list NotebookBinding) (ts : gset (string * string))
    (acts : list NotebookActivity) : Prop := {
  to_history : ms ≠ [] ∧ ∀ i m, ms !! i = Some m → md_version m = Z.of_nat i + 1 ∧ valid_title (md_title m);
  to_distinct : NoDup bs;
  to_bindings : ∀ b, b ∈ bs →
    (bi_tenant_id b, bi_workspace_id b, bi_notebook_id b) = scope ∧
    ((bi_binding_kind b, bi_record_id b, bi_version_id b) ∈ targets) ∧
    valid_target (bi_binding_kind b) (bi_record_id b) (bi_version_id b);
  to_ended : ∀ t, t ∈ ts → source_bound t bs = true;
  to_activities : length acts = (1 + length bs + size ts)%nat
}.

Definition notebook_ok (s : Repo) (scope : Scope) (n : Notebook) : Prop :=
  (nb_tenant_id n, nb_workspace_id n, nb_notebook_id n) = scope ∧
  ∃ ms bs ts acts, metadata s !! scope = Some ms ∧ bindings s !! scope = Some bs ∧
    binding_terminations s !! scope = Some ts ∧ activities s !! scope = Some acts ∧
    tables_ok (binding_targets s) scope ms bs ts acts.

Definition wf (s : Repo) : Prop := map_Forall (notebook_ok s) (notebooks s).

(** A change of the tables of one notebook. *)
Lemma wf_change s s' scope :
  wf s → binding_targets s' = binding_targets s →
  (∀ k, k ≠ scope → notebooks s' !! k = notebooks s !! k ∧ metadata s' !! k = metadata s !! k ∧
     bindings s' !! k = bindings s !! k ∧
     binding_terminations s' !! k = binding_terminations s !! k ∧
     activities s' !! k = activities s !! k) →
  (∀ n, notebooks s' !! scope = Some n → notebook_ok s' scope n) → wf s'.
Proof.
  intros Hs Ht Hother Hscope k n Hk. destruct (decide (k = scope)) as [->|Hne]; [by apply Hscope|].
  destruct (Hother k Hne) as (En & Em & Eb & Et & Ea). rewrite En in Hk.
  destruct (Hs _ _ Hk) as (Hid & ms & bs & ts & acts & Hm & Hb & Hts & Ha & Hok).
  split; [done|]. exists ms, bs, ts, acts. rewrite Em, Eb, Et, Ea, Ht. done.
Qed.

Lemma tables_ok_new targets scope m act :
  md_version m = 1 → valid_title (md_title m) → tables_ok targets scope [m] [] ∅ [act].
Proof.
  intros Hv Ht. constructor.
  - split; [done|]. intros i m' [-> <-]%list_lookup_singleton_Some. done.
  - constructor.
  - intros b Hb. set_solver.
  - intros t Ht'. set_solver.
  - done.
Qed.

Lemma tables_ok_title targets scope ms bs ts acts m cur :
  tables_ok targets scope ms bs ts acts → last ms = Some cur →
  md_version m = md_version cur + 1 → valid_title (md_title m) →
  tables_ok targets scope (ms ++ [m]) bs ts acts.
Proof.
  intros [[Hne Hh] Hd Hb He Ha] Hl Hv Ht. constructor; try done. split; [by destruct ms|].
  intros i m' [Hi|[Hi Hm]]%lookup_app_Some; [by apply Hh|].
  apply list_lookup_singleton_Some in Hm as [Hi' <-]. split; [|done].
  rewrite last_lookup in Hl. apply Hh in Hl as [Hcur _]. rewrite Hv, Hcur.
  destruct ms; [done|]. simpl in *. lia.
Qed.

Lemma source_bound_app t bs bs' : source_bound t bs = true → source_bound t (bs ++ bs') = true.
Proof. unfold source_bound. rewrite existsb_app. by intros ->. Qed.

Lemma tables_ok_bind targets scope ms bs ts acts b act :
  tables_ok targets scope ms bs ts acts → b ∉ bs →
  (bi_tenant_id b, bi_workspace_id b, bi_notebook_id b) = scope →
  (bi_binding_kind b, bi_record_id b, bi_version_id b) ∈ targets →
  valid_target (bi_binding_kind b) (bi_record_id b) (bi_version_id b) →
  tables_ok targets scope ms (bs ++ [b]) ts (acts ++ [act]).
Proof.
  intros [Hh Hd Hb He Ha] Hnew Hs Ht Hv. constructor; [done| | | |].
  - apply NoDup_app. split_and!; [done| |apply NoDup_singleton].
    intros x Hx ->%list_elem_of_singleton. done.
  - intros b' [Hb'| ->%list_elem_of_singleton]%elem_of_app; [by apply Hb|done].
  - intros t Ht'. by apply source_bound_app, He.
  - rewrite !length_app. simpl. lia.
Qed.

Lemma tables_ok_unbind targets scope ms bs ts acts t act :
  tables_ok targets scope ms bs ts acts → source_bound t bs = true → t ∉ ts →
  tables_ok targets scope ms bs ({[t]} ∪ ts) (acts ++ [act]).
Proof.
  intros [Hh Hd Hb He Ha] Hbound Hnew. constructor; [done..| |].
  - intros t' [->%elem_of_singleton|Ht']%elem_of_union; [done|by apply He].
  - rewrite length_app, size_union, size_singleton by set_solver. simpl. lia.
Qed.

Ltac rf_step :=
  lazymatch goal with
  | |- wp (replayed _ _ _) _ _ => unfold replayed
  | |- wp (notebook_at _) _ _ => unfold notebook_at
  | |- wp (current_metadata _) _ _ => unfold current_metadata
  | |- wp (bindings_at _) _ _ => unfold bindings_at
  | |- wp (terminations_at _) _ _ => unfold terminations_at
  | |- wp (add_activity _ _ _ _) _ _ => unfold add_activity
  | _ => nb_step
  end; cbn beta iota.
Ltac rf_run := repeat rf_step.

(** The tables of an existing notebook. *)
Ltac tables Hs :=
  match goal with H : notebooks ?s !! ?scope = Some ?n |- _ =>
    destruct (Hs _ _ H) as (? & ms & bs & ts & acts & Hms & Hbs & Hts & Hacts & Hok)
  end.

(** Elsewhere nothing changed. *)
Ltac elsewhere := intros k Hk; simpl; rewrite ?lookup_insert_ne by congruence; done.

Lemma ref_create_wf ctx title d key fp now :
  valid_title title → preserves wf (ref_create ctx title d key fp now).
Proof.
  intros Ht s Hs. unfold ref_create. rf_run; try done.
  apply (wf_change s _ (scope_of ctx (new_notebook_id ctx key))); [done|done|elsewhere|].
  intros n. simpl. rewrite lookup_insert_eq. intros [= <-]. split; [done|].
  eexists _, _, _, _. simpl. rewrite !lookup_insert_eq. split_and!; [done..|].
  by apply tables_ok_new.
Qed.

Lemma ref_update_wf ctx nid title etag key fp now :
  valid_title title → preserves wf (ref_update_title ctx nid title etag key fp now).
Proof.
  intros Ht s Hs. unfold ref_update_title. rf_run; try done.
  tables Hs. simplify_eq.
  apply (wf_change s _ (scope_of ctx nid)); [done|done|elsewhere|].
  intros n'. simpl. intros Hn'. simplify_eq. split; [done|].
  match goal with H : metadata s !! _ = Some _ |- _ => rename H into Hcur end.
  eexists _, bs, ts, acts. simpl. rewrite lookup_insert_eq, Hcur. split_and!; [done..|].
  by eapply tables_ok_title.
Qed.

Lemma ref_bind_wf ctx nid kind record version now :
  valid_target kind record version → preserves wf (ref_bind_verified ctx nid kind record version now).
Proof.
  intros Ht s Hs. unfold ref_bind_verified. rf_run; try done.
  all: tables Hs; simpl in *; simplify_eq; bools.
  apply (wf_change s _ (scope_of ctx nid)); [done|done|elsewhere|].
  intros n'. simpl. intros Hn'. simplify_eq. split; [done|].
  eexists ms, _, ts, _. simpl. rewrite !lookup_insert_eq. split_and!; [done..|].
  by apply tables_ok_bind.
Qed.

Lemma ref_unbind_wf ctx nid source version etag key fp now :
  preserves wf (ref_unbind_source ctx nid source version etag key fp now).
Proof.
  intros s Hs. unfold ref_unbind_source. rf_run; try done.
  all: tables Hs; simpl in *; simplify_eq; bools.
  apply (wf_change s _ (scope_of ctx nid)); [done|done|elsewhere|].
  intros n'. simpl. intros Hn'. simplify_eq. split; [done|].
  eexists ms, _, _, _. simpl. rewrite !lookup_insert_eq. split_and!; [done..|].
  by apply tables_ok_unbind.
Qed.

Lemma readonly_ref_list ctx : readonly (ref_list ctx).
Proof.
  intros s. unfold ref_list. enough (wp (ref_list ctx) (λ _ s', s' = s) s) by done.
  unfold ref_list. rf_run. apply (wp_mfold (λ _ s', s' = s) (λ _ s', s' = s)); [done| | |done].
  - intros acc kv t _ ->. by rf_run.
  - intros acc t ->. by rf_run.
Qed.

Lemma reference_keeps_wf : RepositoryKeeps reference_repository wf.
Proof.
  constructor; simpl.
  - done.
  - intros. by apply ref_create_wf.
  - intros. apply readonly_preserves, readonly_ref_list.
  - intros ctx nid s Hs. unfold ref_get. by rf_run.
  - intros. by apply ref_update_wf.
  - intros. by apply ref_bind_wf.
  - intros ctx nid run job s Hs. unfold ref_read_selected_context. by rf_run.
  - intros. apply ref_unbind_wf.
  - intros ctx nid title etag key fp now _ s Hs. unfold ref_request_deletion. by rf_run.
  - intros ctx nid rid s Hs. unfold ref_get_deletion. by rf_run.
Qed.
End ReferenceKeeps.

Section ReferenceReachable.
Context {D : Digest} {W : World} {U : Unicode}
  (require_create : option (NotebookContext → M Repo unit))
  (check_pure : ∀ f ctx, require_create = Some f → readonly (f ctx)).

Definition reachable (targets : gset (string * string * option string)) (s : Repo) : Prop :=
  rtc (step require_create) (empty_repo targets) s.

(** In every reachable store every notebook has all its tables, its
    metadata versions count up from 1 under titles of 1 to 120 characters, its
    bindings are distinct, verified and its own, only bound sources have been
    ended, and there is one activity per change. *)
Theorem notebooks_wf targets s : reachable targets s → map_Forall (notebook_ok s) (notebooks s).
Proof.
  intros Hr. apply (rtc_invariant _ wf) in Hr; [exact Hr| |apply map_Forall_empty].
  intros x y Hx [ctx Hstep]. eapply (service_keeps require_create wf reference_keeps_wf); eauto.
  intros f ctx' Hf. by apply readonly_preserves, check_pure.
Qed.
End ReferenceReachable.

(** ** Concurrent changes of a title *)

#[local] Arguments notebook_etag : simpl never.
#[local] Arguments binding_etag : simpl never.
#[local] Arguments String.eqb : simpl never.
#[local] Arguments Z.add : simpl never.

Section Races.
Context {D : Digest}.

Lemma notebook_etag_inj m n : notebook_etag m = notebook_etag n → m = n.
Proof. intros H%dquoted_inj%string_app_inv_l. by apply str_int_inj. Qed.

Lemma binding_etag_inj m n : binding_etag m = binding_etag n → m = n.
Proof. intros H%dquoted_inj%string_app_inv_l. by apply str_int_inj. Qed.

(** What an accepted change of a title does. *)
Lemma update_title_result ctx nid title etag key fp now s :
  wp (ref_update_title ctx nid title etag key fp now) (λ o s', match o with
    | Ret (v, false) =>
        ∃ n ms cur, notebooks s !! scope_of ctx nid = Some n ∧
          metadata s !! scope_of ctx nid = Some ms ∧ last ms = Some cur ∧
          etag = notebook_etag (md_version cur) ∧
          v = home_view n (mkMetadata (md_version cur + 1) title (md_description cur) now
                             (ctx_actor_id ctx)) ∧
          s' = set_idempotency (<[idem_scope ctx key := (fp, v)]> (idempotency s))
                 (set_metadata (<[scope_of ctx nid := ms ++
                    [mkMetadata (md_version cur + 1) title (md_description cur) now
                       (ctx_actor_id ctx)]]> (metadata s)) s)
    | _ => s' = s
    end) s.
Proof.
  unfold ref_update_title, replayed, notebook_at, current_metadata. nb_run; try done.
  bools. subst. eexists _, _, _. split_and!; try done. simpl. by simplify_option_eq.
Qed.

(** No title change is lost.  When a change is accepted, exactly one
    version was appended, with the new title and the next number; a second
    change made for the same entity tag, by anyone in the workspace and under
    another key, is refused with 412 and changes nothing; and the first call
    repeated returns its answer again. *)
Theorem title_update_race ctx nid title etag key fp now s v ctx' title' key' fp' now' now'' :
  result (ref_update_title ctx nid title etag key fp now) s = Ret (v, false) →
  scope_of ctx' nid = scope_of ctx nid → idem_scope ctx' key' ≠ idem_scope ctx key →
  idempotency s !! idem_scope ctx' key' = None →
  let s' := final (ref_update_title ctx nid title etag key fp now) s in
  (∃ ms m, metadata s !! scope_of ctx nid = Some ms ∧
     metadata s' !! scope_of ctx nid = Some (ms ++ [m]) ∧ md_title m = title ∧
     hv_etag v = notebook_etag (md_version m) ∧
     ∃ cur, last ms = Some cur ∧ md_version m = md_version cur + 1) ∧
  ref_update_title ctx' nid title' etag key' fp' now' s' =
    (s', Raise (NotebookError "NOTEBOOK_ETAG_MISMATCH" 412)) ∧
  ref_update_title ctx nid title etag key fp now'' s' = (s', Ret (v, true)).
Proof.
  intros Hret Hscope Hne Hkey. cbv zeta.
  pose proof (update_title_result ctx nid title etag key fp now s) as H. unfold wp in H.
  rewrite Hret in H. destruct H as (n & ms & cur & Hn & Hms & Hcur & -> & -> & ->).
  split_and!.
  - eexists ms, _. simpl. rewrite lookup_insert_eq. split_and!; try done. by exists cur.
  - unfold ref_update_title, replayed, notebook_at, current_metadata, bind, gets. simpl.
    rewrite lookup_insert_ne by done. rewrite Hkey. simpl. rewrite Hscope, Hn. simpl.
    rewrite lookup_insert_eq. simpl. rewrite last_snoc. simpl.
    destruct (String.eqb_spec (notebook_etag (md_version cur)) (notebook_etag (md_version cur + 1)))
      as [E|]; [|done].
    apply notebook_etag_inj in E. lia.
  - unfold ref_update_title, replayed, bind, gets. simpl. rewrite lookup_insert_eq. simpl.
    by rewrite String.eqb_refl.
Qed.
End Races.

(** ** Ended sources *)

Section Ended.
Context {D : Digest} {W : World} {U : Unicode}
  (require_create : option (NotebookContext → M Repo unit))
  (check_pure : ∀ f ctx, require_create = Some f → readonly (f ctx)).

Lemma elem_of_sources x bs :
  x ∈ sources_of bs ↔
  ∃ b, b ∈ bs ∧ bi_binding_kind b = "source" ∧ bi_record_id b = x.1 ∧ bi_version_id b = Some x.2.
Proof.
  unfold sources_of. rewrite sort_stable_perm, list_elem_of_omap. split.
  - intros (b & Hb & Hx). exists b. case_decide; [|done].
    destruct (bi_version_id b) as [v|]; simplify_eq/=. done.
  - intros (b & Hb & Hk & Hr & Hv). exists b. split; [done|].
    rewrite decide_True, Hv, Hr by done. by destruct x.
Qed.

Lemma source_bound_elem t bs :
  source_bound t bs = true ↔
  ∃ b, b ∈ bs ∧ bi_binding_kind b = "source" ∧ bi_record_id b = t.1 ∧ bi_version_id b = Some t.2.
Proof.
  unfold source_bound. rewrite existsb_exists. setoid_rewrite <- list_elem_of_In. split.
  - intros (b & Hb & H). exists b. bools. by simplify_eq/=.
  - intros (b & Hb & Hk & Hr & Hv). exists b. split; [done|].
    by rewrite Hk, Hr, Hv, bool_decide_true.
Qed.

(** The sources a read shows: bound and not ended. *)
Lemma elem_of_live_sources x ended bs :
  x ∈ sources_of (live_bindings ended bs) ↔ x ∈ sources_of bs ∧ x ∉ ended.
Proof.
  rewrite !elem_of_sources. unfold live_bindings. setoid_rewrite list_elem_of_filter. split.
  - intros (b & [Hn Hb] & Hk & Hr & Hv). rewrite Hr, Hv in Hn. split; [by exists b|by destruct x].
  - intros [(b & Hb & Hk & Hr & Hv) Hn]. exists b. rewrite Hr, Hv. by destruct x.
Qed.

(** What an accepted end of a source does. *)
Lemma unbind_result ctx nid source version etag key fp now s :
  wp (ref_unbind_source ctx nid source version etag key fp now) (λ o s', match o with
    | Ret (_, false) =>
        ∃ n bs ended acts, notebooks s !! scope_of ctx nid = Some n ∧
          bindings s !! scope_of ctx nid = Some bs ∧
          binding_terminations s !! scope_of ctx nid = Some ended ∧
          source_bound (source, version) bs = true ∧ ((source, version) ∉ ended) ∧
          notebooks s' = notebooks s ∧ bindings s' = bindings s ∧
          binding_targets s' = binding_targets s ∧
          binding_terminations s' = <[scope_of ctx nid := {[(source, version)]} ∪ ended]>
            (binding_terminations s) ∧ activities s' = acts
    | Ret (_, true) => s' = s
    | Raise _ => True
    end) s.
Proof.
  unfold ref_unbind_source, replayed, notebook_at, bindings_at, terminations_at, add_activity.
  nb_run; try done. all: bools; by eexists _, _, _, _.
Qed.

(** What a plain read returns. *)
Lemma read_result ctx nid s n bs ended :
  notebooks s !! scope_of ctx nid = Some n → bindings s !! scope_of ctx nid = Some bs →
  binding_terminations s !! scope_of ctx nid = Some ended →
  ref_read_selected_context ctx nid None None s =
    (s, Ret (selected_context nid (live_bindings ended bs) None 1)).
Proof.
  intros Hn Hb Ht.
  unfold ref_read_selected_context, notebook_at, terminations_at, bindings_at, bind, gets. simpl.
  rewrite Hn. simpl. rewrite Ht. simpl. by rewrite Hb.
Qed.

(** C30: ending a source is final.  From then on a read shows the other sources
    and not this one; binding it again answers that it is bound and changes
    nothing; ending it again is refused; and the entity tag that reads give out
    is refused for every other source of the notebook. *)
Theorem unbound_source_final targets s ctx nid source version etag key fp now v ctx' :
  reachable require_create targets s →
  result (ref_unbind_source ctx nid source version etag key fp now) s = Ret (v, false) →
  scope_of ctx' nid = scope_of ctx nid →
  let s' := final (ref_unbind_source ctx nid source version etag key fp now) s in
  ∃ before after,
    ref_read_selected_context ctx' nid None None s = (s, Ret before) ∧
    ref_read_selected_context ctx' nid None None s' = (s', Ret after) ∧
    (∀ x, x ∈ sc_sources after ↔ x ∈ sc_sources before ∧ x ≠ (source, version)) ∧
    (∀ now', ref_bind_verified ctx' nid "source" source (Some version) now' s' = (s', Ret true)) ∧
    ∀ x key' fp' now', unbind_idempotency s' !! idem_scope ctx' key' = None →
      ref_unbind_source ctx' nid x.1 x.2 (sc_etag after) key' fp' now' s' =
        (s', Raise (if bool_decide (x ∈ sc_sources after)
                    then NotebookError "NOTEBOOK_BINDING_ETAG_MISMATCH" 412
                    else NotebookError "NOTEBOOK_BINDING_NOT_FOUND" 404)).
Proof.
  intros Hr Hret Hscope. cbv zeta.
  pose proof (unbind_result ctx nid source version etag key fp now s) as H. unfold wp in H.
  rewrite Hret in H. set (s' := final (ref_unbind_source _ _ _ _ _ _ _ _) s) in *.
  destruct H as (n & bs & ended & acts & Hn & Hb & He & Hbound & Hnew & Hn' & Hb' & Ht' & He' & _).
  pose proof (notebooks_wf require_create check_pure _ _ Hr _ _ Hn) as Hok.
  destruct Hok as (_ & ? & bs0 & ? & ? & _ & Hbs0 & _ & _ & Hok).
  assert (bs0 = bs) as -> by congruence.
  set (ended' := {[(source, version)]} ∪ ended) in *.
  rewrite <- Hscope in Hn, Hb, He, He'. rewrite <- Hn' in Hn. rewrite <- Hb' in Hb.
  assert (binding_terminations s' !! scope_of ctx' nid = Some ended') as He2
    by by rewrite He', lookup_insert_eq.
  eexists _, _. split; [by eapply read_result; rewrite <- ?Hn', <- ?Hb'|].
  split; [by eapply read_result|]. split_and!.
  - intros y. simpl. rewrite !elem_of_live_sources. set_solver.
  - intros now'. apply source_bound_elem in Hbound as (b & Hbs & Hk & Hrec & Hver).
    destruct (to_bindings _ _ _ _ _ _ Hok _ Hbs) as (Hs & Htarget & _).
    unfold ref_bind_verified, notebook_at, bindings_at, bind, gets. simpl. rewrite Hn. simpl.
    rewrite Ht'. rewrite Hk, Hrec, Hver in Htarget. rewrite bool_decide_true by done. simpl.
    rewrite Hb. simpl. rewrite bool_decide_true; [done|].
    rewrite <- Hscope in Hs. destruct b. simpl in *. unfold scope_of in Hs. by simplify_eq.
  - intros [r u] key' fp' now' Hkey.
    unfold ref_unbind_source, replayed, notebook_at, bindings_at, terminations_at, bind, gets. simpl.
    rewrite Hkey. simpl. rewrite Hn. simpl. rewrite Hb. simpl. rewrite He2. simpl.
    assert ((r, u) ∈ sources_of (live_bindings ended' bs) ↔
      source_bound (r, u) bs = true ∧ ((r, u) ∉ ended')) as Hiff
      by by rewrite elem_of_live_sources, elem_of_sources, source_bound_elem.
    destruct (bool_decide_reflect ((r, u) ∈ sources_of (live_bindings ended' bs))) as [Hx|Hx].
    + apply Hiff in Hx as [-> Hx]. rewrite bool_decide_true by done. simpl.
      destruct (String.eqb_spec (binding_etag 1) (binding_etag (1 + Z.of_nat (size ended'))))
        as [E|]; [|done].
      apply binding_etag_inj in E. unfold ended' in E.
      rewrite size_union, size_singleton in E by set_solver. lia.
    + destruct (source_bound (r, u) bs) eqn:Hsb; simpl; [|done].
      case_bool_decide; simpl; [|done]. by destruct Hx; apply Hiff.
Qed.
End Ended.

(** ** A concrete run *)

Module Sample.
#[local] Existing Instance checksum_digest.
#[local] Existing Instance sample_world.

(** A normal form that changes nothing. *)
#[export] Instance plain_unicode : Unicode.
Proof. by refine {| nfkc s := s |}. Defined.

Definition alice : NotebookContext :=
  mkContext "tenant-1" "workspace-1" "alice" "trace-1" "policy-1".
Definition bob : NotebookContext :=
  mkContext "tenant-1" "workspace-1" "bob" "trace-2" "policy-1".

Definition targets : gset (string * string * option string) :=
  {[("source", "source-1", Some "version-1"); ("source", "source-2", Some "version-1")]}.

Definition nid : string := new_notebook_id alice "key-0001".

(** A notebook with two sources, the first of which is ended. *)
Definition s1 : Repo :=
  final (create None alice (PyStr "  First   notes ") PyNone (PyStr "key-0001")) (empty_repo targets).
Definition s2 : Repo :=
  final (bind_verified alice (PyStr nid) (PyStr "source") (PyStr "source-1") (PyStr "version-1")) s1.
Definition s3 : Repo :=
  final (bind_verified bob (PyStr nid) (PyStr "source") (PyStr "source-2") (PyStr "version-1")) s2.

Lemma s3_reachable : reachable None targets s3.
Proof.
  eapply rtc_r; [eapply rtc_r; [eapply rtc_once|]|].
  - exists alice. apply step_create.
  - exists alice. apply step_bind.
  - exists bob. apply step_bind.
Qed.

Lemma no_check : ∀ f ctx, (None : option (NotebookContext → M Repo unit)) = Some f → readonly (f ctx).
Proof. done. Qed.

Lemma s1_title : option_map (map md_title) (metadata s1 !! scope_of alice nid) = Some ["First notes"].
Proof. by vm_compute. Qed.

Lemma retitled :
  ∃ v, result (ref_update_title alice nid "Second notes" (notebook_etag 1) "key-0002" "fp-2" 5) s3 =
    Ret (v, false).
Proof. vm_compute. eexists. reflexivity. Qed.

Lemma unbound :
  ∃ v, result (ref_unbind_source alice nid "source-1" "version-1" (binding_etag 1) "key-0003" "fp-3" 6)
    s3 = Ret (v, false).
Proof. vm_compute. eexists. reflexivity. Qed.

Lemma bob_keys_free : idempotency s3 !! idem_scope bob "key-0004" = None.
Proof. by vm_compute. Qed.
End Sample.

Section Witnesses.
Import Sample.
#[local] Existing Instance checksum_digest.
#[local] Existing Instance sample_world.

Lemma service_keeps_witness : wf s3.
Proof.
  apply (service_keeps None wf reference_keeps_wf (fun f ctx (H : None = Some f) => match H with end)
    bob s2).
  - apply step_bind.
  - apply (service_keeps None wf reference_keeps_wf (fun f ctx (H : None = Some f) => match H with end)
      alice s1); [apply step_bind|].
    apply (service_keeps None wf reference_keeps_wf (fun f ctx (H : None = Some f) => match H with end)
      alice (empty_repo targets)); [apply step_create|apply map_Forall_empty].
Defined.

Lemma notebooks_wf_witness :
  notebooks s3 !! scope_of alice nid ≠ None ∧ map_Forall (notebook_ok s3) (notebooks s3).
Proof.
  split; [by vm_compute|]. apply (notebooks_wf None no_check targets s3), s3_reachable.
Defined.

Lemma title_update_race_witness :
  let s' := final (ref_update_title alice nid "Second notes" (notebook_etag 1) "key-0002" "fp-2" 5) s3 in
  ref_update_title bob nid "Third notes" (notebook_etag 1) "key-0004" "fp-4" 6 s' =
    (s', Raise (NotebookError "NOTEBOOK_ETAG_MISMATCH" 412)).
Proof.
  destruct retitled as [v Hv].
  apply (title_update_race alice nid "Second notes" (notebook_etag 1) "key-0002" "fp-2" 5 s3 v bob
    "Third notes" "key-0004" "fp-4" 6 7 Hv); [reflexivity|discriminate|apply bob_keys_free].
Defined.

Lemma unbound_source_final_witness :
  let s' := final (ref_unbind_source alice nid "source-1" "version-1" (binding_etag 1) "key-0003"
    "fp-3" 6) s3 in
  ref_bind_verified bob nid "source" "source-1" (Some "version-1") 8 s' = (s', Ret true).
Proof.
  destruct unbound as [v Hv].
  destruct (unbound_source_final None no_check targets s3 alice nid "source-1" "version-1"
    (binding_etag 1) "key-0003" "fp-3" 6 v bob s3_reachable Hv eq_refl)
    as (before & after & _ & _ & _ & Hbind & _).
  apply Hbind.
Defined.
End Witnesses.
