(* ===== verification/License.v ===== *)
(** Product licences (license.py).

    A licence document is an RS256 envelope: the signature is verified down to
    base64, the padding and the modular power ([rsa_verify]); the claims are
    read and checked; the service applies a document under a key, reports
    views with warnings and decides whether notebooks may be created.  It runs over
    [LicenseSignatureVerifier] and [LicenseRepository]; the reference repository
    is the instance over [Repo].

    Theorems: verification is RSASSA-PKCS1-v1_5 on the integers
    ([rsa_verify_iff]); the repository refines an abstract store of licences
    ([LicenseStore], [reference_refines]); over any repository that keeps that
    promise what is on record was valid ([licences_wf]); creation is permitted
    exactly within the limits ([creation_permitted_iff]). *)

From S2P Require Import Prelude Sha256 PyStr Json Bytes.
From Stdlib Require Import NArith Ascii.
#[local] Open Scope Z_scope.

(** ** Data *)

Definition LicenseError (code : string) (status : Z) : exn := Raised code status false.

Definition DOCUMENT_INVALID : exn := LicenseError "LICENSE_DOCUMENT_INVALID" 400.
Definition SIGNATURE_INVALID : exn := LicenseError "LICENSE_SIGNATURE_INVALID" 400.
Definition PUBLIC_KEY_INVALID : exn := LicenseError "LICENSE_PUBLIC_KEY_INVALID" 503.
Definition KEY_UNAVAILABLE : exn := LicenseError "LICENSE_SIGNING_KEY_UNAVAILABLE" 503.
Definition USAGE_UNAVAILABLE : exn := LicenseError "LICENSE_USAGE_UNAVAILABLE" 503.
Definition LIMIT_REACHED : exn := LicenseError "LICENSE_RESOURCE_LIMIT_REACHED" 409.
Definition EXPIRED : exn := LicenseError "LICENSE_EXPIRED" 409.
Definition FEATURE_NOT_ALLOWED : exn := LicenseError "LICENSE_FEATURE_NOT_ALLOWED" 409.
Definition ACTION_INVALID : exn := LicenseError "LICENSE_CREATION_ACTION_INVALID" 400.
Definition KEY_REUSED : exn := LicenseError "IDEMPOTENCY_KEY_REUSED" 409.

Definition RESOURCE_CODES : list string := ["users"; "notebooks"].
Definition DEFAULT_RESOURCE_LIMITS : list (string * Z) := [("users", 1); ("notebooks", 1)].
Definition DEFAULT_FEATURES : list string := ["llm_access"].

(** The DER prefix of a SHA-256 [DigestInfo]. *)
Definition DIGEST_INFO_SHA256 : list N := from_hex "3031300d060960864801650304020105000420".

Definition ENVELOPE_KEYS : list string :=
  ["schema_version"; "key_id"; "algorithm"; "claims"; "signature"].
Definition CLAIM_KEYS : list string :=
  ["schema_version"; "license_id"; "product"; "edition"; "organization_id"; "issued_at";
   "expires_at"; "features"; "resource_limits"].

(** [_CREATION_ACTIONS]: the feature an action needs and what it may count. *)
Definition CREATION_ACTIONS : list (string * (string * list string)) :=
  [("studio.generate", ("llm_access", []));
   ("notebook.create", ("notebook_management", ["notebooks"]))].

Record LicenseContext := mkContext {
  ctx_tenant_id : string;
  ctx_workspace_id : string;
  ctx_actor_id : string;
  ctx_trace_id : string;
  ctx_policy_version : string
}.

(** [LicenseContext.__post_init__] *)
Definition context_valid (c : LicenseContext) : bool :=
  safe_id (ctx_tenant_id c) && safe_id (ctx_workspace_id c) && safe_id (ctx_actor_id c) &&
  safe_id (ctx_trace_id c) && safe_id (ctx_policy_version c).

Record RsaPublicKey := mkKey { modulus : N; exponent : N }.

(** [RsaPublicKey.__post_init__] *)
Definition key_valid (k : RsaPublicKey) : bool :=
  (2048 <=? N.size (modulus k))%N && (3 <=? exponent k)%N && N.odd (exponent k).

Record VerifiedLicense := mkLicense {
  lic_license_id : string;
  lic_product : string;
  lic_edition : string;
  lic_organization_id : string;
  lic_issued_at : Z;
  lic_expires_at : Z;
  lic_features : list string;
  lic_resource_limits : list (string * Z);
  lic_claims_digest : string;
  lic_key_id : string
}.

(** The projections [get] and [apply] return. *)
Record ResourceView := mkResource {
  rv_resource : string;
  rv_limit : Z;
  rv_used : Z;
  rv_remaining : Z;
  rv_status : string
}.

(** A warning is its code; the sentence shown with it is left out, and so is
    the ellipsis in front of the hint. *)
Record LicenseView := mkView {
  vw_product : string;
  vw_edition : option string;
  vw_license_id_hint : option string;
  vw_issued_at : option string;
  vw_expires_at : option string;
  vw_status : string;
  vw_features : list string;
  vw_resources : list ResourceView;
  vw_warning : option string;
  vw_creation_allowed : bool;
  vw_existing_read_allowed : bool;
  vw_existing_export_allowed : bool
}.

(** [set(document) == keys] *)
Definition keys_are (keys : list string) (members : list (string * json)) : bool :=
  bool_decide (list_to_set (map fst members) =@{gset string} list_to_set keys).

(** [value == 1] of a JSON value: [true] is equal to 1. *)
Definition is_one (v : option json) : bool :=
  match v with Some (JInt 1) | Some (JBool true) => true | _ => false end.

Definition is_text (t : string) (v : option json) : bool :=
  match v with Some (JStr s) => String.eqb s t | _ => false end.

(** [_SAFE_CODE.fullmatch] *)
Definition safe_code (s : string) : bool :=
  match_id is_lower (λ c, is_lower c || is_digit c || Ascii.eqb c "_") 64 s.

(** ** Signatures *)

(** [datetime.fromisoformat], whose grammar differs from release to release of
    the interpreter: the instant and the offset from UTC, if it has one, both
    in microseconds. *)
Class IsoReader := { fromisoformat : string → option (Z * option Z) }.

(** [LicenseSignatureVerifier]: the claims, their digest and the key. *)
Class LicenseSignatureVerifier (T : Type) :=
  { verify : json → M T (list (string * json) * string * string) }.

Section Signatures.
Context {D : Digest} {T : Type}.

(** [UnavailableLicenseVerifier] *)
Definition unavailable_verifier : LicenseSignatureVerifier T :=
  {| verify _ := raise KEY_UNAVAILABLE |}.

(** [_canonical_claims] *)
Definition canonical_claims (claims : list (string * json)) : list N := json_bytes true (JObj claims).

(** [_decode_base64url] *)
Definition decode_base64url (value : option json) : M T (list N) :=
  text <- from_option (match value with Some (JStr s) => Some s | _ => None end) SIGNATURE_INVALID ;;
  guard (negb (String.eqb text "") && Nat.leb (String.length text) 4096 && negb (has_char "=" text))
    SIGNATURE_INVALID ;;
  from_option (b64decode text) SIGNATURE_INVALID.

(** One element of the key set file. *)
Definition load_key (keys : list (string * RsaPublicKey)) (item : json)
    : M T (list (string * RsaPublicKey)) :=
  members <- from_option (match item with JObj l => Some l | _ => None end) PUBLIC_KEY_INVALID ;;
  guard (keys_are ["key_id"; "algorithm"; "n"; "e"] members &&
         is_text "RS256" (dict_get "algorithm" members)) PUBLIC_KEY_INVALID ;;
  key_id <- from_option (match dict_get "key_id" members with Some (JStr s) => Some s | _ => None end)
    PUBLIC_KEY_INVALID ;;
  guard (safe_id key_id && bool_decide (key_id ∉ dict_keys keys)) PUBLIC_KEY_INVALID ;;
  n <- decode_base64url (dict_get "n" members) ;;
  e <- decode_base64url (dict_get "e" members) ;;
  let k := mkKey (from_bytes n) (from_bytes e) in
  guard (key_valid k) PUBLIC_KEY_INVALID ;;
  ret (keys ++ [(key_id, k)]).

(** [load_rsa_public_keys], of the parsed file ([None]: no file or no JSON) *)
Definition load_rsa_public_keys (file : option json) : M T (list (string * RsaPublicKey)) :=
  value <- from_option file KEY_UNAVAILABLE ;;
  members <- from_option (match value with JObj l => Some l | _ => None end) PUBLIC_KEY_INVALID ;;
  guard (keys_are ["schema_version"; "keys"] members && is_one (dict_get "schema_version" members))
    PUBLIC_KEY_INVALID ;;
  items <- from_option (match dict_get "keys" members with Some (JArr l) => Some l | _ => None end)
    PUBLIC_KEY_INVALID ;;
  keys <- mfold items load_key [] ;;
  guard (negb (bool_decide (keys = []))) PUBLIC_KEY_INVALID ;;
  ret keys.

(** The width of the modulus in bytes. *)
Definition key_width (k : RsaPublicKey) : nat := N.to_nat ((N.size (modulus k) + 7) / 8).

Definition digest_info (payload : list N) : list N := DIGEST_INFO_SHA256 ++ sha256_digest payload.

(** [width - len(digest_info) - 3], which may be negative *)
Definition padding_length (width : nat) (info : list N) : Z :=
  Z.of_nat width - Z.of_nat (length info) - 3.

(** [b"\x00\x01" + b"\xff" * padding_length + b"\x00" + digest_info] *)
Definition expected_encoding (width : nat) (info : list N) : list N :=
  [0%N; 1%N] ++ replicate (Z.to_nat (padding_length width info)) 255%N ++ [0%N] ++ info.

(** [RsaSha256LicenseVerifier.verify] *)
Definition rsa_verify (keys : list (string * RsaPublicKey)) (document : json)
    : M T (list (string * json) * string * string) :=
  members <- from_option (match document with JObj l => Some l | _ => None end) DOCUMENT_INVALID ;;
  guard (keys_are ENVELOPE_KEYS members) DOCUMENT_INVALID ;;
  guard (is_one (dict_get "schema_version" members) && is_text "RS256" (dict_get "algorithm" members))
    (LicenseError "LICENSE_SCHEMA_UNSUPPORTED" 400) ;;
  key_id <- from_option (match dict_get "key_id" members with
                         | Some (JStr s) => if safe_id s then Some s else None
                         | _ => None
                         end) KEY_UNAVAILABLE ;;
  public_key <- from_option (dict_get key_id keys) KEY_UNAVAILABLE ;;
  claims <- from_option (match dict_get "claims" members with Some (JObj l) => Some l | _ => None end)
    DOCUMENT_INVALID ;;
  let payload := canonical_claims claims in
  signature <- decode_base64url (dict_get "signature" members) ;;
  let width := key_width public_key in
  guard (Nat.eqb (length signature) width) SIGNATURE_INVALID ;;
  let signature_integer := from_bytes signature in
  guard (signature_integer <? modulus public_key)%N SIGNATURE_INVALID ;;
  let encoded := be_bytes width (pow_mod signature_integer (exponent public_key) (modulus public_key)) in
  let info := digest_info payload in
  guard ((8 <=? padding_length width info) &&
         bool_decide (encoded = expected_encoding width info)) SIGNATURE_INVALID ;;
  ret (claims, sha256_hex payload, key_id).

Definition rsa_verifier (keys : list (string * RsaPublicKey)) : LicenseSignatureVerifier T :=
  {| verify := rsa_verify keys |}.
End Signatures.

(** ** LicenseRepository *)

Definition IdemKey : Type := string * string * string.

Definition idem_key (ctx : LicenseContext) (key : string) : IdemKey :=
  (ctx_tenant_id ctx, ctx_actor_id ctx, key).

Class LicenseRepository (T : Type) := {
  repo_current : LicenseContext → M T (option VerifiedLicense);
  repo_replay : LicenseContext → string → string → M T (option VerifiedLicense);
  repo_apply : LicenseContext → VerifiedLicense → string → string → M T (VerifiedLicense * bool)
}.

(** [ReferenceLicenseRepository]; the draws belong to the service's clock. *)
Record Repo := mkRepo {
  values : gmap string (list VerifiedLicense);
  idempotency : gmap IdemKey (string * VerifiedLicense);
  draws : Draws
}.

Definition empty_repo : Repo := mkRepo ∅ ∅ (mkDraws 0 0).

Definition set_values (v : gmap string (list VerifiedLicense)) (r : Repo) : Repo :=
  mkRepo v (idempotency r) (draws r).
Definition set_idempotency (v : gmap IdemKey (string * VerifiedLicense)) (r : Repo) : Repo :=
  mkRepo (values r) v (draws r).
Definition set_draws (v : Draws) (r : Repo) : Repo := mkRepo (values r) (idempotency r) v.

#[export] Instance license_drawing : Drawing Repo :=
  {| draws_of := draws; with_draws := set_draws |}.

(** [self._values.get(tenant_id, [])] *)
Definition history (r : Repo) (tenant : string) : list VerifiedLicense :=
  default [] (values r !! tenant).

Definition ref_current (ctx : LicenseContext) : M Repo (option VerifiedLicense) :=
  gets (λ r, last (history r (ctx_tenant_id ctx))).

Definition ref_replay (ctx : LicenseContext) (key fp : string) : M Repo (option VerifiedLicense) :=
  replay <- gets (λ r, idempotency r !! idem_key ctx key) ;;
  match replay with
  | None => ret None
  | Some (fp', v) => guard (String.eqb fp' fp) KEY_REUSED ;; ret (Some v)
  end.

Definition ref_apply (ctx : LicenseContext) (v : VerifiedLicense) (key fp : string)
    : M Repo (VerifiedLicense * bool) :=
  replay <- gets (λ r, idempotency r !! idem_key ctx key) ;;
  match replay with
  | Some (fp', v') => guard (String.eqb fp' fp) KEY_REUSED ;; ret (v', true)
  | None =>
      modify (λ r, set_values
        (<[ctx_tenant_id ctx := history r (ctx_tenant_id ctx) ++ [v]]> (values r)) r) ;;
      modify (λ r, set_idempotency (<[idem_key ctx key := (fp, v)]> (idempotency r)) r) ;;
      ret (v, false)
  end.

(** [ReferenceLicenseRepository.count] *)
Definition count (ctx : LicenseContext) : M Repo nat :=
  gets (λ r, length (history r (ctx_tenant_id ctx))).

#[export] Instance reference_repository : LicenseRepository Repo :=
  {| repo_current := ref_current; repo_replay := ref_replay; repo_apply := ref_apply |}.

(** ** Claims *)

Section Claims.
Context {T : Type}.

(** [_utc_timestamp] *)
Definition utc_timestamp {I : IsoReader} (value : option json) : M T Z :=
  text <- from_option (match value with
                       | Some (JStr s) =>
                           if String.eqb (String.substring (String.length s - 1) 1 s) "Z"
                           then Some (String.substring 0 (String.length s - 1) s) else None
                       | _ => None
                       end) DOCUMENT_INVALID ;;
  parsed <- from_option (fromisoformat (text +:+ "+00:00")) DOCUMENT_INVALID ;;
  guard (bool_decide (parsed.2 = Some 0)) DOCUMENT_INVALID ;;
  ret parsed.1.

(** [_safe_claim_text] *)
Definition safe_claim_text (value : option json) : M T string :=
  from_option (match value with Some (JStr s) => if safe_id s then Some s else None | _ => None end)
    DOCUMENT_INVALID.

(** The items of a JSON array that are all strings. *)
Definition strings_of (items : list json) : option (list string) :=
  mapM (λ v, match v with JStr s => Some s | _ => None end) items.

Definition features_of (value : option json) : M T (list string) :=
  items <- from_option (match value with Some (JArr l) => Some l | _ => None end) DOCUMENT_INVALID ;;
  guard (Nat.leb 1 (length items) && Nat.leb (length items) 64) DOCUMENT_INVALID ;;
  features <- from_option (strings_of items) DOCUMENT_INVALID ;;
  guard (forallb safe_code features &&
         bool_decide (features = sorted_strings (fromkeys features))) DOCUMENT_INVALID ;;
  ret features.

(** [2**63 - 1] *)
Definition MAX_LIMIT : Z := 9223372036854775807.

Definition limit_of (acc : list (string * Z)) (item : string * json) : M T (list (string * Z)) :=
  limit <- from_option (match item.2 with
                        | JInt n =>
                            if bool_decide (item.1 ∈ RESOURCE_CODES) && (1 <=? n) && (n <=? MAX_LIMIT)
                            then Some n else None
                        | _ => None
                        end) DOCUMENT_INVALID ;;
  ret (acc ++ [(item.1, limit)]).

Definition limit_leb (a b : string * Z) : bool :=
  if decide (a.1 = b.1) then a.2 <=? b.2 else string_leb a.1 b.1.

(** The members of [resource_limits], 1 to 64 of them. *)
Definition limits_items (value : option json) : M T (list (string * json)) :=
  items <- from_option (match value with Some (JObj l) => Some l | _ => None end) DOCUMENT_INVALID ;;
  guard (Nat.leb 1 (length items) && Nat.leb (length items) 64) DOCUMENT_INVALID ;;
  ret items.

Definition limits_of (items : list (string * json)) : M T (list (string * Z)) :=
  limits <- mfold items limit_of [] ;;
  guard (bool_decide (limits = sort_stable limit_leb limits)) DOCUMENT_INVALID ;;
  ret limits.
End Claims.

(** ** LicenseService *)

Section Service.
Context {D : Digest} {W : World} {I : IsoReader} {T : Type} {Dr : Drawing T}
  {R : LicenseRepository T} {V : LicenseSignatureVerifier T}.
(** What the service is configured with: the product it sells and the reader
    of the tenant's current usage. *)
Context (product_code : string) (usage_reader : LicenseContext → M T (gmap string pyobj)).

Definition verify_document (ctx : LicenseContext) (document : json) : M T VerifiedLicense :=
  checked <- verify document ;;
  let '(claims, claims_digest, key_id) := checked in
  guard (keys_are CLAIM_KEYS claims && is_one (dict_get "schema_version" claims))
    (LicenseError "LICENSE_SCHEMA_UNSUPPORTED" 400) ;;
  product <- safe_claim_text (dict_get "product" claims) ;;
  guard (String.eqb product product_code) (LicenseError "LICENSE_PRODUCT_MISMATCH" 400) ;;
  organization_id <- safe_claim_text (dict_get "organization_id" claims) ;;
  guard (String.eqb organization_id (ctx_tenant_id ctx))
    (LicenseError "LICENSE_ORGANIZATION_MISMATCH" 403) ;;
  issued_at <- utc_timestamp (dict_get "issued_at" claims) ;;
  expires_at <- utc_timestamp (dict_get "expires_at" claims) ;;
  now <- clock ;;
  guard ((issued_at <=? now + 5 * minutes) && (issued_at <? expires_at))
    (LicenseError "LICENSE_PERIOD_INVALID" 400) ;;
  guard (now <? expires_at) EXPIRED ;;
  features <- features_of (dict_get "features" claims) ;;
  items <- limits_items (dict_get "resource_limits" claims) ;;
  limits <- limits_of items ;;
  license_id <- safe_claim_text (dict_get "license_id" claims) ;;
  guard (Nat.leb 5 (String.length license_id)) DOCUMENT_INVALID ;;
  edition <- safe_claim_text (dict_get "edition" claims) ;;
  ret (mkLicense license_id product edition organization_id issued_at expires_at features limits
         claims_digest key_id).

(** [isinstance(used, int) and not isinstance(used, bool) and used >= 0] of
    [usage.get(resource, 0)] *)
Definition used_of (usage : gmap string pyobj) (resource : string) : option Z :=
  match default (PyInt 0) (usage !! resource) with
  | PyInt n => if 0 <=? n then Some n else None
  | _ => None
  end.

(** One entry of the resource list. *)
Definition resource_view (usage : gmap string pyobj) (acc : list ResourceView) (rl : string * Z)
    : M T (list ResourceView) :=
  used <- from_option (used_of usage rl.1) USAGE_UNAVAILABLE ;;
  ret (acc ++ [mkResource rl.1 rl.2 used (Z.max 0 (rl.2 - used))
    (if rl.2 <=? used then "limit_reached" else "available")]).

Definition reached (rv : ResourceView) : bool := rv_limit rv <=? rv_used rv.

(** [_iso] *)
Definition license_iso (t : Z) : string := iso_seconds t +:+ "Z".

(** [s[-5:]] *)
Definition last_five (s : string) : string :=
  String.substring (String.length s - 5) (String.length s - (String.length s - 5)) s.

Definition license_status (expired limit_reached expiring : bool) : string * option string :=
  if expired then ("expired", Some "LICENSE_EXPIRED")
  else if limit_reached then ("limit_reached", Some "LICENSE_RESOURCE_LIMIT_REACHED")
  else if expiring then ("expiring_soon", Some "LICENSE_EXPIRES_WITHIN_30_DAYS")
  else ("active", None).

(** [_view] *)
Definition view (ctx : LicenseContext) (stored : VerifiedLicense) : M T LicenseView :=
  now <- clock ;;
  usage <- usage_reader ctx ;;
  resources <- mfold (lic_resource_limits stored) (resource_view usage) [] ;;
  let limit_reached := existsb reached resources in
  let expired := lic_expires_at stored <=? now in
  let expiring := negb expired && (lic_expires_at stored - now <=? 30 * days) in
  let status := license_status expired limit_reached expiring in
  ret (mkView (lic_product stored) (Some (lic_edition stored))
         (Some (last_five (lic_license_id stored))) (Some (license_iso (lic_issued_at stored)))
         (Some (license_iso (lic_expires_at stored))) status.1 (lic_features stored) resources
         status.2 (negb expired && negb limit_reached) true true).

(** [_idempotency_key] *)
Definition idempotency_key (value : pyobj) : M T string :=
  from_option (match value with
               | PyStr s => if Nat.leb 16 (String.length s) && safe_id s then Some s else None
               | _ => None
               end) (LicenseError "IDEMPOTENCY_KEY_INVALID" 400).

(** [_request_fingerprint] *)
Definition request_members (ctx : LicenseContext) (document : json) : json :=
  JObj [("tenant_id", JStr (ctx_tenant_id ctx)); ("workspace_id", JStr (ctx_workspace_id ctx));
        ("document", document)].

Definition request_fingerprint (ctx : LicenseContext) (document : json) : M T string :=
  members <- from_option (match document with JObj l => Some l | _ => None end) DOCUMENT_INVALID ;;
  guard (keys_are ENVELOPE_KEYS members) DOCUMENT_INVALID ;;
  guard (match dict_get "claims" members with Some (JObj _) => true | _ => false end)
    DOCUMENT_INVALID ;;
  ret (fingerprint (request_members ctx document)).

Definition apply_verified (ctx : LicenseContext) (verified : VerifiedLicense) (key fp : string)
    : M T (LicenseView * bool) :=
  applied <- repo_apply ctx verified key fp ;;
  v <- view ctx applied.1 ;;
  ret (v, applied.2).

Definition apply (ctx : LicenseContext) (document : json) (key : pyobj) : M T (LicenseView * bool) :=
  key <- idempotency_key key ;;
  fp <- request_fingerprint ctx document ;;
  stored <- repo_replay ctx key fp ;;
  match stored with
  | Some v => v <- view ctx v ;; ret (v, true)
  | None =>
      verified <- verify_document ctx document ;;
      apply_verified ctx verified key fp
  end.

(** [LicenseService.replay] *)
Definition replay (ctx : LicenseContext) (document : json) (key : pyobj)
    : M T (option (LicenseView * bool)) :=
  key <- idempotency_key key ;;
  fp <- request_fingerprint ctx document ;;
  stored <- repo_replay ctx key fp ;;
  match stored with
  | Some v => v <- view ctx v ;; ret (Some (v, true))
  | None => ret None
  end.

(** The projection for a tenant that has no licence. *)
Definition default_view (usage : gmap string pyobj) (resources : list ResourceView) : LicenseView :=
  mkView product_code None None None None "not_configured" DEFAULT_FEATURES resources
    (Some "LICENSE_NOT_CONFIGURED")
    (match used_of usage "notebooks" with
     | Some n => n <? default 0 (dict_get "notebooks" DEFAULT_RESOURCE_LIMITS)
     | None => false
     end) true true.

Definition get (ctx : LicenseContext) : M T LicenseView :=
  stored <- repo_current ctx ;;
  match stored with
  | None =>
      usage <- usage_reader ctx ;;
      resources <- mfold DEFAULT_RESOURCE_LIMITS (resource_view usage) [] ;;
      ret (default_view usage resources)
  | Some v => view ctx v
  end.

Definition require_llm_access (ctx : LicenseContext) : M T unit :=
  stored <- repo_current ctx ;;
  match stored with
  | None => ret tt
  | Some v =>
      now <- clock ;;
      guard (now <? lic_expires_at v) EXPIRED ;;
      guard (bool_decide ("llm_access" ∈ lic_features v)) FEATURE_NOT_ALLOWED
  end.

Definition require_new_generation (ctx : LicenseContext) : M T unit := require_llm_access ctx.

Definition require_user_capacity (ctx : LicenseContext) : M T unit :=
  usage <- usage_reader ctx ;;
  used <- from_option (used_of usage "users") USAGE_UNAVAILABLE ;;
  stored <- repo_current ctx ;;
  let limit := match stored with
               | None => dict_get "users" DEFAULT_RESOURCE_LIMITS
               | Some v => dict_get "users" (lic_resource_limits v)
               end in
  match limit with
  | Some limit => guard (used + 1 <=? limit) LIMIT_REACHED
  | None => ret tt
  end.

(** [amount] as an increment: an integer of at least 1 that is not a bool. *)
Definition increment_ok (allowed : list string) (inc : string * pyobj) : bool :=
  bool_decide (inc.1 ∈ allowed) &&
  match inc.2 with PyInt n => 1 <=? n | _ => false end.

Definition amount_of (inc : string * pyobj) : Z := match inc.2 with PyInt n => n | _ => 0 end.

(** [usage.get(resource, 0) + amount > limit], with whatever the reader gave. *)
Definition unchecked_used (usage : gmap string pyobj) (resource : string) : option Z :=
  match default (PyInt 0) (usage !! resource) with
  | PyInt n => Some n
  | PyBool b => Some (if b then 1 else 0)
  | _ => None
  end.

(** One increment against the default limits. *)
Definition check_default (usage : gmap string pyobj) (inc : string * pyobj) : M T unit :=
  used <- from_option (unchecked_used usage inc.1) (PyError "TypeError") ;;
  limit <- from_option (dict_get inc.1 DEFAULT_RESOURCE_LIMITS) (PyError "KeyError") ;;
  guard (used + amount_of inc <=? limit) LIMIT_REACHED.

(** One increment against the limits of the licence; a resource without one
    is not limited. *)
Definition check_limit (usage : gmap string pyobj) (limits : list (string * Z)) (inc : string * pyobj)
    : M T unit :=
  match dict_get inc.1 limits with
  | None => ret tt
  | Some limit =>
      used <- from_option (used_of usage inc.1) USAGE_UNAVAILABLE ;;
      guard (used + amount_of inc <=? limit) LIMIT_REACHED
  end.

(** [increments] is [None] when the argument is no mapping. *)
Definition require_creation (ctx : LicenseContext) (action : string)
    (increments : option (list (string * pyobj))) : M T unit :=
  if String.eqb action "source.create" then ret tt
  else if String.eqb action "studio.generate" then require_llm_access ctx
  else
    requirement <- from_option (dict_get action CREATION_ACTIONS) ACTION_INVALID ;;
    incs <- from_option increments ACTION_INVALID ;;
    guard (negb (bool_decide (length incs = O))) ACTION_INVALID ;;
    guard (forallb (increment_ok requirement.2) incs) ACTION_INVALID ;;
    stored <- repo_current ctx ;;
    match stored with
    | None =>
        usage <- usage_reader ctx ;;
        mfor incs (check_default usage)
    | Some v =>
        now <- clock ;;
        guard (now <? lic_expires_at v) EXPIRED ;;
        guard (bool_decide (requirement.1 ∈ lic_features v)) FEATURE_NOT_ALLOWED ;;
        usage <- usage_reader ctx ;;
        mfor incs (check_limit usage (lic_resource_limits v))
    end.
End Service.

(** ** Signatures are RSASSA-PKCS1-v1_5 *)

Section SignatureSpec.
Context {D : Digest} {T : Type}.

(** What RFC 8017 asks of a signature [text] of [payload] under [k], on the
    integers: the representative is below the modulus and its power is the one
    the padded digest stands for. *)
Definition signs (k : RsaPublicKey) (payload : list N) (text : string) : Prop :=
  (1 <= String.length text <= 4096)%nat ∧ has_char "=" text = false ∧
  ∃ sig, b64decode text = Some sig ∧ length sig = key_width k ∧
    (from_bytes sig < modulus k)%N ∧ (62 <= key_width k)%nat ∧
    (from_bytes sig ^ exponent k mod modulus k =
     from_bytes (expected_encoding (key_width k) (digest_info payload)))%N.

Lemma digest_info_length payload : length (digest_info payload) = 51%nat.
Proof. unfold digest_info. by rewrite length_app, sha256_digest_length. Qed.

Lemma expected_encoding_length width payload :
  (62 <= width)%nat → length (expected_encoding width (digest_info payload)) = width.
Proof.
  intros Hw. unfold expected_encoding, padding_length.
  rewrite !length_app, length_replicate, digest_info_length. simpl. lia.
Qed.

Lemma expected_encoding_lt width payload :
  Forall (λ b, b < 256)%N (expected_encoding width (digest_info payload)).
Proof.
  unfold expected_encoding, digest_info. rewrite !Forall_app. split_and!.
  - repeat constructor.
  - apply Forall_replicate. lia.
  - repeat constructor.
  - apply Forall_forall. intros b Hb. vm_compute in Hb. set_unfold in Hb. naive_solver lia.
  - apply sha256_digest_lt.
Qed.

(** A number below the modulus fits in the width of the key. *)
Lemma modulus_width k n : (n < modulus k → n < 256 ^ N.of_nat (key_width k))%N.
Proof.
  intros Hn. unfold key_width. rewrite N2Nat.id.
  set (z := N.size (modulus k)). assert (modulus k < 2 ^ z)%N as Hm by apply N.size_gt.
  change 256%N with (2 ^ 8)%N. rewrite <- N.pow_mul_r. eapply N.lt_le_trans; [by etrans|].
  apply N.pow_le_mono_r; [done|]. pose proof (N.div_mod' (z + 7) 8).
  pose proof (N.mod_lt (z + 7) 8 ltac:(done)). lia.
Qed.

(** The comparison of bytes that the program makes is the one of integers. *)
Lemma encoded_iff k payload sig :
  (from_bytes sig < modulus k)%N →
  (8 <=? padding_length (key_width k) (digest_info payload)) &&
  bool_decide (be_bytes (key_width k) (pow_mod (from_bytes sig) (exponent k) (modulus k)) =
    expected_encoding (key_width k) (digest_info payload)) = true ↔
  (62 <= key_width k)%nat ∧
  (from_bytes sig ^ exponent k mod modulus k =
   from_bytes (expected_encoding (key_width k) (digest_info payload)))%N.
Proof.
  intros Hlt. rewrite andb_true_iff, bool_decide_eq_true, Z.leb_le.
  unfold padding_length. rewrite digest_info_length, pow_mod_spec.
  set (m := (from_bytes sig ^ exponent k mod modulus k)%N).
  assert (m < 256 ^ N.of_nat (key_width k))%N as Hm by (apply modulus_width, N.mod_lt; lia).
  split; intros [Hw H].
  - assert (62 <= key_width k)%nat as Hw' by lia. split; [done|].
    eapply be_bytes_eq; [done|apply expected_encoding_lt|by apply expected_encoding_length|done].
  - split; [lia|].
    apply be_bytes_eq; [done|apply expected_encoding_lt|by apply expected_encoding_length|done].
Qed.

Lemma wp_decode_base64url v (Q : outcome (list N) → T → Prop) s :
  (∀ text sig, v = Some (JStr text) → (1 <= String.length text <= 4096)%nat →
     has_char "=" text = false → b64decode text = Some sig → Q (Ret sig) s) →
  Q (Raise SIGNATURE_INVALID) s →
  wp (decode_base64url v) Q s.
Proof.
  intros HR HE. unfold decode_base64url. wp_run; try done. bools.
  destruct v as [[| | |text| |]|]; simplify_eq.
  eapply HR; [done| |done|done]. destruct a; simpl in *; [done|lia].
Qed.

Lemma decode_base64url_Ret text sig (s : T) :
  (1 <= String.length text <= 4096)%nat → has_char "=" text = false → b64decode text = Some sig →
  decode_base64url (Some (JStr text)) s = (s, Ret sig).
Proof.
  intros Hl Hc Hd. unfold decode_base64url. rewrite (bind_Ret _ _ s s text) by done.
  rewrite (bind_Ret _ _ s s tt); [by rewrite Hd|]. apply guard_Ret.
  assert (String.eqb text "" = false) as He by (destruct text; [simpl in Hl; lia|done]).
  rewrite Hc, He, andb_true_r. apply Nat.leb_le, Hl.
Qed.
End SignatureSpec.

Section Acceptance.
Context {D : Digest} {T : Type}.

(** The envelope [document] carries [claims] signed by the key [key_id]. *)
Definition signed_document (keys : list (string * RsaPublicKey)) (document : json)
    (claims : list (string * json)) (key_id : string) : Prop :=
  ∃ members k text, document = JObj members ∧ keys_are ENVELOPE_KEYS members = true ∧
    is_one (dict_get "schema_version" members) = true ∧
    is_text "RS256" (dict_get "algorithm" members) = true ∧
    dict_get "key_id" members = Some (JStr key_id) ∧ safe_id key_id = true ∧
    dict_get key_id keys = Some k ∧ dict_get "claims" members = Some (JObj claims) ∧
    dict_get "signature" members = Some (JStr text) ∧ signs k (canonical_claims claims) text.

Lemma rsa_verify_sound keys document (s : T) :
  wp (rsa_verify keys document) (λ o s', s' = s ∧ match o with
    | Ret (claims, digest, key_id) =>
        digest = sha256_hex (canonical_claims claims) ∧ signed_document keys document claims key_id
    | Raise e => ∃ code status, e = LicenseError code status
    end) s.
Proof.
  unfold rsa_verify.
  repeat first [ progress (lazymatch goal with
    | |- wp (decode_base64url _) _ _ => apply wp_decode_base64url; [intros text sig ? ? ? ?|]
    | _ => wp_step
    end; cbn beta iota) ]; try by (split; [done|eexists _, _; reflexivity]).
  split; [done|]. split; [done|]. bools.
  match goal with H : (_ <? _)%N = true |- _ => apply N.ltb_lt in H as Hlt end.
  match goal with H : be_bytes _ _ = expected_encoding _ (digest_info ?p) |- _ =>
    destruct (proj1 (encoded_iff _ p _ Hlt)) as [Hw Hp] end.
  { apply andb_true_iff. split; [by apply Z.leb_le|by apply bool_decide_eq_true]. }
  repeat (case_match; try done). simplify_eq. eexists _, _, text. split_and!; try done.
  by (split; [done|]; split; [done|]; eexists).
Qed.

(** C31: the verifier accepts exactly the documents that are signed: an envelope
    with the five members, version 1 and RS256, a known key, and a signature
    whose text decodes to as many bytes as the modulus has, to a number below
    the modulus whose power is the padded digest of the canonical claims.  It
    changes nothing, and refuses everything else with one of its own errors. *)
Theorem rsa_verify_iff keys document (s : T) :
  ∃ o, rsa_verify keys document s = (s, o) ∧
    (∀ claims digest key_id, o = Ret (claims, digest, key_id) ↔
       digest = sha256_hex (canonical_claims claims) ∧
       signed_document keys document claims key_id) ∧
    (∀ e, o = Raise e → ∃ code status, e = LicenseError code status).
Proof.
  pose proof (rsa_verify_sound keys document s) as Hs. unfold wp in Hs.
  destruct (rsa_verify keys document s) as [s' o] eqn:E. simpl in Hs. destruct Hs as [-> Hs].
  exists o. split; [done|]. split; [|by intros e ->].
  intros claims digest key_id. split; [by intros ->|].
  intros (-> & members & k & text & -> & Hkeys & Hv & Ha & Hid & Hsafe & Hk & Hc & Ht & Hsig).
  destruct Hsig as (Hlen & Heq & sig & Hdec & Hwidth & Hlt & Hw & Hp).
  assert (rsa_verify keys (JObj members) s =
    (s, Ret (claims, sha256_hex (canonical_claims claims), key_id))) as H; [|congruence].
  unfold rsa_verify. rewrite (bind_Ret _ _ s s members eq_refl).
  rewrite (bind_Ret _ _ s s tt) by by apply guard_Ret.
  rewrite (bind_Ret _ _ s s tt) by (apply guard_Ret; by rewrite Hv, Ha).
  rewrite (bind_Ret _ _ s s key_id) by by rewrite Hid, Hsafe.
  rewrite (bind_Ret _ _ s s k) by by rewrite Hk.
  rewrite (bind_Ret _ _ s s claims) by by rewrite Hc.
  rewrite (bind_Ret _ _ s s sig) by (rewrite Ht; by apply decode_base64url_Ret).
  rewrite (bind_Ret _ _ s s tt) by (apply guard_Ret; by apply Nat.eqb_eq).
  rewrite (bind_Ret _ _ s s tt) by (apply guard_Ret; by apply N.ltb_lt).
  rewrite (bind_Ret _ _ s s tt); [done|]. apply guard_Ret, encoded_iff; done.
Qed.
End Acceptance.

(** ** What a repository promises *)

Section Store.
Context {T : Type} {Dr : Drawing T} (R : LicenseRepository T).

(** [licences] is a tenant's history, oldest first, and [remembered] what a key
    stands for.  The current licence is the newest; a key applies one licence,
    once, for one fingerprint; and nothing is ever removed. *)
Record LicenseStore (licences : T → string → list VerifiedLicense)
    (remembered : T → IdemKey → option (string * VerifiedLicense)) : Prop := {
  ls_current : ∀ ctx s,
    repo_current ctx s = (s, Ret (last (licences s (ctx_tenant_id ctx))));
  ls_replay : ∀ ctx key fp s,
    repo_replay ctx key fp s =
      (s, match remembered s (idem_key ctx key) with
          | None => Ret None
          | Some (fp', v) => if decide (fp' = fp) then Ret (Some v) else Raise KEY_REUSED
          end);
  ls_apply_old : ∀ ctx v key fp s fp' v', remembered s (idem_key ctx key) = Some (fp', v') →
    repo_apply ctx v key fp s = (s, if decide (fp' = fp) then Ret (v', true) else Raise KEY_REUSED);
  ls_apply_new : ∀ ctx v key fp s, remembered s (idem_key ctx key) = None →
    ∃ s', repo_apply ctx v key fp s = (s', Ret (v, false)) ∧
      (∀ tenant, licences s' tenant =
         licences s tenant ++ (if decide (tenant = ctx_tenant_id ctx) then [v] else [])) ∧
      (∀ k, remembered s' k =
         if decide (k = idem_key ctx key) then Some (fp, v) else remembered s k);
  ls_draws : ∀ d s tenant k,
    licences (with_draws d s) tenant = licences s tenant ∧
    remembered (with_draws d s) k = remembered s k
}.
End Store.

(** C33: the reference repository implements that specification. *)
Theorem reference_refines :
  LicenseStore reference_repository history (λ s k, idempotency s !! k).
Proof.
  constructor; simpl.
  - done.
  - intros ctx key fp s. unfold ref_replay, bind, gets. simpl.
    destruct (idempotency s !! _) as [[fp' v]|]; [|done]. unfold guard.
    destruct (String.eqb_spec fp' fp); simpl; [by rewrite decide_True|by rewrite decide_False].
  - intros ctx v key fp s fp' v' Hk. unfold ref_apply, bind, gets. simpl. rewrite Hk. unfold guard.
    destruct (String.eqb_spec fp' fp); simpl; [by rewrite decide_True|by rewrite decide_False].
  - intros ctx v key fp s Hk. unfold ref_apply, bind, gets. simpl. rewrite Hk. eexists.
    split; [done|]. split.
    + intros tenant. unfold history at 1. simpl. destruct (decide (tenant = ctx_tenant_id ctx)) as [->|].
      * by rewrite lookup_insert_eq.
      * by rewrite lookup_insert_ne, app_nil_r.
    + intros k. simpl. destruct (decide (k = idem_key ctx key)) as [->|].
      * by rewrite lookup_insert_eq.
      * by rewrite lookup_insert_ne.
  - done.
Qed.

Section Laws.
Context {D : Digest} {W : World} {I : IsoReader} {T : Type} {Dr : Drawing T}
  {R : LicenseRepository T} {V : LicenseSignatureVerifier T}
  (product_code : string) (usage_reader : LicenseContext → M T (gmap string pyobj)).
Context (licences : T → string → list VerifiedLicense)
  (remembered : T → IdemKey → option (string * VerifiedLicense))
  (HR : LicenseStore R licences remembered)
  (verify_pure : ∀ document, readonly (verify document))
  (usage_pure : ∀ ctx, readonly (usage_reader ctx)).

(** The repository did not change. *)
Definition same_store (s s' : T) : Prop :=
  (∀ tenant, licences s' tenant = licences s tenant) ∧ (∀ k, remembered s' k = remembered s k).

#[local] Instance same_store_refl : Reflexive same_store.
Proof. done. Qed.
#[local] Instance same_store_trans : Transitive same_store.
Proof.
  intros s1 s2 s3 [Hl Hr] [Hl' Hr']. split; intros; [by rewrite Hl', Hl|by rewrite Hr', Hr].
Qed.

Lemma same_store_draws d s s' : same_store s s' → same_store s (with_draws d s').
Proof.
  intros [Hl Hr]. split; intros x.
  - destruct (ls_draws _ _ _ HR d s' x (EmptyString, EmptyString, EmptyString)) as [-> _]. apply Hl.
  - destruct (ls_draws _ _ _ HR d s' EmptyString x) as [_ ->]. apply Hr.
Qed.

(** A licence that was fit to be applied for the tenant. *)
Record license_ok (tenant : string) (v : VerifiedLicense) : Prop := {
  lo_organization : lic_organization_id v = tenant;
  lo_product : lic_product v = product_code;
  lo_ids : safe_id (lic_license_id v) = true ∧ safe_id (lic_edition v) = true ∧
    (5 <= String.length (lic_license_id v))%nat;
  lo_period : lic_issued_at v < lic_expires_at v;
  lo_features : lic_features v ≠ [] ∧ (length (lic_features v) <= 64)%nat ∧
    NoDup (lic_features v) ∧ Sorted String.le (lic_features v) ∧
    ∀ f, f ∈ lic_features v → safe_code f = true;
  lo_limits : lic_resource_limits v ≠ [] ∧
    ∀ r n, (r, n) ∈ lic_resource_limits v → (r ∈ RESOURCE_CODES) ∧ 1 <= n <= MAX_LIMIT
}.

Lemma strings_of_length items l : strings_of items = Some l → length l = length items.
Proof. unfold strings_of. intros H. symmetry. by eapply length_mapM. Qed.

Lemma wp_features_of v (Q : outcome (list string) → T → Prop) s :
  (∀ l, l ≠ [] ∧ (length l <= 64)%nat ∧ NoDup l ∧ Sorted String.le l ∧
        (∀ f, f ∈ l → safe_code f = true) → Q (Ret l) s) →
  (∀ e, Q (Raise e) s) →
  wp (features_of v) Q s.
Proof.
  intros HQ HE. unfold features_of. wp_run; auto. apply HQ. bools.
  match goal with H : strings_of _ = Some ?l |- _ => pose proof (strings_of_length _ _ H) end.
  match goal with H : ?l = sorted_strings _ |- _ => rename H into Hs; rename l into fs end.
  split_and!.
  - intros ->. simpl in *. lia.
  - lia.
  - rewrite Hs. unfold sorted_strings. rewrite merge_sort_Permutation. apply NoDup_fromkeys.
  - rewrite Hs. apply Sorted_merge_sort. apply _.
  - by apply forallb_elem.
Qed.

Definition limit_good (rl : string * Z) : Prop := (rl.1 ∈ RESOURCE_CODES) ∧ 1 <= rl.2 <= MAX_LIMIT.

Lemma wp_limits_of items (Q : outcome (list (string * Z)) → T → Prop) s :
  items ≠ [] →
  (∀ l, l ≠ [] → (∀ r n, (r, n) ∈ l → (r ∈ RESOURCE_CODES) ∧ 1 <= n <= MAX_LIMIT) → Q (Ret l) s) →
  (∀ e, Q (Raise e) s) →
  wp (limits_of items) Q s.
Proof.
  intros Hne HQ HE. unfold limits_of. apply wp_bind.
  apply (wp_mfold_prefix (λ pre acc s', s' = s ∧ length acc = length pre ∧ Forall limit_good acc)
    (λ _ s', s' = s)); [done| | |intros e t ->; apply HE].
  - intros pre x acc t _ (-> & Hl & Hf). unfold limit_of. wp_run; [|done].
    repeat case_match; simplify_eq. bools. split; [done|]. rewrite !length_app, Hl. split; [done|].
    apply Forall_app. split; [done|]. by apply Forall_singleton.
  - intros l t (-> & Hl & Hf). wp_run; auto. apply HQ.
    + intros ->. by destruct items.
    + intros r n Hrn. rewrite Forall_forall in Hf. apply (Hf _ Hrn).
Qed.

Lemma wp_safe_claim_text v (Q : outcome string → T → Prop) s :
  (∀ t, safe_id t = true → Q (Ret t) s) → (∀ e, Q (Raise e) s) → wp (safe_claim_text v) Q s.
Proof. intros HQ HE. unfold safe_claim_text. wp_run; auto. repeat case_match; simplify_eq; auto. Qed.

Lemma wp_utc_timestamp v (Q : outcome Z → T → Prop) s :
  (∀ t, Q (Ret t) s) → (∀ e, Q (Raise e) s) → wp (utc_timestamp v) Q s.
Proof. intros HQ HE. unfold utc_timestamp. wp_run; auto. Qed.

Lemma wp_usage ctx (Q : outcome (gmap string pyobj) → T → Prop) s :
  (∀ o, Q o s) → wp (usage_reader ctx) Q s.
Proof. intros HQ. apply wp_readonly; [apply usage_pure|apply HQ]. Qed.

Ltac lc_step :=
  lazymatch goal with
  | |- wp (safe_claim_text _) _ _ => apply wp_safe_claim_text; [intros ? ?|intros ?]
  | |- wp (utc_timestamp _) _ _ => apply wp_utc_timestamp; [intros ?|intros ?]
  | |- wp (features_of _) _ _ => apply wp_features_of; [intros ? ?|intros ?]
  | |- wp (limits_of _) _ _ => apply wp_limits_of; [|intros ? ? ?|intros ?]
  | |- wp (limits_items _) _ _ => unfold limits_items
  | |- wp (verify _) _ _ => apply wp_readonly; [apply verify_pure|]; destruct (result (verify _) _) as [[[? ?] ?]|?]
  | |- wp (usage_reader _) _ _ => apply wp_usage; intros [?|?]
  | _ => wp_step
  end; cbn beta iota.
Ltac lc_run := repeat lc_step.

Ltac store := repeat (apply same_store_draws); first [done|reflexivity].

(** What [verify_document] lets through. *)
Lemma verify_document_ok ctx document s :
  wp (verify_document product_code ctx document) (λ o s', same_store s s' ∧ match o with
    | Ret v => license_ok (ctx_tenant_id ctx) v ∧
        lic_issued_at v <= clock_at (ticks (draws_of s)) + 5 * minutes ∧
        clock_at (ticks (draws_of s)) < lic_expires_at v
    | Raise _ => True
    end) s.
Proof.
  unfold verify_document. lc_run; try (split; [store|done]).
  - bools. intros ->. simpl in *. lia.
  - split; [store|]. bools. split; [|by split]. by constructor.
Qed.

(** The two ways a call leaves the repository: as it was, or with one licence
    applied under a new key. *)
Definition applied (ctx : LicenseContext) (s s' : T) : Prop :=
  ∃ key fp v, license_ok (ctx_tenant_id ctx) v ∧ remembered s (idem_key ctx key) = None ∧
    (∀ tenant, licences s' tenant =
       licences s tenant ++ (if decide (tenant = ctx_tenant_id ctx) then [v] else [])) ∧
    (∀ k, remembered s' k = if decide (k = idem_key ctx key) then Some (fp, v) else remembered s k).

Definition outcome_of_call (ctx : LicenseContext) (s s' : T) : Prop :=
  same_store s s' ∨ applied ctx s s'.

Lemma same_outcome ctx s s' : same_store s s' → outcome_of_call ctx s s'.
Proof. by left. Qed.

Lemma outcome_then_same ctx s s1 s2 :
  outcome_of_call ctx s s1 → same_store s1 s2 → outcome_of_call ctx s s2.
Proof.
  intros [H|(key & fp & v & Hv & Hk & Hl & Hr)] [Hl' Hr']; [left; by etrans|right].
  exists key, fp, v. split_and!; [done|done| |]; intros x; [by rewrite Hl', Hl|by rewrite Hr', Hr].
Qed.

Lemma view_same ctx v s : wp (view usage_reader ctx v) (λ _, same_store s) s.
Proof.
  unfold view. lc_run; try store.
  apply (wp_mfold (λ _, same_store s) (λ _, same_store s)); [store| |by intros; lc_run|done].
  intros acc rl t _ Ht. unfold resource_view. by lc_run.
Qed.

Lemma apply_verified_outcome ctx v key fp s :
  license_ok (ctx_tenant_id ctx) v →
  wp (apply_verified usage_reader ctx v key fp) (λ _, outcome_of_call ctx s) s.
Proof.
  intros Hv. unfold apply_verified. apply wp_bind. unfold wp at 1.
  assert (outcome_of_call ctx s (final (repo_apply ctx v key fp) s)) as Hs.
  { destruct (remembered s (idem_key ctx key)) as [[fp' v']|] eqn:E.
    - rewrite (ls_apply_old _ _ _ HR _ _ _ _ _ _ _ E). by left.
    - destruct (ls_apply_new _ _ _ HR ctx v key fp s E) as (s' & -> & Hl & Hr).
      right. by exists key, fp, v. }
  destruct (repo_apply ctx v key fp s) as [s1 [[v1 b]|e]]; simpl in *; [|done].
  apply wp_bind. eapply wp_mono; [|apply view_same]. intros [?|?] t2 Ht2; simpl.
  - apply wp_ret. by eapply outcome_then_same.
  - by eapply outcome_then_same.
Qed.

Lemma lc_wp_replay ctx key fp (Q : outcome (option VerifiedLicense) → T → Prop) s :
  (∀ o, Q o s) → wp (repo_replay ctx key fp) Q s.
Proof. intros HQ. unfold wp. rewrite (ls_replay _ _ _ HR). apply HQ. Qed.

Lemma apply_outcome ctx document key s :
  wp (apply product_code usage_reader ctx document key) (λ _, outcome_of_call ctx s) s.
Proof.
  unfold apply, idempotency_key, request_fingerprint. lc_run; try by left.
  apply lc_wp_replay. intros [[v|]|e]; simpl; [| |by left].
  - apply wp_bind. eapply wp_mono; [|apply view_same]. intros [?|?] t2 Ht2; [apply wp_ret|]; by left.
  - apply wp_bind. eapply wp_mono; [|apply verify_document_ok].
    intros [v|e] t2 [[Hl2 Hr2] Hv]; [|by left]. destruct Hv as [Hv _].
    eapply wp_mono; [|by apply apply_verified_outcome]. intros o t3 [H3|H3];
      [left; eapply same_store_trans; [by split|done]|right]. destruct H3 as (k & fp' & v' & Hv' & Hk & Hl & Hr).
    exists k, fp', v'. split_and!; [done| |intros; by rewrite Hl, Hl2|intros; by rewrite Hr, Hr2].
    by rewrite <- Hr2.
Qed.

(** One call by [ctx].  A licence given to [apply_verified] was returned by
    [verify_document] before. *)
Inductive step_by (ctx : LicenseContext) (s : T) : T → Prop :=
| step_apply document key :
    step_by ctx s (final (apply product_code usage_reader ctx document key) s)
| step_verified s0 document v key fp :
    result (verify_document product_code ctx document) s0 = Ret v →
    step_by ctx s (final (apply_verified usage_reader ctx v key fp) s)
| step_replay document key : step_by ctx s (final (replay usage_reader ctx document key) s)
| step_get : step_by ctx s (final (get product_code usage_reader ctx) s)
| step_llm : step_by ctx s (final (require_llm_access ctx) s)
| step_users : step_by ctx s (final (require_user_capacity usage_reader ctx) s)
| step_creation action incs : step_by ctx s (final (require_creation usage_reader ctx action incs) s).

Definition step (s s' : T) : Prop := ∃ ctx, step_by ctx s s'.

Lemma wp_current ctx (Q : outcome (option VerifiedLicense) → T → Prop) s :
  Q (Ret (last (licences s (ctx_tenant_id ctx)))) s → wp (repo_current ctx) Q s.
Proof. intros HQ. unfold wp. by rewrite (ls_current _ _ _ HR). Qed.

Lemma wp_checks {A} (l : list A) body s s0 :
  (∀ x, readonly (body x)) → same_store s s0 → wp (mfor l body) (λ _, same_store s) s0.
Proof. intros Hb Hs. apply wp_readonly; [|done]. by apply readonly_mfor. Qed.

Lemma readonly_check_default usage inc : readonly (S:=T) (check_default usage inc).
Proof. unfold check_default. auto with py. Qed.

Lemma readonly_check_limit usage limits inc : readonly (S:=T) (check_limit usage limits inc).
Proof. unfold check_limit. destruct (dict_get _ _); auto with py. Qed.

Lemma resources_same usage l s s0 :
  same_store s s0 → wp (mfold l (resource_view usage) []) (λ _, same_store s) s0.
Proof.
  intros Hs. apply (wp_mfold (λ _, same_store s) (λ _, same_store s)); [done| |done|done].
  intros acc rl t _ Ht. unfold resource_view. by lc_run.
Qed.

Lemma llm_same ctx s : wp (require_llm_access ctx) (λ _, same_store s) s.
Proof. unfold require_llm_access. apply wp_bind, wp_current. lc_run; store. Qed.

Lemma creation_same ctx action incs s :
  wp (require_creation usage_reader ctx action incs) (λ _, same_store s) s.
Proof.
  unfold require_creation. repeat case_match; try apply llm_same; [by apply wp_ret|].
  lc_run; try store. apply wp_current. lc_run; try store;
    apply wp_checks; try store; intros; apply readonly_check_default || apply readonly_check_limit.
Qed.

Lemma step_outcome ctx s s' : step_by ctx s s' → outcome_of_call ctx s s'.
Proof.
  intros [document key|s0 document v key fp Hv|document key| | | |action incs].
  - apply apply_outcome.
  - apply apply_verified_outcome. pose proof (verify_document_ok ctx document s0) as H.
    unfold wp in H. rewrite Hv in H. apply H.
  - apply same_outcome. enough (wp (replay usage_reader ctx document key) (λ _, same_store s) s) by done.
    unfold replay, idempotency_key, request_fingerprint. lc_run; try store.
    apply lc_wp_replay. intros [[v|]|e]; simpl; try store.
    apply wp_bind. eapply wp_mono; [|apply view_same]. by intros [?|?] t2 Ht2.
  - apply same_outcome. enough (wp (get product_code usage_reader ctx) (λ _, same_store s) s) by done.
    unfold get. apply wp_bind, wp_current. destruct (last _); [apply view_same|]. lc_run; try store.
    eapply wp_mono; [|apply resources_same; store]. by intros [?|?] t2 Ht2.
  - apply same_outcome, llm_same.
  - apply same_outcome.
    enough (wp (require_user_capacity usage_reader ctx) (λ _, same_store s) s) by done.
    unfold require_user_capacity. lc_run; try store. apply wp_current. lc_run; store.
  - apply same_outcome, creation_same.
Qed.

Definition licences_ok (s : T) : Prop :=
  (∀ tenant v, v ∈ licences s tenant → license_ok tenant v) ∧
  (∀ tenant actor key fp v, remembered s (tenant, actor, key) = Some (fp, v) → v ∈ licences s tenant).

Lemma outcome_licences_ok ctx s s' : outcome_of_call ctx s s' → licences_ok s → licences_ok s'.
Proof.
  intros [[Hl Hr]|(key & fp & v & Hv & Hk & Hl & Hr)] [Hok Hrem]; split.
  - intros tenant x. rewrite Hl. apply Hok.
  - intros tenant actor key fp v. rewrite Hr, Hl. apply Hrem.
  - intros tenant x. rewrite Hl. intros [Hx|Hx]%elem_of_app; [by apply Hok|].
    case_decide; [|set_solver]. apply list_elem_of_singleton in Hx as ->. by subst.
  - intros tenant actor key' fp' v'. rewrite Hr, Hl. case_decide as Hd.
    + intros [= <- <-]. apply elem_of_app. right.
      rewrite decide_True by by unfold idem_key in Hd; simplify_eq. by apply list_elem_of_singleton.
    + intros H%Hrem. apply elem_of_app. by left.
Qed.

(** Histories only grow, and a key keeps what it stands for. *)
Definition store_grows (s s' : T) : Prop :=
  (∀ tenant, licences s tenant `prefix_of` licences s' tenant) ∧
  (∀ k x, remembered s k = Some x → remembered s' k = Some x).

#[local] Instance store_grows_preorder : PreOrder store_grows.
Proof.
  split; [by intros s; split|]. intros s1 s2 s3 [Hl Hr] [Hl' Hr'].
  split; [intros tenant; transitivity (licences s2 tenant); auto|intros k x Hx; by apply Hr', Hr].
Qed.

Lemma outcome_grows ctx s s' : outcome_of_call ctx s s' → store_grows s s'.
Proof.
  intros [[Hl Hr]|(key & fp & v & Hv & Hk & Hl & Hr)]; split; intros.
  - by rewrite Hl.
  - by rewrite Hr.
  - rewrite Hl. by apply prefix_app_r.
  - rewrite Hr. case_decide; [congruence|done].
Qed.

(** Behind any repository that keeps its promise, and whatever the verifier
    and the usage reader answer: from an empty store, every licence on record
    belongs to its tenant and this product, was valid for a positive period,
    has 1 to 64 distinct sorted feature codes and limits of 1 to 2^63 - 1 on
    known resources; every remembered key stands for a licence of its tenant;
    and in every later store the histories have only grown and every key still
    stands for the same licence. *)
Theorem licences_wf s0 s s' :
  (∀ tenant, licences s0 tenant = []) → (∀ k, remembered s0 k = None) →
  rtc step s0 s → rtc step s s' → licences_ok s ∧ store_grows s s'.
Proof.
  intros Hl0 Hr0 H1 H2. split.
  - eapply (rtc_invariant step licences_ok); [|done|].
    + intros x y Hx [ctx Hxy]. by eapply outcome_licences_ok; [eapply step_outcome|].
    + split; [intros tenant v; rewrite Hl0; set_solver|intros ? ? ? ? ?; by rewrite Hr0].
  - clear H1. induction H2 as [|x y z [ctx Hxy] _ IH]; [done|].
    etrans; [|done]. by eapply outcome_grows, step_outcome.
Qed.

(** ** Creating within the limits *)

(** What allows [n] more notebooks, for the tenant's current licence. *)
Definition within_limits (usage : gmap string pyobj) (current : option VerifiedLicense) (n : Z) : Prop :=
  match current with
  | None => ∃ used, unchecked_used usage "notebooks" = Some used ∧ used + n <= 1
  | Some v => ∀ limit, dict_get "notebooks" (lic_resource_limits v) = Some limit →
      ∃ used, used_of usage "notebooks" = Some used ∧ used + n <= limit
  end.

Definition licence_in_force (now : Z) (current : option VerifiedLicense) : Prop :=
  match current with
  | None => True
  | Some v => now < lic_expires_at v ∧ ("notebook_management" ∈ lic_features v)
  end.

Lemma increment_ok_notebook inc :
  increment_ok ["notebooks"] inc = true ↔ inc.1 = "notebooks" ∧ ∃ n, inc.2 = PyInt n ∧ 1 <= n.
Proof.
  unfold increment_ok. rewrite andb_true_iff, bool_decide_eq_true, list_elem_of_singleton.
  apply and_iff_compat_l. split.
  - destruct inc.2 as [|b|n|t|]; intros H; try discriminate H. exists n. by apply Z.leb_le in H.
  - intros (n & -> & H). by apply Z.leb_le.
Qed.

Lemma check_default_Ret usage inc (s : T) :
  inc.1 = "notebooks" →
  check_default usage inc s = (s, Ret tt) ↔
  ∃ used, unchecked_used usage "notebooks" = Some used ∧ used + amount_of inc <= 1.
Proof.
  intros Hn. unfold check_default, bind, guard. rewrite Hn.
  destruct (unchecked_used _ _) as [used|]; simpl; [|naive_solver].
  destruct (Z.leb_spec (used + amount_of inc) 1); simpl; split; try done; [eauto|].
  intros (u & [= <-] & ?). lia.
Qed.

Lemma check_limit_Ret usage limits inc (s : T) :
  inc.1 = "notebooks" →
  check_limit usage limits inc s = (s, Ret tt) ↔
  ∀ limit, dict_get "notebooks" limits = Some limit →
    ∃ used, used_of usage "notebooks" = Some used ∧ used + amount_of inc <= limit.
Proof.
  intros Hn. unfold check_limit, bind, guard. rewrite Hn.
  destruct (dict_get _ _) as [limit|]; [|naive_solver].
  destruct (used_of _ _) as [used|]; simpl; [|naive_solver].
  destruct (Z.leb_spec (used + amount_of inc) limit); simpl; split; try done; [naive_solver|].
  intros Hl. destruct (Hl _ eq_refl) as (u & [= <-] & ?). lia.
Qed.

(** The positive amounts of accepted increments. *)
Lemma increments_iff incs (P : Z → Prop) :
  forallb (increment_ok ["notebooks"]) incs = true →
  (∀ inc, inc ∈ incs → P (amount_of inc)) ↔
  ∀ inc, inc ∈ incs → inc.1 = "notebooks" ∧ ∃ n, inc.2 = PyInt n ∧ 1 <= n ∧ P n.
Proof.
  intros Hok. rewrite forallb_elem in Hok. setoid_rewrite increment_ok_notebook in Hok.
  split; intros H inc Hin; destruct (Hok _ Hin) as (? & n & Hn & ?).
  - split; [done|]. exists n. split_and!; try done. specialize (H _ Hin). unfold amount_of in H.
    by rewrite Hn in H.
  - destruct (H _ Hin) as (_ & n' & Hn' & _ & HP). unfold amount_of. by rewrite Hn'.
Qed.

(** The part of [require_creation] after the arguments were checked. *)
Definition check_current (ctx : LicenseContext) (incs : list (string * pyobj))
    (current : option VerifiedLicense) : M T unit :=
  match current with
  | None => usage <- usage_reader ctx ;; mfor incs (check_default usage)
  | Some v =>
      now <- clock ;;
      guard (now <? lic_expires_at v) EXPIRED ;;
      guard (bool_decide ("notebook_management" ∈ lic_features v)) FEATURE_NOT_ALLOWED ;;
      usage <- usage_reader ctx ;;
      mfor incs (check_limit usage (lic_resource_limits v))
  end.

Lemma check_current_iff ctx incs usage s current :
  (∀ t, usage_reader ctx t = (t, Ret usage)) → (∀ inc, inc ∈ incs → inc.1 = "notebooks") →
  result (check_current ctx incs current) s = Ret tt ↔
  licence_in_force (clock_at (ticks (draws_of s))) current ∧
  ∀ inc, inc ∈ incs → within_limits usage current (amount_of inc).
Proof.
  intros Hu Hn.
  assert (∀ (body : string * pyobj → M T unit) P t, (∀ x, readonly (body x)) →
    (∀ x, x ∈ incs → body x t = (t, Ret tt) ↔ P x) →
    result (mfor incs body) t = Ret tt ↔ ∀ x, x ∈ incs → P x) as Hloop.
  { intros body P t Hr HP. rewrite <- (mfor_Ret_iff incs body P t HP Hr).
    pose proof (readonly_mfor incs body Hr t). destruct (mfor incs body t). simpl in *. naive_solver. }
  destruct current as [v|]; simpl.
  - unfold bind at 1. simpl. set (t := with_draws _ s). unfold bind, guard.
    destruct (Z.ltb_spec (clock_at (ticks (draws_of s))) (lic_expires_at v)); simpl; [|naive_solver lia].
    case_bool_decide; simpl; [|naive_solver]. rewrite Hu.
    rewrite (Hloop _ (λ inc, within_limits usage (Some v) (amount_of inc)));
      [naive_solver|intros; apply readonly_check_limit|].
    intros x Hx. by apply check_limit_Ret, Hn.
  - unfold bind. rewrite Hu. rewrite (Hloop _ (λ inc, within_limits usage None (amount_of inc)));
      [naive_solver|intros; apply readonly_check_default|].
    intros x Hx. by apply check_default_Ret, Hn.
Qed.

(** C32: a call for new notebooks returns, and leaves the store as it was,
    exactly when every increment is a positive whole number of notebooks, the
    tenant's current licence, if there is one, is not expired and has the
    feature, and each increment fits under the limit (one notebook where there
    is no licence; no limit where the licence names none). *)
Theorem creation_permitted_iff ctx incs usage s :
  (∀ t, usage_reader ctx t = (t, Ret usage)) →
  let current := last (licences s (ctx_tenant_id ctx)) in
  result (require_creation usage_reader ctx "notebook.create" (Some incs)) s = Ret tt ↔
  incs ≠ [] ∧ licence_in_force (clock_at (ticks (draws_of s))) current ∧
  ∀ inc, inc ∈ incs → inc.1 = "notebooks" ∧
    ∃ n, inc.2 = PyInt n ∧ 1 <= n ∧ within_limits usage current n.
Proof.
  intros Hu current.
  replace (require_creation usage_reader ctx "notebook.create" (Some incs)) with
    (guard (negb (bool_decide (length incs = O))) ACTION_INVALID ;;
     guard (forallb (increment_ok ["notebooks"]) incs) ACTION_INVALID ;;
     stored <- repo_current ctx ;; check_current ctx incs stored) by done.
  destruct (decide (incs = [])) as [->|Hne]; [simpl; naive_solver|].
  rewrite (bind_Ret _ _ s s tt); [|apply guard_Ret; by destruct incs].
  destruct (forallb (increment_ok ["notebooks"]) incs) eqn:Hok.
  - rewrite (bind_Ret _ _ s s tt) by done.
    rewrite (bind_Ret _ _ s s current) by apply (ls_current _ _ _ HR).
    rewrite (check_current_iff _ _ usage); [|done|].
    + rewrite (increments_iff _ (within_limits usage current)) by done. naive_solver.
    + rewrite forallb_elem in Hok. intros inc Hin. by apply increment_ok_notebook, Hok.
  - split; [done|]. intros (_ & _ & H). exfalso. apply not_true_iff_false in Hok.
    apply Hok, forallb_elem. intros x Hx. apply increment_ok_notebook.
    destruct (H _ Hx) as (? & n & ? & ? & _). eauto.
Qed.
End Laws.

(** ** A concrete run *)

Module Sample.
#[local] Existing Instance checksum_digest.
#[local] Existing Instance sample_world.

Fixpoint digits_value (acc : Z) (s : string) : Z :=
  match s with
  | EmptyString => acc
  | String c s' => digits_value (acc * 10 + Z.of_N (N_of_ascii c) - 48) s'
  end.

(** A reader of [YYYY-MM-DDTHH:MM:SS+00:00]. *)
Definition digits_at (i n : nat) (s : string) : option Z :=
  let t := String.substring i n s in
  if all_chars is_digit t && Nat.eqb (String.length t) n
  then Some (digits_value 0 t)
  else None.

Definition day_number (y m d : Z) : Z :=
  let y := if m <=? 2 then y - 1 else y in
  let era := y / 400 in
  let yoe := y mod 400 in
  let doy := (153 * (if 2 <? m then m - 3 else m + 9) + 2) / 5 + d - 1 in
  era * 146097 + yoe * 365 + yoe / 4 - yoe / 100 + doy - 719468.

Definition read_seconds (s : string) : option (Z * option Z) :=
  y ← digits_at 0 4 s; mo ← digits_at 5 2 s; d ← digits_at 8 2 s;
  h ← digits_at 11 2 s; mi ← digits_at 14 2 s; se ← digits_at 17 2 s;
  if String.eqb (String.substring 19 6 s) "+00:00"
  then Some (day_number y mo d * days + h * hours + mi * minutes + se * seconds, Some 0)
  else None.

#[export] Instance seconds_reader : IsoReader := {| fromisoformat := read_seconds |}.

Example read_seconds_example :
  read_seconds "2024-02-29T12:34:56+00:00" = Some (1709210096 * seconds, Some 0).
Proof. vm_compute. reflexivity. Qed.

Definition claims : list (string * json) :=
  [("schema_version", JInt 1); ("license_id", JStr "license-0001"); ("product", JStr "daon-user");
   ("edition", JStr "team"); ("organization_id", JStr "tenant-1");
   ("issued_at", JStr "2026-09-21T00:00:00Z"); ("expires_at", JStr "2027-09-21T00:00:00Z");
   ("features", JArr [JStr "llm_access"; JStr "notebook_management"]);
   ("resource_limits", JObj [("notebooks", JInt 2); ("users", JInt 5)])].

(** A key under which a known number is the signature: the modulus is the
    difference of its cube and the padded digest. *)
Definition signature_integer : N := (2 ^ 682 + 2 ^ 681 + 12345)%N.
Definition key : RsaPublicKey :=
  mkKey (signature_integer ^ 3 -
    from_bytes (expected_encoding 256 (digest_info (canonical_claims claims))))%N 3%N.

Definition letters (n : nat) (tail : string) : string := Nat.iter n (String "A") tail.
Definition signature : string := letters 227 ("G" +:+ letters 111 "wOQ").

Definition document : json :=
  JObj [("schema_version", JInt 1); ("key_id", JStr "key-1"); ("algorithm", JStr "RS256");
        ("claims", JObj claims); ("signature", JStr signature)].

#[export] Instance sample_verifier : LicenseSignatureVerifier Repo := rsa_verifier [("key-1", key)].

(** The tenant has one notebook. *)
Definition usage : gmap string pyobj := {[ "notebooks" := PyInt 1; "users" := PyInt 3 ]}.
Definition usage_reader (ctx : LicenseContext) : M Repo (gmap string pyobj) := ret usage.

Definition alice : LicenseContext :=
  mkContext "tenant-1" "workspace-1" "alice" "trace-1" "policy-1".

Lemma key_is_valid : key_valid key = true.
Proof. vm_compute. reflexivity. Qed.

Definition s1 : Repo :=
  final (apply "daon-user" usage_reader alice document (PyStr "key-0000-0000-01")) empty_repo.

(** The document is accepted and applied. *)
Lemma s1_current : option_map lic_license_id (last (history s1 "tenant-1")) = Some "license-0001".
Proof. vm_compute. reflexivity. Qed.

Lemma verify_is_pure : ∀ document, readonly (verify (T:=Repo) document).
Proof. intros d s. apply (rsa_verify_sound [("key-1", key)] d s). Qed.

Lemma lc_s1_reachable : rtc (step "daon-user" usage_reader) empty_repo s1.
Proof. eapply rtc_once. exists alice. apply step_apply. Qed.

Lemma one_more_allowed :
  licence_in_force (clock_at (ticks (draws_of s1))) (last (history s1 "tenant-1")) ∧
  within_limits usage (last (history s1 "tenant-1")) 1.
Proof.
  assert (∃ v, last (history s1 "tenant-1") = Some v ∧
    (clock_at (ticks (draws_of s1)) <? lic_expires_at v) = true ∧
    lic_features v = ["llm_access"; "notebook_management"] ∧
    dict_get "notebooks" (lic_resource_limits v) = Some 2) as (v & -> & He & Hf & Hl).
  { vm_compute. eexists. repeat split; reflexivity. }
  apply Z.ltb_lt in He.
  assert ("notebook_management" ∈ lic_features v) as Hin by (rewrite Hf; set_solver).
  split; [exact (conj He Hin)|]. intros limit. rewrite Hl. intros [= <-].
  exists 1. split; [by vm_compute|lia].
Qed.
End Sample.

Section Witnesses.
Import Sample.
#[local] Existing Instance checksum_digest.
#[local] Existing Instance sample_world.

Lemma licences_wf_witness :
  history s1 "tenant-1" ≠ [] ∧
  licences_ok "daon-user" history (λ s k, idempotency s !! k) s1.
Proof.
  split; [by vm_compute|].
  apply (licences_wf "daon-user" usage_reader history (λ s k, idempotency s !! k) reference_refines
    verify_is_pure (λ _ _, eq_refl) empty_repo s1 s1 (λ _, eq_refl) (λ _, eq_refl) lc_s1_reachable
    (rtc_refl _ _)).
Defined.

Lemma creation_permitted_iff_witness :
  result (require_creation usage_reader alice "notebook.create" (Some [("notebooks", PyInt 1)])) s1 =
    Ret tt.
Proof.
  apply (creation_permitted_iff usage_reader history (λ s k, idempotency s !! k) reference_refines
    alice [("notebooks", PyInt 1)] usage s1 (λ _, eq_refl)).
  destruct one_more_allowed as [Hf Hw]. split; [discriminate|]. split; [exact Hf|].
  intros inc ->%list_elem_of_singleton. split; [reflexivity|].
  exists 1. split; [reflexivity|]. split; [lia|exact Hw].
Defined.
End Witnesses.
