(* ===== verification/AuditLog.v ===== *)
(** Audit events (audit.py).

    A draft is validated field by field (text, times, projections to frozen
    JSON without secrets or internal hosts) and becomes an event with a sequence
    number, the hash of its predecessor and its own.  [AuditEventStore] is the
    record [Store]; of [PostgresSecurityAuditStore] the queries on the rows a
    tenant may see.

    Theorems: verification is exact ([verify_integrity_exact]); what the
    in-memory store builds is genuine ([audit_log_genuine]); cursors
    ([cursor_round_trip]); the loop over a tenant's pages ends and finds a genuine
    log ([tenant_log_verifies]). *)

From S2P Require Import Prelude Sha256 PyStr Json HashChain Bytes.
From Stdlib Require Import NArith Ascii.
#[local] Open Scope Z_scope.

(** ** Data *)

(** [AuditValidationError]: a [ValueError] with a code and no HTTP status. *)
Definition AuditError (code : string) : exn := Raised code 0 false.

Definition MAX_TEXT_LENGTH : nat := 128.
Definition MAX_JSON_DEPTH : nat := 8.
Definition MAX_JSON_BYTES : Z := 16384.
Definition DEFAULT_PAGE_LIMIT : Z := 50.
Definition MAX_PAGE_LIMIT : Z := 200.

Definition FORBIDDEN_KEY_PARTS : list string :=
  ["password"; "secret"; "token"; "credential"; "apikey"; "rawprovidererror"; "internalurl";
   "internalhost"; "dbhost"; "dockerhost"].
Definition FORBIDDEN_VALUE_HOSTS : list string :=
  ["localhost"; "host.docker.internal"; "docker.internal"].

Inductive ActorType := USER | SERVICE | SYSTEM.
Inductive AuditOutcome := SUCCEEDED | DENIED | FAILED.
Inductive IntegrityCode :=
| OK | INVALID_EVENT | DUPLICATE_EVENT_ID | SEQUENCE_MISMATCH | PREVIOUS_HASH_MISMATCH
| EVENT_HASH_MISMATCH.

#[export] Instance actor_type_eq_dec : EqDecision ActorType.
Proof. solve_decision. Defined.
#[export] Instance audit_outcome_eq_dec : EqDecision AuditOutcome.
Proof. solve_decision. Defined.
#[export] Instance integrity_code_eq_dec : EqDecision IntegrityCode.
Proof. solve_decision. Defined.

(** [.value] of the enumerations *)
Definition actor_value (a : ActorType) : string :=
  match a with USER => "user" | SERVICE => "service" | SYSTEM => "system" end.
Definition outcome_value (o : AuditOutcome) : string :=
  match o with SUCCEEDED => "succeeded" | DENIED => "denied" | FAILED => "failed" end.
Definition code_value (c : IntegrityCode) : string :=
  match c with
  | OK => "OK"
  | INVALID_EVENT => "INVALID_EVENT"
  | DUPLICATE_EVENT_ID => "DUPLICATE_EVENT_ID"
  | SEQUENCE_MISMATCH => "SEQUENCE_MISMATCH"
  | PREVIOUS_HASH_MISMATCH => "PREVIOUS_HASH_MISMATCH"
  | EVENT_HASH_MISMATCH => "EVENT_HASH_MISMATCH"
  end.

(** A frozen JSON value: objects are read-only proxies and arrays tuples.
    (Floating-point numbers are left out of the values.) *)
Unset Elimination Schemes.
Inductive frozen :=
| FNone
| FBool (b : bool)
| FInt (z : Z)
| FStr (s : string)
| FTuple (l : list frozen)
| FProxy (l : list (string * frozen)).
Set Elimination Schemes.

Fixpoint thaw_json (f : frozen) : json :=
  match f with
  | FNone => JNull
  | FBool b => JBool b
  | FInt z => JInt z
  | FStr s => JStr s
  | FTuple l => JArr (map thaw_json l)
  | FProxy l => JObj (map (λ kv, (kv.1, thaw_json kv.2)) l)
  end.

(** A [datetime] argument: its instant and, if it has one, its offset. *)
Inductive datetime_arg :=
| NoDatetime
| Datetime (utc : Z) (offset : option Z).

(** Drafts are what callers hand in: the fields may hold anything. *)
Record AuditEventDraft := mkDraft {
  dr_event_id : pyobj;
  dr_occurred_at : datetime_arg;
  dr_actor_id : pyobj;
  dr_actor_type : option ActorType;
  dr_tenant_id : pyobj;
  dr_workspace_id : pyobj;
  dr_action : pyobj;
  dr_target_type : pyobj;
  dr_target_id : pyobj;
  dr_outcome : option AuditOutcome;
  dr_trace_id : pyobj;
  dr_policy_version : pyobj;
  dr_before : json;
  dr_after : json;
  dr_metadata : json
}.

Record AuditEvent := mkEvent {
  ev_sequence : Z;
  ev_event_id : string;
  ev_occurred_at : Z;
  ev_actor_id : string;
  ev_actor_type : ActorType;
  ev_tenant_id : string;
  ev_workspace_id : option string;
  ev_action : string;
  ev_target_type : string;
  ev_target_id : string;
  ev_outcome : AuditOutcome;
  ev_trace_id : string;
  ev_policy_version : string;
  ev_before : frozen;
  ev_after : frozen;
  ev_metadata : frozen;
  ev_previous_event_hash : string;
  ev_event_hash : string
}.

Record AuditPage := mkPage {
  pg_items : list AuditEvent;
  pg_next_cursor : option string
}.

Record IntegrityResult := mkResult {
  ir_valid : bool;
  ir_code : IntegrityCode;
  ir_position : option Z;
  ir_checked_count : Z;
  ir_head_hash : string;
  ir_message : string
}.

(** [ipaddress.ip_address] and [urllib.parse.urlsplit], whose grammars and
    address registries change with the interpreter: the canonical text of an
    address with whether it is private, loopback, link-local, reserved or
    unspecified; and the host of a URL, if the URL can be split. *)
Class HostParser := {
  ip_address : string → option (string * bool);
  url_hostname : string → option (option string)
}.

(** ** Hosts *)

Section Hosts.
Context {H : HostParser}.

(** [_normalized_key] *)
Definition normalized_key (s : string) : string :=
  string_filter (λ c, is_lower c || is_digit c) (casefold s).

(** [_is_forbidden_host] *)
Definition is_forbidden_host (hostname : string) : bool :=
  let normalized := rstrip_by (Ascii.eqb ".") (casefold hostname) in
  if bool_decide (normalized ∈ FORBIDDEN_VALUE_HOSTS) then true
  else if endswith ".internal" normalized || endswith ".local" normalized then true
  else match ip_address normalized with
       | None => false
       | Some (_, forbidden) => forbidden
       end.

Definition is_alpha (c : ascii) : bool := is_lower c || is_upper c.

(** [_ABSOLUTE_ENDPOINT_PATTERN.match(candidate)] *)
Fixpoint scheme_tail (s : string) : bool :=
  startswith "://" s ||
  match s with
  | String c s' => (is_alnum c || has_char c "+.-") && scheme_tail s'
  | EmptyString => false
  end.
Definition absolute_endpoint (s : string) : bool :=
  match s with String c s' => is_alpha c && scheme_tail s' | EmptyString => false end.

(** A label of a host name: 1 to 63 letters, digits and inner hyphens. *)
Definition label_ok (s : string) : bool :=
  match s with
  | EmptyString => false
  | String c _ =>
      is_alnum c && all_chars (λ c, is_alnum c || Ascii.eqb c "-") s &&
      negb (endswith "-" s) && Nat.leb (String.length s) 63
  end.

(** [_RAW_HOST_PATTERN.fullmatch(candidate)] *)
Definition raw_host (s : string) : bool :=
  let dotted := endswith "." s in
  let core := if dotted then String.substring 0 (String.length s - 1) s else s in
  forallb label_ok (split_on "." core) &&
  (Nat.leb (String.length s) 253 || (dotted && Nat.eqb (String.length s) 254)).

Definition port_ok (s : string) : bool :=
  all_chars is_digit s && Nat.leb 1 (String.length s) && Nat.leb (String.length s) 5.

(** [_HOST_PORT_PATTERN.fullmatch(candidate)]: the host *)
Definition host_port (s : string) : option string :=
  match s with
  | String "[" s' =>
      '(host, rest) ← split_once "]" s';
      if negb (String.eqb host "") &&
         match rest with String c port => Ascii.eqb c ":" && port_ok port | EmptyString => false end
      then Some host else None
  | _ =>
      '(host, port) ← split_once ":" s;
      if negb (String.eqb host "") && all_chars (λ c, is_alnum c || has_char c ".-") host && port_ok port
      then Some host else None
  end.

(** [candidate[1:-1]] of a bracketed candidate *)
Definition raw_address (candidate : string) : string :=
  if Nat.leb 2 (String.length candidate) && startswith "[" candidate && endswith "]" candidate
  then String.substring 1 (String.length candidate - 2) candidate
  else candidate.

(** [_validate_string_value]: the value may be recorded. *)
Definition string_value_ok (value : string) : bool :=
  let candidate := strip value in
  if match ip_address (raw_address candidate) with
     | Some (address, _) => is_forbidden_host address
     | None => false
     end then false
  else if startswith "//" candidate || absolute_endpoint candidate then
    match url_hostname candidate with
    | None => false
    | Some None => true
    | Some (Some host) => String.eqb host "" || negb (is_forbidden_host host)
    end
  else match host_port candidate with
  | Some host => negb (is_forbidden_host host)
  | None => negb (raw_host candidate && is_forbidden_host candidate)
  end.

(** The checks on a member's name. *)
Definition key_error (key : string) : option string :=
  if String.eqb key "" || Nat.ltb MAX_TEXT_LENGTH (String.length key) then Some "INVALID_JSON_KEY"
  else if existsb (λ part, contains part (normalized_key key)) FORBIDDEN_KEY_PARTS
  then Some "FORBIDDEN_JSON_KEY"
  else None.

(** [_freeze_json] *)
Fixpoint freeze_json (depth : nat) (value : json) : outcome frozen :=
  if Nat.ltb MAX_JSON_DEPTH depth then Raise (AuditError "JSON_DEPTH_EXCEEDED")
  else match value with
  | JNull => Ret FNone
  | JBool b => Ret (FBool b)
  | JInt z => Ret (FInt z)
  | JStr s => if string_value_ok s then Ret (FStr s) else Raise (AuditError "UNSAFE_JSON_VALUE")
  | JObj members =>
      match (fix go l : outcome (list (string * frozen)) :=
        match l with
        | [] => Ret []
        | (k, v) :: l' =>
            match key_error k with
            | Some code => Raise (AuditError code)
            | None =>
                match freeze_json (S depth) v with
                | Raise e => Raise e
                | Ret f => match go l' with Raise e => Raise e | Ret fs => Ret ((k, f) :: fs) end
                end
            end
        end) members with
      | Raise e => Raise e
      | Ret fs => Ret (FProxy fs)
      end
  | JArr items =>
      match (fix go l : outcome (list frozen) :=
        match l with
        | [] => Ret []
        | v :: l' =>
            match freeze_json (S depth) v with
            | Raise e => Raise e
            | Ret f => match go l' with Raise e => Raise e | Ret fs => Ret (f :: fs) end
            end
        end) items with
      | Raise e => Raise e
      | Ret fs => Ret (FTuple fs)
      end
  end.
End Hosts.

(** ** Validation *)

(** [f"INVALID_{field_name.upper()}"], with the upper-case name given *)
Definition invalid (FIELD : string) : exn := AuditError ("INVALID_" +:+ FIELD).

Definition from_outcome {T A} (o : outcome A) : M T A :=
  match o with Ret a => ret a | Raise e => raise e end.

Definition text_ok (s : string) : bool :=
  String.eqb s (strip s) && negb (String.eqb s "") && Nat.leb (String.length s) MAX_TEXT_LENGTH &&
  all_chars (λ c, negb (in_range 0 31 c)) s.

Section Validation.
Context {H : HostParser} {T : Type}.

(** [_validate_text] *)
Definition validate_text (FIELD : string) (value : pyobj) : M T string :=
  from_option (match value with PyStr s => if text_ok s then Some s else None | _ => None end)
    (invalid FIELD).

(** The same where [None] is allowed. *)
Definition validate_optional (FIELD : string) (value : pyobj) : M T (option string) :=
  match value with
  | PyNone => ret None
  | _ => s <- validate_text FIELD value ;; ret (Some s)
  end.

(** [_validate_utc] *)
Definition validate_utc (FIELD : string) (value : datetime_arg) : M T Z :=
  from_option (match value with Datetime utc (Some 0) => Some utc | _ => None end) (invalid FIELD).

(** [value is None] *)
Definition is_none (f : frozen) : bool := match f with FNone => true | _ => false end.

(** [_validate_projection] *)
Definition validate_projection (FIELD : string) (value : json) : M T frozen :=
  match value with
  | JNull => ret FNone
  | JObj _ =>
      f <- from_outcome (freeze_json 0 value) ;;
      guard (Z.of_nat (length (json_bytes false (thaw_json f))) <=? MAX_JSON_BYTES)
        (AuditError (FIELD +:+ "_TOO_LARGE")) ;;
      ret f
  | _ => raise (invalid FIELD)
  end.

(** [_validate_draft], as an event whose place in the chain is still to be
    filled in. *)
Definition validate_draft (draft : AuditEventDraft) : M T AuditEvent :=
  actor_type <- from_option (dr_actor_type draft) (AuditError "INVALID_ACTOR_TYPE") ;;
  outcome <- from_option (dr_outcome draft) (AuditError "INVALID_OUTCOME") ;;
  workspace_id <- validate_optional "WORKSPACE_ID" (dr_workspace_id draft) ;;
  metadata <- validate_projection "METADATA" (dr_metadata draft) ;;
  guard (negb (is_none metadata)) (invalid "METADATA") ;;
  event_id <- validate_text "EVENT_ID" (dr_event_id draft) ;;
  occurred_at <- validate_utc "OCCURRED_AT" (dr_occurred_at draft) ;;
  actor_id <- validate_text "ACTOR_ID" (dr_actor_id draft) ;;
  tenant_id <- validate_text "TENANT_ID" (dr_tenant_id draft) ;;
  action <- validate_text "ACTION" (dr_action draft) ;;
  target_type <- validate_text "TARGET_TYPE" (dr_target_type draft) ;;
  target_id <- validate_text "TARGET_ID" (dr_target_id draft) ;;
  trace_id <- validate_text "TRACE_ID" (dr_trace_id draft) ;;
  policy_version <- validate_text "POLICY_VERSION" (dr_policy_version draft) ;;
  before <- validate_projection "BEFORE" (dr_before draft) ;;
  after <- validate_projection "AFTER" (dr_after draft) ;;
  ret (mkEvent 0 event_id occurred_at actor_id actor_type tenant_id workspace_id action target_type
         target_id outcome trace_id policy_version before after metadata "" "").
End Validation.

(** ** The hash of an event *)

(** [_canonical_time] *)
Definition canonical_time (t : Z) : string :=
  iso_seconds t +:+ "." +:+ zpad 6 (t mod seconds) +:+ "Z".

(** [_event_payload] *)
Definition event_payload (e : AuditEvent) : json :=
  JObj [("sequence", JInt (ev_sequence e)); ("event_id", JStr (ev_event_id e));
        ("occurred_at", JStr (canonical_time (ev_occurred_at e)));
        ("actor_id", JStr (ev_actor_id e)); ("actor_type", JStr (actor_value (ev_actor_type e)));
        ("tenant_id", JStr (ev_tenant_id e)); ("workspace_id", JOpt (ev_workspace_id e));
        ("action", JStr (ev_action e)); ("target_type", JStr (ev_target_type e));
        ("target_id", JStr (ev_target_id e)); ("outcome", JStr (outcome_value (ev_outcome e)));
        ("trace_id", JStr (ev_trace_id e)); ("policy_version", JStr (ev_policy_version e));
        ("before", thaw_json (ev_before e)); ("after", thaw_json (ev_after e));
        ("metadata", thaw_json (ev_metadata e));
        ("previous_event_hash", JStr (ev_previous_event_hash e))].

#[export] Instance audit_event_chained : Chained AuditEvent := {|
  ev_previous := ev_previous_event_hash;
  ev_hash := ev_event_hash;
  ev_payload := event_payload;
  ev_ascii := false
|}.

Section Hashing.
Context {D : Digest}.

(** [_calculate_event_hash] *)
Definition calculate_event_hash (e : AuditEvent) : string :=
  sha256_hex (json_bytes false (event_payload e)).

(** [replace(provisional, event_hash=...)] of an event put at its place *)
Definition place (e : AuditEvent) (sequence : Z) (previous hash : string) : AuditEvent :=
  mkEvent sequence (ev_event_id e) (ev_occurred_at e) (ev_actor_id e) (ev_actor_type e)
    (ev_tenant_id e) (ev_workspace_id e) (ev_action e) (ev_target_type e) (ev_target_id e)
    (ev_outcome e) (ev_trace_id e) (ev_policy_version e) (ev_before e) (ev_after e) (ev_metadata e)
    previous hash.

Definition chain_event (e : AuditEvent) (sequence : Z) (previous : string) : AuditEvent :=
  let provisional := place e sequence previous GENESIS_HASH in
  place provisional sequence previous (calculate_event_hash provisional).
End Hashing.

Section Contract.
Context {H : HostParser} {T : Type}.

Definition opt_obj (o : option string) : pyobj :=
  match o with Some s => PyStr s | None => PyNone end.

(** The draft that [_validate_event_contract] checks again. *)
Definition draft_of (e : AuditEvent) : AuditEventDraft :=
  mkDraft (PyStr (ev_event_id e)) (Datetime (ev_occurred_at e) (Some 0)) (PyStr (ev_actor_id e))
    (Some (ev_actor_type e)) (PyStr (ev_tenant_id e)) (opt_obj (ev_workspace_id e))
    (PyStr (ev_action e)) (PyStr (ev_target_type e)) (PyStr (ev_target_id e)) (Some (ev_outcome e))
    (PyStr (ev_trace_id e)) (PyStr (ev_policy_version e)) (thaw_json (ev_before e))
    (thaw_json (ev_after e)) (thaw_json (ev_metadata e)).

(** [_validate_event_contract] *)
Definition validate_event_contract (e : AuditEvent) : M T unit :=
  guard (1 <=? ev_sequence e) (invalid "SEQUENCE") ;;
  guard (is_digest (ev_previous_event_hash e)) (invalid "PREVIOUS_EVENT_HASH") ;;
  guard (is_digest (ev_event_hash e)) (invalid "EVENT_HASH") ;;
  validate_draft (draft_of e) ;;
  ret tt.
End Contract.

(** ** Cursors *)

(** [_encode_cursor] *)
Definition encode_cursor (sequence : Z) : string :=
  b64encode (encode ("audit-v1:" +:+ str_int sequence)).

Definition INVALID_CURSOR : exn := invalid "CURSOR".

(** The text inside a cursor, split at its first colon. *)
Definition cursor_parts (cursor : string) : option (string * Z) :=
  if all_chars (in_range 0 127) cursor then
    bs ← b64decode_padded cursor;
    decoded ← decode_ascii bs;
    '(prefix, raw) ← split_once ":" decoded;
    sequence ← int_of_string raw;
    Some (prefix, sequence)
  else None.

(** [_decode_cursor] *)
Definition decode_cursor {T} (cursor : pyobj) : M T Z :=
  match cursor with
  | PyNone => ret 0
  | _ =>
      text <- from_option (match cursor with PyStr s => Some s | _ => None end) INVALID_CURSOR ;;
      guard (negb (String.eqb text "") && Nat.leb (String.length text) 512) INVALID_CURSOR ;;
      parts <- from_option (cursor_parts text) INVALID_CURSOR ;;
      guard (String.eqb parts.1 "audit-v1" && (0 <=? parts.2) &&
             String.eqb (encode_cursor parts.2) text) INVALID_CURSOR ;;
      ret parts.2
  end.

(** ** AuditEventStore *)

Record Store := mkStore {
  events : list AuditEvent;
  event_ids : gset string
}.

Definition empty_store : Store := mkStore [] ∅.

Section StoreOps.
Context {D : Digest} {H : HostParser}.

Definition append (draft : AuditEventDraft) : M Store AuditEvent :=
  validated <- validate_draft draft ;;
  known <- gets event_ids ;;
  guard (bool_decide (ev_event_id validated ∉ known)) (AuditError "DUPLICATE_EVENT_ID") ;;
  es <- gets events ;;
  let event := chain_event validated (Z.of_nat (length es) + 1) (head_hash es) in
  modify (λ s, mkStore (events s ++ [event]) ({[ev_event_id event]} ∪ event_ids s)) ;;
  ret event.

Definition read (event_id : pyobj) : M Store (option AuditEvent) :=
  checked <- validate_text "EVENT_ID" event_id ;;
  gets (λ s, List.find (λ e, String.eqb (ev_event_id e) checked) (events s)).

(** The filters of a listing. *)
Record Filter := mkFilter {
  fl_tenant_id : string;
  fl_workspace_id : option string;
  fl_action : option string;
  fl_outcome : option AuditOutcome;
  fl_trace_id : option string;
  fl_after : option Z;
  fl_before : option Z
}.

Definition matches {A} `{EqDecision A} (wanted : option A) (value : A) : bool :=
  match wanted with Some w => bool_decide (value = w) | None => true end.

Definition selected (f : Filter) (e : AuditEvent) : bool :=
  String.eqb (ev_tenant_id e) (fl_tenant_id f) &&
  (match fl_workspace_id f with Some w => bool_decide (ev_workspace_id e = Some w) | None => true end) &&
  matches (fl_action f) (ev_action e) && matches (fl_outcome f) (ev_outcome e) &&
  matches (fl_trace_id f) (ev_trace_id e) &&
  (match fl_after f with Some t => t <=? ev_occurred_at e | None => true end) &&
  (match fl_before f with Some t => ev_occurred_at e <=? t | None => true end).

(** The arguments of [list]. *)
Record Query := mkQuery {
  q_tenant_id : pyobj;
  q_workspace_id : pyobj;
  q_action : pyobj;
  q_outcome : option (option AuditOutcome);
  q_trace_id : pyobj;
  q_after : option datetime_arg;
  q_before : option datetime_arg;
  q_cursor : pyobj;
  q_limit : pyobj
}.

Definition validate_optional_utc {T} (FIELD : string) (value : option datetime_arg) : M T (option Z) :=
  match value with
  | None => ret None
  | Some v => t <- validate_utc FIELD v ;; ret (Some t)
  end.

(** The validation at the head of [list]: the filter, the sequence to start
    after and the limit.  [q_outcome] is [Some None] when the argument is no
    [AuditOutcome]. *)
Definition validate_query {T} (q : Query) : M T (Filter * Z * Z) :=
  tenant <- validate_text "TENANT_ID" (q_tenant_id q) ;;
  workspace <- validate_optional "WORKSPACE_ID" (q_workspace_id q) ;;
  action <- validate_optional "ACTION" (q_action q) ;;
  trace <- validate_optional "TRACE_ID" (q_trace_id q) ;;
  outcome <- from_option (match q_outcome q with
                          | None => Some None
                          | Some (Some o) => Some (Some o)
                          | Some None => None
                          end) (invalid "OUTCOME") ;;
  after <- validate_optional_utc "OCCURRED_AFTER" (q_after q) ;;
  before <- validate_optional_utc "OCCURRED_BEFORE" (q_before q) ;;
  guard (match after, before with Some a, Some b => a <=? b | _, _ => true end)
    (invalid "TIME_RANGE") ;;
  limit <- from_option (match q_limit q with
                        | PyInt n => if (1 <=? n) && (n <=? MAX_PAGE_LIMIT) then Some n else None
                        | _ => None
                        end) (invalid "LIMIT") ;;
  after_sequence <- decode_cursor (q_cursor q) ;;
  ret (mkFilter tenant workspace action outcome trace after before, after_sequence, limit).

(** The page of [limit] of the events that match. *)
Definition page (matched : list AuditEvent) (limit : Z) : AuditPage :=
  let items := take (Z.to_nat limit) matched in
  mkPage items (if limit <? Z.of_nat (length matched)
                then option_map (λ e, encode_cursor (ev_sequence e)) (last items) else None).

(** [list] *)
Definition list_events (q : Query) : M Store AuditPage :=
  checked <- validate_query q ;;
  let '(f, after_sequence, limit) := checked in
  es <- gets events ;;
  let matched := List.filter (λ e, (after_sequence <? ev_sequence e) && selected f e) es in
  ret (page matched limit).

(** [_integrity_failure] *)
Definition integrity_failure (code : IntegrityCode) (position checked_count : Z) (head : string)
    : IntegrityResult :=
  mkResult false code (Some position) checked_count head
    ("AUDIT_INTEGRITY_FAILED:" +:+ code_value code).

(** The check of one event, at [index], after [seen] and [expected]. *)
Definition check_event (index : Z) (seen : gset string) (expected : string) (e : option AuditEvent)
    : option IntegrityCode :=
  match e with
  | None => Some INVALID_EVENT
  | Some e =>
      if match result (validate_event_contract e) tt with Ret _ => false | Raise _ => true end
      then Some INVALID_EVENT
      else if bool_decide (ev_event_id e ∈ seen) then Some DUPLICATE_EVENT_ID
      else if negb (ev_sequence e =? index) then Some SEQUENCE_MISMATCH
      else if negb (String.eqb (ev_previous_event_hash e) expected) then Some PREVIOUS_HASH_MISMATCH
      else if negb (String.eqb (ev_event_hash e) (calculate_event_hash e)) then Some EVENT_HASH_MISMATCH
      else None
  end.

(** The loop of [verify_integrity], over whatever it was given ([None]: an
    object that is no event). *)
Fixpoint verify_from (index : Z) (seen : gset string) (expected : string)
    (candidate : list (option AuditEvent)) : IntegrityResult :=
  match candidate with
  | [] => mkResult true OK None (index - 1) expected "AUDIT_CHAIN_VALID"
  | e :: rest =>
      match check_event index seen expected e with
      | Some code => integrity_failure code index (index - 1) expected
      | None =>
          match e with
          | Some e => verify_from (index + 1) ({[ev_event_id e]} ∪ seen) (ev_event_hash e) rest
          | None => integrity_failure INVALID_EVENT index (index - 1) expected
          end
      end
  end.

Definition verify_events (candidate : list (option AuditEvent)) : IntegrityResult :=
  verify_from 1 ∅ GENESIS_HASH candidate.

(** [verify_integrity] *)
Definition verify_integrity (candidate : option (list (option AuditEvent))) : M Store IntegrityResult :=
  match candidate with
  | None => es <- gets events ;; ret (verify_events (map Some es))
  | Some l => ret (verify_events l)
  end.
End StoreOps.

(** ** PostgresSecurityAuditStore

    The table [security_audit_events] as the list of its rows in the order of
    their insertion: migration 0015 makes event identifiers and pairs of tenant
    and sequence unique and refuses updates and deletions, and the row policy
    shows a transaction the rows of its tenant.  A row is the event it was made
    of.  The pool, its timeouts and the locks are not modelled. *)

Definition Table : Type := list AuditEvent.

Section Postgres.
Context {D : Digest} {H : HostParser}.

Definition rows_of (tenant : string) (t : Table) : list AuditEvent :=
  List.filter (λ e, String.eqb (ev_tenant_id e) tenant) t.

Definition by_sequence (a b : AuditEvent) : bool := ev_sequence a <=? ev_sequence b.

(** [SELECT sequence,event_hash ... ORDER BY sequence DESC LIMIT 1] *)
Definition newest (rows : list AuditEvent) : option AuditEvent := last (sort_stable by_sequence rows).

(** [_append] *)
Definition pg_append (draft : AuditEventDraft) : M Table AuditEvent :=
  validated <- validate_draft draft ;;
  row <- gets (λ t, newest (rows_of (ev_tenant_id validated) t)) ;;
  let sequence := match row with None => 1 | Some e => ev_sequence e + 1 end in
  let previous := match row with None => GENESIS_HASH | Some e => ev_event_hash e end in
  let event := chain_event validated sequence previous in
  unique <- gets (λ t, forallb (λ e, negb (String.eqb (ev_event_id e) (ev_event_id event)) &&
    negb (String.eqb (ev_tenant_id e) (ev_tenant_id event) && (ev_sequence e =? ev_sequence event))) t) ;;
  guard unique (AuditError "DUPLICATE_EVENT_ID") ;;
  modify (λ t, t ++ [event]) ;;
  ret event.

(** [_event_from_row] *)
Definition event_from_row {T} (row : AuditEvent) : M T AuditEvent :=
  metadata <- validate_projection "METADATA" (thaw_json (ev_metadata row)) ;;
  guard (negb (is_none metadata)) (invalid "METADATA") ;;
  before <- validate_projection "BEFORE" (thaw_json (ev_before row)) ;;
  after <- validate_projection "AFTER" (thaw_json (ev_after row)) ;;
  let event := mkEvent (ev_sequence row) (ev_event_id row) (ev_occurred_at row) (ev_actor_id row)
    (ev_actor_type row) (ev_tenant_id row) (ev_workspace_id row) (ev_action row) (ev_target_type row)
    (ev_target_id row) (ev_outcome row) (ev_trace_id row) (ev_policy_version row) before after metadata
    (ev_previous_event_hash row) (ev_event_hash row) in
  validate_event_contract event ;;
  ret event.

Definition events_from_rows {T} (rows : list AuditEvent) : M T (list AuditEvent) :=
  mfold rows (λ acc row, e <- event_from_row row ;; ret (acc ++ [e])) [].

Definition TENANT_SCOPE_REQUIRED : exn := AuditError "TENANT_SCOPE_REQUIRED".

(** [read] *)
Definition pg_read (event_id tenant_id : pyobj) : M Table (option AuditEvent) :=
  checked <- validate_text "EVENT_ID" event_id ;;
  guard (negb (bool_decide (tenant_id = PyNone))) TENANT_SCOPE_REQUIRED ;;
  tenant <- validate_text "TENANT_ID" tenant_id ;;
  row <- gets (λ t, List.find (λ e, String.eqb (ev_event_id e) checked) (rows_of tenant t)) ;;
  match row with
  | None => ret None
  | Some row => e <- event_from_row row ;; ret (Some e)
  end.

(** [list] *)
Definition pg_list (q : Query) : M Table AuditPage :=
  checked <- validate_query q ;;
  let '(f, after_sequence, limit) := checked in
  rows <- gets (λ t, take (Z.to_nat (limit + 1)) (sort_stable by_sequence
    (List.filter (λ e, (after_sequence <? ev_sequence e) && selected f e)
       (rows_of (fl_tenant_id f) t)))) ;;
  items <- events_from_rows (take (Z.to_nat limit) rows) ;;
  ret (mkPage items (if limit <? Z.of_nat (length rows)
                     then option_map (λ e, encode_cursor (ev_sequence e)) (last items) else None)).

(** One page of everything a tenant has. *)
Definition page_query (tenant : pyobj) (cursor : option string) : Query :=
  mkQuery tenant PyNone PyNone None PyNone None None (opt_obj cursor) (PyInt MAX_PAGE_LIMIT).

(** The loop over the pages; [None]: the fuel was not enough. *)
Fixpoint pg_pages (fuel : nat) (tenant : pyobj) (cursor : option string) (acc : list AuditEvent)
    : M Table (option (list AuditEvent)) :=
  match fuel with
  | O => ret None
  | S fuel =>
      p <- pg_list (page_query tenant cursor) ;;
      let acc := acc ++ pg_items p in
      match pg_next_cursor p with
      | None => ret (Some acc)
      | Some cursor => pg_pages fuel tenant (Some cursor) acc
      end
  end.

(** [verify_integrity], of the tenant's events or of [candidate] *)
Definition pg_verify_integrity (fuel : nat) (candidate : option (list (option AuditEvent)))
    (tenant : pyobj) : M Table (option IntegrityResult) :=
  match candidate with
  | Some l => ret (Some (verify_events l))
  | None =>
      guard (negb (bool_decide (tenant = PyNone))) TENANT_SCOPE_REQUIRED ;;
      es <- pg_pages fuel tenant None [] ;;
      ret (option_map (λ es, verify_events (map Some es)) es)
  end.
End Postgres.

(** ** Freezing and thawing *)

Section Frozen.
Context {H : HostParser}.

Section FrozenInd.
Context (P : frozen → Prop).
Context (Hnone : P FNone) (Hbool : ∀ b, P (FBool b)) (Hint : ∀ z, P (FInt z))
  (Hstr : ∀ s, P (FStr s)) (Htuple : ∀ l, Forall P l → P (FTuple l))
  (Hproxy : ∀ l, Forall (λ kv, P (snd kv)) l → P (FProxy l)).

Fixpoint frozen_ind (f : frozen) : P f :=
  match f with
  | FNone => Hnone
  | FBool b => Hbool b
  | FInt z => Hint z
  | FStr s => Hstr s
  | FTuple l => Htuple l ((fix go l : Forall P l :=
      match l with
      | [] => Forall_nil_2 _
      | x :: l' => Forall_cons_2 _ _ _ (frozen_ind x) (go l')
      end) l)
  | FProxy l => Hproxy l ((fix go l : Forall (λ kv, P (snd kv)) l :=
      match l with
      | [] => Forall_nil_2 _
      | x :: l' => Forall_cons_2 _ _ _ (frozen_ind (snd x)) (go l')
      end) l)
  end.
End FrozenInd.

Lemma thaw_inj f g : thaw_json f = thaw_json g → f = g.
Proof.
  revert g. induction f as [|b|z|s|l IH|l IH] using frozen_ind; intros [|b'|z'|s'|l'|l'];
    simpl; intros Heq; try discriminate Heq; try congruence; injection Heq as Hl; f_equal.
  - revert l' Hl. induction IH as [|x l Hx _ IHl]; intros [|y l'] [=]; [done|].
    f_equal; [by apply Hx|by apply IHl].
  - revert l' Hl. induction IH as [|[k x] l Hx _ IHl]; intros [|[k' y] l'] [=]; [done|]. subst.
    f_equal; [|by apply IHl]. f_equal. by apply Hx.
Qed.

(** The members and the items, frozen one by one. *)
Fixpoint freeze_members (depth : nat) (l : list (string * json)) : outcome (list (string * frozen)) :=
  match l with
  | [] => Ret []
  | (k, v) :: l' =>
      match key_error k with
      | Some code => Raise (AuditError code)
      | None =>
          match freeze_json depth v with
          | Raise e => Raise e
          | Ret f => match freeze_members depth l' with Raise e => Raise e | Ret fs => Ret ((k, f) :: fs) end
          end
      end
  end.

Fixpoint freeze_items (depth : nat) (l : list json) : outcome (list frozen) :=
  match l with
  | [] => Ret []
  | v :: l' =>
      match freeze_json depth v with
      | Raise e => Raise e
      | Ret f => match freeze_items depth l' with Raise e => Raise e | Ret fs => Ret (f :: fs) end
      end
  end.

Lemma freeze_obj depth l :
  freeze_json depth (JObj l) =
  if Nat.ltb MAX_JSON_DEPTH depth then Raise (AuditError "JSON_DEPTH_EXCEEDED")
  else match freeze_members (S depth) l with Raise e => Raise e | Ret fs => Ret (FProxy fs) end.
Proof.
  simpl. destruct (Nat.ltb _ _); [done|].
  match goal with |- match ?a with _ => _ end = match ?b with _ => _ end =>
    assert (a = b) as ->; [|done] end.
  induction l as [|[k v] l IH]; simpl; [done|]. by rewrite IH.
Qed.

Lemma freeze_arr depth l :
  freeze_json depth (JArr l) =
  if Nat.ltb MAX_JSON_DEPTH depth then Raise (AuditError "JSON_DEPTH_EXCEEDED")
  else match freeze_items (S depth) l with Raise e => Raise e | Ret fs => Ret (FTuple fs) end.
Proof.
  simpl. destruct (Nat.ltb _ _); [done|].
  match goal with |- match ?a with _ => _ end = match ?b with _ => _ end =>
    assert (a = b) as ->; [|done] end.
  induction l as [|v l IH]; simpl; [done|]. by rewrite IH.
Qed.

(** What was frozen thaws to what it was. *)
Lemma thaw_freeze v : ∀ depth f, freeze_json depth v = Ret f → thaw_json f = v.
Proof.
  induction v as [|b|z|s|l IH|l IH] using json_ind; intros depth f.
  - simpl. case_match; by intros [= <-].
  - simpl. case_match; by intros [= <-].
  - simpl. case_match; by intros [= <-].
  - simpl. repeat case_match; by intros [= <-].
  - rewrite freeze_arr. case_match; [done|].
    destruct (freeze_items (S depth) l) as [fs|] eqn:E; intros [= <-]. simpl. f_equal.
    revert fs E. induction IH as [|v l Hv _ IHl]; simpl; intros fs E; [by simplify_eq|].
    destruct (freeze_json (S depth) v) as [f|] eqn:Ev; [|done].
    destruct (freeze_items (S depth) l) as [fs'|] eqn:El; simplify_eq. simpl.
    f_equal; [by eapply Hv|by apply IHl].
  - rewrite freeze_obj. case_match; [done|].
    destruct (freeze_members (S depth) l) as [fs|] eqn:E; intros [= <-]. simpl. f_equal.
    revert fs E. induction IH as [|[k v] l Hv _ IHl]; simpl; intros fs E; [by simplify_eq|].
    destruct (key_error k); [done|].
    destruct (freeze_json (S depth) v) as [f|] eqn:Ev; [|done].
    destruct (freeze_members (S depth) l) as [fs'|] eqn:El; simplify_eq. simpl.
    f_equal; [|by apply IHl]. f_equal. by eapply Hv.
Qed.

Lemma freeze_thaw depth v f : freeze_json depth v = Ret f → freeze_json depth (thaw_json f) = Ret f.
Proof. intros Hf. by rewrite (thaw_freeze v depth f Hf). Qed.

(** A recorded projection: an object, clean at every depth, of bounded size. *)
Definition projection_ok (f : frozen) : Prop :=
  (∃ l, thaw_json f = JObj l) ∧ freeze_json 0 (thaw_json f) = Ret f ∧
  Z.of_nat (length (json_bytes false (thaw_json f))) <= MAX_JSON_BYTES.

Definition optional_ok (f : frozen) : Prop := f = FNone ∨ projection_ok f.

(** What an event's content has to satisfy. *)
Record content_ok (e : AuditEvent) : Prop := {
  co_texts : ∀ t, t ∈ [ev_event_id e; ev_actor_id e; ev_tenant_id e; ev_action e; ev_target_type e;
                       ev_target_id e; ev_trace_id e; ev_policy_version e] → text_ok t = true;
  co_workspace : ∀ w, ev_workspace_id e = Some w → text_ok w = true;
  co_before : optional_ok (ev_before e);
  co_after : optional_ok (ev_after e);
  co_metadata : projection_ok (ev_metadata e)
}.

Context {T : Type}.

Lemma validate_projection_Ret FIELD v (s : T) f :
  validate_projection FIELD v s = (s, Ret f) ↔ thaw_json f = v ∧ optional_ok f.
Proof.
  unfold validate_projection. split.
  - destruct v as [| | | | |l]; try done; [intros [= <-]; by split; [|left]|].
    unfold bind, from_outcome. destruct (freeze_json 0 (JObj l)) as [g|] eqn:Ef; simpl; [|done].
    pose proof (thaw_freeze _ _ _ Ef) as Ht. rewrite Ht. unfold guard.
    destruct (_ <=? _) eqn:El; simpl; [|done]. intros [= <-]. split; [done|]. right.
    split; [by exists l|]. rewrite Ht. split; [done|]. by apply Z.leb_le.
  - intros [<- [->|([l Hl] & Hf & Hn)]]; [done|]. rewrite Hl in *.
    unfold bind, from_outcome. rewrite Hf. simpl. rewrite Hl. unfold guard. by apply Z.leb_le in Hn as ->.
Qed.

Lemma wp_validate_projection FIELD v (Q : outcome frozen → T → Prop) s :
  (∀ f, thaw_json f = v → optional_ok f → Q (Ret f) s) → (∀ e, Q (Raise e) s) →
  wp (validate_projection FIELD v) Q s.
Proof.
  intros HR HE. unfold wp. assert (readonly (S:=T) (validate_projection FIELD v)) as Hr.
  { unfold validate_projection. destruct v; auto with py. apply readonly_bind; auto with py.
    unfold from_outcome. case_match; auto with py. }
  specialize (Hr s). destruct (validate_projection FIELD v s) as [s' [o|e]] eqn:E; simpl in *; subst; [|done].
  apply validate_projection_Ret in E as []. auto.
Qed.

Lemma wp_validate_text FIELD v (Q : outcome string → T → Prop) s :
  (∀ t, v = PyStr t → text_ok t = true → Q (Ret t) s) → (∀ e, Q (Raise e) s) →
  wp (validate_text FIELD v) Q s.
Proof.
  intros HR HE. unfold validate_text. wp_run; auto. repeat case_match; simplify_eq. by apply HR.
Qed.

Lemma wp_validate_optional FIELD v (Q : outcome (option string) → T → Prop) s :
  (∀ o, v = opt_obj o → (∀ t, o = Some t → text_ok t = true) → Q (Ret o) s) →
  (∀ e, Q (Raise e) s) →
  wp (validate_optional FIELD v) Q s.
Proof.
  intros HR HE. unfold validate_optional. destruct v; try (by apply wp_ret, HR).
  all: apply wp_bind, wp_validate_text; [intros t [=] Ht; subst|intros; apply HE].
  apply wp_ret, HR; [done|]. by intros ? [= <-].
Qed.

Lemma validate_text_Ret FIELD t (s : T) : text_ok t = true → validate_text FIELD (PyStr t) s = (s, Ret t).
Proof. unfold validate_text. by intros ->. Qed.

Lemma validate_optional_Ret FIELD o (s : T) :
  (∀ t, o = Some t → text_ok t = true) → validate_optional FIELD (opt_obj o) s = (s, Ret o).
Proof.
  intros Ho. destruct o as [t|]; [|done]. unfold validate_optional. simpl.
  rewrite (bind_Ret _ _ s s t); [done|]. by apply validate_text_Ret, Ho.
Qed.

End Frozen.

Ltac au_step :=
  lazymatch goal with
  | |- wp (validate_text _ _) _ _ => apply wp_validate_text; [intros ? ? ?|intros ?]
  | |- wp (validate_optional _ _) _ _ => apply wp_validate_optional; [intros ? ? ?|intros ?]
  | |- wp (validate_projection _ _) _ _ => apply wp_validate_projection; [intros ? ? ?|intros ?]
  | |- wp (validate_utc _ _) _ _ => unfold validate_utc
  | _ => wp_step
  end; cbn beta iota.
Ltac au_run := repeat au_step.

Section Drafts.
Context {H : HostParser} {T : Type}.

(** The validated event is the draft with typed fields. *)
Lemma validate_draft_ok d s :
  wp (S:=T) (validate_draft d) (λ o s', s' = s ∧ match o with
    | Ret e => d = draft_of e ∧ content_ok e ∧ e = place e 0 "" ""
    | Raise _ => True
    end) s.
Proof.
  unfold validate_draft. au_run; try done. split; [done|].
  destruct d as [id at_ actor ty tenant ws action tt ti oc tr pol bef aft meta]. simpl in *.
  destruct at_ as [|utc [[]|]]; simplify_eq/=. split_and!; [done| |done].
  constructor; simpl; try done; [intros x Hx; set_unfold in Hx; naive_solver|].
  match goal with H : optional_ok ?f |- projection_ok ?f => destruct H as [->|]; done end.
Qed.

Lemma validate_draft_Ret e (s : T) :
  content_ok e → validate_draft (draft_of e) s = (s, Ret (place e 0 "" "")).
Proof.
  intros [Ht Hw Hb Ha Hm]. unfold validate_draft.
  assert (∀ t F, t ∈ [ev_event_id e; ev_actor_id e; ev_tenant_id e; ev_action e; ev_target_type e;
    ev_target_id e; ev_trace_id e; ev_policy_version e] → validate_text (T:=T) F (PyStr t) s = (s, Ret t))
    as Hv by (intros; by apply validate_text_Ret, Ht).
  rewrite (bind_Ret _ _ s s (ev_actor_type e)) by done.
  rewrite (bind_Ret _ _ s s (ev_outcome e)) by done.
  rewrite (bind_Ret _ _ s s (ev_workspace_id e)) by by apply validate_optional_Ret.
  rewrite (bind_Ret _ _ s s (ev_metadata e))
    by (apply validate_projection_Ret; split; [done|by right]).
  rewrite (bind_Ret _ _ s s tt).
  2: { apply guard_Ret. destruct Hm as ([l Hl] & _). by destruct (ev_metadata e). }
  rewrite (bind_Ret _ _ s s (ev_event_id e)) by (apply Hv; set_solver).
  rewrite (bind_Ret _ _ s s (ev_occurred_at e)) by done.
  rewrite (bind_Ret _ _ s s (ev_actor_id e)) by (apply Hv; set_solver).
  rewrite (bind_Ret _ _ s s (ev_tenant_id e)) by (apply Hv; set_solver).
  rewrite (bind_Ret _ _ s s (ev_action e)) by (apply Hv; set_solver).
  rewrite (bind_Ret _ _ s s (ev_target_type e)) by (apply Hv; set_solver).
  rewrite (bind_Ret _ _ s s (ev_target_id e)) by (apply Hv; set_solver).
  rewrite (bind_Ret _ _ s s (ev_trace_id e)) by (apply Hv; set_solver).
  rewrite (bind_Ret _ _ s s (ev_policy_version e)) by (apply Hv; set_solver).
  rewrite (bind_Ret _ _ s s (ev_before e)) by by apply validate_projection_Ret.
  by rewrite (bind_Ret _ _ s s (ev_after e)) by by apply validate_projection_Ret.
Qed.

Lemma draft_of_inj e e' : draft_of e = draft_of e' → place e 0 "" "" = place e' 0 "" "".
Proof.
  assert (∀ o o', opt_obj o = opt_obj o' → o = o') as Hopt by (by intros [] [] [=]; subst).
  destruct e, e'. unfold draft_of, place. simpl. intros [= -> -> -> -> -> Hw -> -> -> -> -> -> Hb Ha Hm].
  apply Hopt in Hw as ->. apply thaw_inj in Hb as ->. apply thaw_inj in Ha as ->.
  by apply thaw_inj in Hm as ->.
Qed.

Lemma content_ok_place e n p h : content_ok (place e n p h) ↔ content_ok e.
Proof. split; intros []; by constructor. Qed.

(** What the contract of an event asks. *)
Definition event_ok (e : AuditEvent) : Prop :=
  1 <= ev_sequence e ∧ is_digest (ev_previous_event_hash e) = true ∧
  is_digest (ev_event_hash e) = true ∧ content_ok e.

Lemma contract_iff e (s : T) : result (validate_event_contract e) s = Ret tt ↔ event_ok e.
Proof.
  unfold validate_event_contract. split.
  - enough (wp (S:=T) (guard (1 <=? ev_sequence e) (invalid "SEQUENCE") ;;
        guard (is_digest (ev_previous_event_hash e)) (invalid "PREVIOUS_EVENT_HASH") ;;
        guard (is_digest (ev_event_hash e)) (invalid "EVENT_HASH") ;;
        validate_draft (draft_of e) ;; ret tt) (λ o _, o = Ret tt → event_ok e) s) as Hw by exact Hw.
    au_run; try done. eapply wp_mono; [|apply validate_draft_ok].
    intros [e'|] s' [-> He]; [|done]. destruct He as (Hd & Hc & He'). apply wp_ret. intros _. bools.
    split_and!; try done. apply draft_of_inj in Hd.
    apply (content_ok_place e 0 "" ""). by rewrite Hd, content_ok_place.
  - intros (Hs & Hp & Hh & Hc). rewrite (bind_Ret _ _ s s tt) by (apply guard_Ret; by apply Z.leb_le).
    rewrite (bind_Ret _ _ s s tt) by by apply guard_Ret.
    rewrite (bind_Ret _ _ s s tt) by by apply guard_Ret.
    by rewrite (bind_Ret _ _ s s (place e 0 "" "")) by by apply validate_draft_Ret.
Qed.
End Drafts.

(** ** Verification is exact *)

Section Genuine.
Context {D : Digest} {H : HostParser}.

(** A log as the store would have written it. *)
Record genuine (es : list AuditEvent) : Prop := {
  gn_chain : chain_ok es;
  gn_sequence : ∀ i e, es !! i = Some e → ev_sequence e = Z.of_nat i + 1;
  gn_distinct : NoDup (map ev_event_id es);
  gn_events : Forall event_ok es
}.

(** The event continues a log of [index - 1] events. *)
Definition continues (index : Z) (seen : gset string) (expected : string) (e : AuditEvent) : Prop :=
  event_ok e ∧ (ev_event_id e ∉ seen) ∧ ev_sequence e = index ∧
  ev_previous_event_hash e = expected ∧ ev_event_hash e = calculate_event_hash e.

Lemma check_event_iff index seen expected e :
  check_event index seen expected (Some e) = None ↔ continues index seen expected e.
Proof.
  unfold check_event, continues. rewrite <- (contract_iff e tt).
  assert (∀ o : outcome unit, match o with Ret _ => false | Raise _ => true end = false ↔ o = Ret tt)
    as Ho by (by intros [[]|]).
  specialize (Ho (result (validate_event_contract e) tt)). destruct (match _ with Ret _ => _ | _ => _ end).
  { split; [done|]. intros (H0 & _). by apply Ho in H0. }
  assert (result (validate_event_contract e) tt = Ret tt) as Hc by by apply Ho.
  case_bool_decide; [naive_solver|]. destruct (Z.eqb_spec (ev_sequence e) index); [|naive_solver].
  simpl. destruct (String.eqb_spec (ev_previous_event_hash e) expected); [|naive_solver].
  simpl. destruct (String.eqb_spec (ev_event_hash e) (calculate_event_hash e)); naive_solver.
Qed.

Lemma check_event_code index seen expected e code :
  check_event index seen expected e = Some code → code ≠ OK.
Proof. unfold check_event. repeat case_match; by intros [= <-]. Qed.

Fixpoint genuine_from (index : Z) (seen : gset string) (expected : string) (es : list AuditEvent) : Prop :=
  match es with
  | [] => True
  | e :: es' =>
      continues index seen expected e ∧
      genuine_from (index + 1) ({[ev_event_id e]} ∪ seen) (ev_event_hash e) es'
  end.

Lemma genuine_from_iff es : ∀ index seen expected,
  genuine_from index seen expected es ↔
  chain_from expected es ∧ (∀ i e, es !! i = Some e → ev_sequence e = index + Z.of_nat i) ∧
  NoDup (map ev_event_id es) ∧ (∀ e, e ∈ es → ev_event_id e ∉ seen) ∧ Forall event_ok es.
Proof.
  induction es as [|e es IH]; intros index seen expected; simpl.
  { split; [|done]. intros _. split_and!; try done; [constructor|set_solver]. }
  rewrite IH, NoDup_cons, Forall_cons. unfold continues. setoid_rewrite elem_of_cons. split.
  - intros ((Hok & Hseen & Hi & Hp & Hh) & Hc & Hs & Hd & Hn & Hall). split_and!; try done.
    + intros [|i] x Hx; simpl in Hx; simplify_eq; [lia|]. rewrite (Hs _ _ Hx). lia.
    + intros (x & Hx & Hin)%list_elem_of_fmap. specialize (Hn x Hin). set_solver.
    + intros x [->|Hx]; [done|]. specialize (Hn x Hx). set_solver.
  - intros ((Hp & Hh & Hc) & Hs & (Hne & Hd) & Hn & Hok & Hall). split_and!; try done.
    + apply Hn. by left.
    + specialize (Hs 0%nat e eq_refl). lia.
    + intros i x Hx. specialize (Hs (S i) x Hx). lia.
    + intros x Hx. specialize (Hn x (or_intror Hx)).
      assert (ev_event_id x ≠ ev_event_id e); [|set_solver].
      intros Heq. apply Hne. rewrite <- Heq. by apply list_elem_of_fmap_2.
Qed.

Lemma genuine_iff es : genuine es ↔ genuine_from 1 ∅ GENESIS_HASH es.
Proof.
  rewrite genuine_from_iff. split.
  - intros [Hc Hs Hd He]. split_and!; try done. intros i e Hi. rewrite (Hs _ _ Hi). lia.
  - intros (Hc & Hs & Hd & _ & He). constructor; try done. intros i e Hi. rewrite (Hs _ _ Hi). lia.
Qed.

Definition ids_of (es : list AuditEvent) : gset string := list_to_set (map ev_event_id es).

Lemma genuine_from_snoc es e : ∀ index seen expected,
  genuine_from index seen expected (es ++ [e]) ↔
  genuine_from index seen expected es ∧
  continues (index + Z.of_nat (length es)) (ids_of es ∪ seen) (head_from expected es) e.
Proof.
  induction es as [|x es IH]; intros index seen expected; simpl.
  - unfold ids_of. simpl. rewrite (left_id_L ∅ (∪)), Z.add_0_r. unfold head_from. simpl. tauto.
  - rewrite IH, head_from_cons. unfold ids_of. simpl.
    replace (index + 1 + Z.of_nat (length es)) with (index + Z.of_nat (S (length es))) by lia.
    rewrite (assoc_L (∪) (list_to_set _) {[_]} seen), (comm_L (∪) (list_to_set _) {[_]}). tauto.
Qed.

(** What the loop finds: everything continues the log, or the first thing that
    does not. *)
Lemma verify_from_spec candidate : ∀ index seen expected,
  (∃ es, candidate = map Some es ∧ genuine_from index seen expected es ∧
     verify_from index seen expected candidate =
       mkResult true OK None (index - 1 + Z.of_nat (length es)) (head_from expected es)
         "AUDIT_CHAIN_VALID") ∨
  (∃ es bad rest code, candidate = map Some es ++ bad :: rest ∧ genuine_from index seen expected es ∧
     check_event (index + Z.of_nat (length es)) (ids_of es ∪ seen) (head_from expected es) bad =
       Some code ∧
     verify_from index seen expected candidate =
       integrity_failure code (index + Z.of_nat (length es)) (index - 1 + Z.of_nat (length es))
         (head_from expected es)).
Proof.
  induction candidate as [|o rest IH]; intros index seen expected.
  { left. exists []. simpl. rewrite Z.add_0_r. done. }
  destruct (check_event index seen expected o) as [code|] eqn:E.
  { right. exists [], o, rest, code. simpl. rewrite E, !Z.add_0_r. split_and!; try done.
    unfold ids_of. simpl. by rewrite (left_id_L ∅ (∪)). }
  destruct o as [e|]; [|done]. pose proof E as Hc. apply check_event_iff in Hc.
  cbn [verify_from]. rewrite E.
  destruct (IH (index + 1) ({[ev_event_id e]} ∪ seen) (ev_event_hash e))
    as [(es & -> & Hg & ->)|(es & bad & rest' & code & -> & Hg & Hbad & ->)].
  - left. exists (e :: es). rewrite head_from_cons. split_and!; [done..|]. f_equal. simpl. lia.
  - right. exists (e :: es), bad, rest', code. rewrite head_from_cons. split_and!; [done|done| |].
    + rewrite <- Hbad. f_equal; [simpl; lia|]. unfold ids_of. simpl.
      by rewrite (assoc_L (∪) (list_to_set _) {[_]} seen), (comm_L (∪) (list_to_set _) {[_]}).
    + f_equal; simpl; lia.
Qed.

(** C34: verification is exact.  It reports [OK], with the number of events and
    the head, on a genuine log: a hash chain from the genesis hash, numbered
    from 1, of distinct valid events.  On anything else it reports the first
    position at which the input stops being one: what is before it is genuine,
    is counted and has the reported head, and what is there does not continue
    it. *)
Theorem verify_integrity_exact candidate :
  (∃ es, candidate = map Some es ∧ genuine es ∧
     verify_events candidate =
       mkResult true OK None (Z.of_nat (length es)) (head_hash es) "AUDIT_CHAIN_VALID") ∨
  (∃ es bad rest code, candidate = map Some es ++ bad :: rest ∧ genuine es ∧ code ≠ OK ∧
     (∀ e, bad = Some e → ¬ genuine (es ++ [e])) ∧
     verify_events candidate =
       integrity_failure code (Z.of_nat (length es) + 1) (Z.of_nat (length es)) (head_hash es)).
Proof.
  destruct (verify_from_spec candidate 1 ∅ GENESIS_HASH)
    as [(es & -> & Hg & Hv)|(es & bad & rest & code & -> & Hg & Hc & Hv)].
  - left. exists es. split_and!; [done|by apply genuine_iff|]. unfold verify_events. rewrite Hv.
    f_equal; lia.
  - right. exists es, bad, rest, code. split_and!; [done|by apply genuine_iff| | |].
    + by eapply check_event_code.
    + intros e ->. rewrite genuine_iff, genuine_from_snoc. intros [_ He].
      apply check_event_iff in He. congruence.
    + unfold verify_events. rewrite Hv. f_equal; lia.
Qed.

Lemma verify_from_genuine es : ∀ index seen expected,
  genuine_from index seen expected es →
  verify_from index seen expected (map Some es) =
    mkResult true OK None (index - 1 + Z.of_nat (length es)) (head_from expected es) "AUDIT_CHAIN_VALID".
Proof.
  induction es as [|e es IH]; intros index seen expected; [by rewrite Z.add_0_r|].
  intros [Hc Hg]. cbn [map verify_from]. apply check_event_iff in Hc as ->.
  rewrite IH, head_from_cons by done. f_equal. simpl. lia.
Qed.

Lemma verify_genuine es :
  genuine es →
  verify_events (map Some es) =
    mkResult true OK None (Z.of_nat (length es)) (head_hash es) "AUDIT_CHAIN_VALID".
Proof.
  intros Hg%genuine_iff. unfold verify_events. rewrite verify_from_genuine by done. f_equal; lia.
Qed.

Lemma hash_of_head es : Forall event_ok es → is_digest (head_hash es) = true.
Proof.
  intros He. unfold head_hash. destruct (last es) as [e|] eqn:El; [|done].
  rewrite Forall_forall in He. apply (He e). by apply last_Some_elem_of.
Qed.

(** The event made for the end of a log continues it. *)
Lemma genuine_snoc es v :
  genuine es → content_ok v → ev_event_id v ∉ map ev_event_id es →
  genuine (es ++ [chain_event v (Z.of_nat (length es) + 1) (head_hash es)]).
Proof.
  intros Hg Hv Hnew. pose proof Hg as [_ _ _ He]. apply genuine_iff in Hg.
  apply genuine_iff, genuine_from_snoc. split; [done|].
  unfold continues, event_ok, chain_event. simpl. split_and!; try done.
  - lia.
  - by apply hash_of_head.
  - apply sha256_hex_shape.
  - destruct Hv. by constructor.
  - unfold ids_of. rewrite (right_id_L ∅ (∪)), elem_of_list_to_set. done.
  - lia.
Qed.
End Genuine.

(** ** The store *)

Section Reachable.
Context {D : Digest} {H : HostParser}.

Inductive step (s : Store) : Store → Prop :=
| step_append draft : step s (final (append draft) s)
| step_read id : step s (final (read id) s)
| step_list q : step s (final (list_events q) s)
| step_verify candidate : step s (final (verify_integrity candidate) s).

Definition reachable (s : Store) : Prop := rtc step empty_store s.

Definition store_ok (s : Store) : Prop :=
  genuine (events s) ∧ event_ids s = list_to_set (map ev_event_id (events s)).

Lemma append_ok draft s :
  wp (append draft) (λ o s', match o with
    | Ret e => draft = draft_of e ∧ content_ok e ∧
        (ev_event_id e ∉ event_ids s) ∧
        e = chain_event e (Z.of_nat (length (events s)) + 1) (head_hash (events s)) ∧
        s' = mkStore (events s ++ [e]) ({[ev_event_id e]} ∪ event_ids s)
    | Raise _ => s' = s
    end) s.
Proof.
  unfold append. apply wp_bind. eapply wp_mono; [|apply validate_draft_ok].
  intros [v|e] s' [-> Hv]; [|done]. destruct Hv as (-> & Hc & Hv). wp_run; [|done]. bools.
  split_and!; try done. destruct Hc. by constructor.
Qed.

Lemma readonly_validate_text {T} F v : readonly (S:=T) (validate_text F v).
Proof. unfold validate_text. auto with py. Qed.

Lemma readonly_validate_optional {T} F v : readonly (S:=T) (validate_optional F v).
Proof. unfold validate_optional. destruct v; auto using readonly_validate_text with py. Qed.

Lemma readonly_validate_optional_utc {T} F v : readonly (S:=T) (validate_optional_utc F v).
Proof. unfold validate_optional_utc, validate_utc. destruct v; auto with py. Qed.

Lemma readonly_decode_cursor {T} c : readonly (S:=T) (decode_cursor c).
Proof. unfold decode_cursor. destruct c; auto 8 with py. Qed.

#[local] Hint Resolve readonly_validate_text readonly_validate_optional readonly_decode_cursor
  readonly_validate_optional_utc : py.

Lemma readonly_validate_query {T} q : readonly (S:=T) (validate_query q).
Proof. unfold validate_query. repeat (apply readonly_bind; [by auto with py|intros ?]). auto with py. Qed.

Lemma readonly_list q : readonly (list_events q).
Proof.
  unfold list_events. apply readonly_bind; [apply readonly_validate_query|]. intros [[f a] l].
  auto with py.
Qed.

Lemma au_step_store_ok s s' : step s s' → store_ok s → store_ok s'.
Proof.
  intros Hstep [Hg Hids]. destruct Hstep as [draft|id|q|candidate].
  - enough (wp (append draft) (λ _, store_ok) s) by done.
    eapply wp_mono; [|apply append_ok]. intros [e|] s'; [|by intros ->].
    intros (_ & Hc & Hnew & He & ->). split; simpl.
    + rewrite He. apply genuine_snoc; [done|done|]. by rewrite Hids, elem_of_list_to_set in Hnew.
    + rewrite map_app, list_to_set_app_L, Hids. simpl. set_solver.
  - assert (readonly (read id)) as Hr by (unfold read; auto with py). by rewrite Hr.
  - by rewrite readonly_list.
  - assert (readonly (verify_integrity candidate)) as Hr
      by (unfold verify_integrity; destruct candidate; auto with py). by rewrite Hr.
Qed.

(** The place of an event in the chain is part of what is hashed. *)
Lemma payload_previous (e e' : AuditEvent) :
  canon (ev_payload e) = canon (ev_payload e') → ev_previous e = ev_previous e'.
Proof.
  intros Hc.
  assert (("previous_event_hash", JStr (ev_previous_event_hash e)) ∈
    match event_payload e with JObj l => l | _ => [] end) as Hin by (simpl; set_solver).
  destruct (canon_obj_member _ _ _ _ Hc Hin) as (v & Hv & Heq).
  repeat (apply elem_of_cons in Hv as [Hv|Hv]; [try discriminate Hv|]); [|by apply elem_of_nil in Hv].
  injection Hv as ->. cbn in *. congruence.
Qed.

(** C35: every log the store can have built is genuine and verifies with its
    length and head; it is tamper evident, in that another genuine log of that
    length and head has the same contents at every position unless two contents
    at one position collide; and an appended draft is recorded as it was given,
    at the next number, once per identifier. *)
Theorem audit_log_genuine s :
  reachable s →
  genuine (events s) ∧
  verify_integrity None s =
    (s, Ret (mkResult true OK None (Z.of_nat (length (events s))) (head_hash (events s))
               "AUDIT_CHAIN_VALID")) ∧
  (∀ log, genuine log → length log = length (events s) → head_hash log = head_hash (events s) →
     (∀ i, ¬ collision_at i log (events s)) →
     map (λ e, canon (event_payload e)) log = map (λ e, canon (event_payload e)) (events s)) ∧
  ∀ draft, match append draft s with
    | (s', Ret e) => draft = draft_of e ∧ ev_sequence e = Z.of_nat (length (events s)) + 1 ∧
        (ev_event_id e ∉ map ev_event_id (events s)) ∧ events s' = events s ++ [e]
    | (s', Raise _) => s' = s
    end.
Proof.
  intros Hr. assert (store_ok s) as [Hg Hids].
  { eapply rtc_invariant; [|exact Hr|].
    - intros x y Hx Hxy. by eapply au_step_store_ok.
    - split; [|done]. by apply genuine_iff. }
  split_and!; [done| | |].
  - unfold verify_integrity, bind, gets. simpl. by rewrite verify_genuine.
  - intros log [Hc _ _ _] Hl Hh Hn. destruct Hg as [Hg _ _ _].
    by apply (chain_contents_unique log payload_previous GENESIS_HASH GENESIS_HASH).
  - intros draft. pose proof (append_ok draft s) as Ha. unfold wp in Ha.
    destruct (append draft s) as [s' [e|]]; simpl in Ha; [|done]. destruct Ha as (-> & _ & Hnew & He & ->).
    split_and!; [done|by rewrite He| |done]. by rewrite Hids, elem_of_list_to_set in Hnew.
Qed.
End Reachable.

(** ** Cursors *)

Section Cursors.
Context {T : Type}.

Lemma str_int_ascii n : all_chars (in_range 0 127) (str_int n) = true.
Proof.
  eapply all_chars_impl; [|apply str_int_chars].
  by intros [[] [] [] [] [] [] [] []].
Qed.

Lemma cursor_text_ascii n : all_chars (in_range 0 127) ("audit-v1:" +:+ str_int n) = true.
Proof. by rewrite all_chars_app, str_int_ascii. Qed.

Lemma cursor_parts_encode n : 0 <= n → cursor_parts (encode_cursor n) = Some ("audit-v1", n).
Proof.
  intros Hn. unfold cursor_parts, encode_cursor.
  destruct (decode_encode_ascii _ (cursor_text_ascii n)) as (Hd & Hf & _).
  assert (∀ s, split_once ":" ("audit-v1:" +:+ s) = Some ("audit-v1", s)) as Hs by reflexivity.
  rewrite b64encode_ascii, b64decode_encode by done. cbn [mbind option_bind].
  rewrite Hd. cbn [mbind option_bind]. rewrite Hs. cbn [mbind option_bind].
  by rewrite int_of_str_int.
Qed.

Lemma encode_cursor_length n : 0 <= n < 2 ^ 63 → (1 <= String.length (encode_cursor n) <= 512)%nat.
Proof.
  intros Hn. unfold encode_cursor.
  destruct (decode_encode_ascii _ (cursor_text_ascii n)) as (_ & _ & Hl).
  pose proof (b64encode_length (encode ("audit-v1:" +:+ str_int n))) as Hb. rewrite Hl in Hb.
  assert (String.length (str_int n) <= 20)%nat.
  { apply (str_int_length 19). split; [lia|]. by etrans; [apply Hn|]. }
  rewrite string_length_app in Hb, Hl. change (String.length "audit-v1:") with 9%nat in Hb, Hl.
  split; [apply b64encode_nonempty; lia|lia].
Qed.

(** Cursors go around: the cursor of a sequence number below 2^63 decodes
    to it, and nothing else does, whatever the lenient decoder would make of
    it: a text is accepted only if it is the cursor of a number. *)
Theorem cursor_round_trip (s : T) :
  (∀ n, 0 <= n < 2 ^ 63 → decode_cursor (PyStr (encode_cursor n)) s = (s, Ret n)) ∧
  (∀ c s' n, decode_cursor (PyStr c) s = (s', Ret n) → c = encode_cursor n ∧ 0 <= n) ∧
  (∀ n m, 0 <= n < 2 ^ 63 → 0 <= m < 2 ^ 63 → encode_cursor n = encode_cursor m → n = m).
Proof.
  assert (∀ n, 0 <= n < 2 ^ 63 → decode_cursor (PyStr (encode_cursor n)) s = (s, Ret n)) as Hrt.
  { intros n Hn. pose proof (encode_cursor_length n Hn) as Hl. unfold decode_cursor.
    rewrite (bind_Ret _ _ s s (encode_cursor n)) by done.
    rewrite (bind_Ret _ _ s s tt).
    2: { apply guard_Ret, andb_true_iff. split; [|apply Nat.leb_le; lia].
      destruct (encode_cursor n); [simpl in Hl; lia|done]. }
    rewrite (bind_Ret _ _ s s ("audit-v1", n)) by by rewrite cursor_parts_encode by lia.
    rewrite (bind_Ret _ _ s s tt); [done|]. apply guard_Ret, andb_true_iff.
    split; [|apply String.eqb_refl]. apply andb_true_iff. split; [done|apply Z.leb_le; simpl; lia]. }
  split_and!; [done| |].
  - intros c s' n Hd.
    enough (wp (S:=T) (decode_cursor (PyStr c))
      (λ o _, match o with Ret n => c = encode_cursor n ∧ 0 <= n | Raise _ => True end) s) as Hw.
    { unfold wp in Hw. by rewrite Hd in Hw. }
    unfold decode_cursor. wp_run; try done. simplify_eq. bools. by split.
  - intros n m Hn Hm Heq. pose proof (Hrt n Hn) as H1. rewrite Heq, (Hrt m Hm) in H1. by simplify_eq.
Qed.
End Cursors.

(** ** The table and its pages *)

Section Pages.
Context {D : Digest} {H : HostParser}.

Lemma contract_Ret {T} e (s : T) : event_ok e → validate_event_contract e s = (s, Ret tt).
Proof.
  intros He. pose proof (proj2 (contract_iff e s) He) as Hr.
  assert (readonly (S:=T) (validate_event_contract e)) as Hro.
  { intros t. enough (wp (S:=T) (validate_event_contract e) (λ _ t', t' = t) t) by done.
    unfold validate_event_contract. wp_run; try done.
    eapply wp_mono; [|apply validate_draft_ok]. by intros [?|] t' [-> _]. }
  specialize (Hro s). destruct (validate_event_contract e s). simpl in *. by subst.
Qed.

(** A stored event is read back as it is. *)
Lemma event_from_row_Ret {T} e (s : T) : event_ok e → event_from_row e s = (s, Ret e).
Proof.
  intros He. pose proof He as (_ & _ & _ & [_ _ Hb Ha Hm]). unfold event_from_row.
  rewrite (bind_Ret _ _ s s (ev_metadata e)) by (apply validate_projection_Ret; split; [done|by right]).
  rewrite (bind_Ret _ _ s s tt).
  2: { apply guard_Ret. destruct Hm as ([l Hl] & _). by destruct (ev_metadata e). }
  rewrite (bind_Ret _ _ s s (ev_before e)) by by apply validate_projection_Ret.
  rewrite (bind_Ret _ _ s s (ev_after e)) by by apply validate_projection_Ret.
  rewrite (bind_Ret _ _ s s tt); [by destruct e|]. apply contract_Ret. by destruct e.
Qed.

Lemma events_from_rows_Ret {T} rows (s : T) :
  Forall event_ok rows → events_from_rows rows s = (s, Ret rows).
Proof.
  intros Hr. unfold events_from_rows.
  enough (∀ acc, mfold rows (λ acc row, e <- event_from_row row ;; ret (acc ++ [e])) acc s =
    (s, Ret (acc ++ rows))) as Hacc by apply Hacc.
  induction Hr as [|e rows He _ IH]; intros acc; simpl; [by rewrite app_nil_r|].
  rewrite (bind_Ret _ _ s s (acc ++ [e])); [by rewrite IH, <- app_assoc|].
  by rewrite (bind_Ret _ _ s s e) by by apply event_from_row_Ret.
Qed.

Lemma sequence_sorted es : ∀ base,
  (∀ i e, es !! i = Some e → ev_sequence e = base + Z.of_nat i) →
  Sorted (λ a b, by_sequence a b = true) es.
Proof.
  induction es as [|e es IH]; intros base Hs; constructor.
  - apply (IH (base + 1)). intros i x Hx. rewrite (Hs (S i) x Hx). lia.
  - destruct es as [|e' es]; constructor. apply Z.leb_le.
    rewrite (Hs 0%nat e eq_refl), (Hs 1%nat e' eq_refl). lia.
Qed.

(** The rows after a number are the rest of a genuine log. *)
Lemma rows_after (p : AuditEvent → bool) es : ∀ base after,
  (∀ i e, es !! i = Some e → ev_sequence e = base + Z.of_nat i) → (∀ e, e ∈ es → p e = true) →
  List.filter (λ e, (base + Z.of_nat after - 1 <? ev_sequence e) && p e) es = drop after es.
Proof.
  induction es as [|e es IH]; intros base after Hs Hp; [by destruct after|].
  pose proof (Hs 0%nat e eq_refl) as H0. simpl.
  assert (∀ i x, es !! i = Some x → ev_sequence x = base + 1 + Z.of_nat i) as Hs'.
  { intros i x Hx. rewrite (Hs (S i) x Hx). lia. }
  assert (∀ x, x ∈ es → p x = true) as Hp' by (intros; apply Hp; by right).
  rewrite (Hp e) by left. rewrite andb_true_r. destruct (Z.ltb_spec (base + Z.of_nat after - 1) (ev_sequence e)).
  - assert (after = 0%nat) as -> by lia. rewrite drop_0. f_equal.
    rewrite <- (drop_0 es) at 2. rewrite <- (IH (base + 1) 0%nat) by done.
    apply List.filter_ext_in. intros x Hx%list_elem_of_In.
    apply list_elem_of_lookup in Hx as [i Hi]. rewrite (Hs' _ _ Hi). f_equal.
    apply eq_true_iff_eq. rewrite !Z.ltb_lt. lia.
  - destruct after as [|after]; [lia|]. simpl. rewrite <- (IH (base + 1)) by done.
    apply List.filter_ext. intros x. f_equal. f_equal. lia.
Qed.

Definition everything (tenant : string) : Filter := mkFilter tenant None None None None None None.

Lemma everything_selected tenant t e : e ∈ rows_of tenant t → selected (everything tenant) e = true.
Proof.
  unfold rows_of. intros [_ He]%list_elem_of_In%List.filter_In. unfold selected. simpl. by rewrite He.
Qed.

(** The cursor after [n] events. *)
Definition cursor_at (n : nat) : option string :=
  match n with O => None | _ => Some (encode_cursor (Z.of_nat n)) end.

Lemma validate_page_query {T} tenant n (s : T) :
  text_ok tenant = true → Z.of_nat n < 2 ^ 63 →
  validate_query (page_query (PyStr tenant) (cursor_at n)) s =
    (s, Ret (everything tenant, Z.of_nat n, MAX_PAGE_LIMIT)).
Proof.
  intros Ht Hn. unfold validate_query.
  rewrite (bind_Ret _ _ s s tenant) by by apply validate_text_Ret.
  do 3 rewrite (bind_Ret _ _ s s None) by done. rewrite (bind_Ret _ _ s s None) by done.
  do 2 rewrite (bind_Ret _ _ s s None) by done. rewrite (bind_Ret _ _ s s tt) by done.
  rewrite (bind_Ret _ _ s s MAX_PAGE_LIMIT) by done.
  rewrite (bind_Ret _ _ s s (Z.of_nat n)); [done|].
  destruct n as [|n]; [done|]. by apply (cursor_round_trip s).
Qed.

(** A page in the middle of a genuine log. *)
Lemma pg_list_page t tenant n :
  genuine (rows_of tenant t) → text_ok tenant = true →
  Z.of_nat (length (rows_of tenant t)) < 2 ^ 63 → (n <= length (rows_of tenant t))%nat →
  let rows := rows_of tenant t in
  pg_list (page_query (PyStr tenant) (cursor_at n)) t =
    (t, Ret (mkPage (take 200 (drop n rows))
               (if decide (n + 200 < length rows)%nat then cursor_at (n + 200) else None))).
Proof.
  intros [Hc Hs Hd He] Ht Hlen Hn rows. unfold pg_list.
  rewrite (bind_Ret _ _ t t (everything tenant, Z.of_nat n, MAX_PAGE_LIMIT)).
  2: { apply validate_page_query; [done|]. lia. }
  assert (List.filter (λ e, (Z.of_nat n <? ev_sequence e) && selected (everything tenant) e) rows =
    drop n rows) as Hrows.
  { rewrite <- (rows_after (selected (everything tenant)) rows 1 n).
    - apply List.filter_ext. intros e. f_equal. f_equal. lia.
    - intros i e Hi. rewrite (Hs _ _ Hi). lia.
    - apply everything_selected. }
  rewrite (bind_Ret _ _ t t (take 201 (drop n rows))).
  2: { unfold gets. simpl. fold rows. rewrite Hrows, sort_stable_id; [done|].
    apply (sequence_sorted _ (Z.of_nat n + 1)). intros i e Hi. rewrite lookup_drop in Hi.
    rewrite (Hs _ _ Hi). lia. }
  change (Z.to_nat MAX_PAGE_LIMIT) with 200%nat. rewrite take_take. change (200 `min` 201)%nat with 200%nat.
  rewrite (bind_Ret _ _ t t (take 200 (drop n rows))).
  2: { apply events_from_rows_Ret. by apply Forall_take, Forall_drop. }
  unfold ret. f_equal. f_equal. f_equal. rewrite length_take, length_drop. unfold MAX_PAGE_LIMIT.
  destruct (decide (n + 200 < length rows)%nat) as [Hlt|Hge].
  - destruct (Z.ltb_spec 200 (Z.of_nat (201 `min` (length rows - n)))); [|lia].
    assert (last (take 200 (drop n rows)) = rows !! (n + 199)%nat) as ->.
    { rewrite last_lookup, length_take, length_drop.
      replace (pred (200 `min` (length rows - n))) with 199%nat by lia.
      rewrite lookup_take_lt by lia. by rewrite lookup_drop. }
    destruct (lookup_lt_is_Some_2 rows (n + 199)) as [e Hi]; [lia|]. rewrite Hi. simpl.
    rewrite (Hs _ _ Hi). unfold cursor_at. destruct (n + 200)%nat eqn:En; [lia|]. f_equal. f_equal. lia.
  - destruct (Z.ltb_spec 200 (Z.of_nat (201 `min` (length rows - n)))); [lia|done].
Qed.

(** The loop reads everything that is left, when it has fuel for it. *)
Lemma pg_pages_all t tenant :
  genuine (rows_of tenant t) → text_ok tenant = true →
  Z.of_nat (length (rows_of tenant t)) < 2 ^ 63 →
  ∀ fuel n, (n <= length (rows_of tenant t))%nat → (length (rows_of tenant t) < n + fuel)%nat →
  pg_pages fuel (PyStr tenant) (cursor_at n) (take n (rows_of tenant t)) t =
    (t, Ret (Some (rows_of tenant t))).
Proof.
  intros Hg Ht Hlen. set (rows := rows_of tenant t) in *.
  induction fuel as [|fuel IH]; intros n Hn Hf; [lia|]. cbn [pg_pages].
  rewrite (bind_Ret _ _ _ _ _ (pg_list_page t tenant n Hg Ht Hlen Hn)). cbn [pg_items pg_next_cursor].
  fold rows. rewrite take_take_drop.
  destruct (decide (n + 200 < length rows)%nat) as [Hlt|Hge].
  - unfold cursor_at at 1. destruct (n + 200)%nat as [|m] eqn:Em; [lia|].
    change (Some (encode_cursor (Z.of_nat (S m)))) with (cursor_at (S m)). apply IH; lia.
  - unfold ret. by rewrite take_ge by lia.
Qed.

Inductive pg_step (t : Table) : Table → Prop :=
| pg_step_append draft : pg_step t (final (pg_append draft) t)
| pg_step_read id tenant : pg_step t (final (pg_read id tenant) t)
| pg_step_list q : pg_step t (final (pg_list q) t)
| pg_step_verify fuel candidate tenant :
    pg_step t (final (pg_verify_integrity fuel candidate tenant) t).

Definition pg_reachable (t : Table) : Prop := rtc pg_step [] t.

Definition table_ok (t : Table) : Prop := ∀ tenant, genuine (rows_of tenant t).

Lemma newest_genuine es : genuine es → newest es = last es.
Proof.
  intros [_ Hs _ _]. unfold newest. rewrite sort_stable_id; [done|].
  apply (sequence_sorted _ 1). intros i e Hi. rewrite (Hs _ _ Hi). lia.
Qed.

Lemma rows_of_app tenant t t' : rows_of tenant (t ++ t') = rows_of tenant t ++ rows_of tenant t'.
Proof. apply List.filter_app. Qed.

Lemma pg_append_ok draft t : table_ok t → wp (pg_append draft) (λ _, table_ok) t.
Proof.
  intros Ht. unfold pg_append. apply wp_bind. eapply wp_mono; [|apply validate_draft_ok].
  intros [v|e] t' [-> Hv]; [|done]. destruct Hv as (_ & Hc & _). wp_run; [|done].
  set (rows := rows_of (ev_tenant_id v) t). rewrite (newest_genuine rows) in * by apply Ht.
  assert (match last rows with None => 1 | Some e => ev_sequence e + 1 end =
    Z.of_nat (length rows) + 1) as Hseq.
  { destruct (last rows) as [e|] eqn:El.
    - rewrite last_lookup in El. rewrite (gn_sequence _ (Ht _) _ _ El).
      destruct rows; [done|]. simpl. lia.
    - by apply last_None in El as ->. }
  intros tenant. rewrite rows_of_app. cbn [rows_of List.filter]. unfold chain_event at 1. cbn [place ev_tenant_id].
  destruct (String.eqb_spec (ev_tenant_id v) tenant) as [<-|]; [|rewrite app_nil_r; apply Ht].
  fold rows. rewrite Hseq. apply genuine_snoc; [apply Ht|done|].
  intros (x & Hx & Hin)%list_elem_of_fmap.
  match goal with Hf : forallb _ _ = true |- _ => rewrite forallb_elem in Hf; specialize (Hf x) end.
  apply list_elem_of_In, List.filter_In in Hin as [Hin%list_elem_of_In _].
  match goal with Hf : x ∈ t → _ |- _ => specialize (Hf Hin); apply andb_true_iff in Hf as [Hf _] end.
  bools. done.
Qed.

Lemma readonly_pg_list q : readonly (pg_list q).
Proof.
  intros t. enough (wp (pg_list q) (λ _ t', t' = t) t) by done. unfold pg_list.
  apply wp_bind, wp_readonly; [apply readonly_validate_query|].
  destruct (result (validate_query q) t) as [[[f a] l]|]; [|done]. wp_run.
  eapply (wp_mfold (λ _ t', t' = t) (λ _ t', t' = t)); [done| |by intros; wp_run|done].
  intros acc row t' _ ->. unfold event_from_row. au_run; try done.
  eapply wp_mono with (Q := λ _ t', t' = t); [by intros [] ? ->; wp_run|].
  unfold validate_event_contract. wp_run; try done.
  eapply wp_mono; [|apply validate_draft_ok]. by intros [?|] t' [-> _].
Qed.
Lemma readonly_pg_pages fuel tenant : ∀ cursor acc, readonly (pg_pages fuel tenant cursor acc).
Proof.
  induction fuel as [|fuel IH]; intros cursor acc; [done|]. apply readonly_bind; [apply readonly_pg_list|].
  intros p. destruct (pg_next_cursor p); [apply IH|done].
Qed.

Lemma pg_step_ok t t' : pg_step t t' → table_ok t → table_ok t'.
Proof.
  intros Hstep Ht. destruct Hstep as [draft|id tenant|q|fuel candidate tenant].
  - by apply pg_append_ok.
  - enough (wp (pg_read id tenant) (λ _ t', t' = t) t) as Hr by (unfold wp in Hr; by rewrite Hr).
    unfold pg_read, event_from_row. au_run; try done.
    eapply wp_mono with (Q := λ _ t', t' = t); [by intros [] ? ->; wp_run|].
    unfold validate_event_contract. wp_run; try done.
    eapply wp_mono; [|apply validate_draft_ok]. by intros [?|] t' [-> _].
  - by rewrite readonly_pg_list.
  - assert (readonly (pg_verify_integrity fuel candidate tenant)) as Hr.
    { unfold pg_verify_integrity. destruct candidate; auto using readonly_pg_pages with py. }
    by rewrite Hr.
Qed.

(** C36: the table verifies for every tenant: in every reachable table the loop
    over the pages ends within as many rounds as there are rows and one more,
    reads each event of the tenant once and in order whatever other tenants
    have, and finds a genuine log. *)
Theorem tenant_log_verifies t tenant :
  pg_reachable t → text_ok tenant = true → Z.of_nat (length t) < 2 ^ 63 →
  pg_pages (S (length t)) (PyStr tenant) None [] t = (t, Ret (Some (rows_of tenant t))) ∧
  pg_verify_integrity (S (length t)) None (PyStr tenant) t =
    (t, Ret (Some (mkResult true OK None (Z.of_nat (length (rows_of tenant t)))
                     (head_hash (rows_of tenant t)) "AUDIT_CHAIN_VALID"))) ∧
  genuine (rows_of tenant t).
Proof.
  intros Hr Htext Hlen. assert (table_ok t) as Ht.
  { eapply rtc_invariant; [|exact Hr|].
    - intros x y Hx Hxy. by eapply pg_step_ok.
    - intros tenant'. by apply genuine_iff. }
  assert (length (rows_of tenant t) <= length t)%nat as Hle by apply List.filter_length_le.
  assert (pg_pages (S (length t)) (PyStr tenant) None [] t = (t, Ret (Some (rows_of tenant t)))) as Hp.
  { apply (pg_pages_all t tenant (Ht tenant) Htext ltac:(lia) _ 0%nat); lia. }
  split_and!; [done| |apply Ht]. unfold pg_verify_integrity.
  rewrite (bind_Ret _ _ t t tt) by by apply guard_Ret.
  rewrite (bind_Ret _ _ t t _ Hp). cbn [option_map]. by rewrite verify_genuine.
Qed.
End Pages.

(** ** A concrete run *)

Module Sample.
#[local] Existing Instance checksum_digest.

(** No text is an address or a URL. *)
#[export] Instance no_hosts : HostParser :=
  {| ip_address _ := None; url_hostname _ := Some None |}.

Definition draft (id tenant : string) : AuditEventDraft :=
  mkDraft (PyStr id) (Datetime 1790000000000000 (Some 0)) (PyStr "alice") (Some USER) (PyStr tenant)
    (PyStr "workspace-1") (PyStr "source.read") (PyStr "source") (PyStr "source-1") (Some SUCCEEDED)
    (PyStr "trace-1") (PyStr "policy-1") JNull (JObj [("state", JStr "ready")])
    (JObj [("count", JInt 2); ("tags", JArr [JStr "a"; JBool true])]).

Definition s2 : Store :=
  final (append (draft "event-2" "tenant-1")) (final (append (draft "event-1" "tenant-1")) empty_store).

Definition t3 : Table :=
  final (pg_append (draft "event-3" "tenant-1")) (final (pg_append (draft "event-2" "tenant-2"))
    (final (pg_append (draft "event-1" "tenant-1")) [])).

Lemma s2_events : map ev_sequence (events s2) = [1; 2].
Proof. vm_compute. reflexivity. Qed.

Lemma t3_rows : map ev_sequence (rows_of "tenant-1" t3) = [1; 2].
Proof. vm_compute. reflexivity. Qed.

Lemma t3_small : Z.of_nat (length t3) < 2 ^ 63.
Proof. vm_compute. reflexivity. Qed.

Lemma au_s2_reachable : reachable s2.
Proof. eapply rtc_r; [eapply rtc_once|]; apply step_append. Qed.

Lemma t3_reachable : pg_reachable t3.
Proof. eapply rtc_r; [eapply rtc_r; [eapply rtc_once|]|]; apply pg_step_append. Qed.

(** Secrets and internal hosts are not recorded. *)
Example secret_refused :
  result (append (mkDraft (PyStr "event-1") (Datetime 0 (Some 0)) (PyStr "alice") (Some USER)
    (PyStr "tenant-1") PyNone (PyStr "a") (PyStr "t") (PyStr "t-1") (Some DENIED) (PyStr "trace")
    (PyStr "p") JNull JNull (JObj [("nested", JObj [("API-Key", JStr "x")])]))) empty_store =
  Raise (AuditError "FORBIDDEN_JSON_KEY").
Proof. vm_compute. reflexivity. Qed.

Example internal_host_refused :
  string_value_ok "db.internal:5432" = false ∧ string_value_ok "example.com:443" = true.
Proof. vm_compute. split; reflexivity. Qed.
End Sample.

Section Witnesses.
Import Sample.
#[local] Existing Instance checksum_digest.

Lemma audit_log_genuine_witness : length (events s2) = 2%nat ∧ genuine (events s2).
Proof. split; [by vm_compute|]. exact (proj1 (audit_log_genuine s2 au_s2_reachable)). Defined.

Lemma tenant_log_verifies_witness :
  length (rows_of "tenant-1" t3) = 2%nat ∧
  pg_pages (S (length t3)) (PyStr "tenant-1") None [] t3 = (t3, Ret (Some (rows_of "tenant-1" t3))).
Proof.
  split; [by vm_compute|].
  exact (proj1 (tenant_log_verifies t3 "tenant-1" t3_reachable eq_refl t3_small)).
Defined.
End Witnesses.
