(* ===== verification/PyFloat.v ===== *)
(** Python floats: IEEE 754 binary64 with the exact rounding of the Standard
    Library's [SpecFloat], and [datetime] arithmetic with float seconds.

    A float is a [spec_float] of precision 53.  The comparisons, [min] and the
    conversions follow CPython: an [int] operand is converted first and the
    conversion overflows beyond the largest float; [timedelta] splits the
    seconds into an integral part, which is exact, and a fraction, whose
    product with a million is rounded once and then to the nearest microsecond,
    ties to even. *)

From Stdlib Require Import Floats.SpecFloat.
From S2P Require Import Prelude PyStr.
#[local] Open Scope Z_scope.

Definition float : Type := spec_float.

Definition prec : Z := 53.
Definition emax : Z := 1024.

Definition fadd : float → float → float := SFadd prec emax.
Definition fsub : float → float → float := SFsub prec emax.
Definition fmul : float → float → float := SFmul prec emax.
Definition flt : float → float → bool := SFltb.
Definition fle : float → float → bool := SFleb.

(** The nearest float to [m * 2^e]. *)
Definition scaled (m e : Z) : float := binary_normalize prec emax m e false.

(** An [int] operand next to a float; [None]: OverflowError. *)
Definition float_of_int (n : Z) : option float :=
  match scaled n 0 with
  | S754_infinity _ => None
  | x => Some x
  end.

(** [min(a, b)] *)
Definition fmin (a b : float) : float := if flt b a then b else a.

(** [modf], of a finite float. *)
Definition modf (x : float) : Z * float :=
  match x with
  | S754_finite s m e =>
      let signed z := if s then - z else z in
      if 0 <=? e then (signed (Zpos m * 2 ^ e), S754_zero s)
      else (signed (Zpos m / 2 ^ (- e)), scaled (signed (Zpos m mod 2 ^ (- e))) e)
  | _ => (0, x)
  end.

(** The integer nearest to [n + x], ties to even, for a fraction [x]. *)
Definition round_plus (n : Z) (x : float) : Z :=
  match x with
  | S754_finite s m e =>
      let unit := 2 ^ (- e) in
      let num := n * unit + (if s then - Zpos m else Zpos m) in
      let floor := num / unit in
      match 2 * (num mod unit) ?= unit with
      | Lt => floor
      | Gt => floor + 1
      | Eq => if Z.even floor then floor else floor + 1
      end
  | _ => n
  end.

Definition MAX_TIMEDELTA_DAYS : Z := 999999999.

Definition timedelta_us (x : float) : Z :=
  let '(whole, fraction) := modf x in
  let '(micros, leftover) := modf (fmul (scaled 1000000 0) fraction) in
  round_plus (whole * 1000000 + micros) leftover.

(** [timedelta(seconds=x)] in microseconds. *)
Definition timedelta_seconds {S} (x : float) : M S Z :=
  match x with
  | S754_nan => raise (PyError "ValueError")
  | S754_infinity _ => raise (PyError "OverflowError")
  | _ =>
      guard (Z.abs (timedelta_us x / days) <=? MAX_TIMEDELTA_DAYS) (PyError "OverflowError") ;;
      ret (timedelta_us x)
  end.

(** Microseconds from the epoch to [datetime.min] and [datetime.max]. *)
Definition DATETIME_MIN : Z := -62135596800000000.
Definition DATETIME_MAX : Z := 253402300799999999.

(** [now + delta] *)
Definition datetime_add {S} (now delta : Z) : M S Z :=
  guard ((DATETIME_MIN <=? now + delta) && (now + delta <=? DATETIME_MAX)) (PyError "OverflowError") ;;
  ret (now + delta).

(** ** Lemmas *)

(** Not negative; a float that is not a number is not. *)
Definition nonneg (x : float) : Prop :=
  match x with
  | S754_zero _ => True
  | S754_infinity s | S754_finite s _ _ => s = false
  | S754_nan => False
  end.

Definition nonneg_or_nan (x : float) : Prop := x = S754_nan ∨ nonneg x.

Definition is_finite (x : float) : Prop :=
  match x with S754_zero _ | S754_finite _ _ _ => True | _ => False end.

Lemma fle_of_flt x y : flt x y = true → fle x y = true.
Proof. unfold flt, fle, SFltb, SFleb. by destruct (SFcompare x y) as [[]|]. Qed.

Lemma fle_refl x : x ≠ S754_nan → fle x x = true.
Proof.
  intros Hx. unfold fle, SFleb. destruct x as [s|s| |s m e]; simpl; [done|by destruct s|done|].
  rewrite Z.compare_refl. change (Pos.compare_cont Eq m m) with (Pos.compare m m).
  rewrite Pos.compare_refl. by destruct s.
Qed.

(** Whatever is compared, [min] is no more than its first argument. *)
Lemma fmin_le a b : a ≠ S754_nan → fle (fmin a b) a = true.
Proof. intros Ha. unfold fmin. destruct (flt b a) eqn:E; [by apply fle_of_flt|by apply fle_refl]. Qed.

Lemma flt_not_nan x y : flt x y = true → x ≠ S754_nan.
Proof. by intros H ->. Qed.

Lemma fmin_nonneg a b : nonneg a → nonneg_or_nan b → nonneg (fmin a b).
Proof.
  intros Ha [->|Hb]; unfold fmin; [|by destruct (flt b a)].
  destruct (flt S754_nan a) eqn:E; [by apply flt_not_nan in E|done].
Qed.

Definition valid (x : float) : Prop := valid_binary prec emax x = true.

Lemma round_aux_sign m e l : nonneg_or_nan (binary_round_aux prec emax false m e l).
Proof.
  unfold binary_round_aux. destruct (shr_fexp _ _ _ _ _) as [mrs e1].
  destruct (shr_fexp _ _ (round_nearest_even _ _) _ _) as [mrs' e2].
  destruct (shr_m mrs') as [|p|p]; [by right| |by left].
  by destruct (e2 <=? emax - prec); right.
Qed.

Lemma round_sign m e : nonneg_or_nan (binary_round prec emax false m e).
Proof. unfold binary_round. destruct (shl_align _ _ _). apply round_aux_sign. Qed.

Lemma normalize_sign m e s : 0 <= m → nonneg_or_nan (binary_normalize prec emax m e s).
Proof. destruct m; simpl; [by right|intros _; apply round_sign|lia]. Qed.

Lemma fmul_nonneg x y : nonneg x → nonneg y → nonneg_or_nan (fmul x y).
Proof.
  destruct x as [[]|[]| |[] mx ex], y as [[]|[]| |[] my ey]; try done; intros _ _;
    try (by left); try (by right). apply round_aux_sign.
Qed.

Lemma fadd_nonneg x y : nonneg x → nonneg y → nonneg_or_nan (fadd x y).
Proof.
  destruct x as [[]|[]| |[] mx ex], y as [[]|[]| |[] my ey]; try done; intros _ _;
    try (by left); try (by right). by apply normalize_sign.
Qed.

Lemma shl_value m d : Zpos (Pos.iter xO m d) = Zpos m * 2 ^ Zpos d.
Proof.
  induction d as [|d IH] using Pos.peano_ind; [simpl; lia|].
  rewrite Pos.iter_succ, Pos2Z.inj_succ, Z.pow_succ_r, Pos2Z.inj_xO, IH; lia.
Qed.

Lemma shl_align_value m e e' :
  e' <= e → Zpos (fst (shl_align m e e')) = Zpos m * 2 ^ (e - e').
Proof.
  intros He. unfold shl_align. destruct (e' - e) as [|p|p] eqn:Hd; simpl fst; [|lia|].
  - replace (e - e') with 0 by lia. lia.
  - replace (e - e') with (Z.pos p) by lia. apply shl_value.
Qed.

Definition f_one : float := S754_finite false 4503599627370496 (-52).

Lemma scaled_one : scaled 1 0 = f_one.
Proof. reflexivity. Qed.

Lemma digits2_lt m : Zpos m < 2 ^ Zpos (digits2_pos m).
Proof.
  induction m as [m IH|m IH|]; simpl digits2_pos; [..|done];
    rewrite Pos2Z.inj_succ, Z.pow_succ_r by lia; lia.
Qed.

Lemma valid_mantissa s m e : valid (S754_finite s m e) → Zpos m < 2 ^ 53.
Proof.
  unfold valid, valid_binary, bounded, canonical_mantissa, fexp. intros [Hc _]%andb_true_iff.
  apply Z.eqb_eq in Hc. unfold emin, prec, emax in Hc.
  pose proof (digits2_lt m) as Hm. eapply Z.lt_le_trans; [exact Hm|].
  apply Z.pow_le_mono_r; lia.
Qed.

Lemma compare_mantissa p q : Pos.compare_cont Eq p q = (p ?= q)%positive.
Proof. reflexivity. Qed.

Lemma fle_finite m e p q :
  fle (S754_finite false m e) (S754_finite false p q) = true →
  e < q ∨ (e = q ∧ Zpos m <= Zpos p).
Proof.
  unfold fle, SFleb, SFcompare. rewrite compare_mantissa.
  destruct (Z.compare_spec e q); [|by left|done].
  destruct (Pos.compare_spec m p); [..|done]; right; lia.
Qed.

(** [1 - x] of a float between zero and one is not negative. *)
Lemma fsub_one_nonneg x : valid x → nonneg x → fle x f_one = true → nonneg_or_nan (fsub f_one x).
Proof.
  destruct x as [s|[]| |[] m e]; try done; [by right|]. intros Hv%valid_mantissa _ Hle%fle_finite.
  unfold fsub, f_one, SFsub. cbv zeta. apply normalize_sign. unfold cond_Zopp.
  rewrite !shl_align_value by lia.
  enough (Zpos m * 2 ^ (e - Z.min (-52) e) <= 4503599627370496 * 2 ^ (-52 - Z.min (-52) e)) by lia.
  destruct Hle as [He|[-> Hm]].
  - rewrite Z.min_r by lia. rewrite Z.sub_diag, Z.pow_0_r.
    replace 4503599627370496 with (2 ^ 52) by reflexivity. rewrite <- Z.pow_add_r by lia.
    transitivity (2 ^ 53); [lia|]. apply Z.pow_le_mono_r; lia.
  - rewrite Z.min_id, Z.sub_diag, Z.pow_0_r. lia.
Qed.

(** A duration of a float that is not negative is not negative. *)
Lemma modf_nonneg x : nonneg_or_nan x → 0 <= (modf x).1 ∧ nonneg_or_nan (modf x).2.
Proof.
  intros [->|Hx]; [by split; [|left]|]. destruct x as [s|s| |s m e]; simpl in Hx; try done; subst;
    simpl; [by split; [|right]..|].
  destruct (Z.leb_spec 0 e); simpl; [split; [lia|by right]|].
  split; [apply Z.div_pos; lia|]. apply normalize_sign. by apply Z.mod_pos_bound; lia.
Qed.

Lemma round_plus_nonneg n x : 0 <= n → nonneg_or_nan x → 0 <= round_plus n x.
Proof.
  intros Hn [->|Hx]; [done|]. destruct x as [s|s| |s m e]; simpl in Hx; try done; subst; simpl.
  assert (0 <= (n * 2 ^ (- e) + Z.pos m) / 2 ^ (- e)).
  { destruct (Z.leb_spec 0 (- e)).
    - apply Z.div_pos; [|apply Z.pow_pos_nonneg; lia].
      assert (0 <= n * 2 ^ (- e)) by (apply Z.mul_nonneg_nonneg; [done|apply Z.pow_nonneg; lia]). lia.
    - rewrite Z.pow_neg_r by lia. by rewrite Z.div_0_r. }
  destruct (2 * _ ?= _); [destruct (Z.even _)|..]; lia.
Qed.

Lemma fmul_nan x : fmul x S754_nan = S754_nan.
Proof. by destruct x. Qed.

Lemma fmul_or_nan x y : nonneg x → nonneg_or_nan y → nonneg_or_nan (fmul x y).
Proof. intros Hx [->|Hy]; [left; apply fmul_nan|exact (fmul_nonneg _ _ Hx Hy)]. Qed.

Lemma scaled_million : nonneg (scaled 1000000 0).
Proof. vm_compute. reflexivity. Qed.

Lemma timedelta_us_nonneg x : nonneg x → 0 <= timedelta_us x.
Proof.
  intros Hx. unfold timedelta_us.
  destruct (modf_nonneg x) as [Hw Hf]; [by right|]. destruct (modf x) as [w fr]; simpl fst in *.
  pose proof (fmul_or_nan _ _ scaled_million Hf) as [Hm Hl]%modf_nonneg.
  destruct (modf (fmul _ _)) as [mi le]; simpl fst in *. apply round_plus_nonneg; [lia|exact Hl].
Qed.

Lemma timedelta_nonneg {S} x us (s s' : S) :
  nonneg x → timedelta_seconds x s = (s', Ret us) → 0 <= us ∧ s' = s.
Proof.
  intros Hx%timedelta_us_nonneg. unfold timedelta_seconds. revert Hx.
  generalize (timedelta_us x) as u. intros u Hu. destruct x; try discriminate;
    unfold bind, guard; destruct (_ <=? _); intros H; inversion H; by subst.
Qed.

(** ** Comparisons with zero, powers of two *)

Definition f_zero : float := S754_zero false.
Definition f_nan : float := S754_nan.

Lemma fle_zero_nonneg x : fle f_zero x = true → nonneg x.
Proof. by destruct x as [[]|[]| |[] m e]. Qed.

Lemma not_le_zero_nonneg x : fle x f_zero = false → x ≠ f_nan → nonneg x.
Proof. by destruct x as [[]|[]| |[] m e]. Qed.

Lemma not_lt_nonneg x y : flt x y = false → x ≠ f_nan → nonneg y → nonneg x.
Proof. by destruct x as [[]|[]| |[] m e], y as [[]|[]| |[] m' e']. Qed.

Lemma fmul_any x y : nonneg_or_nan x → nonneg_or_nan y → nonneg_or_nan (fmul x y).
Proof. intros [->|Hx] Hy; [by left|by apply fmul_or_nan]. Qed.

Lemma fadd_any x y : nonneg_or_nan x → nonneg_or_nan y → nonneg_or_nan (fadd x y).
Proof.
  intros [->|Hx] [->|Hy]; [by left..| |by apply fadd_nonneg]. left. by destruct x.
Qed.

Definition is_positive (x : float) : bool :=
  match x with S754_finite false _ _ => true | _ => false end.

Lemma positive_nonneg x : is_positive x = true → nonneg x.
Proof. by destruct x as [| | |[]]. Qed.

(** [2 ** k] next to a float does not overflow for [k] below 1024. *)
Lemma float_of_power k : 0 <= k < 1024 → ∃ x, float_of_int (2 ^ k) = Some x ∧ nonneg x.
Proof.
  intros Hk. assert (forallb (λ n, match float_of_int (2 ^ Z.of_nat n) with
    | Some x => is_positive x | None => false end) (seq 0 1024) = true) as Hp
    by (vm_compute; reflexivity).
  rewrite forallb_elem in Hp. specialize (Hp (Z.to_nat k)). rewrite Z2Nat.id in Hp by lia.
  assert (Z.to_nat k ∈ seq 0 1024) as Hin by (apply elem_of_seq; lia). specialize (Hp Hin).
  destruct (float_of_int _) as [x|]; [|done]. exists x. split; [done|by apply positive_nonneg].
Qed.

(** A few conversions, as CPython makes them. *)
Definition decimal_0_1 : float := scaled 7205759403792794 (-56).
Definition decimal_0_2 : float := scaled 7205759403792794 (-55).

Example timedelta_tenth : timedelta_seconds decimal_0_1 tt = (tt, Ret 100000).
Proof. vm_compute. reflexivity. Qed.

Example sum_of_tenths : fadd decimal_0_1 decimal_0_2 = scaled 5404319552844596 (-54).
Proof. vm_compute. reflexivity. Qed.

Example timedelta_half_even : timedelta_seconds (scaled 1 (-7)) tt = (tt, Ret 7812).
Proof. vm_compute. reflexivity. Qed.
