(* ===== verification/ObjectStore.v ===== *)
(** The storage side of the object queue (object_queue.py): object keys, the
    retry policy, the storage port and its S3-compatible adapter.

    The [minio] client is not part of the program: the class [ObjectClient]
    lists the calls the adapter makes on it.  Each returns a value or fails, as
    an [S3Error] with a code or in any other way.  What the queue relies on is
    the class [ObjectStorageLaws]; the adapter satisfies it over every client,
    because it compares what the service reports before it trusts it. *)

From S2P Require Import Prelude Sha256 PyStr PyFloat.
From Stdlib Require Import Ascii.
#[local] Open Scope Z_scope.

(** ** Errors and data *)

Definition ObjectQueueError (code : string) (retryable : bool) : exn := Raised code 0 retryable.
Definition ObjectStorageError (code : string) (retryable : bool) : exn := ObjectQueueError code retryable.

Definition CHECKSUM_MISMATCH : exn := ObjectStorageError "OBJECT_CHECKSUM_MISMATCH" false.
Definition KEY_INVALID : exn := ObjectQueueError "OBJECT_KEY_INVALID" false.

(** [_OPAQUE_ID], [_ALLOWED_AREAS] *)
Definition opaque_id (s : string) : bool :=
  Nat.eqb (String.length s) 32 && all_chars is_hex_digit s.
Definition ALLOWED_AREAS : list string := ["source"; "output"].

Record StagedObject := mkStaged {
  st_key : string;
  st_digest_sha256 : string;
  st_byte_size : Z;
  st_content_type : string;
  st_etag : string;
  st_version_id : option string
}.

Record StoredObject := mkStored {
  so_key : string;
  so_digest_sha256 : string;
  so_byte_size : Z;
  so_content_type : string;
  so_etag : string;
  so_version_id : option string
}.

(** [CloudAccessContext] (cloud_storage.py) *)
Record CloudAccessContext := mkContext {
  ctx_tenant_id : string;
  ctx_workspace_id : string;
  ctx_actor_id : string;
  ctx_capability : string
}.

(** [CloudAccessContext.__post_init__] *)
Definition context_valid (c : CloudAccessContext) : bool :=
  safe_id (ctx_tenant_id c) && safe_id (ctx_workspace_id c) && safe_id (ctx_actor_id c) &&
  safe_id (ctx_capability c).

(** ** ObjectKeyPolicy *)

Section Keys.
Context {T : Type}.

(** [ObjectKeyPolicy._validate] *)
Definition validate_scope (scope : CloudAccessContext) (area object_id : string) : M T unit :=
  guard (bool_decide (area ∈ ALLOWED_AREAS) && opaque_id object_id) KEY_INVALID ;;
  mfor [ctx_tenant_id scope; ctx_workspace_id scope] (λ value, guard (safe_id value) KEY_INVALID).

Definition final_path (tenant workspace area object_id : string) : string :=
  tenant +:+ "/" +:+ workspace +:+ "/" +:+ area +:+ "/" +:+ object_id.

Definition final_key (scope : CloudAccessContext) (area object_id : string) : M T string :=
  validate_scope scope area object_id ;;
  ret (final_path (ctx_tenant_id scope) (ctx_workspace_id scope) area object_id).

Definition staging_key (scope : CloudAccessContext) (area object_id : string) : M T string :=
  validate_scope scope area object_id ;;
  ret ("_staging/" +:+ final_path (ctx_tenant_id scope) (ctx_workspace_id scope) area object_id).

(** [key.isascii() and not any(ord(char) < 32 for char in key)] *)
Definition plain_ascii (key : string) : bool := all_chars (in_range 32 127) key.

(** [key.rsplit("/", 1)[-1]] *)
Fixpoint last_segment (key : string) : string :=
  match key with
  | EmptyString => EmptyString
  | String c rest =>
      if has_char "/" rest then last_segment rest
      else if Ascii.eqb c "/" then rest else key
  end.

Definition validate_final (scope : CloudAccessContext) (area : string) (key : pyobj) : M T unit :=
  text <- from_option (match key with PyStr s => if plain_ascii s then Some s else None | _ => None end)
    KEY_INVALID ;;
  expected <- final_key scope area (last_segment text) ;;
  guard (String.eqb text expected) KEY_INVALID.

Definition validate_staging (scope : CloudAccessContext) (area : string) (key : pyobj) : M T unit :=
  text <- from_option (match key with PyStr s => if plain_ascii s then Some s else None | _ => None end)
    KEY_INVALID ;;
  expected <- staging_key scope area (last_segment text) ;;
  guard (String.eqb text expected) KEY_INVALID.
End Keys.

(** ** RetryPolicy *)

Record RetryPolicy := mkPolicy {
  max_attempts : Z;
  base_seconds : float;
  max_seconds : float;
  jitter_ratio : float
}.

Definition f_two : float := scaled 2 0.

(** The defaults: 5, 2.0, 300.0, 0.2. *)
Definition default_policy : RetryPolicy := mkPolicy 5 f_two (scaled 300 0) decimal_0_2.

(** [RetryPolicy.__post_init__]; otherwise [ValueError]. *)
Definition policy_valid (p : RetryPolicy) : bool :=
  (1 <=? max_attempts p) && (max_attempts p <=? 100) &&
  negb (fle (base_seconds p) f_zero) &&
  negb (flt (max_seconds p) (base_seconds p)) &&
  (fle f_zero (jitter_ratio p) && fle (jitter_ratio p) f_one).

(** The delay after [power] = 2 ** (attempt - 1). *)
Definition bounded_delay (p : RetryPolicy) (power jitter_unit : float) : float :=
  let bounded := fmin (max_seconds p) (fmul (base_seconds p) power) in
  let factor := fadd (fsub f_one (jitter_ratio p)) (fmul (fmul f_two (jitter_ratio p)) jitter_unit) in
  fmin (max_seconds p) (fmul bounded factor).

Definition delay_seconds {T} (p : RetryPolicy) (attempt : Z) (jitter_unit : float) : M T float :=
  guard (negb (attempt <? 1) && (fle f_zero jitter_unit && fle jitter_unit f_one)) (PyError "ValueError") ;;
  power <- from_option (float_of_int (2 ^ (attempt - 1))) (PyError "OverflowError") ;;
  ret (bounded_delay p power jitter_unit).

Definition exhausted (p : RetryPolicy) (attempt : Z) : bool := max_attempts p <=? attempt.

(** ** ObjectStoragePort *)

(** Contents are [None] when the argument is no [bytes] object. *)
Class ObjectStorage (B : Type) := {
  health : M B bool;
  put_staged (key : string) (content : option (list N)) (content_type digest : string) : M B StagedObject;
  promote (staged : StagedObject) (final_key expected_digest : string) (expected_size : Z)
    (content_type : string) : M B StoredObject;
  get (key : string) : M B (list N);
  delete (key : string) : M B unit
}.

(** The exception is one of the program's own. *)
Definition is_own_error (e : exn) : Prop := ∃ code retryable, e = ObjectQueueError code retryable.

(** What coordinator and worker rely on. *)
Class ObjectStorageLaws {D : Digest} (B : Type) `{!ObjectStorage B} := {
  put_staged_returns key content content_type digest b b' st :
    put_staged key content content_type digest b = (b', Ret st) →
    ∃ bytes, content = Some bytes ∧ sha256_hex bytes = digest ∧ st_key st = key ∧
      st_digest_sha256 st = digest ∧ st_byte_size st = Z.of_nat (length bytes) ∧
      st_content_type st = content_type;
  promote_returns st key digest size content_type b b' so :
    promote st key digest size content_type b = (b', Ret so) →
    so_key so = key ∧ so_digest_sha256 so = digest ∧ so_byte_size so = size ∧
    so_content_type so = content_type;
  put_staged_raises key content content_type digest b b' e :
    put_staged key content content_type digest b = (b', Raise e) → is_own_error e;
  promote_raises st key digest size content_type b b' e :
    promote st key digest size content_type b = (b', Raise e) → is_own_error e
}.

(** ** MinioObjectStorageAdapter *)

Inductive ClientError :=
| S3Error (code : string)
| OtherError.

Record ObjectStat := mkStat {
  stat_metadata : option (list (string * string));
  stat_size : Z;
  stat_etag : option string;
  stat_version_id : option string
}.

Record PutResult := mkPut {
  put_etag : option string;
  put_version_id : option string
}.

(** The calls on [minio.Minio]; the first argument is the bucket.  [get_object]
    returns what [response.read()] reads. *)
Class ObjectClient (B : Type) := {
  client_bucket_exists : string → B → B * (ClientError + bool);
  client_make_bucket : string → B → B * (ClientError + unit);
  client_stat_object : string → string → B → B * (ClientError + ObjectStat);
  client_put_object : string → string → list N → string → list (string * string) →
    B → B * (ClientError + PutResult);
  client_copy_object : string → string → string → list (string * string) → B → B * (ClientError + unit);
  client_get_object : string → string → B → B * (ClientError + list N);
  client_remove_object : string → string → B → B * (ClientError + unit)
}.

Definition DENIED_CODES : list string :=
  ["AccessDenied"; "InvalidAccessKeyId"; "InvalidArgument"; "InvalidBucketName"; "NoSuchKey"].

(** [_safe_error] *)
Definition safe_error (e : ClientError) : exn :=
  match e with
  | S3Error code =>
      if bool_decide (code ∈ DENIED_CODES)
      then ObjectStorageError (if String.eqb code "NoSuchKey" then "OBJECT_NOT_FOUND"
                               else "OBJECT_STORAGE_ACCESS_DENIED") false
      else ObjectStorageError "OBJECT_STORAGE_UNAVAILABLE" true
  | OtherError => ObjectStorageError "OBJECT_STORAGE_UNAVAILABLE" true
  end.

Definition object_metadata (digest : string) (size : Z) (content_type : string)
    : list (string * string) :=
  [("sha256", digest); ("byte-size", str_int size); ("verified-content-type", content_type)].

(** [s.lower()] for the first 256 code points *)
Definition lower_char (c : ascii) : ascii :=
  let n := N_of_ascii c in
  if is_upper c || (in_range 192 222 c && negb (n =? 215)%N) then ascii_of_N (n + 32) else c.
Fixpoint lower (s : string) : string :=
  match s with
  | EmptyString => EmptyString
  | String c s' => String (lower_char c) (lower s')
  end.

(** [s.removeprefix(p)] *)
Definition removeprefix (p s : string) : string :=
  if startswith p s then String.substring (String.length p) (String.length s - String.length p) s else s.

(** [_read_metadata] *)
Definition read_metadata (metadata : option (list (string * string))) (name : string) : option string :=
  option_map snd (List.find (λ kv, String.eqb (removeprefix "x-amz-meta-" (lower kv.1)) (lower name))
    (default [] metadata)).

(** [value or other] on optional text *)
Definition text_or (o : option string) (other : string) : string :=
  match o with Some s => if String.eqb s "" then other else s | None => other end.
Definition opt_or (o other : option string) : option string :=
  match o with Some s => if String.eqb s "" then other else Some s | None => other end.

Definition bucket_char (c : ascii) : bool := is_digit c || is_lower c.

(** [_BUCKET.fullmatch(bucket)] *)
Definition bucket_ok (s : string) : bool :=
  match s with
  | String c rest =>
      bucket_char c && Nat.leb 3 (String.length s) && Nat.leb (String.length s) 63 &&
      all_chars (λ c, bucket_char c || has_char c ".-") rest &&
      match String.get (String.length s - 1) s with Some d => bucket_char d | None => false end
  | EmptyString => false
  end.

Section Adapter.
Context {B : Type} {Cl : ObjectClient B} {D : Digest}.

(** The checks of [MinioObjectStorageAdapter.__init__]; the message of the [ValueError]. *)
Definition adapter_init (endpoint bucket access_key secret_key : string) : string + string :=
  if String.eqb endpoint "" || contains "://" endpoint || has_char "/" endpoint || has_char "@" endpoint ||
     negb (all_chars (in_range 33 255) endpoint) then inl "OBJECT_ENDPOINT_INVALID"
  else if negb (bucket_ok bucket) then inl "OBJECT_BUCKET_INVALID"
  else if String.eqb access_key "" || String.eqb secret_key "" then inl "OBJECT_CREDENTIAL_REQUIRED"
  else inr bucket.

Context (bucket : string).

(** [try: client call except Exception as error: raise self._safe_error(error) from None] *)
Definition safely {A} (call : B → B * (ClientError + A)) : M B A := λ b,
  match call b with
  | (b', inr a) => (b', Ret a)
  | (b', inl e) => (b', Raise (safe_error e))
  end.

(** [_stat_verified] *)
Definition stat_verified (key expected_digest : string) (expected_size : Z) (content_type : string)
    : M B StoredObject :=
  item <- safely (client_stat_object bucket key) ;;
  let digest := read_metadata (stat_metadata item) "sha256" in
  let size := stat_size item in
  let verified_type := read_metadata (stat_metadata item) "verified-content-type" in
  guard (bool_decide (digest = Some expected_digest) && (size =? expected_size) &&
         bool_decide (verified_type = Some content_type)) CHECKSUM_MISMATCH ;;
  ret (mkStored key expected_digest size content_type (text_or (stat_etag item) "")
         (stat_version_id item)).

Definition minio_health : M B bool := λ b,
  match client_bucket_exists bucket b with
  | (b', inr e) => (b', Ret e)
  | (b', inl _) => (b', Ret false)
  end.

Definition ensure_bucket : M B bool := λ b,
  let attempt :=
    match client_bucket_exists bucket b with
    | (b1, inr true) => (b1, inr false)
    | (b1, inr false) =>
        match client_make_bucket bucket b1 with
        | (b2, inr _) => (b2, inr true)
        | (b2, inl e) => (b2, inl e)
        end
    | (b1, inl e) => (b1, inl e)
    end in
  match attempt with
  | (b', inr created) => (b', Ret created)
  | (b', inl e) =>
      match client_bucket_exists bucket b' with
      | (b'', inr true) => (b'', Ret false)
      | (b'', _) => (b'', Raise (safe_error e))
      end
  end.

Definition minio_put_staged (key : string) (content : option (list N)) (content_type digest : string)
    : M B StagedObject :=
  content <- from_option content CHECKSUM_MISMATCH ;;
  guard (is_digest digest) CHECKSUM_MISMATCH ;;
  guard (String.eqb (sha256_hex content) digest) CHECKSUM_MISMATCH ;;
  let size := Z.of_nat (length content) in
  result <- safely (client_put_object bucket key content content_type
                      (object_metadata digest size content_type)) ;;
  verified <- stat_verified key digest size content_type ;;
  ret (mkStaged (so_key verified) (so_digest_sha256 verified) (so_byte_size verified)
         (so_content_type verified) (text_or (put_etag result) (so_etag verified))
         (opt_or (put_version_id result) (so_version_id verified))).

Definition minio_promote (staged : StagedObject) (final_key expected_digest : string)
    (expected_size : Z) (content_type : string) : M B StoredObject :=
  guard (String.eqb (st_digest_sha256 staged) expected_digest && (st_byte_size staged =? expected_size) &&
         String.eqb (st_content_type staged) content_type) CHECKSUM_MISMATCH ;;
  safely (client_copy_object bucket final_key (st_key staged)
            (object_metadata expected_digest expected_size content_type)) ;;
  stat_verified final_key expected_digest expected_size content_type.

Definition minio_get (key : string) : M B (list N) := safely (client_get_object bucket key).

(** [key] is [None] when the argument is no string. *)
Definition minio_delete (key : string) : M B unit :=
  guard (negb (String.eqb key "") && all_chars (in_range 0 127) key) KEY_INVALID ;;
  safely (client_remove_object bucket key).
End Adapter.

Definition minio_storage {B} {Cl : ObjectClient B} {D : Digest} (bucket : string) : ObjectStorage B :=
  {| health := minio_health bucket; put_staged := minio_put_staged bucket;
     promote := minio_promote bucket; get := minio_get bucket; delete := minio_delete bucket |}.

(** ** Object keys *)

#[local] Arguments String.append !_ _ /.

Definition no_slash (c : ascii) : bool := negb (Ascii.eqb c "/").

Lemma has_slash s : has_char "/" s = negb (all_chars no_slash s).
Proof.
  induction s as [|c s IH]; simpl; [done|]. rewrite IH. unfold no_slash.
  rewrite negb_andb, negb_involutive. by rewrite Ascii.eqb_sym.
Qed.

Lemma last_segment_app a oid : all_chars no_slash oid = true → last_segment (a +:+ "/" +:+ oid) = oid.
Proof.
  intros Ho. induction a as [|c a IH]; simpl.
  - by rewrite has_slash, Ho.
  - rewrite has_slash, all_chars_app. simpl. by rewrite andb_false_r.
Qed.

Lemma id_char_plain c : id_char c = true → in_range 32 127 c && no_slash c = true.
Proof. destruct c as [[][][][][][][][]]; vm_compute; congruence. Qed.

Lemma all_chars_and p q s : all_chars (λ c, p c && q c) s = all_chars p s && all_chars q s.
Proof. induction s as [|c s IH]; simpl; [done|]. rewrite IH. by destruct (p c), (q c), (all_chars p s). Qed.

Lemma safe_id_plain s : safe_id s = true → plain_ascii s = true ∧ all_chars no_slash s = true.
Proof.
  unfold safe_id, match_id. destruct s as [|c s]; [done|]. intros [[Hc Hs]%andb_true_iff _]%andb_true_iff.
  rewrite <- andb_true_iff. unfold plain_ascii. rewrite <- all_chars_and. simpl.
  rewrite id_char_plain; [|unfold id_char; by rewrite Hc]. simpl.
  eapply all_chars_impl; [|exact Hs]. exact id_char_plain.
Qed.

Lemma opaque_plain s : opaque_id s = true → plain_ascii s = true ∧ all_chars no_slash s = true.
Proof.
  intros [_ Hs]%andb_true_iff. rewrite <- andb_true_iff. unfold plain_ascii. rewrite <- all_chars_and.
  eapply all_chars_impl; [|exact Hs]. intros c. destruct c as [[][][][][][][][]]; vm_compute; congruence.
Qed.

Lemma area_plain a : a ∈ ALLOWED_AREAS → plain_ascii a = true ∧ all_chars no_slash a = true.
Proof. unfold ALLOWED_AREAS. rewrite !elem_of_cons. by intros [->|[->|[]%elem_of_nil]]. Qed.

(** One component of a key is read off unambiguously. *)
Lemma segment_inj a b r q :
  all_chars no_slash a = true → all_chars no_slash b = true →
  a +:+ "/" +:+ r = b +:+ "/" +:+ q → a = b ∧ r = q.
Proof.
  intros Ha Hb H. apply (run_split no_slash) in H as [-> H]; [|done..]. simpl in H. by simplify_eq.
Qed.

Lemma final_path_inj t w a o t' w' a' o' :
  safe_id t = true → safe_id w = true → a ∈ ALLOWED_AREAS →
  safe_id t' = true → safe_id w' = true → a' ∈ ALLOWED_AREAS →
  final_path t w a o = final_path t' w' a' o' → t = t' ∧ w = w' ∧ a = a' ∧ o = o'.
Proof.
  intros [_ Ht]%safe_id_plain [_ Hw]%safe_id_plain [_ Ha]%area_plain
    [_ Ht']%safe_id_plain [_ Hw']%safe_id_plain [_ Ha']%area_plain.
  unfold final_path. intros [-> [-> [-> ->]%segment_inj]%segment_inj]%segment_inj; done.
Qed.

Lemma final_path_last p t w a o : opaque_id o = true → last_segment (p +:+ final_path t w a o) = o.
Proof.
  intros [_ Ho]%opaque_plain. unfold final_path.
  rewrite <- (last_segment_app (p +:+ t +:+ "/" +:+ w +:+ "/" +:+ a) o Ho) at 2.
  by rewrite !string_app_assoc.
Qed.

Lemma final_path_plain t w a o :
  safe_id t = true → safe_id w = true → a ∈ ALLOWED_AREAS → opaque_id o = true →
  plain_ascii (final_path t w a o) = true.
Proof.
  intros [Ht _]%safe_id_plain [Hw _]%safe_id_plain [Ha _]%area_plain [Ho _]%opaque_plain.
  unfold final_path, plain_ascii in *. repeat first [rewrite all_chars_app | progress simpl].
  by rewrite Ht, Hw, Ha, Ho.
Qed.

Lemma context_valid_ids c :
  context_valid c = true → safe_id (ctx_tenant_id c) = true ∧ safe_id (ctx_workspace_id c) = true.
Proof. unfold context_valid. intros H. bools. done. Qed.

Section KeyLemmas.
Context {T : Type} (scope : CloudAccessContext) (Hscope : context_valid scope = true).
Implicit Types (s : T).

Lemma validate_scope_spec area oid s :
  validate_scope scope area oid s =
    (s, if bool_decide (area ∈ ALLOWED_AREAS) && opaque_id oid then Ret tt else Raise KEY_INVALID).
Proof using Hscope.
  apply context_valid_ids in Hscope as [Ht Hw]. unfold validate_scope, bind, guard.
  destruct (_ && _); simpl; [|done]. unfold bind, guard. by rewrite Ht, Hw.
Qed.

(** The two validators, with the prefix they expect. *)
Definition checked_key (prefix area : string) (key : pyobj) : bool :=
  match key with
  | PyStr k =>
      plain_ascii k && bool_decide (area ∈ ALLOWED_AREAS) && opaque_id (last_segment k) &&
      String.eqb k (prefix +:+ final_path (ctx_tenant_id scope) (ctx_workspace_id scope) area (last_segment k))
  | _ => false
  end.

Definition accepted_or_invalid (b : bool) : outcome unit := if b then Ret tt else Raise KEY_INVALID.

Lemma accepted_iff b s : (s, accepted_or_invalid b) = (s, Ret tt) ↔ b = true.
Proof. by destruct b. Qed.

Lemma refused_unless b (P : Prop) s :
  (b = true ↔ P) → ¬ P → (s, accepted_or_invalid b) = (s, Raise KEY_INVALID).
Proof. destruct b; [|done]. intros H HP. destruct HP. by apply H. Qed.

Lemma validate_final_spec area key s :
  validate_final scope area key s = (s, accepted_or_invalid (checked_key "" area key)).
Proof using Hscope.
  unfold validate_final, final_key, from_option, bind, checked_key. destruct key as [| | |k|]; try done.
  destruct (plain_ascii k); [|done]. unfold ret. rewrite validate_scope_spec.
  by destruct (bool_decide _), (opaque_id _); simpl; try done; unfold guard; destruct (String.eqb _ _).
Qed.

Lemma validate_staging_spec area key s :
  validate_staging scope area key s = (s, accepted_or_invalid (checked_key "_staging/" area key)).
Proof using Hscope.
  unfold validate_staging, staging_key, from_option, bind, checked_key. destruct key as [| | |k|]; try done.
  destruct (plain_ascii k); [|done]. unfold ret. rewrite validate_scope_spec.
  by destruct (bool_decide _), (opaque_id _); simpl; try done; unfold guard; destruct (String.eqb _ _).
Qed.

Lemma checked_key_iff prefix area key :
  plain_ascii prefix = true →
  checked_key prefix area key = true ↔
  ∃ oid, area ∈ ALLOWED_AREAS ∧ opaque_id oid = true ∧
    key = PyStr (prefix +:+ final_path (ctx_tenant_id scope) (ctx_workspace_id scope) area oid).
Proof using Hscope.
  apply context_valid_ids in Hscope as [Ht Hw]. intros Hp. unfold checked_key. split.
  - destruct key as [| | |k|]; try done. intros H. bools. exists (last_segment k).
    split; [done|]. split; [done|]. by f_equal.
  - intros (oid & Ha & Ho & ->). rewrite final_path_last by done.
    rewrite Ho, bool_decide_true, String.eqb_refl, !andb_true_r by done.
    unfold plain_ascii in *. by rewrite all_chars_app, Hp, final_path_plain.
Qed.
End KeyLemmas.

(** Server-owned object keys.  In a valid scope a final (or staging) key is
    accepted exactly when it is the one the policy builds for the scope and
    area and some opaque identifier, all other arguments are refused with
    OBJECT_KEY_INVALID, and nothing is changed.  So what one scope accepts no
    other tenant, workspace or area does, no key is both final and staging,
    and the key determines the object. *)
Theorem object_keys_scoped {T} (s : T) scope area key :
  context_valid scope = true →
  let path := final_path (ctx_tenant_id scope) (ctx_workspace_id scope) area in
  let final_ok := ∃ oid, area ∈ ALLOWED_AREAS ∧ opaque_id oid = true ∧ key = PyStr (path oid) in
  let staging_ok :=
    ∃ oid, area ∈ ALLOWED_AREAS ∧ opaque_id oid = true ∧ key = PyStr ("_staging/" +:+ path oid) in
  (validate_final scope area key s = (s, Ret tt) ↔ final_ok) ∧
  (validate_staging scope area key s = (s, Ret tt) ↔ staging_ok) ∧
  (¬ final_ok → validate_final scope area key s = (s, Raise KEY_INVALID)) ∧
  (¬ staging_ok → validate_staging scope area key s = (s, Raise KEY_INVALID)) ∧
  (final_ok → ∀ scope' area', context_valid scope' = true →
    validate_staging scope' area' key s = (s, Raise KEY_INVALID) ∧
    (validate_final scope' area' key s = (s, Ret tt) →
     ctx_tenant_id scope' = ctx_tenant_id scope ∧ ctx_workspace_id scope' = ctx_workspace_id scope ∧
     area' = area)) ∧
  (∀ oid oid', area ∈ ALLOWED_AREAS → path oid = path oid' → oid = oid').
Proof.
  intros Hs. cbv zeta.
  pose proof (checked_key_iff scope Hs "" area key eq_refl) as Hf.
  pose proof (checked_key_iff scope Hs "_staging/" area key eq_refl) as Hg.
  destruct (context_valid_ids _ Hs) as [Ht Hw].
  rewrite validate_final_spec, validate_staging_spec by done.
  split; [by rewrite accepted_iff|]. split; [by rewrite accepted_iff|].
  split; [by apply refused_unless|]. split; [by apply refused_unless|].
  split.
  - intros (oid & Ha & Ho & ->) scope' area' Hs'. destruct (context_valid_ids _ Hs') as [Ht' Hw'].
    rewrite validate_final_spec, validate_staging_spec by done. split.
    + apply (refused_unless _ _ s (checked_key_iff scope' Hs' "_staging/" area' _ eq_refl)).
      intros (oid' & _ & _ & E).
      assert (final_path (ctx_tenant_id scope) (ctx_workspace_id scope) area oid = "_staging" +:+ "/" +:+
        final_path (ctx_tenant_id scope') (ctx_workspace_id scope') area' oid') as E' by (injection E as E; exact E).
      destruct (safe_id_plain _ Ht) as [_ Hp]. unfold final_path in E' at 1.
      apply (segment_inj _ "_staging") in E' as [E' _]; [|done..]. by rewrite E' in Ht.
    + rewrite accepted_iff, (checked_key_iff scope' Hs' "" area' _ eq_refl).
      intros (oid' & Ha' & _ & E).
      assert (final_path (ctx_tenant_id scope) (ctx_workspace_id scope) area oid =
        final_path (ctx_tenant_id scope') (ctx_workspace_id scope') area' oid') as E' by (injection E as E; exact E).
      apply final_path_inj in E' as (-> & -> & -> & _); done.
  - intros oid oid' Ha E. apply final_path_inj in E as (_ & _ & _ & ->); done.
Qed.

Definition sample_scope : CloudAccessContext := mkContext "tenant-a" "workspace-a" "actor-a" "object.write".
Definition sample_object : string := "0123456789abcdef0123456789abcdef".
Definition sample_key : pyobj := PyStr ("tenant-a/workspace-a/source/" +:+ sample_object).

Lemma source_allowed : "source" ∈ ALLOWED_AREAS.
Proof. by left. Qed.

Example object_keys_scoped_witness :
  validate_final sample_scope "source" sample_key tt = (tt, Ret tt) ∧
  validate_final (mkContext "tenant-a" "workspace-b" "actor-a" "object.write") "source" sample_key tt =
    (tt, Raise KEY_INVALID).
Proof.
  split; [|reflexivity].
  exact (proj2 (proj1 (object_keys_scoped tt sample_scope "source" sample_key eq_refl))
    (ex_intro _ sample_object (conj source_allowed (conj eq_refl eq_refl)))).
Defined.

(** ** Retry delays *)

Lemma bounded_delay_nonneg p power jitter :
  policy_valid p = true → valid (jitter_ratio p) → base_seconds p ≠ f_nan → max_seconds p ≠ f_nan →
  nonneg power → nonneg jitter → nonneg (bounded_delay p power jitter).
Proof.
  intros Hp Hv Hb Hm Hpow Hj. unfold policy_valid in Hp. bools.
  assert (nonneg (base_seconds p)) as Hbase by (by apply not_le_zero_nonneg).
  assert (nonneg (max_seconds p)) as Hmax by (eapply not_lt_nonneg; eauto).
  assert (nonneg (jitter_ratio p)) as Hr by (by apply fle_zero_nonneg).
  unfold bounded_delay. apply fmin_nonneg; [done|].
  apply fmul_any; [right; apply fmin_nonneg; [done|by apply fmul_nonneg]|].
  apply fadd_any; [by apply fsub_one_nonneg|].
  apply fmul_any; [by apply fmul_nonneg|by right].
Qed.

(** Retry delays.  With a valid policy whose seconds are numbers, every
    attempt from 1 to 1024 and every jitter in [0, 1] gives a delay: a number
    that is not negative and at most the policy's maximum; its duration, when
    [timedelta] represents it, does not lie in the past.  An attempt below 1
    or a jitter outside of [0, 1] is refused. *)
Theorem retry_delay_bounds {T} (s : T) p attempt jitter :
  policy_valid p = true →
  valid (jitter_ratio p) → base_seconds p ≠ f_nan → max_seconds p ≠ f_nan →
  (1 <= attempt <= 1024 → fle f_zero jitter = true → fle jitter f_one = true →
   ∃ d, delay_seconds p attempt jitter s = (s, Ret d) ∧ nonneg d ∧ fle d (max_seconds p) = true ∧
     ∀ (s' s'' : T) us, timedelta_seconds d s' = (s'', Ret us) → 0 <= us) ∧
  (attempt < 1 ∨ fle f_zero jitter = false ∨ fle jitter f_one = false →
   delay_seconds p attempt jitter s = (s, Raise (PyError "ValueError"))).
Proof.
  intros Hp Hv Hb Hm. unfold delay_seconds. split.
  - intros Ha Hj0 Hj1. destruct (float_of_power (attempt - 1)) as (x & Hx & Hxn); [lia|].
    assert (nonneg (bounded_delay p x jitter)) as Hd
      by (apply bounded_delay_nonneg; [done..|by apply fle_zero_nonneg]).
    assert ((attempt <? 1) = false) as -> by (apply Z.ltb_ge; lia). rewrite Hj0, Hj1, Hx.
    eexists. split; [reflexivity|]. split; [done|]. split; [by apply fmin_le|].
    intros s' s'' us Hus. by eapply timedelta_nonneg in Hus as [? _].
  - intros [Ha|[Hj|Hj]]; [assert ((attempt <? 1) = true) as -> by (by apply Z.ltb_lt); done|..];
      rewrite Hj; unfold bind, guard; by rewrite ?andb_false_r.
Qed.

(** The default policy doubles from two seconds; with the jitter in the middle
    the third attempt waits eight seconds. *)
Definition half : float := scaled 1 (-1).

Example third_delay :
  (d <- delay_seconds default_policy 3 half ;; timedelta_seconds d) tt = (tt, Ret (8 * seconds)).
Proof. vm_compute. reflexivity. Qed.

Example delay_capped :
  (d <- delay_seconds default_policy 20 f_one ;; timedelta_seconds d) tt = (tt, Ret (300 * seconds)).
Proof. vm_compute. reflexivity. Qed.

Example delay_overflows : delay_seconds default_policy 1025 half tt = (tt, Raise (PyError "OverflowError")).
Proof. vm_compute. reflexivity. Qed.

Lemma default_policy_ok :
  policy_valid default_policy = true ∧ valid (jitter_ratio default_policy) ∧
  base_seconds default_policy ≠ f_nan ∧ max_seconds default_policy ≠ f_nan.
Proof. vm_compute. repeat split; discriminate. Qed.

Example retry_delay_bounds_witness :
  ∃ d, delay_seconds default_policy 3 half tt = (tt, Ret d) ∧ nonneg d ∧
    fle d (max_seconds default_policy) = true.
Proof.
  destruct default_policy_ok as (Hp & Hv & Hb & Hm).
  destruct (proj1 (retry_delay_bounds tt default_policy 3 half Hp Hv Hb Hm)
    (conj (Zle_bool_imp_le 1 3 eq_refl) (Zle_bool_imp_le 3 1024 eq_refl)) eq_refl eq_refl)
    as (d & Hd & Hn & Hle & _).
  exists d. split; [exact Hd|]. split; [exact Hn|exact Hle].
Defined.

(** ** The adapter *)

(** Everything the adapter raises. *)
Definition SAFE_ERRORS : list exn :=
  [CHECKSUM_MISMATCH; KEY_INVALID; ObjectStorageError "OBJECT_NOT_FOUND" false;
   ObjectStorageError "OBJECT_STORAGE_ACCESS_DENIED" false;
   ObjectStorageError "OBJECT_STORAGE_UNAVAILABLE" true].

Definition raises_safely {A} (o : outcome A) : Prop :=
  match o with Ret _ => True | Raise e => e ∈ SAFE_ERRORS end.

Lemma safe_errors_own e : e ∈ SAFE_ERRORS → is_own_error e.
Proof.
  unfold SAFE_ERRORS. rewrite !elem_of_cons, elem_of_nil.
  intros [->|[->|[->|[->|[->|[]]]]]]; by eexists _, _.
Qed.

Lemma safe_error_safe e : safe_error e ∈ SAFE_ERRORS.
Proof.
  unfold safe_error, SAFE_ERRORS. destruct e as [code|]; [|set_solver].
  case_bool_decide; [destruct (String.eqb code _)|]; set_solver.
Qed.

Section AdapterLemmas.
Context {B : Type} {Cl : ObjectClient B} {D : Digest} (bucket : string).

Abbreviation safe m := (∀ b : B, raises_safely (result m b)).

Lemma safe_bind {A A'} (m : M B A) (k : A → M B A') : safe m → (∀ a, safe (k a)) → safe (bind m k).
Proof.
  intros Hm Hk b. specialize (Hm b). unfold bind. destruct (m b) as [b' [a|e]]; [apply Hk|exact Hm].
Qed.

Lemma safe_guard c e : e ∈ SAFE_ERRORS → safe (guard c e).
Proof. by destruct c. Qed.

Lemma safe_safely {A} (call : B → B * (ClientError + A)) : safe (safely call).
Proof. intros b. unfold safely. destruct (call b) as [b' [e|a]]; [apply safe_error_safe|done]. Qed.

Lemma safe_stat_verified key d n ct : safe (stat_verified bucket key d n ct).
Proof.
  apply safe_bind; [apply safe_safely|]. intros item. apply safe_bind; [|done].
  apply safe_guard. by left.
Qed.

Lemma safe_put key c ct d : safe (minio_put_staged bucket key c ct d).
Proof.
  unfold minio_put_staged. apply safe_bind; [destruct c; [done|by left]|]. intros content.
  do 2 (apply safe_bind; [apply safe_guard; by left|intros _]).
  apply safe_bind; [apply safe_safely|]. intros res.
  apply safe_bind; [apply safe_stat_verified|done].
Qed.

Lemma safe_promote st key d n ct : safe (minio_promote bucket st key d n ct).
Proof.
  unfold minio_promote. apply safe_bind; [apply safe_guard; by left|]. intros _.
  apply safe_bind; [apply safe_safely|]. intros _. apply safe_stat_verified.
Qed.

Lemma stat_verified_Ret key d n ct b b' so :
  stat_verified bucket key d n ct b = (b', Ret so) ↔
  ∃ item, client_stat_object bucket key b = (b', inr item) ∧
    read_metadata (stat_metadata item) "sha256" = Some d ∧ stat_size item = n ∧
    read_metadata (stat_metadata item) "verified-content-type" = Some ct ∧
    so = mkStored key d n ct (text_or (stat_etag item) "") (stat_version_id item).
Proof.
  unfold stat_verified, bind, safely. destruct (client_stat_object bucket key b) as [b1 [e|item]]; split.
  - done.
  - by intros (item & ? & _).
  - unfold guard. destruct (_ && _) eqn:E; [|done]. bools. intros [= <- <-]. exists item. by subst.
  - intros (item' & [= -> ->] & H1 & H2 & H3 & ->). unfold guard.
    rewrite !bool_decide_true by done. by rewrite H2, Z.eqb_refl.
Qed.

#[export] Instance minio_laws : @ObjectStorageLaws D B (minio_storage bucket).
Proof.
  split; simpl.
  - intros key c ct d b b' st. unfold minio_put_staged. destruct c as [bytes|]; [|done].
    unfold bind at 1, from_option, ret at 1. destruct (is_digest d); [|done].
    destruct (String.eqb _ _) eqn:Hd; [|done]. bools. unfold guard, bind.
    unfold ret; cbn beta iota. lazymatch goal with |- context [safely ?c b] => destruct (safely c b) as [b1 [res|e]] end; [|done].
    destruct (stat_verified _ _ _ _ _ b1) as [b2 [so|e]] eqn:E; [|done].
    apply stat_verified_Ret in E as (item & _ & _ & _ & _ & ->).
    intros H. inversion H; subst. by exists bytes.
  - intros st key d n ct b b' so. unfold minio_promote, guard, bind.
    destruct (_ && _); [|done].
    unfold ret; cbn beta iota. lazymatch goal with |- context [safely ?c b] => destruct (safely c b) as [b1 [res|e]] end; [|done].
    intros (item & _ & _ & _ & _ & ->)%stat_verified_Ret. done.
  - intros key c ct d b b' e H. apply safe_errors_own. pose proof (safe_put key c ct d b) as Hs.
    by rewrite H in Hs.
  - intros st key d n ct b b' e H. apply safe_errors_own. pose proof (safe_promote st key d n ct b) as Hs.
    by rewrite H in Hs.
Qed.

(** C40: The S3 adapter trusts only what the service reports.  A promotion
    returns exactly when the staged object was the expected one, the copy
    succeeded and the service then reports the expected digest, size and
    verified content type for the final key, which is what it returns.
    Whatever the client does, putting, promoting, reading, deleting and
    provisioning raise only the adapter's own five errors, and the health check
    raises none. *)
Theorem promotion_verified st key d n ct b :
  (∀ b' so, minio_promote bucket st key d n ct b = (b', Ret so) ↔
    st_digest_sha256 st = d ∧ st_byte_size st = n ∧ st_content_type st = ct ∧
    ∃ b1 item,
      client_copy_object bucket key (st_key st) (object_metadata d n ct) b = (b1, inr tt) ∧
      client_stat_object bucket key b1 = (b', inr item) ∧
      read_metadata (stat_metadata item) "sha256" = Some d ∧ stat_size item = n ∧
      read_metadata (stat_metadata item) "verified-content-type" = Some ct ∧
      so = mkStored key d n ct (text_or (stat_etag item) "") (stat_version_id item)) ∧
  raises_safely (result (minio_promote bucket st key d n ct) b) ∧
  (∀ c d', raises_safely (result (minio_put_staged bucket key c ct d') b)) ∧
  raises_safely (result (minio_get bucket key) b) ∧
  raises_safely (result (minio_delete bucket key) b) ∧
  raises_safely (result (ensure_bucket bucket) b) ∧
  ∃ up, result (minio_health bucket) b = Ret up.
Proof.
  split; [|split; [apply safe_promote|split; [intros; apply safe_put|]]].
  - intros b' so. unfold minio_promote, guard, bind. split.
    + destruct (_ && _) eqn:E; [|done]. bools. unfold safely, ret.
      destruct (client_copy_object _ _ _ _ b) as [b1 [e|[]]] eqn:Hc; [done|].
      intros (item & Hi)%stat_verified_Ret. repeat (split; [done|]). by exists b1, item.
    + intros (-> & -> & -> & b1 & item & Hc & Hi).
      rewrite !String.eqb_refl, Z.eqb_refl. simpl. unfold ret, safely. rewrite Hc.
      apply stat_verified_Ret. by exists item.
  - split; [apply safe_safely|]. split.
    { apply safe_bind; [apply safe_guard; by right; left|]. intros _. apply safe_safely. }
    split.
    + unfold ensure_bucket. destruct (client_bucket_exists bucket b) as [b1 [e|[]]]; [|done|].
      * destruct (client_bucket_exists bucket b1) as [b2 [e'|[]]]; try done; apply safe_error_safe.
      * destruct (client_make_bucket bucket b1) as [b2 [e|[]]]; [|done].
        destruct (client_bucket_exists bucket b2) as [b3 [e'|[]]]; try done; apply safe_error_safe.
    + unfold minio_health. destruct (client_bucket_exists bucket b) as [b1 [e|u]]; by eexists.
Qed.
End AdapterLemmas.

(** ** A bucket in memory *)

Definition MemBucket : Type := gmap string (list N * list (string * string)).

#[export] Instance memory_client : ObjectClient MemBucket := {|
  client_bucket_exists _ b := (b, inr true);
  client_make_bucket _ b := (b, inr tt);
  client_stat_object _ key b := (b, match b !! key with
    | Some (content, metadata) =>
        inr (mkStat (Some (map (λ kv, ("X-Amz-Meta-" +:+ kv.1, kv.2)) metadata))
               (Z.of_nat (length content)) (Some "etag") None)
    | None => inl (S3Error "NoSuchKey")
    end);
  client_put_object _ key content _ metadata b :=
    (<[key := (content, metadata)]> b, inr (mkPut (Some "etag") None));
  client_copy_object _ target source metadata b :=
    match b !! source with
    | Some (content, _) => (<[target := (content, metadata)]> b, inr tt)
    | None => (b, inl (S3Error "NoSuchKey"))
    end;
  client_get_object _ key b := (b, match b !! key with
    | Some (content, _) => inr content
    | None => inl (S3Error "NoSuchKey")
    end);
  client_remove_object _ key b := (base.delete key b, inr tt)
|}.

Definition sample_content : list N := encode "object-content".

(** Stored, promoted and read back; a staged object that is missing is not. *)
Example stored_and_promoted :
  let digest := sha256_hex sample_content in
  result (minio_put_staged "objects" "a" (Some sample_content) "text/plain" digest) (∅ : MemBucket) =
    Ret (mkStaged "a" digest 14 "text/plain" "etag" None) ∧
  result (staged <- minio_put_staged "objects" "a" (Some sample_content) "text/plain" digest ;;
          minio_promote "objects" staged "b" digest 14 "text/plain" ;;
          minio_get "objects" "b") (∅ : MemBucket) = Ret sample_content ∧
  result (minio_promote "objects" (mkStaged "a" digest 14 "text/plain" "" None) "b" digest 14 "text/plain")
    (∅ : MemBucket) = Raise (ObjectStorageError "OBJECT_NOT_FOUND" false).
Proof. vm_compute. repeat split. Qed.
