(* ===== verification/ObjectQueue.v ===== *)
(** The durable object queue (object_queue.py): tables, store, coordinator and
    worker.

    The tables are finite maps from (tenant, workspace, identifier) to rows, as
    migration 0002 declares them; row-level security restricts every statement
    to the scope of its context, and a transaction that raises leaves the
    tables as they were.  [now] is an argument where the program takes it, and
    otherwise the moment its clock gives.  Identifiers are compared by bytes. *)

From S2P Require Import Prelude Sha256 PyStr PyFloat ObjectStore.
From Stdlib Require Import Ascii.
#[local] Open Scope Z_scope.

(** ** Rows *)

(** [object_records] *)
Record ObjectRow := mkObject {
  or_area : string;
  or_staging_key : string;
  or_object_key : string;
  or_digest_sha256 : string;
  or_byte_size : Z;
  or_content_type : string;
  or_status : string;
  or_storage_etag : option string;
  or_storage_version_id : option string;
  or_created_by : string;
  or_trace_id : string;
  or_idempotency_key : string;
  or_request_fingerprint : string;
  or_version : Z;
  or_created_at : Z;
  or_completed_at : option Z
}.

(** [object_outbox_events]; the payload's only variable part is the object. *)
Record OutboxRow := mkOutbox {
  ob_object_id : string;
  ob_payload_object : string;
  ob_status : string;
  ob_trace_id : string;
  ob_created_at : Z;
  ob_completed_at : option Z
}.

(** [durable_jobs] *)
Record JobRow := mkJob {
  jr_event_id : string;
  jr_payload_object : string;
  jr_deduplication_key : string;
  jr_state : string;
  jr_attempt : Z;
  jr_max_attempts : Z;
  jr_next_attempt_at : Z;
  jr_lease_owner : option string;
  jr_lease_until : option Z;
  jr_last_safe_error_code : option string;
  jr_retry_of_job_id : option string;
  jr_created_by : string;
  jr_trace_id : string;
  jr_version : Z;
  jr_created_at : Z;
  jr_completed_at : option Z
}.

(** [job_attempts] *)
Record AttemptRow := mkAttempt {
  at_worker_id : string;
  at_outcome : string;
  at_safe_error_code : option string;
  at_trace_id : string;
  at_started_at : Z;
  at_finished_at : Z
}.

(** [audit_events], the columns the queue fills *)
Record AuditRow := mkAudit {
  au_workspace_id : string;
  au_actor_id : string;
  au_action : string;
  au_target_type : string;
  au_target_id : string;
  au_outcome : string;
  au_trace_id : string;
  au_policy_version : string;
  au_metadata : list (string * string)
}.

Abbreviation Key := (string * string * string)%type.

Record Store := mkStore {
  tenants : gset string;
  workspaces : gset (string * string);
  objects : gmap Key ObjectRow;
  outbox : gmap Key OutboxRow;
  jobs : gmap Key JobRow;
  attempts : gmap (Key * Z) AttemptRow;
  audits : gmap (string * string) AuditRow
}.

Definition empty_store : Store := mkStore ∅ ∅ ∅ ∅ ∅ ∅ ∅.

(** ** What the calls return *)

Record ObjectRecord := mkRecord {
  rec_object_id : string;
  rec_area : string;
  rec_staging_key : string;
  rec_object_key : string;
  rec_digest_sha256 : string;
  rec_byte_size : Z;
  rec_content_type : string;
  rec_status : string;
  rec_storage_etag : option string;
  rec_storage_version_id : option string;
  rec_version : Z
}.

Record ObjectSubmission := mkSubmission {
  sub_object_id : string;
  sub_job_id : string;
  sub_event_id : string;
  sub_replayed : bool
}.

Record ObjectJob := mkObjectJob {
  jb_job_id : string;
  jb_event_id : string;
  jb_object_id : string;
  jb_state : string;
  jb_attempt : Z;
  jb_max_attempts : Z;
  jb_next_attempt_at : Z;
  jb_lease_owner : option string;
  jb_lease_until : option Z;
  jb_last_safe_error_code : option string;
  jb_retry_of_job_id : option string;
  jb_trace_id : string;
  jb_version : Z;
  jb_created_at : Z
}.

(** The age of the oldest waiting job is in microseconds. *)
Record QueueMetrics := mkMetrics {
  qm_pending : Z;
  qm_retry_wait : Z;
  qm_leased : Z;
  qm_dead_letter : Z;
  qm_oldest_pending : Z
}.

Record EntityCounts := mkCounts {
  ec_objects : nat;
  ec_outbox : nat;
  ec_jobs : nat;
  ec_attempts : nat
}.

(** [_job_from_row] *)
Definition job_from_row (id : string) (r : JobRow) : ObjectJob :=
  mkObjectJob id (jr_event_id r) (jr_payload_object r) (jr_state r) (jr_attempt r) (jr_max_attempts r)
    (jr_next_attempt_at r) (jr_lease_owner r) (jr_lease_until r) (jr_last_safe_error_code r)
    (jr_retry_of_job_id r) (jr_trace_id r) (jr_version r) (jr_created_at r).

(** [_object_from_row] *)
Definition object_from_row (id : string) (r : ObjectRow) : ObjectRecord :=
  mkRecord id (or_area r) (or_staging_key r) (or_object_key r) (or_digest_sha256 r) (or_byte_size r)
    (or_content_type r) (or_status r) (or_storage_etag r) (or_storage_version_id r) (or_version r).

(** ** Statements *)

Definition set_tenants (v : gset string) (r : Store) : Store :=
  mkStore v (workspaces r) (objects r) (outbox r) (jobs r) (attempts r) (audits r).
Definition set_workspaces (v : gset (string * string)) (r : Store) : Store :=
  mkStore (tenants r) v (objects r) (outbox r) (jobs r) (attempts r) (audits r).
Definition set_objects (v : gmap Key ObjectRow) (r : Store) : Store :=
  mkStore (tenants r) (workspaces r) v (outbox r) (jobs r) (attempts r) (audits r).
Definition set_outbox (v : gmap Key OutboxRow) (r : Store) : Store :=
  mkStore (tenants r) (workspaces r) (objects r) v (jobs r) (attempts r) (audits r).
Definition set_jobs (v : gmap Key JobRow) (r : Store) : Store :=
  mkStore (tenants r) (workspaces r) (objects r) (outbox r) v (attempts r) (audits r).
Definition set_attempts (v : gmap (Key * Z) AttemptRow) (r : Store) : Store :=
  mkStore (tenants r) (workspaces r) (objects r) (outbox r) (jobs r) v (audits r).
Definition set_audits (v : gmap (string * string) AuditRow) (r : Store) : Store :=
  mkStore (tenants r) (workspaces r) (objects r) (outbox r) (jobs r) (attempts r) v.

Definition set_or_status (v : string) (r : ObjectRow) : ObjectRow :=
  mkObject (or_area r) (or_staging_key r) (or_object_key r) (or_digest_sha256 r) (or_byte_size r) (or_content_type r) v (or_storage_etag r) (or_storage_version_id r) (or_created_by r) (or_trace_id r) (or_idempotency_key r) (or_request_fingerprint r) (or_version r) (or_created_at r) (or_completed_at r).
Definition set_or_storage_etag (v : option string) (r : ObjectRow) : ObjectRow :=
  mkObject (or_area r) (or_staging_key r) (or_object_key r) (or_digest_sha256 r) (or_byte_size r) (or_content_type r) (or_status r) v (or_storage_version_id r) (or_created_by r) (or_trace_id r) (or_idempotency_key r) (or_request_fingerprint r) (or_version r) (or_created_at r) (or_completed_at r).
Definition set_or_storage_version_id (v : option string) (r : ObjectRow) : ObjectRow :=
  mkObject (or_area r) (or_staging_key r) (or_object_key r) (or_digest_sha256 r) (or_byte_size r) (or_content_type r) (or_status r) (or_storage_etag r) v (or_created_by r) (or_trace_id r) (or_idempotency_key r) (or_request_fingerprint r) (or_version r) (or_created_at r) (or_completed_at r).
Definition set_or_version (v : Z) (r : ObjectRow) : ObjectRow :=
  mkObject (or_area r) (or_staging_key r) (or_object_key r) (or_digest_sha256 r) (or_byte_size r) (or_content_type r) (or_status r) (or_storage_etag r) (or_storage_version_id r) (or_created_by r) (or_trace_id r) (or_idempotency_key r) (or_request_fingerprint r) v (or_created_at r) (or_completed_at r).
Definition set_or_completed_at (v : option Z) (r : ObjectRow) : ObjectRow :=
  mkObject (or_area r) (or_staging_key r) (or_object_key r) (or_digest_sha256 r) (or_byte_size r) (or_content_type r) (or_status r) (or_storage_etag r) (or_storage_version_id r) (or_created_by r) (or_trace_id r) (or_idempotency_key r) (or_request_fingerprint r) (or_version r) (or_created_at r) v.

Definition set_ob_status (v : string) (r : OutboxRow) : OutboxRow :=
  mkOutbox (ob_object_id r) (ob_payload_object r) v (ob_trace_id r) (ob_created_at r) (ob_completed_at r).
Definition set_ob_completed_at (v : option Z) (r : OutboxRow) : OutboxRow :=
  mkOutbox (ob_object_id r) (ob_payload_object r) (ob_status r) (ob_trace_id r) (ob_created_at r) v.

Definition set_jr_state (v : string) (r : JobRow) : JobRow :=
  mkJob (jr_event_id r) (jr_payload_object r) (jr_deduplication_key r) v (jr_attempt r) (jr_max_attempts r) (jr_next_attempt_at r) (jr_lease_owner r) (jr_lease_until r) (jr_last_safe_error_code r) (jr_retry_of_job_id r) (jr_created_by r) (jr_trace_id r) (jr_version r) (jr_created_at r) (jr_completed_at r).
Definition set_jr_attempt (v : Z) (r : JobRow) : JobRow :=
  mkJob (jr_event_id r) (jr_payload_object r) (jr_deduplication_key r) (jr_state r) v (jr_max_attempts r) (jr_next_attempt_at r) (jr_lease_owner r) (jr_lease_until r) (jr_last_safe_error_code r) (jr_retry_of_job_id r) (jr_created_by r) (jr_trace_id r) (jr_version r) (jr_created_at r) (jr_completed_at r).
Definition set_jr_next_attempt_at (v : Z) (r : JobRow) : JobRow :=
  mkJob (jr_event_id r) (jr_payload_object r) (jr_deduplication_key r) (jr_state r) (jr_attempt r) (jr_max_attempts r) v (jr_lease_owner r) (jr_lease_until r) (jr_last_safe_error_code r) (jr_retry_of_job_id r) (jr_created_by r) (jr_trace_id r) (jr_version r) (jr_created_at r) (jr_completed_at r).
Definition set_jr_lease_owner (v : option string) (r : JobRow) : JobRow :=
  mkJob (jr_event_id r) (jr_payload_object r) (jr_deduplication_key r) (jr_state r) (jr_attempt r) (jr_max_attempts r) (jr_next_attempt_at r) v (jr_lease_until r) (jr_last_safe_error_code r) (jr_retry_of_job_id r) (jr_created_by r) (jr_trace_id r) (jr_version r) (jr_created_at r) (jr_completed_at r).
Definition set_jr_lease_until (v : option Z) (r : JobRow) : JobRow :=
  mkJob (jr_event_id r) (jr_payload_object r) (jr_deduplication_key r) (jr_state r) (jr_attempt r) (jr_max_attempts r) (jr_next_attempt_at r) (jr_lease_owner r) v (jr_last_safe_error_code r) (jr_retry_of_job_id r) (jr_created_by r) (jr_trace_id r) (jr_version r) (jr_created_at r) (jr_completed_at r).
Definition set_jr_last_safe_error_code (v : option string) (r : JobRow) : JobRow :=
  mkJob (jr_event_id r) (jr_payload_object r) (jr_deduplication_key r) (jr_state r) (jr_attempt r) (jr_max_attempts r) (jr_next_attempt_at r) (jr_lease_owner r) (jr_lease_until r) v (jr_retry_of_job_id r) (jr_created_by r) (jr_trace_id r) (jr_version r) (jr_created_at r) (jr_completed_at r).
Definition set_jr_version (v : Z) (r : JobRow) : JobRow :=
  mkJob (jr_event_id r) (jr_payload_object r) (jr_deduplication_key r) (jr_state r) (jr_attempt r) (jr_max_attempts r) (jr_next_attempt_at r) (jr_lease_owner r) (jr_lease_until r) (jr_last_safe_error_code r) (jr_retry_of_job_id r) (jr_created_by r) (jr_trace_id r) v (jr_created_at r) (jr_completed_at r).
Definition set_jr_completed_at (v : option Z) (r : JobRow) : JobRow :=
  mkJob (jr_event_id r) (jr_payload_object r) (jr_deduplication_key r) (jr_state r) (jr_attempt r) (jr_max_attempts r) (jr_next_attempt_at r) (jr_lease_owner r) (jr_lease_until r) (jr_last_safe_error_code r) (jr_retry_of_job_id r) (jr_created_by r) (jr_trace_id r) (jr_version r) (jr_created_at r) v.

Abbreviation St := (M Store).

(** [psycopg.Error] with the SQLSTATE of the server. *)
Definition sql_error_class : string := "psycopg.Error:".
Definition SqlError (sqlstate : string) : exn := PyError (sql_error_class +:+ sqlstate).

(** [classify_database_error] (cloud_storage.py) *)
Definition classify_database_error (sqlstate : string) : exn :=
  if String.eqb sqlstate "57014" then ObjectQueueError "DATABASE_TIMEOUT" true
  else if bool_decide (sqlstate ∈ ["40P01"; "40001"]) then ObjectQueueError "DATABASE_RETRYABLE_CONFLICT" true
  else if startswith "23" sqlstate then ObjectQueueError "DATABASE_CONSTRAINT_VIOLATION" false
  else if bool_decide (sqlstate ∈ ["42501"; "55000"]) then ObjectQueueError "DATABASE_ACCESS_DENIED" false
  else ObjectQueueError "DATABASE_UNAVAILABLE" true.

(** What [_transaction] makes of an exception. *)
Definition translated (e : exn) : exn :=
  match e with
  | PyError class =>
      if startswith sql_error_class class
      then classify_database_error (removeprefix sql_error_class class) else e
  | Raised _ _ _ => e
  end.

(** [with self._transaction(context) as connection] *)
Definition in_transaction {A} (m : St A) : St A := λ s,
  match transaction m s with
  | (s', Ret a) => (s', Ret a)
  | (s', Raise e) => (s', Raise (translated e))
  end.

Definition UNIQUE_VIOLATION : exn := SqlError "23505".
Definition FOREIGN_KEY_VIOLATION : exn := SqlError "23503".
Definition CHECK_VIOLATION : exn := SqlError "23514".
Definition OUT_OF_RANGE : exn := SqlError "22003".

(** Storing in an [integer] or [bigint] column. *)
Definition int4 (z : Z) : St unit := guard ((-2147483648 <=? z) && (z <=? 2147483647)) OUT_OF_RANGE.
Definition int8 (z : Z) : St unit :=
  guard ((-9223372036854775808 <=? z) && (z <=? 9223372036854775807)) OUT_OF_RANGE.

Definition in_scope (ctx : CloudAccessContext) (id : string) : Key :=
  (ctx_tenant_id ctx, ctx_workspace_id ctx, id).

Section Statements.
Context (ctx : CloudAccessContext).

(** The rows row-level security shows. *)
Definition visible {V} (m : gmap Key V) : list (string * V) :=
  omap (λ '((t, w, id), v),
    if decide (t = ctx_tenant_id ctx ∧ w = ctx_workspace_id ctx) then Some (id, v) else None)
    (map_to_list m).

(** [SELECT ... WHERE p] and [fetchone()] *)
Definition select_one {V} (p : V → bool) (m : gmap Key V) : option (string * V) :=
  List.find (λ r, p r.2) (visible m).

(** [SELECT ... WHERE id = ...] *)
Definition select_id {V} (id : string) (m : gmap Key V) : option V := m !! in_scope ctx id.

Definition scope_exists : St unit :=
  s <- gets (λ s, s) ;;
  guard (bool_decide ((ctx_tenant_id ctx, ctx_workspace_id ctx) ∈ workspaces s)) FOREIGN_KEY_VIOLATION.

Definition is_none {A} (o : option A) : bool := match o with None => true | Some _ => false end.
Definition is_some {A} (o : option A) : bool := negb (is_none o).

Definition object_checks (r : ObjectRow) : bool :=
  bool_decide (or_area r ∈ ALLOWED_AREAS) && is_digest (or_digest_sha256 r) && (0 <=? or_byte_size r) &&
  Nat.leb 1 (String.length (or_content_type r)) && Nat.leb (String.length (or_content_type r)) 255.

Definition insert_object (id : string) (r : ObjectRow) : St unit :=
  int8 (or_byte_size r) ;;
  guard (object_checks r) CHECK_VIOLATION ;;
  s <- gets (λ s, s) ;;
  guard (is_none (select_id id (objects s)) &&
         is_none (select_one (λ o, String.eqb (or_object_key o) (or_object_key r)) (objects s)) &&
         is_none (select_one (λ o, String.eqb (or_created_by o) (or_created_by r) &&
                    String.eqb (or_idempotency_key o) (or_idempotency_key r)) (objects s))) UNIQUE_VIOLATION ;;
  scope_exists ;;
  modify (λ s, set_objects (<[in_scope ctx id := r]> (objects s)) s).

Definition insert_outbox (id : string) (r : OutboxRow) : St unit :=
  s <- gets (λ s, s) ;;
  guard (is_none (select_id id (outbox s))) UNIQUE_VIOLATION ;;
  guard (is_some (select_id (ob_object_id r) (objects s))) FOREIGN_KEY_VIOLATION ;;
  modify (λ s, set_outbox (<[in_scope ctx id := r]> (outbox s)) s).

Definition insert_job (id : string) (r : JobRow) : St unit :=
  s <- gets (λ s, s) ;;
  guard ((1 <=? jr_max_attempts r) && (jr_max_attempts r <=? 100)) CHECK_VIOLATION ;;
  guard (is_none (select_id id (jobs s)) &&
         is_none (select_one (λ j, String.eqb (jr_deduplication_key j) (jr_deduplication_key r)) (jobs s)))
    UNIQUE_VIOLATION ;;
  guard (is_some (select_id (jr_event_id r) (outbox s)) &&
         match jr_retry_of_job_id r with Some j => is_some (select_id j (jobs s)) | None => true end)
    FOREIGN_KEY_VIOLATION ;;
  modify (λ s, set_jobs (<[in_scope ctx id := r]> (jobs s)) s).

Definition insert_attempt (job : string) (number : Z) (r : AttemptRow) : St unit :=
  s <- gets (λ s, s) ;;
  int4 number ;;
  guard (0 <? number) CHECK_VIOLATION ;;
  guard (bool_decide (attempts s !! (in_scope ctx job, number) = None)) UNIQUE_VIOLATION ;;
  guard (is_some (select_id job (jobs s))) FOREIGN_KEY_VIOLATION ;;
  modify (λ s, set_attempts (<[(in_scope ctx job, number) := r]> (attempts s)) s).

Definition insert_audit (id : string) (r : AuditRow) : St unit :=
  s <- gets (λ s, s) ;;
  guard (bool_decide (audits s !! (ctx_tenant_id ctx, id) = None)) UNIQUE_VIOLATION ;;
  scope_exists ;;
  modify (λ s, set_audits (<[(ctx_tenant_id ctx, id) := r]> (audits s)) s).

Definition queue_audit (action target_type target_id outcome trace : string)
    (metadata : list (string * string)) : AuditRow :=
  mkAudit (ctx_workspace_id ctx) (ctx_actor_id ctx) action target_type target_id outcome trace
    "object-queue-v1" metadata.

(** [UPDATE object_outbox_events SET ... WHERE event_id = ...] *)
Definition update_outbox (id : string) (f : OutboxRow → OutboxRow) : St unit :=
  modify (λ s, set_outbox (alter f (in_scope ctx id) (outbox s)) s).

(** [UPDATE object_records SET ..., version=version+1 WHERE object_id = ...] *)
Definition update_object (id : string) (f : ObjectRow → ObjectRow) : St unit :=
  s <- gets (λ s, s) ;;
  match select_id id (objects s) with
  | None => ret tt
  | Some r =>
      int4 (or_version r + 1) ;;
      modify (λ s, set_objects (<[in_scope ctx id := set_or_version (or_version r + 1) (f r)]> (objects s)) s)
  end.

(** [UPDATE durable_jobs SET ..., version=version+1 WHERE job_id = ... RETURNING ...] *)
Definition update_job (id : string) (r : JobRow) (f : JobRow → JobRow) : St ObjectJob :=
  let r' := set_jr_version (jr_version r + 1) (f r) in
  int4 (jr_version r') ;;
  int4 (jr_attempt r') ;;
  modify (λ s, set_jobs (<[in_scope ctx id := r']> (jobs s)) s) ;;
  ret (job_from_row id r').
End Statements.

(** ** PostgresObjectQueueStore *)

Section QueueStore.
Context {D : Digest}.
(** The quota check a deployment may install: it reads the database and may
    refuse a tenant's next bytes. *)
Context (creation_enforcer : option (Store → string → Z → option exn)).

Definition check_id (value code : string) : St unit :=
  guard (safe_id value) (ObjectQueueError code false).

(** [validate_payload], of a mapping *)
Definition validate_payload (job_kind : string) (payload : list (string * pyobj))
    : St (list (string * pyobj)) :=
  let invalid := ObjectQueueError "JOB_PAYLOAD_INVALID" false in
  guard (String.eqb job_kind "object.promote" &&
         forallb (λ k, bool_decide (k ∈ dict_keys payload)) ["schema_version"; "object_id"] &&
         forallb (λ k, bool_decide (k ∈ ["schema_version"; "object_id"])) (dict_keys payload)) invalid ;;
  guard (bool_decide (dict_get "schema_version" payload ∈ [Some (PyInt 1); Some (PyBool true)])) invalid ;;
  object_id <- from_option (match dict_get "object_id" payload with
                            | Some (PyStr s) => if opaque_id s then Some s else None
                            | _ => None
                            end) invalid ;;
  ret [("schema_version", PyInt 1); ("object_id", PyStr object_id)].

Definition seed_scope (ctx : CloudAccessContext) : St unit :=
  in_transaction
    (modify (λ s, set_tenants ({[ctx_tenant_id ctx]} ∪ tenants s) s) ;;
     modify (λ s, set_workspaces ({[(ctx_tenant_id ctx, ctx_workspace_id ctx)]} ∪ workspaces s) s)).

Definition request_fingerprint (area : string) (staged : StagedObject) : string :=
  sha256_hex (encode (area +:+ "|" +:+ st_digest_sha256 staged +:+ "|" +:+
                      str_int (st_byte_size staged) +:+ "|" +:+ st_content_type staged)).

Definition new_object (ctx : CloudAccessContext) (area : string) (staged : StagedObject)
    (final_key idempotency_key trace fingerprint : string) (created_at : Z) : ObjectRow :=
  mkObject area (st_key staged) final_key (st_digest_sha256 staged) (st_byte_size staged)
    (st_content_type staged) "pending" None None (ctx_actor_id ctx) trace idempotency_key fingerprint 1
    created_at None.

Definition new_job (ctx : CloudAccessContext) (event object dedup : string) (max : Z)
    (retry_of : option string) (trace : string) (created_at : Z) : JobRow :=
  mkJob event object dedup "pending" 0 max created_at None None None retry_of (ctx_actor_id ctx) trace 1
    created_at None.

(** [self._creation_enforcer(connection, tenant_id, "source.create", ...)] *)
Definition enforce_creation (ctx : CloudAccessContext) (area : string) (bytes : Z) : St unit := λ s,
  match creation_enforcer with
  | Some check =>
      if String.eqb area "source" then
        match check s (ctx_tenant_id ctx) bytes with
        | Some e => (s, Raise e)
        | None => (s, Ret tt)
        end
      else (s, Ret tt)
  | None => (s, Ret tt)
  end.

(** The transaction of [register_object_job]. *)
Definition register_tx (ctx : CloudAccessContext) (object_id area : string) (staged : StagedObject)
    (final_key idempotency_key trace_id : string) (max : Z) (created_at : Z) (force_rollback : bool)
    : St ObjectSubmission :=
  let fingerprint := request_fingerprint area staged in
  let event_id := "outbox-" +:+ object_id in
  let job_id := "job-" +:+ object_id in
  replay <- gets (λ s, select_one ctx (λ o, String.eqb (or_created_by o) (ctx_actor_id ctx) &&
                    String.eqb (or_idempotency_key o) idempotency_key) (objects s)) ;;
  match replay with
  | Some (replayed, o) =>
      guard (String.eqb (or_request_fingerprint o) fingerprint)
        (ObjectQueueError "IDEMPOTENCY_KEY_REUSED" false) ;;
      ret (mkSubmission replayed ("job-" +:+ replayed) ("outbox-" +:+ replayed) true)
  | None =>
      enforce_creation ctx area (st_byte_size staged) ;;
      insert_object ctx object_id
        (new_object ctx area staged final_key idempotency_key trace_id fingerprint created_at) ;;
      insert_outbox ctx event_id (mkOutbox object_id object_id "pending" trace_id created_at None) ;;
      insert_job ctx job_id
        (new_job ctx event_id object_id idempotency_key max None trace_id created_at) ;;
      insert_audit ctx ("audit-request-" +:+ object_id)
        (queue_audit ctx "object.store.requested" "object" object_id "succeeded" trace_id
           [("area", area); ("job_id", job_id)]) ;;
      when force_rollback (raise (ObjectQueueError "FORCED_TRANSACTION_ROLLBACK" false)) ;;
      ret (mkSubmission object_id job_id event_id false)
  end.

Definition register_object_job (ctx : CloudAccessContext) (object_id area : string)
    (staged : StagedObject) (final_key idempotency_key trace_id : string) (max now : Z)
    (force_rollback : bool) : St ObjectSubmission :=
  guard (String.eqb (ctx_capability ctx) "object.write") (ObjectQueueError "OBJECT_ACCESS_DENIED" false) ;;
  validate_staging ctx area (PyStr (st_key staged)) ;;
  validate_final ctx area (PyStr final_key) ;;
  check_id idempotency_key "IDEMPOTENCY_KEY_INVALID" ;;
  check_id trace_id "TRACE_ID_INVALID" ;;
  guard (is_digest (st_digest_sha256 staged) && content_type_ok (st_content_type staged))
    (ObjectQueueError "OBJECT_METADATA_INVALID" false) ;;
  guard ((0 <=? st_byte_size staged) && ((1 <=? max) && (max <=? 100)))
    (ObjectQueueError "OBJECT_METADATA_INVALID" false) ;;
  in_transaction
    (register_tx ctx object_id area staged final_key idempotency_key trace_id max now force_rollback).

(** The condition of the candidates of [claim]. *)
Definition claimable (now : Z) (r : JobRow) : bool :=
  (bool_decide (jr_state r ∈ ["pending"; "retry_wait"]) && (jr_next_attempt_at r <=? now)) ||
  (String.eqb (jr_state r) "leased" &&
   match jr_lease_until r with Some until => until <=? now | None => false end).

(** [ORDER BY next_attempt_at, created_at, job_id] *)
Definition job_leb (a b : string * JobRow) : bool :=
  (jr_next_attempt_at a.2 <? jr_next_attempt_at b.2) ||
  ((jr_next_attempt_at a.2 =? jr_next_attempt_at b.2) &&
   ((jr_created_at a.2 <? jr_created_at b.2) ||
    ((jr_created_at a.2 =? jr_created_at b.2) && string_leb a.1 b.1))).

(** [ORDER BY ... LIMIT 1] *)
Definition first_job (l : list (string * JobRow)) : option (string * JobRow) :=
  foldr (λ x best, match best with
                   | Some y => if job_leb x y then Some x else Some y
                   | None => Some x
                   end) None l.

Definition candidate (ctx : CloudAccessContext) (now : Z) (s : Store) : option (string * JobRow) :=
  first_job (List.filter (λ r, claimable now r.2) (visible ctx (jobs s))).

Definition leased_to (worker : string) (until : Z) (r : JobRow) : JobRow :=
  set_jr_state "leased" (set_jr_attempt (jr_attempt r + 1) (set_jr_lease_owner (Some worker)
    (set_jr_lease_until (Some until) (set_jr_last_safe_error_code None r)))).

Definition claim (ctx : CloudAccessContext) (worker_id : string) (now : Z) (lease_seconds : float)
    : St (option ObjectJob) :=
  check_id worker_id "WORKER_ID_INVALID" ;;
  guard (negb (fle lease_seconds f_zero || flt (scaled 3600 0) lease_seconds))
    (ObjectQueueError "LEASE_INVALID" false) ;;
  delta <- timedelta_seconds lease_seconds ;;
  until <- datetime_add now delta ;;
  in_transaction
    (row <- gets (candidate ctx now) ;;
     match row with
     | None => ret None
     | Some (id, r) =>
         job <- update_job ctx id r (leased_to worker_id until) ;;
         validate_payload "object.promote"
           [("schema_version", PyInt 1); ("object_id", PyStr (jb_object_id job))] ;;
         update_outbox ctx (jb_event_id job) (set_ob_status "dispatched") ;;
         ret (Some job)
     end).

Definition get_object (ctx : CloudAccessContext) (object_id : string) : St ObjectRecord :=
  row <- in_transaction (gets (λ s, select_id ctx object_id (objects s))) ;;
  r <- from_option row (ObjectQueueError "OBJECT_NOT_FOUND" false) ;;
  ret (object_from_row object_id r).

Definition get_job (ctx : CloudAccessContext) (job_id : string) : St ObjectJob :=
  row <- in_transaction (gets (λ s, select_id ctx job_id (jobs s))) ;;
  r <- from_option row (ObjectQueueError "JOB_NOT_FOUND" false) ;;
  ret (job_from_row job_id r).

(** [_assert_lease] *)
Definition holds_lease (job : ObjectJob) (current : JobRow) (worker_id : string) (now : Z) : bool :=
  String.eqb (jr_state current) "leased" && (jr_version current =? jb_version job) &&
  bool_decide (jr_lease_owner current = Some worker_id) &&
  match jr_lease_until current with Some until => now <? until | None => false end.

Definition assert_lease (job : ObjectJob) (current : JobRow) (worker_id : string) (now : Z) : St unit :=
  guard (holds_lease job current worker_id now) (ObjectQueueError "JOB_LEASE_LOST" true).

(** The row of a job, locked, if the worker still holds its lease. *)
Definition leased_row (ctx : CloudAccessContext) (job : ObjectJob) (worker_id : string) (now : Z)
    : St JobRow :=
  row <- gets (λ s, select_id ctx (jb_job_id job) (jobs s)) ;;
  current <- from_option row (ObjectQueueError "JOB_NOT_FOUND" false) ;;
  assert_lease job current worker_id now ;;
  ret current.

Definition stored_matches (stored : StoredObject) (o : ObjectRow) : bool :=
  String.eqb (so_key stored) (or_object_key o) && String.eqb (so_digest_sha256 stored) (or_digest_sha256 o) &&
  (so_byte_size stored =? or_byte_size o) && String.eqb (so_content_type stored) (or_content_type o).

Definition stored_object (stored : StoredObject) (now : Z) (o : ObjectRow) : ObjectRow :=
  set_or_status "completed" (set_or_storage_etag (Some (so_etag stored))
    (set_or_storage_version_id (so_version_id stored) (set_or_completed_at (Some now) o))).

Definition finished_job (now : Z) (r : JobRow) : JobRow :=
  set_jr_state "completed" (set_jr_lease_owner None (set_jr_lease_until None (set_jr_completed_at (Some now) r))).

Definition complete (ctx : CloudAccessContext) (job : ObjectJob) (worker_id : string)
    (stored : StoredObject) (now : Z) : St ObjectJob :=
  in_transaction
    (current <- leased_row ctx job worker_id now ;;
     object_row <- gets (λ s, select_id ctx (jb_object_id job) (objects s)) ;;
     record <- from_option object_row (ObjectQueueError "OBJECT_NOT_FOUND" false) ;;
     guard (stored_matches stored record) (ObjectQueueError "OBJECT_CHECKSUM_MISMATCH" false) ;;
     update_object ctx (jb_object_id job) (stored_object stored now) ;;
     updated <- update_job ctx (jb_job_id job) current (finished_job now) ;;
     update_outbox ctx (jb_event_id job) (λ o, set_ob_status "completed" (set_ob_completed_at (Some now) o)) ;;
     insert_attempt ctx (jb_job_id job) (jb_attempt job)
       (mkAttempt worker_id "completed" None (jb_trace_id job) (jb_created_at job) now) ;;
     insert_audit ctx ("audit-complete-" +:+ jb_job_id job +:+ "-" +:+ str_int (jb_attempt job))
       (queue_audit ctx "object.store.completed" "object" (jb_object_id job) "succeeded" (jb_trace_id job)
          [("job_id", jb_job_id job)]) ;;
     ret updated).

(** [error.retryable and job.attempt < job.max_attempts] *)
Definition will_retry (job : ObjectJob) (retryable : bool) : bool :=
  retryable && (jb_attempt job <? jb_max_attempts job).

Definition failed_state (retry : bool) : string := if retry then "retry_wait" else "dead_letter".

Definition failed_job (retry : bool) (code : string) (now retry_at : Z) (r : JobRow) : JobRow :=
  set_jr_state (failed_state retry) (set_jr_next_attempt_at retry_at (set_jr_lease_owner None
    (set_jr_lease_until None (set_jr_last_safe_error_code (Some code)
      (set_jr_completed_at (if retry then None else Some now) r))))).

(** The failure is an [ObjectQueueError] with its code and retryable flag. *)
Definition fail (ctx : CloudAccessContext) (job : ObjectJob) (worker_id code : string) (retryable : bool)
    (now retry_at : Z) : St ObjectJob :=
  in_transaction
    (current <- leased_row ctx job worker_id now ;;
     let retry := will_retry job retryable in
     updated <- update_job ctx (jb_job_id job) current (failed_job retry code now retry_at) ;;
     update_outbox ctx (jb_event_id job) (λ o, set_ob_status (if retry then "dispatched" else "failed")
       (set_ob_completed_at (if retry then None else Some now) o)) ;;
     when (negb retry) (update_object ctx (jb_object_id job) (set_or_status "failed")) ;;
     insert_attempt ctx (jb_job_id job) (jb_attempt job)
       (mkAttempt worker_id (failed_state retry) (Some code) (jb_trace_id job) (jb_created_at job) now) ;;
     insert_audit ctx ("audit-attempt-" +:+ jb_job_id job +:+ "-" +:+ str_int (jb_attempt job))
       (queue_audit ctx "object.store.attempt" "job" (jb_job_id job) "failed" (jb_trace_id job)
          [("state", failed_state retry); ("safe_error_code", code)]) ;;
     ret updated).

Definition reprocess_digest (ctx : CloudAccessContext) (job_id idempotency_key : string) : string :=
  String.substring 0 32 (sha256_hex (encode
    (ctx_tenant_id ctx +:+ "|" +:+ ctx_workspace_id ctx +:+ "|" +:+ job_id +:+ "|" +:+ idempotency_key))).

Definition reprocess_key (job_id idempotency_key : string) : string :=
  "reprocess:" +:+ job_id +:+ ":" +:+ idempotency_key.

Definition reprocess (ctx : CloudAccessContext) (job_id idempotency_key : string) (created_at : Z)
    : St ObjectJob :=
  guard (String.eqb (ctx_capability ctx) "queue.reprocess") (ObjectQueueError "QUEUE_REPROCESS_DENIED" false) ;;
  check_id idempotency_key "IDEMPOTENCY_KEY_INVALID" ;;
  let digest := reprocess_digest ctx job_id idempotency_key in
  let new_job_id := "job-" +:+ digest in
  let new_event_id := "outbox-" +:+ digest in
  let dedup := reprocess_key job_id idempotency_key in
  in_transaction
    (existing <- gets (λ s, select_one ctx (λ j, String.eqb (jr_deduplication_key j) dedup) (jobs s)) ;;
     match existing with
     | Some (id, j) => ret (job_from_row id j)
     | None =>
         old_row <- gets (λ s, select_id ctx job_id (jobs s)) ;;
         old <- from_option old_row (ObjectQueueError "JOB_NOT_FOUND" false) ;;
         guard (String.eqb (jr_state old) "dead_letter") (ObjectQueueError "JOB_NOT_DEAD_LETTER" false) ;;
         let object := jr_payload_object old in
         insert_outbox ctx new_event_id (mkOutbox object object "pending" (jr_trace_id old) created_at None) ;;
         let row := new_job ctx new_event_id object dedup (jr_max_attempts old) (Some job_id)
                      (jr_trace_id old) created_at in
         insert_job ctx new_job_id row ;;
         update_object ctx object (set_or_status "pending") ;;
         insert_audit ctx ("audit-reprocess-" +:+ digest)
           (queue_audit ctx "object.store.reprocessed" "job" new_job_id "succeeded" (jr_trace_id old)
              [("retry_of_job_id", job_id)]) ;;
         ret (job_from_row new_job_id row)
     end).

Definition count_state (st : string) (rows : list (string * JobRow)) : Z :=
  Z.of_nat (length (List.filter (λ r, String.eqb (jr_state r.2) st) rows)).

(** [min(created_at)] of the waiting jobs *)
Definition oldest_waiting (rows : list (string * JobRow)) : option Z :=
  foldr (λ r best, if bool_decide (jr_state r.2 ∈ ["pending"; "retry_wait"])
                   then Some (match best with Some t => Z.min (jr_created_at r.2) t | None => jr_created_at r.2 end)
                   else best) None rows.

Definition metrics (ctx : CloudAccessContext) (now : Z) : St QueueMetrics :=
  in_transaction (gets (λ s,
    let rows := visible ctx (jobs s) in
    mkMetrics (count_state "pending" rows) (count_state "retry_wait" rows) (count_state "leased" rows)
      (count_state "dead_letter" rows)
      (Z.max 0 (match oldest_waiting rows with Some t => now - t | None => 0 end)))).

Definition entity_counts (ctx : CloudAccessContext) (object_id : string) : St EntityCounts :=
  in_transaction (gets (λ s,
    let own_jobs := List.filter (λ r, String.eqb (jr_payload_object r.2) object_id) (visible ctx (jobs s)) in
    mkCounts (if is_some (select_id ctx object_id (objects s)) then 1 else 0)
      (length (List.filter (λ r, String.eqb (ob_object_id r.2) object_id) (visible ctx (outbox s))))
      (length own_jobs)
      (length (List.filter (λ a, bool_decide (a.1.1.1 = (ctx_tenant_id ctx, ctx_workspace_id ctx) ∧
                                              a.1.1.2 ∈ map fst own_jobs))
                 (map_to_list (attempts s)))))).
End QueueStore.

(** ** Coordinator and worker *)

Section Processes.
Context {D : Digest} {B : Type} {Port : ObjectStorage B}.
Context (creation_enforcer : option (Store → string → Z → option exn)).

(** The database and the object storage. *)
Abbreviation System := (M (Store * B)).

Definition on_store {A} (m : St A) : System A := zoom fst (λ s b, (s, b.2)) m.
Definition on_storage {A} (m : M B A) : System A := zoom snd (λ b s, (s.1, b)) m.

(** [ObjectQueueCoordinator.submit]; [content] is [None] when it is no [bytes],
    and [drawn] is what the identifier factory gives. *)
Definition submit (policy : RetryPolicy) (ctx : CloudAccessContext) (area : string)
    (content : option (list N)) (content_type idempotency_key trace_id : string)
    (object_id : option string) (drawn : string) (now : Z) : System ObjectSubmission :=
  bytes <- from_option (if content_type_ok content_type then content else None)
    (ObjectQueueError "OBJECT_METADATA_INVALID" false) ;;
  let object_id := default drawn object_id in
  guard (opaque_id object_id) (ObjectQueueError "OBJECT_ID_INVALID" false) ;;
  let digest := sha256_hex bytes in
  staging <- staging_key ctx area object_id ;;
  final <- final_key ctx area object_id ;;
  staged <- on_storage (put_staged staging content content_type digest) ;;
  on_store (register_object_job creation_enforcer ctx object_id area staged final idempotency_key trace_id
              (max_attempts policy) now false).

(** [ObjectQueueCoordinator.health] *)
Definition queue_health (ctx : CloudAccessContext) (now : Z) : System (bool * QueueMetrics) :=
  ready <- on_storage health ;;
  queue <- on_store (metrics ctx now) ;;
  ret (ready, queue).

(** [try: m except ObjectQueueError as error: handler(error)] *)
Definition catching {A} (m : System A) (handler : string → bool → System A) : System A := λ s,
  match m s with
  | (s', Raise (Raised code _ retryable)) => handler code retryable s'
  | r => r
  end.

Section Worker.
Context (policy : RetryPolicy) (worker_id : string).

(** [now + timedelta(seconds=self._retry_policy.delay_seconds(attempt, ...))] *)
Definition retry_time {T} (attempt : Z) (jitter_unit : float) (now : Z) : M T Z :=
  delay <- delay_seconds policy attempt jitter_unit ;;
  wait <- timedelta_seconds delay ;;
  datetime_add now wait.

Definition staged_again (record : ObjectRecord) : StagedObject :=
  mkStaged (rec_staging_key record) (rec_digest_sha256 record) (rec_byte_size record)
    (rec_content_type record) "" None.

(** [self._storage.promote(staged, record.object_key, ...)] *)
Definition promote_record (record : ObjectRecord) : M B StoredObject :=
  promote (staged_again record) (rec_object_key record) (rec_digest_sha256 record)
    (rec_byte_size record) (rec_content_type record).

(** [DurableObjectWorker.process_claimed] *)
Definition process_claimed (ctx : CloudAccessContext) (job : ObjectJob) (now : Z) (jitter_unit : float)
    : System ObjectJob :=
  record <- on_store (get_object ctx (jb_object_id job)) ;;
  catching
    (stored <- on_storage (promote_record record) ;;
     on_store (complete ctx job worker_id stored now))
    (λ code retryable,
      retry_at <- retry_time (jb_attempt job) jitter_unit now ;;
      on_store (fail ctx job worker_id code retryable now retry_at)).

(** [DurableObjectWorker.run_once]; [stopping] is the worker's stop event. *)
Definition run_once (lease_seconds : float) (stopping : bool) (ctx : CloudAccessContext) (now : Z)
    (jitter_unit : float) : System (option ObjectJob) :=
  if stopping then ret None else
  job <- on_store (claim ctx worker_id now lease_seconds) ;;
  match job with
  | None => ret None
  | Some job => done <- process_claimed ctx job now jitter_unit ;; ret (Some done)
  end.
End Worker.
End Processes.

(** ** The system of tables and workers *)

(** What can happen to the tables, one call at a time.  [issued] holds every
    job a claim returned: workers complete and fail only those, in any order,
    again and again, or never. *)
Record Sys := mkSys {
  db : Store;
  issued : list (string * string * ObjectJob)
}.

Definition scope_of (ctx : CloudAccessContext) : string * string := (ctx_tenant_id ctx, ctx_workspace_id ctx).

Definition handed_out (ctx : CloudAccessContext) (o : outcome (option ObjectJob))
    (l : list (string * string * ObjectJob)) : list (string * string * ObjectJob) :=
  match o with Ret (Some job) => (scope_of ctx, job) :: l | _ => l end.

Section System.
Context {D : Digest} (creation_enforcer : option (Store → string → Z → option exn)).

Inductive sys_step (y : Sys) : Sys → Prop :=
| step_seed ctx :
    sys_step y (mkSys (final (seed_scope ctx) (db y)) (issued y))
| step_register ctx object area staged key idem trace max now rollback :
    context_valid ctx = true →
    sys_step y (mkSys (final (register_object_job creation_enforcer ctx object area staged key idem trace
                                max now rollback) (db y)) (issued y))
| step_claim ctx worker now lease :
    sys_step y (mkSys (final (claim ctx worker now lease) (db y))
                      (handed_out ctx (result (claim ctx worker now lease) (db y)) (issued y)))
| step_complete ctx job worker stored now :
    (scope_of ctx, job) ∈ issued y →
    sys_step y (mkSys (final (complete ctx job worker stored now) (db y)) (issued y))
| step_fail ctx job worker code retryable now retry_at :
    (scope_of ctx, job) ∈ issued y →
    sys_step y (mkSys (final (fail ctx job worker code retryable now retry_at) (db y)) (issued y))
| step_reprocess ctx job idem now :
    sys_step y (mkSys (final (reprocess ctx job idem now) (db y)) (issued y)).

Definition reachable (y : Sys) : Prop := rtc sys_step (mkSys empty_store []) y.
End System.

(** ** Invariant *)

Definition LIVE : list string := ["pending"; "retry_wait"; "leased"].
Definition ENDED : list string := ["completed"; "dead_letter"].
Definition is_live (r : JobRow) : Prop := jr_state r ∈ LIVE.

(** What a job's row says by itself. *)
Record job_row_ok (r : JobRow) : Prop := {
  jo_state : jr_state r ∈ LIVE ++ ENDED;
  jo_version : 1 <= jr_version r;
  jo_attempt : 0 <= jr_attempt r ∧ (jr_state r = "pending" ↔ jr_attempt r = 0);
  jo_max : 1 <= jr_max_attempts r <= 100;
  jo_lease : (jr_state r = "leased" ↔ is_Some (jr_lease_owner r)) ∧
             (jr_state r = "leased" ↔ is_Some (jr_lease_until r));
  jo_retry : jr_state r = "retry_wait" → jr_attempt r < jr_max_attempts r
}.

Section Tables.
Context (objs : gmap Key ObjectRow) (obx : gmap Key OutboxRow) (jbs : gmap Key JobRow)
  (ats : gmap (Key * Z) AttemptRow).

(** What it says with the other tables. *)
Record job_refs_ok (k : Key) (r : JobRow) : Prop := {
  jo_event : ∃ o, obx !! (k.1, jr_event_id r) = Some o ∧ ob_object_id o = jr_payload_object r;
  jo_object : is_Some (objs !! (k.1, jr_payload_object r));
  jo_attempts : ∀ n, is_Some (ats !! (k, n)) → 1 <= n <= jr_attempt r ∧ (jr_state r = "leased" → n < jr_attempt r);
  jo_outcome : jr_state r ∈ "retry_wait" :: ENDED →
    ∃ a, ats !! (k, jr_attempt r) = Some a ∧ at_outcome a = jr_state r;
  jo_origin : ∀ j, jr_retry_of_job_id r = Some j →
    ∃ old, jbs !! (k.1, j) = Some old ∧ jr_state old = "dead_letter" ∧
      jr_payload_object old = jr_payload_object r
}.

Definition job_for (k : Key) (p : JobRow → Prop) : Prop :=
  ∃ j r, jbs !! (k.1, j) = Some r ∧ jr_payload_object r = k.2 ∧ p r.

(** An object's status is what its jobs account for, and its keys are in the
    scope it belongs to. *)
Record object_row_ok (k : Key) (o : ObjectRow) : Prop := {
  oo_status : or_status o ∈ ["pending"; "completed"; "failed"];
  oo_pending : or_status o = "pending" → job_for k is_live;
  oo_completed : or_status o = "completed" →
    job_for k (λ r, jr_state r = "completed") ∧ is_Some (or_storage_etag o);
  oo_failed : or_status o = "failed" → job_for k (λ r, jr_state r = "dead_letter");
  oo_key : ∃ oid, or_object_key o = final_path k.1.1 k.1.2 (or_area o) oid;
  oo_content : is_digest (or_digest_sha256 o) = true ∧ 0 <= or_byte_size o
}.

Record tables_ok : Prop := {
  tk_jobs : ∀ k r, jbs !! k = Some r → job_row_ok r ∧ job_refs_ok k r;
  tk_objects : ∀ k o, objs !! k = Some o → object_row_ok k o;
  tk_attempts : ∀ k n, is_Some (ats !! (k, n)) → is_Some (jbs !! k)
}.
End Tables.

Definition store_ok (s : Store) : Prop := tables_ok (objects s) (outbox s) (jobs s) (attempts s).

(** A job that was handed out is in the table, and the row is still the one
    handed out as long as the version is. *)
Definition issued_ok (s : Store) (x : string * string * ObjectJob) : Prop :=
  ∃ r, jobs s !! (x.1, jb_job_id x.2) = Some r ∧ jb_version x.2 <= jr_version r ∧
    (jr_version r = jb_version x.2 → x.2 = job_from_row (jb_job_id x.2) r).

Definition sys_ok (y : Sys) : Prop := store_ok (db y) ∧ ∀ x, x ∈ issued y → issued_ok (db y) x.

(** ** How the tables change *)

(** The columns no statement updates. *)
Definition same_job (r r' : JobRow) : Prop :=
  jr_event_id r' = jr_event_id r ∧ jr_payload_object r' = jr_payload_object r ∧
  jr_retry_of_job_id r' = jr_retry_of_job_id r ∧ jr_max_attempts r' = jr_max_attempts r ∧
  jr_deduplication_key r' = jr_deduplication_key r ∧ jr_trace_id r' = jr_trace_id r ∧
  jr_created_at r' = jr_created_at r.

(** A job stays, and what changes of it has a higher version; an ended job does
    not change. *)
Definition job_after (r r' : JobRow) : Prop :=
  r' = r ∨ (same_job r r' ∧ jr_version r < jr_version r' ∧ is_live r).

Definition progress (jbs jbs' : gmap Key JobRow) : Prop :=
  ∀ k r, jbs !! k = Some r → ∃ r', jbs' !! k = Some r' ∧ job_after r r'.

Lemma live_not_ended r : is_live r → jr_state r ∈ ENDED → False.
Proof.
  unfold is_live, LIVE, ENDED. rewrite !elem_of_cons, !elem_of_nil.
  intros [H1|[H1|[H1|[]]]] [H2|[H2|[]]]; congruence.
Qed.

#[export] Instance job_after_preorder : PreOrder job_after.
Proof.
  split; [by left|]. intros r1 r2 r3 [->|(Hs & Hv & Hl)] [->|(Hs' & Hv' & Hl')]; [by left|by right..|].
  right. split; [|split; [lia|done]]. unfold same_job in *. naive_solver congruence.
Qed.

#[export] Instance progress_preorder : PreOrder progress.
Proof.
  split; [intros m k r Hr; by exists r|].
  intros m1 m2 m3 H12 H23 k r (r2 & H2 & ?)%H12. destruct (H23 _ _ H2) as (r3 & ? & ?).
  exists r3. split; [done|by etrans].
Qed.

Lemma progress_fresh jbs k r : jbs !! k = None → progress jbs (<[k := r]> jbs).
Proof.
  intros Hk k' r' Hr'. exists r'. split; [|by left]. rewrite lookup_insert_ne; [done|]. congruence.
Qed.

Lemma progress_update jbs k r r' :
  jbs !! k = Some r → same_job r r' → jr_version r < jr_version r' → is_live r →
  progress jbs (<[k := r']> jbs).
Proof.
  intros Hk Hs Hv Hl k' r0 Hr0. destruct (decide (k = k')) as [<-|].
  - rewrite lookup_insert_eq. exists r'. simplify_eq. split; [done|by right].
  - rewrite lookup_insert_ne by done. exists r0. split; [done|by left].
Qed.

Lemma progress_ended jbs jbs' k r :
  progress jbs jbs' → jbs !! k = Some r → jr_state r ∈ ENDED → jbs' !! k = Some r.
Proof.
  intros Hp Hr He. destruct (Hp _ _ Hr) as (r' & Hr' & [->|(_ & _ & Hl)]); [done|].
  by destruct (live_not_ended r).
Qed.

(** Outbox events stay, with their object. *)
Definition outbox_grows (obx obx' : gmap Key OutboxRow) : Prop :=
  ∀ k o, obx !! k = Some o → ∃ o', obx' !! k = Some o' ∧ ob_object_id o' = ob_object_id o.

Lemma outbox_grows_fresh obx k o : obx !! k = None → outbox_grows obx (<[k := o]> obx).
Proof.
  intros Hk k' o' Ho'. exists o'. split; [|done]. rewrite lookup_insert_ne; [done|]. congruence.
Qed.

Lemma outbox_grows_alter obx f k :
  (∀ o, ob_object_id (f o) = ob_object_id o) → outbox_grows obx (alter f k obx).
Proof.
  intros Hf k' o Ho. destruct (decide (k = k')) as [<-|].
  - exists (f o). rewrite lookup_alter_eq, Ho. by split.
  - exists o. by rewrite lookup_alter_ne.
Qed.

Definition objects_stay (objs objs' : gmap Key ObjectRow) : Prop :=
  ∀ k, is_Some (objs !! k) → is_Some (objs' !! k).

Lemma objects_stay_insert objs k o : objects_stay objs (<[k := o]> objs).
Proof.
  intros k' Hk'. destruct (decide (k = k')) as [<-|]; [rewrite lookup_insert_eq; by eexists|].
  by rewrite lookup_insert_ne.
Qed.

Section TableLemmas.
Context (objs : gmap Key ObjectRow) (obx : gmap Key OutboxRow) (jbs : gmap Key JobRow)
  (ats : gmap (Key * Z) AttemptRow).

Lemma job_refs_mono objs' obx' jbs' ats' k r :
  objects_stay objs objs' → outbox_grows obx obx' → progress jbs jbs' →
  (∀ n, ats' !! (k, n) = ats !! (k, n)) →
  job_refs_ok objs obx jbs ats k r → job_refs_ok objs' obx' jbs' ats' k r.
Proof.
  intros Ho Hx Hj Ha [Hev Hob Hat Hout Hor]. split.
  - destruct Hev as (o & (o' & ? & ?)%Hx & ?). exists o'. split; [done|congruence].
  - by apply Ho.
  - intros n. rewrite Ha. apply Hat.
  - intros Hs. rewrite Ha. by apply Hout.
  - intros j (old & Hold & Hst & Hp)%Hor. exists old. split; [|done].
    eapply progress_ended; [done..|]. rewrite Hst. right. left.
Qed.

Lemma object_ok_fresh jbs' k o :
  (∀ j r, jbs !! j = Some r → jbs' !! j = Some r) →
  object_row_ok jbs k o → object_row_ok jbs' k o.
Proof.
  intros Hj [Hst Hp Hc Hf Hk Hd].
  assert (∀ p, job_for jbs k p → job_for jbs' k p) as Hm.
  { intros p (j & r & Hr & ?). exists j, r. by split; [apply Hj|]. }
  split; auto. intros [? ?]%Hc. auto.
Qed.

(** The update of a job that has not ended leaves the other objects' witnesses,
    and those of its own object while it stays unended. *)
Lemma object_ok_update k r r' ko o :
  jbs !! k = Some r → is_live r → same_job r r' →
  (is_live r' ∨ ko ≠ (k.1, jr_payload_object r)) →
  object_row_ok jbs ko o → object_row_ok (<[k := r']> jbs) ko o.
Proof.
  intros Hk Hl (_ & Hsp & _) Hor [Hst Hp Hc Hf Hkey Hd].
  assert (∀ st, st ∈ ENDED → job_for jbs ko (λ r, jr_state r = st) →
                job_for (<[k := r']> jbs) ko (λ r, jr_state r = st)) as He.
  { intros st Hst' (j & r0 & Hr0 & Hp0 & Hs0). exists j, r0. split; [|done].
    rewrite lookup_insert_ne; [done|]. intros ->. simplify_eq. by destruct (live_not_ended r). }
  split; auto.
  - intros (j & r0 & Hr0 & Hp0 & Hs0)%Hp. destruct (decide (k = (ko.1, j))) as [->|Hne].
    + simplify_eq/=. destruct Hor as [Hl'|Hne]; [|by destruct Hne, ko; simpl in *; subst].
      exists j, r'. by rewrite lookup_insert_eq, Hsp.
    + exists j, r0. by rewrite lookup_insert_ne.
  - intros [? ?]%Hc. split; [|done]. apply He; [left|done].
  - intros ?%Hf. apply He; [right; left|done].
Qed.

Lemma tables_register ko o ke e kj r :
  tables_ok objs obx jbs ats →
  obx !! ke = None → jbs !! kj = None →
  ko.1 = kj.1 → ke = (kj.1, jr_event_id r) → ob_object_id e = jr_payload_object r →
  ko.2 = jr_payload_object r → jr_state r = "pending" →
  job_row_ok r →
  (∀ j, jr_retry_of_job_id r = Some j → ∃ old, jbs !! (kj.1, j) = Some old ∧
     jr_state old = "dead_letter" ∧ jr_payload_object old = jr_payload_object r) →
  object_row_ok (<[kj := r]> jbs) ko o →
  tables_ok (<[ko := o]> objs) (<[ke := e]> obx) (<[kj := r]> jbs) ats.
Proof.
  intros [Hjobs Hobjs Hats] Hke Hkj Hs -> He Hp Hst Hr Hor Ho. split.
  - intros k r0. destruct (decide (k = kj)) as [->|].
    + rewrite lookup_insert_eq. intros [= <-]. split; [done|]. split.
      * exists e. by rewrite lookup_insert_eq.
      * rewrite <- Hp, <- Hs. destruct ko; simpl. rewrite lookup_insert_eq. by eexists.
      * intros n Hn%Hats. rewrite Hkj in Hn. by destruct Hn.
      * intros Hin. rewrite Hst in Hin. not_in Hin.
      * intros j (old & Hold & ?)%Hor. exists old. split; [|done].
        rewrite lookup_insert_ne; [done|]. congruence.
    + rewrite lookup_insert_ne by done. intros [? ?]%Hjobs. split; [done|].
      eapply job_refs_mono; [apply objects_stay_insert|by apply outbox_grows_fresh|
        by apply progress_fresh|done..].
  - intros k o0. destruct (decide (k = ko)) as [->|].
    + rewrite lookup_insert_eq. by intros [= <-].
    + rewrite lookup_insert_ne by done. intros Hk%Hobjs. eapply object_ok_fresh; [|done].
      intros j r0 Hr0. rewrite lookup_insert_ne; [done|]. congruence.
  - intros k n Hn%Hats. destruct (decide (k = kj)) as [->|]; [rewrite lookup_insert_eq; by eexists|].
    by rewrite lookup_insert_ne.
Qed.

Lemma tables_update objs' obx' ats' k r r' :
  tables_ok objs obx jbs ats →
  jbs !! k = Some r → is_live r → same_job r r' → jr_version r < jr_version r' → job_row_ok r' →
  objects_stay objs objs' → outbox_grows obx obx' →
  (∀ ko o, objs' !! ko = Some o → object_row_ok (<[k := r']> jbs) ko o) →
  (∀ k' n, k' ≠ k → ats' !! (k', n) = ats !! (k', n)) →
  (∀ n, is_Some (ats' !! (k, n)) → 1 <= n <= jr_attempt r' ∧ (jr_state r' = "leased" → n < jr_attempt r')) →
  (jr_state r' ∈ "retry_wait" :: ENDED → ∃ a, ats' !! (k, jr_attempt r') = Some a ∧ at_outcome a = jr_state r') →
  tables_ok objs' obx' (<[k := r']> jbs) ats'.
Proof.
  intros [Hjobs Hobjs Hats] Hk Hl Hs Hv Hr' Hst Hob Ho Ha Ha1 Ha2.
  assert (progress jbs (<[k := r']> jbs)) as Hp by by eapply progress_update.
  split; [|done|].
  - intros k' r0. destruct (decide (k' = k)) as [->|].
    + rewrite lookup_insert_eq. intros [= <-]. split; [done|].
      destruct (Hjobs _ _ Hk) as [_ [Hev Hobj _ _ Hor]]. destruct Hs as (He & Hpl & Hre & _).
      split; [| |done..|].
      * destruct Hev as (o & (o' & Ho' & ?)%Hob & ?). exists o'. rewrite He, Hpl. split; [done|congruence].
      * rewrite Hpl. by apply Hst.
      * intros j. rewrite Hre, Hpl. intros (old & Hold & Hdead & ?)%Hor. exists old. split; [|done].
        eapply progress_ended; [done..|]. rewrite Hdead. right. left.
    + rewrite lookup_insert_ne by done. intros [? ?]%Hjobs. split; [done|].
      eapply job_refs_mono; [done..| |done]. intros m. by apply Ha.
  - intros k' m Hn. destruct (decide (k' = k)) as [->|]; [rewrite lookup_insert_eq; by eexists|].
    rewrite lookup_insert_ne by done. rewrite Ha in Hn by done. by apply (Hats _ m).
Qed.
End TableLemmas.

(** ** What each call does *)

Lemma wp_in_transaction {A} (m : St A) (Q : outcome A → Store → Prop) s :
  wp m (λ o s', match o with Ret a => Q (Ret a) s' | Raise e => Q (Raise (translated e)) s end) s →
  wp (in_transaction m) Q s.
Proof. unfold wp, in_transaction, transaction. by destruct (m s) as [s' [a|e]]. Qed.

Lemma wp_enforce_creation enf ctx area bytes (Q : outcome unit → Store → Prop) s :
  Q (Ret tt) s → (∀ e, Q (Raise e) s) → wp (enforce_creation enf ctx area bytes) Q s.
Proof.
  intros HR HE. unfold wp, enforce_creation. destruct enf as [check|]; [|done].
  destruct (String.eqb _ _); [|done]. destruct (check _ _ _); [apply HE|done].
Qed.

Lemma readonly_timedelta {S} x : readonly (S:=S) (timedelta_seconds x).
Proof. intros s. unfold timedelta_seconds. destruct x; try done; unfold bind, guard; by destruct (_ <=? _). Qed.

Lemma readonly_datetime_add {S} now d : readonly (S:=S) (datetime_add now d).
Proof. intros s. unfold datetime_add, bind, guard. by destruct (_ && _). Qed.

Lemma readonly_delay {S} p n j : readonly (S:=S) (delay_seconds p n j).
Proof. unfold delay_seconds. auto with py. Qed.

Lemma readonly_validate_scope {S} ctx area oid : readonly (S:=S) (validate_scope ctx area oid).
Proof. unfold validate_scope. auto with py. Qed.

Lemma readonly_validate_staging {S} ctx area k : readonly (S:=S) (validate_staging ctx area k).
Proof. unfold validate_staging, staging_key. auto using readonly_validate_scope with py. Qed.

Lemma readonly_validate_final {S} ctx area k : readonly (S:=S) (validate_final ctx area k).
Proof. unfold validate_final, final_key. auto using readonly_validate_scope with py. Qed.

Lemma readonly_validate_payload kind p : readonly (validate_payload kind p).
Proof. unfold validate_payload. auto with py. Qed.

#[local] Hint Resolve readonly_timedelta readonly_datetime_add readonly_delay readonly_validate_staging
  readonly_validate_final readonly_validate_payload : py.

(** Symbolic execution of a call on the tables. *)
Ltac oq_step :=
  lazymatch goal with
  | |- wp (in_transaction _) _ _ => apply wp_in_transaction
  | |- wp (int4 _) _ _ => unfold int4
  | |- wp (int8 _) _ _ => unfold int8
  | |- wp (enforce_creation _ _ _ _) _ _ => apply wp_enforce_creation; [|intros ?]
  | |- wp (timedelta_seconds _) _ _ => apply wp_readonly; [auto with py|]
  | |- wp (datetime_add _ _) _ _ => apply wp_readonly; [auto with py|]
  | |- wp (delay_seconds _ _ _) _ _ => apply wp_readonly; [auto with py|]
  | |- wp (validate_staging _ _ _) _ _ => apply wp_readonly; [auto with py|]
  | |- wp (validate_final _ _ _) _ _ => apply wp_readonly; [auto with py|]
  | |- wp (validate_payload _ _) _ _ => apply wp_readonly; [auto with py|]
  | |- context [match result ?m ?s with _ => _ end] => destruct (result m s) as [?|?] eqn:?
  | |- _ => wp_step
  end; cbn beta iota.
Ltac oq_run :=
  unfold check_id, insert_object, insert_outbox, insert_job, insert_attempt, insert_audit,
    scope_exists, update_outbox, update_object, update_job, leased_row, assert_lease, select_id;
  repeat oq_step.

Lemma complete_spec ctx job worker stored now s :
  wp (complete ctx job worker stored now) (λ o s',
    match o with
    | Raise _ => s' = s
    | Ret updated => ∃ r ob,
        let k := in_scope ctx (jb_job_id job) in
        let r' := set_jr_version (jr_version r + 1) (finished_job now r) in
        jobs s !! k = Some r ∧ holds_lease job r worker now = true ∧
        objects s !! in_scope ctx (jb_object_id job) = Some ob ∧ stored_matches stored ob = true ∧
        attempts s !! (k, jb_attempt job) = None ∧ 0 < jb_attempt job ∧
        updated = job_from_row (jb_job_id job) r' ∧
        jobs s' = <[k := r']> (jobs s) ∧
        objects s' = <[in_scope ctx (jb_object_id job) :=
                        set_or_version (or_version ob + 1) (stored_object stored now ob)]> (objects s) ∧
        outbox s' = alter (λ o, set_ob_status "completed" (set_ob_completed_at (Some now) o))
                      (in_scope ctx (jb_event_id job)) (outbox s) ∧
        attempts s' = <[(k, jb_attempt job) :=
                         mkAttempt worker "completed" None (jb_trace_id job) (jb_created_at job) now]> (attempts s)
    end) s.
Proof.
  unfold complete. oq_run; try done. bools. simplify_eq/=. do 2 eexists. cbv zeta.
  split_and!; first [eassumption | done].
Qed.

Lemma fail_spec ctx job worker code retryable now retry_at s :
  wp (fail ctx job worker code retryable now retry_at) (λ o s',
    match o with
    | Raise _ => s' = s
    | Ret updated => ∃ r,
        let retry := will_retry job retryable in
        let k := in_scope ctx (jb_job_id job) in
        let r' := set_jr_version (jr_version r + 1) (failed_job retry code now retry_at r) in
        jobs s !! k = Some r ∧ holds_lease job r worker now = true ∧
        attempts s !! (k, jb_attempt job) = None ∧ 0 < jb_attempt job ∧
        updated = job_from_row (jb_job_id job) r' ∧
        jobs s' = <[k := r']> (jobs s) ∧
        objects s' = (match (if retry then None else objects s !! in_scope ctx (jb_object_id job)) with
                      | Some ob => <[in_scope ctx (jb_object_id job) :=
                                     set_or_version (or_version ob + 1) (set_or_status "failed" ob)]> (objects s)
                      | None => objects s
                      end) ∧
        outbox s' = alter (λ o, set_ob_status (if retry then "dispatched" else "failed")
                                  (set_ob_completed_at (if retry then None else Some now) o))
                      (in_scope ctx (jb_event_id job)) (outbox s) ∧
        attempts s' = <[(k, jb_attempt job) :=
                         mkAttempt worker (failed_state retry) (Some code) (jb_trace_id job)
                           (jb_created_at job) now]> (attempts s)
    end) s.
Proof.
  unfold fail. oq_run; try done; bools; simplify_eq/=; eexists; cbv zeta;
    repeat match goal with H : will_retry _ _ = _ |- _ => rewrite H end;
    split_and!; first [eassumption | done | by simplify_map_eq | idtac].
Qed.

Lemma datetime_add_Ret {S} now d t (s : S) : result (datetime_add now d) s = Ret t → t = now + d.
Proof. unfold datetime_add, bind, guard. destruct (_ && _); simpl; congruence. Qed.

Lemma validate_payload_opaque oid p s :
  result (validate_payload "object.promote" [("schema_version", PyInt 1); ("object_id", PyStr oid)]) s =
    Ret p → opaque_id oid = true.
Proof. unfold validate_payload, bind, guard, from_option. simpl. by destruct (opaque_id oid). Qed.

Lemma claim_spec ctx worker now lease s :
  wp (claim ctx worker now lease) (λ o s',
    match o with
    | Raise _ => s' = s
    | Ret None => s' = s ∧ candidate ctx now s = None
    | Ret (Some job) => ∃ id r delta,
        let r' := set_jr_version (jr_version r + 1) (leased_to worker (now + delta) r) in
        candidate ctx now s = Some (id, r) ∧ result (timedelta_seconds lease) s = Ret delta ∧
        fle lease f_zero = false ∧ flt (scaled 3600 0) lease = false ∧ safe_id worker = true ∧
        job = job_from_row id r' ∧ opaque_id (jr_payload_object r) = true ∧
        s' = set_outbox (alter (set_ob_status "dispatched") (in_scope ctx (jr_event_id r)) (outbox s))
               (set_jobs (<[in_scope ctx id := r']> (jobs s)) s)
    end) s.
Proof.
  unfold claim. oq_run; try done.
  repeat match goal with
  | H : result (datetime_add _ _) _ = Ret _ |- _ => apply datetime_add_Ret in H as ->
  | H : result (validate_payload _ _) _ = Ret _ |- _ => apply validate_payload_opaque in H
  end.
  bools. eexists _, _, _. cbv zeta. split_and!; first [eassumption | done].
Qed.



Lemma elem_of_visible {V} (ctx : CloudAccessContext) (m : gmap Key V) id v :
  (id, v) ∈ visible ctx m ↔ m !! in_scope ctx id = Some v.
Proof.
  unfold visible. rewrite list_elem_of_omap. split.
  - intros ([[[t w] i] u] & Hin & Hd). apply elem_of_map_to_list in Hin.
    case_decide as Hs; [|done]. destruct Hs as [-> ->]. by simplify_eq.
  - intros Hv. exists (in_scope ctx id, v).
    split; [by apply elem_of_map_to_list|]. unfold in_scope. by rewrite decide_True.
Qed.

Lemma select_one_None {V} (ctx : CloudAccessContext) (p : V → bool) (m : gmap Key V) id v :
  select_one ctx p m = None → m !! in_scope ctx id = Some v → p v = false.
Proof.
  intros Hn Hv%elem_of_visible%list_elem_of_In. exact (List.find_none _ _ Hn _ Hv).
Qed.

Lemma select_one_Some {V} (ctx : CloudAccessContext) (p : V → bool) (m : gmap Key V) id v :
  select_one ctx p m = Some (id, v) → m !! in_scope ctx id = Some v ∧ p v = true.
Proof.
  unfold select_one. intros [Hin Hp]%List.find_some. split; [|done].
  by apply elem_of_visible, list_elem_of_In.
Qed.

Lemma register_tx_spec {D : Digest} enf ctx oid area staged key idem trace max now rollback s :
  wp (register_tx enf ctx oid area staged key idem trace max now rollback) (λ o s',
    match o with
    | Raise _ => True
    | Ret sub =>
        (s' = s ∧ sub_replayed sub = true) ∨
        let job := "job-" +:+ oid in
        let event := "outbox-" +:+ oid in
        let fp := request_fingerprint area staged in
        sub = mkSubmission oid job event false ∧
        object_checks (new_object ctx area staged key idem trace fp now) = true ∧
        objects s !! in_scope ctx oid = None ∧ outbox s !! in_scope ctx event = None ∧
        jobs s !! in_scope ctx job = None ∧ 1 <= max <= 100 ∧
        objects s' = <[in_scope ctx oid := new_object ctx area staged key idem trace fp now]> (objects s) ∧
        outbox s' = <[in_scope ctx event := mkOutbox oid oid "pending" trace now None]> (outbox s) ∧
        jobs s' = <[in_scope ctx job := new_job ctx event oid idem max None trace now]> (jobs s) ∧
        attempts s' = attempts s
    end) s.
Proof.
  unfold register_tx. cbv zeta. oq_run; try done; [by left|].
  right. bools. unfold is_none in *. simpl in *. cbv zeta.
  repeat case_match; done.
Qed.

Lemma register_spec {D : Digest} enf ctx oid area staged key idem trace max now rollback s :
  wp (register_object_job enf ctx oid area staged key idem trace max now rollback) (λ o s',
    match o with
    | Raise _ => s' = s
    | Ret sub =>
        (s' = s ∧ sub_replayed sub = true) ∨
        let job := "job-" +:+ oid in
        let event := "outbox-" +:+ oid in
        let fp := request_fingerprint area staged in
        sub = mkSubmission oid job event false ∧ result (validate_final ctx area (PyStr key)) s = Ret tt ∧
        object_checks (new_object ctx area staged key idem trace fp now) = true ∧
        objects s !! in_scope ctx oid = None ∧ outbox s !! in_scope ctx event = None ∧
        jobs s !! in_scope ctx job = None ∧ 1 <= max <= 100 ∧
        objects s' = <[in_scope ctx oid := new_object ctx area staged key idem trace fp now]> (objects s) ∧
        outbox s' = <[in_scope ctx event := mkOutbox oid oid "pending" trace now None]> (outbox s) ∧
        jobs s' = <[in_scope ctx job := new_job ctx event oid idem max None trace now]> (jobs s) ∧
        attempts s' = attempts s
    end) s.
Proof.
  unfold register_object_job. oq_run; try done.
  eapply wp_mono; [|apply register_tx_spec]. intros [sub|e] s'; [|done].
  intros [?|H']; [by left|]. right. cbv zeta in *.
  repeat match goal with u : unit |- _ => destruct u end. naive_solver.
Qed.

Lemma is_none_eq {A} (o : option A) : is_none o = true → o = None.
Proof. by destruct o. Qed.

Lemma reprocess_spec {D : Digest} ctx job idem now s :
  wp (reprocess ctx job idem now) (λ o s',
    match o with
    | Raise _ => s' = s
    | Ret job' =>
        let digest := reprocess_digest ctx job idem in
        let id := "job-" +:+ digest in
        let event := "outbox-" +:+ digest in
        let dedup := reprocess_key job idem in
        (s' = s ∧ ∃ j r, jobs s !! in_scope ctx j = Some r ∧ jr_deduplication_key r = dedup ∧
           job' = job_from_row j r) ∨
        ∃ old, let object := jr_payload_object old in
          let row := new_job ctx event object dedup (jr_max_attempts old) (Some job) (jr_trace_id old) now in
          select_one ctx (λ j, String.eqb (jr_deduplication_key j) dedup) (jobs s) = None ∧
          ctx_capability ctx = "queue.reprocess" ∧
          jobs s !! in_scope ctx job = Some old ∧ jr_state old = "dead_letter" ∧
          outbox s !! in_scope ctx event = None ∧ jobs s !! in_scope ctx id = None ∧
          job' = job_from_row id row ∧ jobs s' = <[in_scope ctx id := row]> (jobs s) ∧
          outbox s' = <[in_scope ctx event := mkOutbox object object "pending" (jr_trace_id old) now None]> (outbox s) ∧
          objects s' = (match objects s !! in_scope ctx object with
                        | Some ob => <[in_scope ctx object :=
                                       set_or_version (or_version ob + 1) (set_or_status "pending" ob)]> (objects s)
                        | None => objects s
                        end) ∧
          attempts s' = attempts s
    end) s.
Proof.
  unfold reprocess. cbv zeta. oq_run; try done; bools; simplify_eq/=; cbv zeta.
  1: { left. split; [done|]. match goal with H : select_one _ _ _ = Some _ |- _ =>
      apply select_one_Some in H as [? ?] end. bools. eauto. }
  all: right; eexists; split_and!;
    first [eassumption | done | by apply is_none_eq | by simplify_option_eq].
Qed.

(** ** Every call keeps the invariant *)

Definition keeps {A} (m : St A) (s : Store) : Prop :=
  wp m (λ _ s', store_ok s' ∧ progress (jobs s) (jobs s')) s.

Lemma keeps_same s : store_ok s → store_ok s ∧ progress (jobs s) (jobs s).
Proof. by split. Qed.

Lemma store_ok_empty : store_ok empty_store.
Proof. split; intros *; simpl; rewrite lookup_empty; [done..|]. by intros [? ?]. Qed.

Lemma seed_keeps ctx s : store_ok s → keeps (seed_scope ctx) s.
Proof. intros Hs. unfold keeps, seed_scope. oq_run. split; [exact Hs|done]. Qed.

Lemma register_keeps {D : Digest} enf ctx oid area staged key idem trace max now rollback s :
  context_valid ctx = true → store_ok s →
  keeps (register_object_job enf ctx oid area staged key idem trace max now rollback) s.
Proof.
  intros Hctx Hs. eapply wp_mono; [|apply register_spec]. intros [sub|e] s'; [|by intros ->; apply keeps_same].
  cbv zeta. intros [[-> _]|(_ & Hkey & Hck & _ & Hob & Hjb & Hmax & Eo & Ex & Ej & Ea)]; [by apply keeps_same|].
  unfold store_ok. rewrite Eo, Ex, Ej, Ea. split; [|by apply progress_fresh].
  rewrite validate_final_spec in Hkey by done.
  assert (checked_key ctx "" area (PyStr key) = true) as Hk
    by (by destruct (checked_key ctx "" area (PyStr key))).
  apply checked_key_iff in Hk as (oid' & _ & _ & Hk); [|done..].
  unfold object_checks in Hck. simpl in Hck. bools.
  apply tables_register; try done.
  - split; simpl; [is_in|lia|by split|done| |done]. split; split; try done; by intros [? ?].
  - split; simpl; try done; [is_in| |].
    + intros _. exists ("job-" +:+ oid). eexists. rewrite lookup_insert_eq. split; [done|].
      split; [done|]. left.
    + exists oid'. injection Hk as Hk. exact Hk.
Qed.

Lemma first_job_elem l x : first_job l = Some x → x ∈ l.
Proof.
  revert x. induction l as [|y l IH]; intros x; simpl; [done|].
  destruct (first_job l) as [z|]; [destruct (job_leb y z)|]; intros [= <-]; [left|right; auto|left].
Qed.

Lemma candidate_Some ctx now s id r :
  candidate ctx now s = Some (id, r) → jobs s !! in_scope ctx id = Some r ∧ claimable now r = true.
Proof.
  unfold candidate. intros Hc%first_job_elem%list_elem_of_In%List.filter_In. destruct Hc as [Hin Hcl].
  split; [|done]. by apply elem_of_visible, list_elem_of_In.
Qed.

Lemma claimable_live now r : claimable now r = true → is_live r.
Proof.
  unfold claimable, is_live, LIVE. intros [[H _]%andb_true_iff|[H _]%andb_true_iff]%orb_true_iff; bools; set_solver.
Qed.

Lemma same_job_leased worker until r :
  same_job r (set_jr_version (jr_version r + 1) (leased_to worker until r)).
Proof. done. Qed.

Lemma claim_keeps ctx worker now lease s : store_ok s → keeps (claim ctx worker now lease) s.
Proof.
  intros Hs. eapply wp_mono; [|apply claim_spec].
  intros [[job|]|e] s'; [|by intros [-> _]; apply keeps_same|by intros ->; apply keeps_same].
  cbv zeta. intros (id & r & delta & [Hr Hcl]%candidate_Some & _ & _ & _ & _ & _ & _ & ->).
  apply claimable_live in Hcl. set (r' := set_jr_version _ _).
  destruct (tk_jobs _ _ _ _ Hs _ _ Hr) as [Hrow Hrefs].
  split; [|eapply progress_update; [done|done|simpl; lia|done]].
  apply (tables_update (objects s) (outbox s) (jobs s) (attempts s)) with (r := r); try done; simpl.
  - lia.
  - destruct Hrow as [Hst Hv [Ha Hp] Hm Hl Hre]. split; simpl; [is_in|lia| |done| |done].
    + split; [lia|]. split; [done|lia].
    + split; split; try done; by eexists.
  - by intros k.
  - by apply outbox_grows_alter.
  - intros ko o Ho. eapply object_ok_update; [done..| |by apply (tk_objects _ _ _ _ Hs)].
    left. unfold is_live. simpl. is_in.
  - intros n Hn. apply (jo_attempts _ _ _ _ _ _ Hrefs) in Hn as [? _]. lia.
  - intros Hin. not_in Hin.
Qed.

(** A job whose lease is held is the row it was handed out for. *)
Lemma issued_current ctx job worker now s r :
  issued_ok s (scope_of ctx, job) → jobs s !! in_scope ctx (jb_job_id job) = Some r →
  holds_lease job r worker now = true →
  job = job_from_row (jb_job_id job) r ∧ jr_state r = "leased" ∧ jr_version r = jb_version job ∧
  jr_lease_owner r = Some worker ∧ ∃ until, jr_lease_until r = Some until ∧ now < until.
Proof.
  intros (r0 & Hr0 & _ & Hj) Hr Hl. simpl in *. unfold in_scope, scope_of in *.
  rewrite Hr in Hr0. injection Hr0 as <-.
  unfold holds_lease in Hl. destruct (jr_lease_until r) as [until|] eqn:E; bools; [|done].
  split_and!; try done; [by apply Hj|]. by exists until.
Qed.

Lemma leased_live r : jr_state r = "leased" → is_live r.
Proof. unfold is_live. intros ->. is_in. Qed.

(** The end of an attempt: the row's lease ends and the attempt is recorded. *)
Lemma tables_finish objs objs' obx obx' jbs ats k r r' a :
  tables_ok objs obx jbs ats → jbs !! k = Some r → jr_state r = "leased" →
  same_job r r' → jr_version r' = jr_version r + 1 → jr_attempt r' = jr_attempt r →
  jr_state r' ∈ "retry_wait" :: ENDED → jr_lease_owner r' = None → jr_lease_until r' = None →
  (jr_state r' = "retry_wait" → jr_attempt r < jr_max_attempts r) →
  at_outcome a = jr_state r' →
  objects_stay objs objs' → outbox_grows obx obx' →
  (∀ ko o, objs' !! ko = Some o → object_row_ok (<[k := r']> jbs) ko o) →
  tables_ok objs' obx' (<[k := r']> jbs) (<[(k, jr_attempt r') := a]> ats).
Proof.
  intros Hs Hr Hst Hsame Hv Hat Hst' Ho Hu Hre Ha Hstay Hgrow Hobj.
  destruct (tk_jobs _ _ _ _ Hs _ _ Hr) as [[_ Hv1 [Hat0 Hpend] Hm _ _] Hrefs].
  assert (jr_attempt r ≠ 0) as Hne by (intros H%Hpend; congruence).
  assert (jr_state r' ≠ "leased" ∧ jr_state r' ≠ "pending") as [Hnl Hnp].
  { split; intros H; rewrite H in Hst'; not_in Hst'. }
  destruct Hsame as (? & ? & ? & Hmax & Hrest).
  apply (tables_update objs obx jbs ats) with (r := r); try done; [by apply leased_live|lia|..].
  - split; [|lia|split; [lia|split; [done|lia]]|lia| |by rewrite Hat, Hmax].
    + revert Hst'. unfold LIVE, ENDED. set_solver.
    + rewrite Ho, Hu. split; split; try done; by intros [? ?].
  - intros k' n Hk'. rewrite lookup_insert_ne; [done|]. congruence.
  - intros n. rewrite Hat. destruct (decide (n = jr_attempt r)) as [->|Hn].
    + intros _. split; [lia|done].
    + rewrite lookup_insert_ne by congruence. intros [? ?]%(jo_attempts _ _ _ _ _ _ Hrefs). split; [lia|done].
  - intros _. exists a. by rewrite lookup_insert_eq.
Qed.

Lemma complete_keeps ctx job worker stored now s :
  store_ok s → issued_ok s (scope_of ctx, job) → keeps (complete ctx job worker stored now) s.
Proof.
  intros Hs Hi. eapply wp_mono; [|apply complete_spec]. intros [up|e] s'; [|by intros ->; apply keeps_same].
  cbv zeta. intros (r & ob & Hr & Hl & Hob & _ & _ & _ & _ & Ej & Eo & Ex & Ea).
  destruct (issued_current _ _ _ _ _ _ Hi Hr Hl) as (Hjob & Hst & _).
  assert (jb_object_id job = jr_payload_object r ∧ jb_event_id job = jr_event_id r ∧
          jb_attempt job = jr_attempt r) as (Epl & Eev & Eat) by (by rewrite Hjob).
  rewrite Epl in Hob, Eo. rewrite Eev in Ex. rewrite Eat in Ea.
  unfold store_ok. rewrite Ej, Eo, Ex, Ea. set (r' := set_jr_version _ _). split.
  - apply (tables_finish (objects s) _ (outbox s) _ _ _ _ r r'); try done.
    + simpl. is_in.
    + apply objects_stay_insert.
    + by apply outbox_grows_alter.
    + intros ko o. destruct (decide (ko = in_scope ctx (jr_payload_object r))) as [->|Hne].
      * rewrite lookup_insert_eq. intros [= <-].
        destruct (tk_objects _ _ _ _ Hs _ _ Hob) as [_ _ _ _ Hkey Hd]. split; simpl; try done; [is_in|].
        intros _. split; [|by eexists]. exists (jb_job_id job), r'. by rewrite lookup_insert_eq.
      * rewrite lookup_insert_ne by done. intros Ho.
        eapply object_ok_update; [done|by apply leased_live|done|right|by apply (tk_objects _ _ _ _ Hs)].
        exact Hne.
  - eapply progress_update; [done|done|simpl; lia|by apply leased_live].
Qed.

Lemma fail_keeps ctx job worker code retryable now retry_at s :
  store_ok s → issued_ok s (scope_of ctx, job) → keeps (fail ctx job worker code retryable now retry_at) s.
Proof.
  intros Hs Hi. eapply wp_mono; [|apply fail_spec]. intros [up|e] s'; [|by intros ->; apply keeps_same].
  cbv zeta. intros (r & Hr & Hl & _ & _ & _ & Ej & Eo & Ex & Ea).
  destruct (issued_current _ _ _ _ _ _ Hi Hr Hl) as (Hjob & Hst & _).
  assert (jb_object_id job = jr_payload_object r ∧ jb_event_id job = jr_event_id r ∧
          jb_attempt job = jr_attempt r ∧ jb_max_attempts job = jr_max_attempts r)
    as (Epl & Eev & Eat & Emax) by (by rewrite Hjob).
  destruct (tk_jobs _ _ _ _ Hs _ _ Hr) as [_ [_ [ob Hob] _ _ _]]. change (_, _) with (in_scope ctx (jr_payload_object r)) in Hob.
  rewrite Epl, Hob in Eo. rewrite Eev in Ex. rewrite Eat in Ea.
  set (retry := will_retry job retryable) in *.
  unfold store_ok. rewrite Ej, Eo, Ex, Ea. set (r' := set_jr_version _ _). split.
  - apply (tables_finish (objects s) _ (outbox s) _ _ _ _ r r'); try done.
    + simpl. unfold failed_state. destruct retry; is_in.
    + simpl. unfold failed_state, retry, will_retry. rewrite Eat, Emax.
      destruct retryable, (Z.ltb_spec (jr_attempt r) (jr_max_attempts r)); simpl; done.
    + destruct retry; [by intros ?|apply objects_stay_insert].
    + by apply outbox_grows_alter.
    + intros ko o. destruct retry eqn:Hretry.
      * intros Ho. eapply object_ok_update; [done|by apply leased_live|done|left|by apply (tk_objects _ _ _ _ Hs)].
        unfold is_live. simpl. is_in.
      * destruct (decide (ko = in_scope ctx (jr_payload_object r))) as [->|Hne].
        -- rewrite lookup_insert_eq. intros [= <-].
           destruct (tk_objects _ _ _ _ Hs _ _ Hob) as [_ _ _ _ Hkey Hd]. split; simpl; try done; [is_in|].
           intros _. exists (jb_job_id job), r'. by rewrite lookup_insert_eq.
        -- rewrite lookup_insert_ne by done. intros Ho.
           eapply object_ok_update; [done|by apply leased_live|done|right|by apply (tk_objects _ _ _ _ Hs)].
           exact Hne.
  - eapply progress_update; [done|done|simpl; lia|by apply leased_live].
Qed.

Lemma reprocess_keeps {D : Digest} ctx job idem now s : store_ok s → keeps (reprocess ctx job idem now) s.
Proof.
  intros Hs. eapply wp_mono; [|apply reprocess_spec]. intros [job'|e] s'; [|by intros ->; apply keeps_same].
  cbv zeta. intros [[-> _]|(old & _ & _ & Hold & Hdead & Hob & Hjb & _ & Ej & Ex & Eo & Ea)];
    [by apply keeps_same|].
  destruct (tk_jobs _ _ _ _ Hs _ _ Hold) as [Hrow [_ [ob Hobj] _ _ _]].
  change (_, _) with (in_scope ctx (jr_payload_object old)) in Hobj. rewrite Hobj in Eo.
  unfold store_ok. rewrite Ej, Ex, Eo, Ea. split; [|by apply progress_fresh].
  apply tables_register; try done.
  - destruct Hrow. split; simpl; [is_in|lia|by split|done| |done]. split; split; try done; by intros [? ?].
  - intros j [= <-]. by exists old.
  - destruct (tk_objects _ _ _ _ Hs _ _ Hobj) as [_ _ _ _ Hkey Hd]. split; simpl; try done; [is_in|].
    intros _. exists ("job-" +:+ reprocess_digest ctx job idem). eexists. rewrite lookup_insert_eq.
    split; [done|]. split; [done|left].
Qed.

Lemma issued_progress s s' x : progress (jobs s) (jobs s') → issued_ok s x → issued_ok s' x.
Proof.
  intros Hp (r & (r' & Hr' & [->|(_ & Hlt & _)])%Hp & Hv & Hj); [by exists r|].
  exists r'. split; [done|]. split; [lia|]. intros. lia.
Qed.

Section Reachable.
Context {D : Digest} (enf : option (Store → string → Z → option exn)).

Lemma sys_step_keeps y y' : sys_step enf y y' → sys_ok y → sys_ok y' ∧ progress (jobs (db y)) (jobs (db y')).
Proof.
  intros Hstep [Hs Hi].
  assert (∀ {A} (m : St A), keeps m (db y) →
    sys_ok (mkSys (final m (db y)) (issued y)) ∧ progress (jobs (db y)) (jobs (final m (db y)))) as Hk.
  { intros A m [Hs' Hp]. split; [|done]. split; [done|]. intros x Hx%Hi. by eapply issued_progress. }
  destruct Hstep as [ctx|ctx oid area staged key idem trace max now rb Hctx|ctx worker now lease|
    ctx job worker stored now Hin|ctx job worker code rt now at' Hin|ctx job idem now].
  - exact (Hk _ _ (seed_keeps _ _ Hs)).
  - exact (Hk _ _ (register_keeps _ _ _ _ _ _ _ _ _ _ _ _ Hctx Hs)).
  - destruct (claim_keeps ctx worker now lease (db y) Hs) as [Hs' Hp]. split; [|done]. split; [done|].
    pose proof (claim_spec ctx worker now lease (db y)) as Hc. unfold wp in Hc. simpl db. simpl issued.
    intros x Hx. unfold handed_out in Hx. destruct (result (claim _ _ _ _) _) as [[job|]|e];
      [|by eapply issued_progress; [done|apply Hi]..].
    apply elem_of_cons in Hx as [->|Hx]; [|by eapply issued_progress; [done|apply Hi]].
    cbv zeta in Hc. destruct Hc as (id & r & delta & _ & _ & _ & _ & _ & -> & _ & ->).
    eexists. simpl. unfold in_scope, scope_of. rewrite lookup_insert_eq. split; [done|]. by split.
  - exact (Hk _ _ (complete_keeps _ _ _ _ _ _ Hs (Hi _ Hin))).
  - exact (Hk _ _ (fail_keeps _ _ _ _ _ _ _ _ Hs (Hi _ Hin))).
  - exact (Hk _ _ (reprocess_keeps _ _ _ _ _ Hs)).
Qed.

Lemma sys_steps_keep y y' :
  rtc (sys_step enf) y y' → sys_ok y → sys_ok y' ∧ progress (jobs (db y)) (jobs (db y')).
Proof.
  intros Hr. induction Hr as [y|y y1 y' Hst _ IH]; intros Hy; [by split|].
  destruct (sys_step_keeps _ _ Hst Hy) as [Hy1 Hp]. destruct (IH Hy1) as [? ?]. split; [done|by etrans].
Qed.

Lemma sys_ok_init : sys_ok (mkSys empty_store []).
Proof. split; [apply store_ok_empty|]. intros x Hx. set_solver. Qed.

Lemma oq_reachable_ok y : reachable enf y → sys_ok y.
Proof. intros Hr. by apply (sys_steps_keep _ _ Hr), sys_ok_init. Qed.
End Reachable.

(** ** Properties *)

Definition LEASE_LOST : exn := ObjectQueueError "JOB_LEASE_LOST" true.

(** The worker holds the lease of the job, as it was handed out. *)
Definition holding (ctx : CloudAccessContext) (job : ObjectJob) (worker : string) (now : Z) (s : Store) : Prop :=
  ∃ r until, jobs s !! in_scope ctx (jb_job_id job) = Some r ∧ job = job_from_row (jb_job_id job) r ∧
    jr_state r = "leased" ∧ jr_lease_owner r = Some worker ∧ jr_lease_until r = Some until ∧ now < until.

Lemma leased_row_stale ctx job worker now s r :
  jobs s !! in_scope ctx (jb_job_id job) = Some r → jr_version r ≠ jb_version job →
  leased_row ctx job worker now s = (s, Raise LEASE_LOST).
Proof.
  intros Hr Hv. assert (holds_lease job r worker now = false) as Hl.
  { unfold holds_lease. by rewrite (proj2 (Z.eqb_neq _ _) Hv), andb_false_r. }
  unfold leased_row, assert_lease.
  rewrite (bind_Ret _ _ s s (Some r)) by (unfold gets, select_id; by rewrite Hr).
  rewrite (bind_Ret _ _ s s r) by done. rewrite Hl. done.
Qed.

Lemma stale_refused ctx job worker now s r :
  jobs s !! in_scope ctx (jb_job_id job) = Some r → jr_version r ≠ jb_version job →
  (∀ stored, complete ctx job worker stored now s = (s, Raise LEASE_LOST)) ∧
  (∀ code retryable retry_at, fail ctx job worker code retryable now retry_at s = (s, Raise LEASE_LOST)).
Proof.
  intros Hr Hv. split; intros; unfold complete, fail, in_transaction, transaction;
    by erewrite bind_Raise by (by eapply leased_row_stale).
Qed.

Lemma issued_holding ctx job worker now s r :
  issued_ok s (scope_of ctx, job) → jobs s !! in_scope ctx (jb_job_id job) = Some r →
  holds_lease job r worker now = true → holding ctx job worker now s ∧ jr_version r = jb_version job.
Proof.
  intros Hi Hr Hl. destruct (issued_current _ _ _ _ _ _ Hi Hr Hl) as (? & ? & ? & ? & u & ? & ?).
  split; [|done]. exists r, u. done.
Qed.

(** The order of [claim]. *)
Lemma job_leb_iff a b :
  job_leb a b = true ↔
  jr_next_attempt_at a.2 < jr_next_attempt_at b.2 ∨
  (jr_next_attempt_at a.2 = jr_next_attempt_at b.2 ∧
   (jr_created_at a.2 < jr_created_at b.2 ∨
    (jr_created_at a.2 = jr_created_at b.2 ∧ String.le a.1 b.1))).
Proof.
  unfold job_leb, string_leb. rewrite !orb_true_iff, !andb_true_iff, !orb_true_iff, !andb_true_iff.
  by rewrite !Z.ltb_lt, !Z.eqb_eq, bool_decide_eq_true.
Qed.

Lemma job_leb_trans a b c : job_leb a b = true → job_leb b c = true → job_leb a c = true.
Proof.
  rewrite !job_leb_iff. intros [?|[? [?|[? H1]]]] [?|[? [?|[? H2]]]]; try (left; lia).
  - right. split; [lia|]. left. lia.
  - right. split; [lia|]. left. lia.
  - right. split; [lia|]. left. lia.
  - right. split; [lia|]. right. split; [lia|]. by etrans.
Qed.

Lemma job_leb_total a b : job_leb a b = true ∨ job_leb b a = true.
Proof.
  rewrite !job_leb_iff. destruct (total String.le a.1 b.1) as [H|H]; [destruct (Z.lt_trichotomy
    (jr_next_attempt_at a.2) (jr_next_attempt_at b.2)) as [?|[?|?]]; destruct (Z.lt_trichotomy
    (jr_created_at a.2) (jr_created_at b.2)) as [?|[?|?]]; intuition lia..|].
  destruct (Z.lt_trichotomy (jr_next_attempt_at a.2) (jr_next_attempt_at b.2)) as [?|[?|?]];
    destruct (Z.lt_trichotomy (jr_created_at a.2) (jr_created_at b.2)) as [?|[?|?]]; intuition lia.
Qed.

Lemma first_job_least l x : first_job l = Some x → ∀ y, y ∈ l → job_leb x y = true.
Proof.
  assert (∀ a, job_leb a a = true) as Hrefl by (intros a; by destruct (job_leb_total a a)).
  revert x. induction l as [|z l IH]; intros x; simpl; [done|].
  destruct (first_job l) as [b|] eqn:E.
  - destruct (job_leb z b) eqn:Hzb; intros [= <-] y [->|Hy]%elem_of_cons; auto.
    + eapply job_leb_trans; [exact Hzb|auto].
    + destruct (job_leb_total b z) as [|H]; [done|congruence].
  - intros [= <-] y [->|Hy]%elem_of_cons; [done|]. destruct l as [|w l]; [by apply not_elem_of_nil in Hy|].
    simpl in E. destruct (first_job l); [destruct (job_leb _ _)|]; discriminate E.
Qed.

Lemma candidate_None ctx now s id r :
  candidate ctx now s = None → jobs s !! in_scope ctx id = Some r → claimable now r = false.
Proof.
  unfold candidate. intros Hc Hr%elem_of_visible. destruct (claimable now r) eqn:E; [|done].
  assert ((id, r) ∈ List.filter (λ r, claimable now r.2) (visible ctx (jobs s))) as Hin
    by (apply list_elem_of_In, List.filter_In; split; [by apply list_elem_of_In|done]).
  destruct (List.filter _ _) as [|w l]; [by apply not_elem_of_nil in Hin|].
  simpl in Hc. destruct (first_job l); [destruct (job_leb _ _)|]; discriminate Hc.
Qed.

Lemma candidate_least ctx now s id r id' r' :
  candidate ctx now s = Some (id, r) → jobs s !! in_scope ctx id' = Some r' → claimable now r' = true →
  job_leb (id, r) (id', r') = true.
Proof.
  unfold candidate. intros Hc Hr' Hcl. eapply first_job_least; [exact Hc|].
  apply list_elem_of_In, List.filter_In. split; [|done]. by apply list_elem_of_In, elem_of_visible.
Qed.

Section Properties.
Context {D : Digest} (enf : option (Store → string → Z → option exn)).

(** C37: The queue's tables.  In every reachable database each job's row is
    consistent (state, lease columns, attempts within its maximum while it
    waits, an audit row of every ended attempt), refers to an existing event
    and object of its own scope, and retries only dead letters of the same
    object; every object's status is accounted for by one of its jobs and its
    final key lies under its tenant and workspace.  From there on jobs stay,
    their versions grow with every change, and an ended job never changes. *)
Theorem object_queue_wf y :
  reachable enf y →
  let s := db y in
  (∀ k r, jobs s !! k = Some r →
     job_row_ok r ∧ job_refs_ok (objects s) (outbox s) (jobs s) (attempts s) k r) ∧
  (∀ k o, objects s !! k = Some o → object_row_ok (jobs s) k o) ∧
  ∀ y', rtc (sys_step enf) y y' → ∀ k r, jobs s !! k = Some r →
    ∃ r', jobs (db y') !! k = Some r' ∧ same_job r r' ∧ jr_version r <= jr_version r' ∧
      (jr_version r' = jr_version r ∨ jr_state r ∈ ENDED → r' = r).
Proof.
  intros Hy%oq_reachable_ok. cbv zeta. destruct Hy as [[Hj Ho Ha] Hi]. split; [done|]. split; [done|].
  intros y' Hyy k r Hr. destruct (sys_steps_keep _ _ _ Hyy) as [_ Hp]; [done|].
  destruct (Hp _ _ Hr) as (r' & Hr' & [->|(Hs & Hv & Hl)]).
  - exists r. repeat split; [done|lia].
  - exists r'. split; [done|]. split; [done|]. split; [lia|]. intros [?|He]; [lia|]. by destruct (live_not_ended r).
Qed.

(** C38: Leases fence workers off.  A worker that completes or fails a job it was
    handed holds the lease at that moment, unexpired, and the row is the one it
    was handed; the call gives the row a higher version.  And once the row has
    another version than the job handed out (it was completed, failed, or
    claimed again after the lease ran out), every later attempt to complete or
    fail that job is refused with JOB_LEASE_LOST and changes nothing. *)
Theorem lease_fenced y ctx job :
  reachable enf y → (scope_of ctx, job) ∈ issued y →
  (∀ worker stored now up s', complete ctx job worker stored now (db y) = (s', Ret up) →
     holding ctx job worker now (db y) ∧ jb_version job < jb_version up ∧ jb_state up = "completed" ∧
     ∃ r, jobs s' !! in_scope ctx (jb_job_id job) = Some r ∧ up = job_from_row (jb_job_id job) r) ∧
  (∀ worker code retryable now retry_at up s',
     fail ctx job worker code retryable now retry_at (db y) = (s', Ret up) →
     holding ctx job worker now (db y) ∧ jb_version job < jb_version up ∧
     jb_state up ∈ ["retry_wait"; "dead_letter"] ∧
     ∃ r, jobs s' !! in_scope ctx (jb_job_id job) = Some r ∧ up = job_from_row (jb_job_id job) r) ∧
  (∀ r, jobs (db y) !! in_scope ctx (jb_job_id job) = Some r → jr_version r ≠ jb_version job →
   ∀ y' worker now, rtc (sys_step enf) y y' →
     (∀ stored, complete ctx job worker stored now (db y') = (db y', Raise LEASE_LOST)) ∧
     (∀ code retryable retry_at,
        fail ctx job worker code retryable now retry_at (db y') = (db y', Raise LEASE_LOST))).
Proof.
  intros Hy%oq_reachable_ok Hin. destruct Hy as [Hs Hi]. specialize (Hi _ Hin) as Hjob. split; [|split].
  - intros worker stored now up s' E. pose proof (complete_spec ctx job worker stored now (db y)) as Hc.
    unfold wp in Hc. rewrite E in Hc. simpl in Hc.
    destruct Hc as (r & ob & Hr & Hl & _ & _ & _ & _ & -> & Ej & _).
    destruct (issued_holding _ _ _ _ _ _ Hjob Hr Hl) as [Hh Hv]. split; [done|]. simpl.
    split; [lia|]. split; [done|]. eexists. rewrite Ej, lookup_insert_eq. by split.
  - intros worker code rt now at' up s' E. pose proof (fail_spec ctx job worker code rt now at' (db y)) as Hc.
    unfold wp in Hc. rewrite E in Hc. simpl in Hc. destruct Hc as (r & Hr & Hl & _ & _ & -> & Ej & _).
    destruct (issued_holding _ _ _ _ _ _ Hjob Hr Hl) as [Hh Hv]. split; [done|]. simpl.
    split; [lia|]. split; [unfold failed_state; destruct (will_retry _ _); is_in|].
    eexists. rewrite Ej, lookup_insert_eq. by split.
  - intros r Hr Hne y' worker now Hyy. destruct Hjob as (r0 & Hr0 & Hv & _).
    destruct (sys_steps_keep _ _ _ Hyy) as [_ Hp]; [by split|].
    destruct (Hp _ _ Hr) as (r' & Hr' & Haft). apply (stale_refused _ _ _ _ _ r' Hr').
    simpl in Hr0, Hv. unfold in_scope, scope_of in *. simplify_eq. destruct Haft as [->|(_ & ? & _)]; [done|lia].
Qed.

(** The next job.  A claim that returns nothing left the tables alone and no
    job of the scope is due.  A claim that returns a job returns the first one,
    by next attempt, creation and identifier, of those that are due (waiting
    and past their time, or leased with the lease run out); the row is leased
    to the worker for the given time, one attempt and one version further, and
    until the lease ends no claim takes it.  No other job changes.  A claim
    that raises leaves the tables alone. *)
Theorem claim_next ctx worker now lease s s' o :
  claim ctx worker now lease s = (s', o) →
  match o with
  | Raise _ => s' = s
  | Ret None => s' = s ∧ ∀ id r, jobs s !! in_scope ctx id = Some r → claimable now r = false
  | Ret (Some job) =>
      ∃ r until,
        jobs s !! in_scope ctx (jb_job_id job) = Some r ∧ claimable now r = true ∧
        (∀ id' r', jobs s !! in_scope ctx id' = Some r' → claimable now r' = true →
           job_leb (jb_job_id job, r) (id', r') = true) ∧
        job = job_from_row (jb_job_id job)
                (set_jr_version (jr_version r + 1) (leased_to worker until r)) ∧
        now <= until ∧ result (timedelta_seconds lease) s = Ret (until - now) ∧
        (∀ r' t, jobs s' !! in_scope ctx (jb_job_id job) = Some r' → t < until → claimable t r' = false) ∧
        jobs s' = <[in_scope ctx (jb_job_id job) :=
                    set_jr_version (jr_version r + 1) (leased_to worker until r)]> (jobs s) ∧
        objects s' = objects s ∧ attempts s' = attempts s
  end.
Proof.
  intros E. pose proof (claim_spec ctx worker now lease s) as Hc. unfold wp in Hc. rewrite E in Hc.
  simpl in Hc. destruct o as [[job|]|e]; [|destruct Hc as [-> Hn]; split; [done|]; intros id r; by eapply candidate_None|done].
  destruct Hc as (id & r & delta & Hcand & Hd & Hlo & _ & _ & -> & _ & ->).
  destruct (candidate_Some _ _ _ _ _ Hcand) as [Hr Hcl]. exists r, (now + delta). simpl.
  split; [done|]. split; [done|]. split; [intros id' r'; by eapply candidate_least|].
  split; [done|].
  assert (0 <= delta) as Hdelta.
  { eapply (timedelta_nonneg lease delta s s); [apply not_le_zero_nonneg; [done|by intros ->]|].
    rewrite <- Hd. pose proof (readonly_timedelta lease s) as Hro.
    destruct (timedelta_seconds lease s); simpl in *; by subst. }
  split; [lia|]. split; [by replace (now + delta - now) with delta by lia|].
  split; [|done]. intros r' t. rewrite lookup_insert_eq. intros [= <-] Ht. unfold claimable. simpl.
  assert ((now + delta <=? t) = false) as -> by (apply Z.leb_gt; lia). done.
Qed.
End Properties.

(** ** A worker's attempt *)

Definition fits4 (z : Z) : Prop := -2147483648 <= z <= 2147483647.

(** What the database needs to record the end of an attempt. *)
Record recordable (ctx : CloudAccessContext) (job : ObjectJob) (s : Store) (r : JobRow) (ob : ObjectRow)
    : Prop := {
  rd_job : jobs s !! in_scope ctx (jb_job_id job) = Some r;
  rd_object : objects s !! in_scope ctx (jb_object_id job) = Some ob;
  rd_versions : fits4 (jr_version r + 1) ∧ fits4 (or_version ob + 1) ∧ fits4 (jr_attempt r);
  rd_scope : scope_of ctx ∈ workspaces s;
  rd_audit : ∀ kind, kind ∈ ["audit-complete-"; "audit-attempt-"] →
    audits s !! (ctx_tenant_id ctx, kind +:+ jb_job_id job +:+ "-" +:+ str_int (jb_attempt job)) = None
}.

Lemma fits4_bool z : fits4 z → (-2147483648 <=? z) && (z <=? 2147483647) = true.
Proof. unfold fits4. intros [? ?]. apply andb_true_iff. split; by apply Z.leb_le. Qed.

Section Ends.
Context (ctx : CloudAccessContext) (job : ObjectJob) (worker : string) (now : Z).
Context (s : Store) (r : JobRow) (ob : ObjectRow).
Context (Hs : store_ok s) (Hi : issued_ok s (scope_of ctx, job)).
Context (Hrd : recordable ctx job s r ob) (Hl : holds_lease job r worker now = true).

Lemma attempt_open :
  0 < jb_attempt job ∧ attempts s !! (in_scope ctx (jb_job_id job), jb_attempt job) = None ∧
  jb_attempt job = jr_attempt r.
Proof using All.
  destruct (issued_current _ _ _ _ _ _ Hi (rd_job _ _ _ _ _ Hrd) Hl) as (Hjob & Hst & _).
  destruct (tk_jobs _ _ _ _ Hs _ _ (rd_job _ _ _ _ _ Hrd)) as [[_ _ [Ha Hp] _ _ _] Hrefs].
  assert (jb_attempt job = jr_attempt r) as -> by (by rewrite Hjob).
  split; [|split; [|done]].
  - destruct (decide (jr_attempt r = 0)) as [H%Hp|]; [congruence|lia].
  - destruct (attempts s !! _) eqn:E; [|done].
    destruct (jo_attempts _ _ _ _ _ _ Hrefs (jr_attempt r)) as [_ H]; [by eexists|]. specialize (H Hst). lia.
Qed.

(** No guard of the statements stops them. *)
Ltac unguarded :=
  exfalso; simpl in *;
  repeat match goal with
  | H : context [<[?k := _]> _ !! ?k] |- _ => rewrite lookup_insert_eq in H
  end;
  simplify_eq;
  repeat match goal with H : _ && _ = false |- _ => apply andb_false_iff in H as [H|H] end;
  bools; first [congruence | discriminate | lia | done].

Lemma complete_returns stored :
  stored_matches stored ob = true → wp (complete ctx job worker stored now) (λ o _, ∃ up, o = Ret up) s.
Proof using All.
  intros Hm. destruct attempt_open as (Ha & Hn & Eat). destruct Hrd as [Hj Ho (F1 & F2 & F3) Hsc Hau].
  specialize (Hau "audit-complete-" ltac:(is_in)). rewrite <- Eat in F3.
  apply fits4_bool in F1, F2, F3. unfold scope_of in Hsc.
  unfold complete. oq_run; simplify_eq; try congruence; try (by eexists); unguarded.
Qed.

Lemma fail_returns code retryable retry_at :
  wp (fail ctx job worker code retryable now retry_at) (λ o _, ∃ up, o = Ret up) s.
Proof using All.
  destruct attempt_open as (Ha & Hn & Eat). destruct Hrd as [Hj Ho (F1 & F2 & F3) Hsc Hau].
  specialize (Hau "audit-attempt-" ltac:(is_in)). rewrite <- Eat in F3.
  apply fits4_bool in F1, F2, F3. unfold scope_of in Hsc.
  unfold fail. oq_run; simplify_eq; try congruence; try (by eexists); unguarded.
Qed.
End Ends.

Section Attempt.
Context {D : Digest} {B : Type} {Port : ObjectStorage B} {Laws : ObjectStorageLaws B}.
Context (enf : option (Store → string → Z → option exn)).

Lemma on_store_Ret {A} (m : St A) (s s' : Store) (b : B) o : m s = (s', o) → on_store m (s, b) = ((s', b), o).
Proof. unfold on_store, zoom. simpl. by intros ->. Qed.

Lemma on_storage_Ret {A} (m : M B A) (s : Store) (b b' : B) o : m b = (b', o) → on_storage m (s, b) = ((s, b'), o).
Proof. unfold on_storage, zoom. simpl. by intros ->. Qed.

Lemma get_object_Ret ctx oid s ob :
  objects s !! in_scope ctx oid = Some ob → get_object ctx oid s = (s, Ret (object_from_row oid ob)).
Proof.
  intros H. unfold get_object. rewrite (bind_Ret _ _ s s (Some ob)); [done|].
  unfold in_transaction, transaction, gets, select_id. by rewrite H.
Qed.

Lemma matches_promoted oid ob b b' so :
  promote_record (object_from_row oid ob) b = (b', Ret so) → stored_matches so ob = true.
Proof.
  intros (H1 & H2 & H3 & H4)%promote_returns. unfold stored_matches. simpl in *.
  by rewrite H1, H2, H3, H4, !String.eqb_refl, Z.eqb_refl.
Qed.

(** C39: A worker that holds its lease concludes the attempt.  It promotes the
    object of its job; if the storage returns, the job and its object are
    completed with the etag and version the storage gave, and otherwise the
    error of the storage is recorded: the job waits until the retry time while
    the error is retryable and attempts are left, its object unchanged, and
    becomes a dead letter and its object failed when not.  (The database must
    be able to record it: the audit events are new, and the counters fit their
    columns.) *)
Theorem attempt_concludes policy worker y ctx job now jitter b r ob retry_at :
  reachable enf y → (scope_of ctx, job) ∈ issued y →
  recordable ctx job (db y) r ob → holds_lease job r worker now = true →
  (∀ z : Store * B, retry_time policy (jb_attempt job) jitter now z = (z, Ret retry_at)) →
  let '(b', promoted) := promote_record (object_from_row (jb_object_id job) ob) b in
  ∃ s' up r' ob',
    process_claimed policy worker ctx job now jitter (db y, b) = ((s', b'), Ret up) ∧
    jobs s' !! in_scope ctx (jb_job_id job) = Some r' ∧ up = job_from_row (jb_job_id job) r' ∧
    objects s' !! in_scope ctx (jb_object_id job) = Some ob' ∧ or_object_key ob' = or_object_key ob ∧
    match promoted with
    | Ret so => jb_state up = "completed" ∧ or_status ob' = "completed" ∧
        or_storage_etag ob' = Some (so_etag so) ∧ or_storage_version_id ob' = so_version_id so
    | Raise e => ∃ code retryable, e = ObjectQueueError code retryable ∧
        jb_last_safe_error_code up = Some code ∧
        if will_retry job retryable
        then jb_state up = "retry_wait" ∧ jb_next_attempt_at up = retry_at ∧ ob' = ob
        else jb_state up = "dead_letter" ∧ or_status ob' = "failed"
    end.
Proof.
  intros Hy%oq_reachable_ok Hin Hrd Hl Hretry. destruct Hy as [Hs Hi]. specialize (Hi _ Hin).
  pose proof (rd_object _ _ _ _ _ Hrd) as Hob.
  destruct (promote_record _ b) as [b' promoted] eqn:Hp. unfold process_claimed.
  rewrite (bind_Ret _ _ (db y, b) (db y, b) (object_from_row (jb_object_id job) ob))
    by (by apply on_store_Ret, get_object_Ret).
  unfold catching. destruct promoted as [so|e].
  - pose proof (complete_returns ctx job worker now (db y) r ob Hs Hi Hrd Hl so
      (matches_promoted _ _ _ _ _ Hp)) as Hc. pose proof (complete_spec ctx job worker so now (db y)) as Hspec.
    unfold wp in Hc, Hspec. destruct (complete _ _ _ _ _ _) as [s' o] eqn:E. simpl in Hc, Hspec.
    destruct Hc as [up ->]. rewrite (bind_Ret _ _ _ _ _ (on_storage_Ret _ _ _ _ _ Hp)).
    rewrite (on_store_Ret _ _ _ _ _ E). cbv zeta in Hspec.
    destruct Hspec as (r0 & ob0 & Hr0 & _ & Hob0 & _ & _ & _ & -> & Ej & Eo & _). simplify_eq.
    eexists _, _, _, _. rewrite Ej, Eo, !lookup_insert_eq. by split_and!.
  - destruct (promote_raises _ _ _ _ _ _ _ _ Hp) as (code & rt & ->).
    rewrite (bind_Raise _ _ _ _ _ (on_storage_Ret _ (db y) _ _ _ Hp)). unfold ObjectQueueError.
    rewrite (bind_Ret _ _ _ _ _ (Hretry (db y, b'))).
    pose proof (fail_returns ctx job worker now (db y) r ob Hs Hi Hrd Hl code rt retry_at) as Hc.
    pose proof (fail_spec ctx job worker code rt now retry_at (db y)) as Hspec.
    unfold wp in Hc, Hspec. destruct (fail _ _ _ _ _ _ _ _) as [s' o] eqn:E. simpl in Hc, Hspec.
    destruct Hc as [up ->]. rewrite (on_store_Ret _ _ _ _ _ E). cbv zeta in Hspec.
    destruct Hspec as (r0 & Hr0 & _ & _ & _ & -> & Ej & Eo & _). rewrite Hob in Eo.
    destruct (will_retry job rt) eqn:Hw; eexists _, _, _, _;
      rewrite Ej, Eo, !lookup_insert_eq; split_and!; try eassumption; try done;
      exists code, rt; by rewrite Hw.
Qed.
End Attempt.

(** ** How much work is left *)

(** An unended job has the attempts that are left, and one more; an expired
    lease may leave a job beyond its maximum, which is one attempt. *)
Definition job_weight (r : JobRow) : nat :=
  if bool_decide (jr_state r ∈ LIVE) then S (Z.to_nat (jr_max_attempts r - jr_attempt r)) else 0.

Definition queue_weight (jbs : gmap Key JobRow) : nat :=
  map_fold (λ _ r n, (job_weight r + n)%nat) 0%nat jbs.

Lemma queue_weight_fresh jbs k r :
  jbs !! k = None → queue_weight (<[k := r]> jbs) = (job_weight r + queue_weight jbs)%nat.
Proof. intros Hk. unfold queue_weight. rewrite map_fold_insert_L; [done|intros; lia|done]. Qed.

Lemma queue_weight_update jbs k r r' :
  jbs !! k = Some r →
  (queue_weight (<[k := r']> jbs) + job_weight r = queue_weight jbs + job_weight r')%nat.
Proof.
  intros Hk. rewrite <- (insert_delete_id jbs k r Hk) at 2. rewrite <- (insert_delete_eq jbs k r').
  rewrite !queue_weight_fresh by apply lookup_delete_eq. lia.
Qed.

Lemma queue_weight_zero jbs :
  queue_weight jbs = 0%nat ↔ ∀ k r, jbs !! k = Some r → jr_state r ∉ LIVE.
Proof.
  induction jbs as [|k r jbs Hk IH] using map_ind; [by split|].
  rewrite queue_weight_fresh by done. rewrite Nat.eq_add_0, IH. unfold job_weight. split.
  - intros [Hr H] k' r'. destruct (decide (k = k')) as [<-|].
    + rewrite lookup_insert_eq. intros [= <-]. by case_bool_decide.
    + rewrite lookup_insert_ne by done. apply H.
  - intros H. split.
    + rewrite bool_decide_false; [done|]. apply (H k). by rewrite lookup_insert_eq.
    + intros k' r' Hr'. apply (H k'). rewrite lookup_insert_ne; [done|]. congruence.
Qed.

Section Runs.
Context {D : Digest} {B : Type} {Port : ObjectStorage B}.
Context (enf : option (Store → string → Z → option exn)).

Lemma get_object_readonly ctx oid : readonly (get_object ctx oid).
Proof.
  intros s. unfold get_object. erewrite bind_Ret by reflexivity. by destruct (select_id _ _ _).
Qed.

Lemma readonly_retry_time {T} policy n j now : readonly (S:=T) (retry_time policy n j now).
Proof. unfold retry_time. auto with py. Qed.

(** An attempt that returns did one of the two. *)
Lemma process_claimed_cases policy worker ctx job now jitter (s s' : Store) (b b' : B) up :
  process_claimed policy worker ctx job now jitter (s, b) = ((s', b'), Ret up) →
  (∃ stored, complete ctx job worker stored now s = (s', Ret up)) ∨
  (∃ code retryable retry_at, fail ctx job worker code retryable now retry_at s = (s', Ret up)).
Proof.
  unfold process_claimed, bind at 1, on_store at 1, zoom. simpl.
  pose proof (get_object_readonly ctx (jb_object_id job) s) as Hro.
  destruct (get_object _ _ s) as [s1 [rec|e]]; simpl in Hro; subst s1; [|done].
  unfold catching, bind at 1, on_storage, zoom. simpl.
  assert (∀ code rt b1, (retry_at <- retry_time policy (jb_attempt job) jitter now ;;
    on_store (fail ctx job worker code rt now retry_at)) (s, b1) = ((s', b'), Ret up) →
    ∃ code rt at', fail ctx job worker code rt now at' s = (s', Ret up)) as Hfail.
  { intros code rt b1. unfold bind. pose proof (readonly_retry_time policy (jb_attempt job) jitter now (s, b1)) as Hrt.
    destruct (retry_time _ _ _ _ (s, b1)) as [x [at'|e]]; simpl in Hrt; subst x; [|done].
    unfold on_store, zoom. simpl. destruct (fail _ _ _ _ _ _ _ s) as [s2 o] eqn:E. intros [= -> -> ->].
    by exists code, rt, at'. }
  destruct (promote_record rec b) as [b1 [so|e]].
  - unfold on_store, zoom. simpl. pose proof (complete_spec ctx job worker so now s) as Hc. unfold wp in Hc.
    destruct (complete _ _ _ _ _ s) as [s2 [u|e]] eqn:E; simpl in Hc.
    + intros [= -> -> ->]. left. by exists so.
    + subst s2. destruct e as [code st rt|]; [|done]. intros H. right. by eapply Hfail.
  - destruct e as [code st rt|]; [|done]. intros H. right. by eapply Hfail.
Qed.

(** The states after [n] runs that returned a job. *)
Inductive worked : nat → Store * B → Store * B → Prop :=
| worked_none x : worked 0 x x
| worked_one n x x1 x' policy worker lease ctx now jitter up :
    run_once policy worker lease false ctx now jitter x = (x1, Ret (Some up)) →
    worked n x1 x' → worked (S n) x x'.

Lemma run_once_lighter policy worker lease ctx now jitter x x' up :
  store_ok x.1 →
  run_once policy worker lease false ctx now jitter x = (x', Ret (Some up)) →
  store_ok x'.1 ∧ (queue_weight (jobs x'.1) < queue_weight (jobs x.1))%nat.
Proof.
  destruct x as [s b], x' as [s' b']. simpl fst. intros Hs. unfold run_once, bind at 1, on_store, zoom. simpl.
  pose proof (claim_spec ctx worker now lease s) as Hc. pose proof (claim_keeps ctx worker now lease s Hs) as Hk.
  unfold wp in Hc. unfold keeps, wp in Hk. destruct (claim _ _ _ _ s) as [s1 [[job|]|e]]; simpl in Hc, Hk; [|done..].
  destruct Hk as [Hs1 _]. cbv zeta in Hc.
  destruct Hc as (id & r & delta & [Hr Hcl%claimable_live]%candidate_Some & _ & _ & _ & _ & -> & _ & ->).
  set (r1 := set_jr_version _ _) in *. set (s1 := set_outbox _ _) in *.
  assert (jobs s1 !! in_scope ctx id = Some r1) as Hr1 by (unfold s1; simpl; by rewrite lookup_insert_eq).
  assert (issued_ok s1 (scope_of ctx, job_from_row id r1)) as Hi.
  { exists r1. simpl. split; [exact Hr1|]. by split. }
  unfold bind. destruct (process_claimed _ _ _ _ _ _ _) as [[s2 b2] [u|e]] eqn:Hp; [|done].
  unfold ret. intros [= -> -> ->].
  pose proof (queue_weight_update (jobs s) _ _ r1 Hr) as Hw1. change (<[_ := r1]> (jobs s)) with (jobs s1) in Hw1.
  clearbody s1.
  assert (job_weight r = S (Z.to_nat (jr_max_attempts r - jr_attempt r))) as Hwr
    by (unfold job_weight; by rewrite bool_decide_true).
  assert (∀ r2, jobs s' = <[in_scope ctx id := r2]> (jobs s1) → (job_weight r2 < job_weight r)%nat →
    (queue_weight (jobs s') < queue_weight (jobs s))%nat) as Hlight.
  { intros r2 -> Hlt. pose proof (queue_weight_update (jobs s1) _ _ r2 Hr1). lia. }
  destruct (process_claimed_cases _ _ _ _ _ _ _ _ _ _ _ Hp) as [(so & E)|(code & rt & at' & E)].
  - pose proof (complete_keeps ctx _ worker so now s1 Hs1 Hi) as Hk.
    pose proof (complete_spec ctx (job_from_row id r1) worker so now s1) as Hc.
    unfold keeps, wp in Hc, Hk. rewrite E in Hc, Hk. simpl in Hc, Hk. destruct Hk as [Hs2 _]. split; [done|].
    destruct Hc as (r0 & ob & Hr0 & _ & _ & _ & _ & _ & _ & Ej & _). eapply Hlight; [exact Ej|].
    rewrite Hwr. unfold job_weight. rewrite bool_decide_false; [lia|]. simpl. intros Hin. not_in Hin.
  - pose proof (fail_keeps ctx _ worker code rt now at' s1 Hs1 Hi) as Hk.
    pose proof (fail_spec ctx (job_from_row id r1) worker code rt now at' s1) as Hc.
    unfold keeps, wp in Hc, Hk. rewrite E in Hc, Hk. simpl in Hc, Hk. destruct Hk as [Hs2 _]. split; [done|].
    destruct Hc as (r0 & Hr0 & _ & _ & _ & _ & Ej & _). rewrite Hr1 in Hr0. injection Hr0 as <-.
    eapply Hlight; [exact Ej|]. rewrite Hwr. unfold job_weight, will_retry, failed_job, failed_state. simpl.
    destruct rt; simpl; [destruct (Z.ltb_spec (jr_attempt r + 1) (jr_max_attempts r)); simpl|]; lia.
Qed.

(** The queue drains.  Whatever a worker meets, a run that returns a job
    leaves less work: after [n] runs that returned one, the work left is at
    least [n] less, so there are at most as many as the attempts that are left
    and the jobs that have not ended; and when no work is left every job has
    ended. *)
Theorem runs_bounded y n b x :
  reachable enf y → worked n (db y, b) x →
  (n + queue_weight (jobs x.1) <= queue_weight (jobs (db y)))%nat ∧
  (queue_weight (jobs x.1) = 0%nat → ∀ k r, jobs x.1 !! k = Some r → jr_state r ∈ ENDED).
Proof.
  intros Hy%oq_reachable_ok Hw. destruct Hy as [Hs _].
  assert ((n + queue_weight (jobs x.1) <= queue_weight (jobs (db y)))%nat ∧ store_ok x.1) as [Hn Hx].
  { change (db y) with (db y, b).1 in Hs. change (jobs (db y)) with (jobs (db y, b).1).
    revert Hs. induction Hw as [x|n x x1 x' policy worker lease ctx now jitter up Hrun Hw IH]; intros Hs.
    - by split; [lia|].
    - destruct (run_once_lighter _ _ _ _ _ _ _ _ _ Hs Hrun) as [Hs1 Hlt].
      destruct (IH Hs1) as [? ?]. split; [lia|done]. }
  split; [done|]. intros Hz k r Hr. rewrite queue_weight_zero in Hz. specialize (Hz _ _ Hr).
  destruct (tk_jobs _ _ _ _ Hx _ _ Hr) as [[Hst _ _ _ _ _] _]. apply elem_of_app in Hst as [|]; [done|done].
Qed.
End Runs.

(** ** Runs *)

Definition sample_digest : string := sha256_hex sample_content.
Definition sample_staging : string := "_staging/tenant-a/workspace-a/source/" +:+ sample_object.
Definition sample_final : string := "tenant-a/workspace-a/source/" +:+ sample_object.
Definition sample_staged : StagedObject :=
  mkStaged sample_staging sample_digest 14 "text/plain" "etag" None.
Definition sample_stored : StoredObject := mkStored sample_final sample_digest 14 "text/plain" "etag" None.
Definition no_enforcer : option (Store → string → Z → option exn) := None.
Definition lease_30 : float := scaled 30 0.

(** A scope is set up, an object registered, and its job claimed by worker-a. *)
Definition sys0 : Sys := mkSys empty_store [].
Definition sys1 : Sys := mkSys (final (seed_scope sample_scope) (db sys0)) (issued sys0).
Definition sample_register : St ObjectSubmission :=
  register_object_job no_enforcer sample_scope sample_object "source" sample_staged sample_final "key-1"
    "trace-1" 2 1000 false.
Definition sys2 : Sys := mkSys (final sample_register (db sys1)) (issued sys1).
Definition sample_claim : St (option ObjectJob) := claim sample_scope "worker-a" 1000 lease_30.
Definition sys3 : Sys :=
  mkSys (final sample_claim (db sys2)) (handed_out sample_scope (result sample_claim (db sys2)) (issued sys2)).

Lemma sys2_reachable : reachable no_enforcer sys2.
Proof.
  eapply rtc_l; [exact (step_seed no_enforcer sys0 sample_scope)|].
  eapply rtc_l; [exact (step_register no_enforcer sys1 sample_scope sample_object "source" sample_staged
    sample_final "key-1" "trace-1" 2 1000 false eq_refl)|]. apply rtc_refl.
Qed.

Lemma sys3_reachable : reachable no_enforcer sys3.
Proof.
  eapply rtc_r; [exact sys2_reachable|].
  exact (step_claim no_enforcer sys2 sample_scope "worker-a" 1000 lease_30).
Qed.

Definition sample_job : ObjectJob := Eval vm_compute in
  match issued sys3 with
  | x :: _ => x.2
  | [] => mkObjectJob "" "" "" "" 0 0 0 None None None None "" 0 0
  end.

Lemma sample_issued : (scope_of sample_scope, sample_job) ∈ issued sys3.
Proof. vm_compute. left. Qed.

Definition sample_row : JobRow := Eval vm_compute in
  default (new_job sample_scope "" "" "" 0 None "" 0) (jobs (db sys3) !! in_scope sample_scope (jb_job_id sample_job)).
Definition sample_object_row : ObjectRow := Eval vm_compute in
  default (new_object sample_scope "" sample_staged "" "" "" "" 0)
    (objects (db sys3) !! in_scope sample_scope sample_object).

Lemma sample_row_at : jobs (db sys3) !! in_scope sample_scope (jb_job_id sample_job) = Some sample_row.
Proof. vm_compute. reflexivity. Qed.

Example object_queue_wf_witness :
  reachable no_enforcer sys3 ∧ jr_state sample_row = "leased" ∧ job_row_ok sample_row.
Proof.
  split; [exact sys3_reachable|]. split; [reflexivity|].
  exact (proj1 (proj1 (object_queue_wf no_enforcer sys3 sys3_reachable) _ _ sample_row_at)).
Defined.

Lemma sample_completes :
  ∃ s' up, complete sample_scope sample_job "worker-a" sample_stored 2000 (db sys3) = (s', Ret up).
Proof. apply returns. vm_compute. reflexivity. Qed.

Example lease_fenced_witness :
  holding sample_scope sample_job "worker-a" 2000 (db sys3).
Proof.
  destruct sample_completes as (s' & up & H).
  exact (proj1 (proj1 (lease_fenced no_enforcer sys3 sample_scope sample_job sys3_reachable sample_issued)
    "worker-a" sample_stored 2000 up s' H)).
Defined.

Lemma sample_claims : ∃ s' job, sample_claim (db sys2) = (s', Ret (Some job)).
Proof. apply returns_some. vm_compute. reflexivity. Qed.

Example claim_next_witness :
  ∃ job r, jobs (db sys2) !! in_scope sample_scope (jb_job_id job) = Some r ∧ claimable 1000 r = true.
Proof.
  destruct sample_claims as (s' & job & H).
  destruct (claim_next sample_scope "worker-a" 1000 lease_30 (db sys2) s' (Ret (Some job)) H)
    as (r & until & Hr & Hc & _).
  exists job, r. exact (conj Hr Hc).
Defined.

(** The bucket holds the staged content. *)
Definition sample_bucket : MemBucket :=
  {[sample_staging := (sample_content, object_metadata sample_digest 14 "text/plain")]}.
#[local] Instance sample_storage : ObjectStorage MemBucket := minio_storage "objects".
#[local] Instance sample_storage_laws : ObjectStorageLaws MemBucket := minio_laws "objects".

Lemma sample_recordable : recordable sample_scope sample_job (db sys3) sample_row sample_object_row.
Proof.
  split; [exact sample_row_at|vm_compute; reflexivity| |apply (bool_decide_unpack _); vm_compute; exact I|].
  - unfold fits4. vm_compute. repeat split; discriminate.
  - intros kind Hk. apply elem_of_cons in Hk as [->|Hk]; [vm_compute; reflexivity|].
    apply list_elem_of_singleton in Hk as ->. vm_compute. reflexivity.
Qed.

Lemma sample_retry_time (z : Store * MemBucket) :
  retry_time default_policy (jb_attempt sample_job) half 2000 z = (z, Ret 2002000).
Proof. vm_compute. reflexivity. Qed.

Lemma sample_promotes :
  (promote_record (object_from_row (jb_object_id sample_job) sample_object_row) sample_bucket).2 = Ret sample_stored.
Proof. vm_compute. reflexivity. Qed.

Example attempt_concludes_witness :
  ∃ s' b' up,
    process_claimed default_policy "worker-a" sample_scope sample_job 2000 half (db sys3, sample_bucket) =
      ((s', b'), Ret up) ∧ jb_state up = "completed".
Proof.
  pose proof (attempt_concludes no_enforcer default_policy "worker-a" sys3 sample_scope sample_job 2000 half
    sample_bucket sample_row sample_object_row 2002000 sys3_reachable sample_issued sample_recordable
    eq_refl sample_retry_time) as H.
  pose proof sample_promotes as Hp. destruct (promote_record _ _) as [b' o]. simpl in Hp. rewrite Hp in H.
  destruct H as (s' & up & r' & ob' & E & _ & _ & _ & _ & Hst & _).
  exists s', b', up. exact (conj E Hst).
Defined.

Lemma sample_run :
  ∃ x up, run_once default_policy "worker-a" lease_30 false sample_scope 1000 half (db sys2, sample_bucket) =
    (x, Ret (Some up)).
Proof. apply returns_some. vm_compute. reflexivity. Qed.

Example runs_bounded_witness :
  ∃ x, worked 1 (db sys2, sample_bucket) x ∧ queue_weight (jobs (db sys2)) = 3%nat ∧
    (1 + queue_weight (jobs x.1) <= queue_weight (jobs (db sys2)))%nat.
Proof.
  destruct sample_run as (x & up & H).
  pose proof (worked_one 0 _ _ _ _ _ _ _ _ _ _ H (worked_none x)) as Hw.
  exists x. split; [exact Hw|]. split; [vm_compute; reflexivity|].
  exact (proj1 (runs_bounded no_enforcer sys2 1 sample_bucket x sys2_reachable Hw)).
Defined.

(** ** What the runs show

    A worker that dies with a job is not counted: with at most two attempts a
    job whose lease runs out each time is claimed for the third time. *)
Definition later (n : Z) : Z := 1000 + n * 60 * seconds.

Example crashes_exceed_max_attempts :
  result (sample_claim ;; claim sample_scope "worker-b" (later 1) lease_30 ;;
          job <- claim sample_scope "worker-c" (later 2) lease_30 ;;
          ret (option_map (λ j, (jb_attempt j, jb_max_attempts j)) job)) (db sys2) =
    Ret (Some (3, 2)).
Proof. vm_compute. reflexivity. Qed.

(** Two actors of a workspace cannot use the same idempotency key: the second
    registration fails on the uniqueness of the deduplication key. *)
Definition other_object : string := "ffffffffffffffffffffffffffffffff".
Definition register_as (actor key : string) : St ObjectSubmission :=
  register_object_job no_enforcer (mkContext "tenant-a" "workspace-a" actor "object.write") other_object "source"
    (mkStaged ("_staging/tenant-a/workspace-a/source/" +:+ other_object) sample_digest 14 "text/plain" "" None)
    ("tenant-a/workspace-a/source/" +:+ other_object) key "trace-2" 2 1000 false.

Example keys_collide_across_actors :
  result (register_as "actor-b" "key-1") (db sys2) =
    Raise (ObjectQueueError "DATABASE_CONSTRAINT_VIOLATION" false).
Proof. vm_compute. reflexivity. Qed.

(** A registration whose idempotency key has the form of a reprocessing key is
    what the reprocessing then returns: the dead letter stays as it is. *)
Definition operator : CloudAccessContext := mkContext "tenant-a" "workspace-a" "operator" "queue.reprocess".
Definition dead_letter : St ObjectJob :=
  job <- sample_claim ;;
  fail sample_scope (default sample_job job) "worker-a" "OBJECT_NOT_FOUND" false 2000 2000.

Example user_key_pre_empts_reprocess :
  result (dead_letter ;; register_as "actor-b" ("reprocess:job-" +:+ sample_object +:+ ":again") ;;
          job <- reprocess operator ("job-" +:+ sample_object) "again" 3000 ;;
          ret (jb_object_id job, jb_retry_of_job_id job)) (db sys2) =
    Ret (other_object, None).
Proof. vm_compute. reflexivity. Qed.

(** A dead letter can be reprocessed after an earlier reprocessing succeeded:
    the completed object is pending again. *)
Example completed_object_reopened :
  result (dead_letter ;; reprocess operator ("job-" +:+ sample_object) "first" 3000 ;;
          job <- claim sample_scope "worker-a" 3000 lease_30 ;;
          complete sample_scope (default sample_job job) "worker-a" sample_stored 4000 ;;
          before <- get_object sample_scope sample_object ;;
          reprocess operator ("job-" +:+ sample_object) "second" 5000 ;;
          after <- get_object sample_scope sample_object ;;
          ret (rec_status before, rec_status after)) (db sys2) =
    Ret ("completed", "pending").
Proof. vm_compute. reflexivity. Qed.
