(* ===== verification/Authorization.v ===== *)
(** Roles, permissions and access to historical results (authorization.py).

    The tables of [SqliteAuthorizationRepository] are the record [Db], one map
    per table from its primary key.  Columns that hold the value of an
    enumeration are typed by it, tuples stored as JSON text are lists, times
    are microseconds.  The service runs over that database, an audit store and
    an identity service, which it reaches through interfaces: what an audit
    store promises is [AuditStore], and the stores of [AuditLog] keep the
    promise.  A transaction that raises leaves the database as it was; what the
    audit store accepted meanwhile stays, since it is another store.

    Arguments have the types their annotations give them.  The schema's
    statements, SQLite's own failures and the notification that only the
    PostgreSQL adapter sends are left out.  The organization's own membership
    table, which another component writes, is read here and may change between
    calls in any way. *)

From S2P Require Import Prelude Sha256 PyStr Json HashChain Bytes AuditLog.
#[local] Open Scope Z_scope.

(** ** Roles, actions and permissions *)

Definition AuthorizationError (code : string) (http_status : Z) : exn := Raised code http_status false.

Inductive Role :=
| PERSONAL_OWNER | ORGANIZATION_ADMIN | WORKSPACE_ADMIN | EDITOR | REVIEWER | APPROVER | VIEWER.

Inductive RoleScope := TENANT | WORKSPACE.

Inductive Action :=
| VIEW | QUERY | ANALYZE | GENERATE | EDIT | REVIEW | REVISION_REQUEST | APPROVE | DELIVER
| KNOWLEDGE_REGISTER | POLICY_MANAGE | MEMBER_MANAGE.

Inductive Permission :=
| EXTERNAL_LLM | INTERNET_SEARCH | LOCAL_INTERNAL_LLM | DAON_KNOWLEDGE | FILE_DOWNLOAD_SHARE
| PRODUCTION_KNOWLEDGE_REGISTRATION | DATA_AREA_MOVE | FINAL_APPROVAL_EXTERNAL_DELIVERY.

Inductive PolicyEffect := GRANT | DENY.

Inductive AccessAction :=
| READ | CITATION | OPEN_SOURCE | EXPORT | DELIVERY | KNOWLEDGE_REGISTRATION | RERUN.

Inductive AccessState := AVAILABLE | PARTIALLY_REDACTED | ACCESS_BLOCKED.

#[export] Instance role_eq_dec : EqDecision Role.
Proof. solve_decision. Defined.
#[export] Instance role_scope_eq_dec : EqDecision RoleScope.
Proof. solve_decision. Defined.
#[export] Instance action_eq_dec : EqDecision Action.
Proof. solve_decision. Defined.
#[export] Instance permission_eq_dec : EqDecision Permission.
Proof. solve_decision. Defined.
#[export] Instance policy_effect_eq_dec : EqDecision PolicyEffect.
Proof. solve_decision. Defined.
#[export] Instance access_state_eq_dec : EqDecision AccessState.
Proof. solve_decision. Defined.

(** [.value] of the enumerations *)
Definition role_value (r : Role) : string :=
  match r with
  | PERSONAL_OWNER => "personal_owner"
  | ORGANIZATION_ADMIN => "organization_admin"
  | WORKSPACE_ADMIN => "workspace_admin"
  | EDITOR => "editor"
  | REVIEWER => "reviewer"
  | APPROVER => "approver"
  | VIEWER => "viewer"
  end.

(** [role.value.upper()] of the tenant's roles *)
Definition role_upper (r : Role) : string :=
  match r with
  | PERSONAL_OWNER => "PERSONAL_OWNER"
  | ORGANIZATION_ADMIN => "ORGANIZATION_ADMIN"
  | WORKSPACE_ADMIN => "WORKSPACE_ADMIN"
  | EDITOR => "EDITOR"
  | REVIEWER => "REVIEWER"
  | APPROVER => "APPROVER"
  | VIEWER => "VIEWER"
  end.

Definition scope_value (s : RoleScope) : string :=
  match s with TENANT => "tenant" | WORKSPACE => "workspace" end.

Definition action_value (a : Action) : string :=
  match a with
  | VIEW => "view"
  | QUERY => "query"
  | ANALYZE => "analyze"
  | GENERATE => "generate"
  | EDIT => "edit"
  | REVIEW => "review"
  | REVISION_REQUEST => "revision_request"
  | APPROVE => "approve"
  | DELIVER => "deliver"
  | KNOWLEDGE_REGISTER => "knowledge_register"
  | POLICY_MANAGE => "policy_manage"
  | MEMBER_MANAGE => "member_manage"
  end.

Definition permission_value (p : Permission) : string :=
  match p with
  | EXTERNAL_LLM => "external_llm"
  | INTERNET_SEARCH => "internet_search"
  | LOCAL_INTERNAL_LLM => "local_internal_llm"
  | DAON_KNOWLEDGE => "daon_knowledge"
  | FILE_DOWNLOAD_SHARE => "file_download_share"
  | PRODUCTION_KNOWLEDGE_REGISTRATION => "production_knowledge_registration"
  | DATA_AREA_MOVE => "data_area_move"
  | FINAL_APPROVAL_EXTERNAL_DELIVERY => "final_approval_external_delivery"
  end.

Definition effect_value (e : PolicyEffect) : string :=
  match e with GRANT => "grant" | DENY => "deny" end.

Definition access_action_value (a : AccessAction) : string :=
  match a with
  | READ => "read"
  | CITATION => "citation"
  | OPEN_SOURCE => "open_source"
  | EXPORT => "export"
  | DELIVERY => "delivery"
  | KNOWLEDGE_REGISTRATION => "knowledge_registration"
  | RERUN => "rerun"
  end.

Definition access_state_value (s : AccessState) : string :=
  match s with
  | AVAILABLE => "available"
  | PARTIALLY_REDACTED => "partially_redacted"
  | ACCESS_BLOCKED => "access_blocked"
  end.

Definition TENANT_ROLES : list Role := [PERSONAL_OWNER; ORGANIZATION_ADMIN].
Definition WORKSPACE_ROLES : list Role := [WORKSPACE_ADMIN; EDITOR; REVIEWER; APPROVER; VIEWER].

(** [frozenset(Action)], [frozenset(Permission)] *)
Definition all_actions : list Action :=
  [VIEW; QUERY; ANALYZE; GENERATE; EDIT; REVIEW; REVISION_REQUEST; APPROVE; DELIVER;
   KNOWLEDGE_REGISTER; POLICY_MANAGE; MEMBER_MANAGE].
Definition all_permissions : list Permission :=
  [EXTERNAL_LLM; INTERNET_SEARCH; LOCAL_INTERNAL_LLM; DAON_KNOWLEDGE; FILE_DOWNLOAD_SHARE;
   PRODUCTION_KNOWLEDGE_REGISTRATION; DATA_AREA_MOVE; FINAL_APPROVAL_EXTERNAL_DELIVERY].

Definition ROLE_ACTION_MATRIX (r : Role) : list Action :=
  match r with
  | PERSONAL_OWNER => all_actions
  | ORGANIZATION_ADMIN => all_actions
  | WORKSPACE_ADMIN =>
      [VIEW; QUERY; ANALYZE; GENERATE; EDIT; REVIEW; REVISION_REQUEST; POLICY_MANAGE; MEMBER_MANAGE]
  | EDITOR => [VIEW; QUERY; ANALYZE; GENERATE; EDIT]
  | REVIEWER => [VIEW; QUERY; ANALYZE; REVIEW; REVISION_REQUEST]
  | APPROVER => [VIEW; QUERY; ANALYZE; REVIEW; APPROVE; DELIVER; KNOWLEDGE_REGISTER]
  | VIEWER => [VIEW]
  end.

Definition ROLE_PERMISSION_DEFAULTS (r : Role) : list Permission :=
  match r with
  | PERSONAL_OWNER => all_permissions
  | ORGANIZATION_ADMIN => all_permissions
  | WORKSPACE_ADMIN => [INTERNET_SEARCH; LOCAL_INTERNAL_LLM; DAON_KNOWLEDGE; FILE_DOWNLOAD_SHARE]
  | EDITOR => [INTERNET_SEARCH; LOCAL_INTERNAL_LLM; DAON_KNOWLEDGE; FILE_DOWNLOAD_SHARE]
  | REVIEWER => [LOCAL_INTERNAL_LLM; DAON_KNOWLEDGE; FILE_DOWNLOAD_SHARE]
  | APPROVER =>
      [LOCAL_INTERNAL_LLM; DAON_KNOWLEDGE; FILE_DOWNLOAD_SHARE; PRODUCTION_KNOWLEDGE_REGISTRATION;
       FINAL_APPROVAL_EXTERNAL_DELIVERY]
  | VIEWER => [LOCAL_INTERNAL_LLM; DAON_KNOWLEDGE]
  end.

(** [_ACTION_PERMISSIONS.get(action, frozenset())] *)
Definition ACTION_PERMISSIONS (a : Action) : list Permission :=
  match a with
  | APPROVE => [FINAL_APPROVAL_EXTERNAL_DELIVERY]
  | DELIVER => [FILE_DOWNLOAD_SHARE; FINAL_APPROVAL_EXTERNAL_DELIVERY]
  | KNOWLEDGE_REGISTER => [PRODUCTION_KNOWLEDGE_REGISTRATION]
  | _ => []
  end.

(** [_ACCESS_ACTIONS] *)
Definition ACCESS_ACTIONS (a : AccessAction) : Action :=
  match a with
  | READ | CITATION | OPEN_SOURCE => VIEW
  | EXPORT | DELIVERY => DELIVER
  | KNOWLEDGE_REGISTRATION => KNOWLEDGE_REGISTER
  | RERUN => GENERATE
  end.

(** The order in which Python iterates over a set, which is its own. *)
Class SetOrder := {
  set_iter : ∀ {A : Type}, list A → list A;
  set_iter_perm : ∀ A (l : list A), set_iter l ≡ₚ l
}.

(** ** Values *)

(** [identity.IdentityPrincipal] *)
Record IdentityPrincipal := mkPrincipal {
  user_id : string;
  session_id : string;
  device_id : string;
  tenant_id : string
}.

Record EffectivePermission := mkEffective {
  ep_permission : Permission;
  ep_requested : bool;
  ep_effective : bool;
  ep_locked_by : option string;
  ep_reason : string;
  ep_policy_version : string
}.

Record AuthorizationGrant := mkGrant {
  gr_allowed : bool;
  gr_actor_id : string;
  gr_tenant_id : string;
  gr_workspace_id : string;
  gr_role : Role;
  gr_role_scope : RoleScope;
  gr_action : Action;
  gr_effective_permissions : list EffectivePermission;
  gr_required_step_up_action : option string;
  gr_membership_version : Z;
  gr_acl_version : Z;
  gr_policy_version : string
}.

Record EvidenceDependency := mkDependency {
  de_reference_id : string;
  de_source_version_id : string;
  de_segment_ids : list string;
  de_decisive : bool;
  de_safe_separation : bool
}.

Record HistoricalResultDescriptor := mkDescriptor {
  hd_result_id : string;
  hd_result_kind : string;
  hd_tenant_id : string;
  hd_workspace_id : string;
  hd_source_version_ids : list string;
  hd_evidence_reference_ids : list string;
  hd_dependencies : list EvidenceDependency;
  hd_original_policy_version : string;
  hd_original_membership_version : Z
}.

Record AccessDecision := mkDecision {
  ad_decision_id : string;
  ad_actor_id : string;
  ad_action : AccessAction;
  ad_resource_id : string;
  ad_tenant_id : string;
  ad_workspace_id : string;
  ad_role_scope : option RoleScope;
  ad_membership_version : Z;
  ad_acl_version : Z;
  ad_policy_version : string;
  ad_evaluated_at : Z;
  ad_state : AccessState;
  ad_reason_codes : list string;
  ad_allowed_reference_ids : list string;
  ad_masked_reference_ids : list string;
  ad_allowed_segment_ids : list string;
  ad_masked_segment_ids : list string
}.

Record RerunSnapshot := mkSnapshot {
  rs_tenant_id : string;
  rs_workspace_id : string;
  rs_actor_id : string;
  rs_role_scope : RoleScope;
  rs_membership_version : Z;
  rs_acl_version : Z;
  rs_policy_version : string;
  rs_data_area : string;
  rs_cost_limit_cents : Z;
  rs_source_version_ids : list string
}.

Record RerunAuthorization := mkRerun {
  ra_run_request_id : string;
  ra_access_decision_id : string;
  ra_snapshot : RerunSnapshot
}.

Record RoleBinding := mkBinding {
  rb_role : Role;
  rb_scope : RoleScope;
  rb_version : Z
}.

(** ** Tables *)

(** [auth_workspaces], by workspace_id *)
Record WorkspaceRow := mkWorkspace {
  wk_tenant_id : string;
  wk_workspace_kind : string;
  wk_data_area : string;
  wk_cost_limit_cents : Z;
  wk_acl_version : Z;
  wk_version : Z;
  wk_updated_at : Z
}.

(** [auth_tenant_roles], by (tenant_id, user_id), and [auth_memberships], by
    (tenant_id, workspace_id, user_id) *)
Record RoleRow := mkRoleRow {
  rr_role : Role;
  rr_state : string;
  rr_version : Z;
  rr_updated_at : Z
}.

(** [auth_tenant_policies], by tenant_id, and [auth_workspace_policies], by
    (tenant_id, workspace_id) *)
Record PolicyRow := mkPolicyRow { po_version : Z; po_updated_at : Z }.

(** [auth_tenant_permission_rules], by (tenant_id, permission), and
    [auth_workspace_permission_rules], by (tenant_id, workspace_id, permission) *)
Record RuleRow := mkRuleRow { ru_effect : PolicyEffect; ru_locked : bool }.

(** [auth_source_access], by (tenant_id, workspace_id, user_id, source_version_id) *)
Record SourceAccessRow := mkSourceAccess {
  sa_allowed : bool;
  sa_version : Z;
  sa_updated_at : Z
}.

(** [auth_historical_results], by result_id *)
Record HistoricalRow := mkHistorical {
  hr_result_kind : string;
  hr_tenant_id : string;
  hr_workspace_id : string;
  hr_source_version_ids : list string;
  hr_evidence_reference_ids : list string;
  hr_original_policy_version : string;
  hr_original_membership_version : Z;
  hr_created_at : Z
}.

(** [auth_result_dependencies], by (result_id, reference_id) *)
Record DependencyRow := mkDependencyRow {
  dp_source_version_id : string;
  dp_segment_ids : list string;
  dp_decisive : bool;
  dp_safe_separation : bool
}.

(** [auth_rerun_requests], by run_request_id *)
Record RerunRow := mkRerunRow {
  rq_result_id : string;
  rq_access_decision_id : string;
  rq_tenant_id : string;
  rq_workspace_id : string;
  rq_actor_id : string;
  rq_snapshot : string;
  rq_created_at : Z
}.

Record Db := mkDb {
  workspaces : gmap string WorkspaceRow;
  tenant_roles : gmap (string * string) RoleRow;
  memberships : gmap (string * string * string) RoleRow;
  tenant_policies : gmap string PolicyRow;
  tenant_rules : gmap (string * string) RuleRow;
  workspace_policies : gmap (string * string) PolicyRow;
  workspace_rules : gmap (string * string * string) RuleRow;
  source_access : gmap (string * string * string * string) SourceAccessRow;
  historical_results : gmap string HistoricalRow;
  result_dependencies : gmap (string * string) DependencyRow;
  access_decisions : gmap string AccessDecision;
  rerun_requests : gmap string RerunRow;
  (** the states of the organization's own memberships, if that table is there *)
  tenant_memberships : option (gmap (string * string) string)
}.

Definition empty_db : Db := mkDb ∅ ∅ ∅ ∅ ∅ ∅ ∅ ∅ ∅ ∅ ∅ ∅ None.

Definition set_workspaces (v : gmap string WorkspaceRow) (r : Db) : Db :=
  mkDb v (tenant_roles r) (memberships r) (tenant_policies r) (tenant_rules r) (workspace_policies r) (workspace_rules r) (source_access r) (historical_results r) (result_dependencies r) (access_decisions r) (rerun_requests r) (tenant_memberships r).
Definition set_tenant_roles (v : gmap (string * string) RoleRow) (r : Db) : Db :=
  mkDb (workspaces r) v (memberships r) (tenant_policies r) (tenant_rules r) (workspace_policies r) (workspace_rules r) (source_access r) (historical_results r) (result_dependencies r) (access_decisions r) (rerun_requests r) (tenant_memberships r).
Definition set_memberships (v : gmap (string * string * string) RoleRow) (r : Db) : Db :=
  mkDb (workspaces r) (tenant_roles r) v (tenant_policies r) (tenant_rules r) (workspace_policies r) (workspace_rules r) (source_access r) (historical_results r) (result_dependencies r) (access_decisions r) (rerun_requests r) (tenant_memberships r).
Definition set_tenant_policies (v : gmap string PolicyRow) (r : Db) : Db :=
  mkDb (workspaces r) (tenant_roles r) (memberships r) v (tenant_rules r) (workspace_policies r) (workspace_rules r) (source_access r) (historical_results r) (result_dependencies r) (access_decisions r) (rerun_requests r) (tenant_memberships r).
Definition set_tenant_rules (v : gmap (string * string) RuleRow) (r : Db) : Db :=
  mkDb (workspaces r) (tenant_roles r) (memberships r) (tenant_policies r) v (workspace_policies r) (workspace_rules r) (source_access r) (historical_results r) (result_dependencies r) (access_decisions r) (rerun_requests r) (tenant_memberships r).
Definition set_workspace_policies (v : gmap (string * string) PolicyRow) (r : Db) : Db :=
  mkDb (workspaces r) (tenant_roles r) (memberships r) (tenant_policies r) (tenant_rules r) v (workspace_rules r) (source_access r) (historical_results r) (result_dependencies r) (access_decisions r) (rerun_requests r) (tenant_memberships r).
Definition set_workspace_rules (v : gmap (string * string * string) RuleRow) (r : Db) : Db :=
  mkDb (workspaces r) (tenant_roles r) (memberships r) (tenant_policies r) (tenant_rules r) (workspace_policies r) v (source_access r) (historical_results r) (result_dependencies r) (access_decisions r) (rerun_requests r) (tenant_memberships r).
Definition set_source_access_table (v : gmap (string * string * string * string) SourceAccessRow) (r : Db) : Db :=
  mkDb (workspaces r) (tenant_roles r) (memberships r) (tenant_policies r) (tenant_rules r) (workspace_policies r) (workspace_rules r) v (historical_results r) (result_dependencies r) (access_decisions r) (rerun_requests r) (tenant_memberships r).
Definition set_historical_results (v : gmap string HistoricalRow) (r : Db) : Db :=
  mkDb (workspaces r) (tenant_roles r) (memberships r) (tenant_policies r) (tenant_rules r) (workspace_policies r) (workspace_rules r) (source_access r) v (result_dependencies r) (access_decisions r) (rerun_requests r) (tenant_memberships r).
Definition set_result_dependencies (v : gmap (string * string) DependencyRow) (r : Db) : Db :=
  mkDb (workspaces r) (tenant_roles r) (memberships r) (tenant_policies r) (tenant_rules r) (workspace_policies r) (workspace_rules r) (source_access r) (historical_results r) v (access_decisions r) (rerun_requests r) (tenant_memberships r).
Definition set_access_decisions (v : gmap string AccessDecision) (r : Db) : Db :=
  mkDb (workspaces r) (tenant_roles r) (memberships r) (tenant_policies r) (tenant_rules r) (workspace_policies r) (workspace_rules r) (source_access r) (historical_results r) (result_dependencies r) v (rerun_requests r) (tenant_memberships r).
Definition set_rerun_requests (v : gmap string RerunRow) (r : Db) : Db :=
  mkDb (workspaces r) (tenant_roles r) (memberships r) (tenant_policies r) (tenant_rules r) (workspace_policies r) (workspace_rules r) (source_access r) (historical_results r) (result_dependencies r) (access_decisions r) v (tenant_memberships r).
Definition set_tenant_memberships (v : option (gmap (string * string) string)) (r : Db) : Db :=
  mkDb (workspaces r) (tenant_roles r) (memberships r) (tenant_policies r) (tenant_rules r) (workspace_policies r) (workspace_rules r) (source_access r) (historical_results r) (result_dependencies r) (access_decisions r) (rerun_requests r) v.

(** ** Interfaces *)

(** What the service relies on of an audit store: an accepted draft becomes
    the last event, a refused one leaves the events as they are. *)
Class AuditStore (A : Type) := {
  audit_append : AuditEventDraft → M A AuditEvent;
  audit_events : A → list AuditEvent;
  audit_append_law d a :
    wp (audit_append d) (λ o a', match o with
      | Ret e => d = draft_of e ∧ audit_events a' = audit_events a ++ [e]
      | Raise _ => audit_events a' = audit_events a
      end) a
}.

(** [identity_service]: it names the caller behind an access token, and spends
    a step-up authorization or refuses. *)
Class IdentityBoundary (I : Type) := {
  validate_access : string → string → string → M I IdentityPrincipal;
  consume_step_up : option string → string → string → string → string → string → M I unit
}.

Record State (A I : Type) := mkState {
  db : Db;
  closed : bool;
  audit_store : A;
  identity : option I;
  au_draws : Draws
}.
Arguments mkState {A I}.
Arguments db {A I}.
Arguments closed {A I}.
Arguments audit_store {A I}.
Arguments identity {A I}.
Arguments au_draws {A I}.

Definition set_db {A I} (v : Db) (s : State A I) : State A I :=
  mkState v (closed s) (audit_store s) (identity s) (au_draws s).
Definition set_audit_store {A I} (v : A) (s : State A I) : State A I :=
  mkState (db s) (closed s) v (identity s) (au_draws s).
Definition set_identity {A I} (v : option I) (s : State A I) : State A I :=
  mkState (db s) (closed s) (audit_store s) v (au_draws s).

#[export] Instance state_drawing {A I} : Drawing (State A I) := {|
  draws_of := au_draws;
  with_draws v s := mkState (db s) (closed s) (audit_store s) (identity s) v
|}.

(** ** Queries *)

Definition find_workspace (d : Db) (tenant workspace : string) : option WorkspaceRow :=
  w ← workspaces d !! workspace;
  if String.eqb (wk_tenant_id w) tenant then Some w else None.

Definition active (r : RoleRow) : bool := String.eqb (rr_state r) "active".

(** [_membership] *)
Definition active_membership (d : Db) (p : IdentityPrincipal) (workspace : string) : option RoleRow :=
  r ← memberships d !! (tenant_id p, workspace, user_id p);
  if active r then Some r else None.

(** [_tenant_role] *)
Definition active_tenant_role (d : Db) (p : IdentityPrincipal) : option RoleRow :=
  r ← tenant_roles d !! (tenant_id p, user_id p);
  if active r then Some r else None.

(** The kind of workspace a tenant role is for. *)
Definition role_kind (r : Role) : option string :=
  match r with
  | PERSONAL_OWNER => Some "personal"
  | ORGANIZATION_ADMIN => Some "organization"
  | _ => None
  end.

(** [_role_binding] *)
Definition role_binding (d : Db) (p : IdentityPrincipal) (workspace : string) (w : WorkspaceRow)
    : option RoleBinding :=
  match active_tenant_role d p with
  | Some r =>
      if bool_decide (role_kind (rr_role r) = Some (wk_workspace_kind w))
      then Some (mkBinding (rr_role r) TENANT (rr_version r)) else None
  | None =>
      m ← active_membership d p workspace;
      if bool_decide (rr_role m ∈ WORKSPACE_ROLES)
      then Some (mkBinding (rr_role m) WORKSPACE (rr_version m)) else None
  end.

(** [_policy_versions] *)
Definition policy_versions (d : Db) (tenant workspace : string) : Z * Z * string :=
  let t := default 0 (po_version <$> tenant_policies d !! tenant) in
  let w := default 0 (po_version <$> workspace_policies d !! (tenant, workspace)) in
  (t, w, "tenant-" +:+ str_int t +:+ ":workspace-" +:+ str_int w).

Definition policy_version (d : Db) (tenant workspace : string) : string :=
  (policy_versions d tenant workspace).2.

Definition is_grant (e : PolicyEffect) : bool := bool_decide (e = GRANT).

(** [_effective_permission] *)
Definition effective_permission (d : Db) (role : Role) (tenant workspace : string)
    (permission : Permission) (requested : bool) : EffectivePermission :=
  let version := policy_version d tenant workspace in
  if negb requested then mkEffective permission false false None "NOT_REQUESTED" version
  else
    let tenant_rule := tenant_rules d !! (tenant, permission_value permission) in
    let workspace_rule := workspace_rules d !! (tenant, workspace, permission_value permission) in
    let below :=
      match workspace_rule with
      | Some r =>
          let effective := is_grant (ru_effect r) in
          mkEffective permission true effective (if ru_locked r then Some "workspace-policy" else None)
            (if effective then "WORKSPACE_GRANT" else "WORKSPACE_DENY") version
      | None =>
          match tenant_rule with
          | Some _ => mkEffective permission true true None "ORGANIZATION_GRANT" version
          | None =>
              let effective := bool_decide (permission ∈ ROLE_PERMISSION_DEFAULTS role) in
              mkEffective permission true effective None
                (if effective then "ROLE_DEFAULT_GRANT" else "ROLE_DEFAULT_DENY") version
          end
      end in
    match tenant_rule with
    | Some r =>
        if ru_locked r || bool_decide (ru_effect r = DENY) then
          mkEffective permission true (is_grant (ru_effect r)) (Some "tenant-policy")
            (if ru_locked r then "ORGANIZATION_LOCK" else "ORGANIZATION_DENY") version
        else below
    | None => below
    end.

(** [_required_step_up] *)
Definition step_up_groups : list (Permission * string) :=
  [(DATA_AREA_MOVE, "data_area_move");
   (PRODUCTION_KNOWLEDGE_REGISTRATION, "final_approval_or_knowledge_registration");
   (FINAL_APPROVAL_EXTERNAL_DELIVERY, "final_approval_or_knowledge_registration");
   (FILE_DOWNLOAD_SHARE, "external_share_or_download");
   (EXTERNAL_LLM, "external_transfer")].

Definition required_step_up (action : Action) (permissions : list Permission) : option string :=
  if bool_decide (action = POLICY_MANAGE) then Some "organization_security_or_connector_policy_change"
  else snd <$> List.find (λ g, bool_decide (g.1 ∈ permissions)) step_up_groups.

(** [tuple(dict.fromkeys(l))] *)
Definition distinct (l : list Permission) : list Permission :=
  fold_left (λ acc x, if decide (x ∈ acc) then acc else acc ++ [x]) l [].

Section Grant.
Context {O : SetOrder}.

(** The permissions an action needs: its own and the requested ones. *)
Definition needed_permissions (action : Action) (requested : list Permission) : list Permission :=
  distinct (set_iter (ACTION_PERMISSIONS action) ++ requested).

(** [_action_grant] *)
Definition action_grant (d : Db) (p : IdentityPrincipal) (workspace : string) (w : WorkspaceRow)
    (binding : option RoleBinding) (action : Action) (requested : list Permission)
    : option AuthorizationGrant :=
  b ← binding;
  if bool_decide (action ∈ ROLE_ACTION_MATRIX (rb_role b)) then
    let permissions := needed_permissions action requested in
    let effective := map (λ q, effective_permission d (rb_role b) (tenant_id p) workspace q true)
      permissions in
    if existsb (λ e, negb (ep_effective e)) effective then None
    else Some (mkGrant true (user_id p) (tenant_id p) workspace (rb_role b) (rb_scope b) action
      effective (required_step_up action permissions) (rb_version b) (wk_acl_version w)
      (policy_version d (tenant_id p) workspace))
  else None.
End Grant.

(** [_read_descriptor]: the rows of a result's dependencies, in order *)
Definition dependencies_of (d : Db) (result_id : string) : list EvidenceDependency :=
  sort_stable (λ a b, string_leb (de_reference_id a) (de_reference_id b))
    (omap (λ kv, if String.eqb kv.1.1 result_id
                 then Some (mkDependency kv.1.2 (dp_source_version_id kv.2) (dp_segment_ids kv.2)
                        (dp_decisive kv.2) (dp_safe_separation kv.2))
                 else None) (map_to_list (result_dependencies d))).

Definition read_descriptor (d : Db) (tenant workspace result_id : string)
    : option HistoricalResultDescriptor :=
  r ← historical_results d !! result_id;
  if String.eqb (hr_tenant_id r) tenant && String.eqb (hr_workspace_id r) workspace then
    Some (mkDescriptor result_id (hr_result_kind r) (hr_tenant_id r) (hr_workspace_id r)
      (hr_source_version_ids r) (hr_evidence_reference_ids r) (dependencies_of d result_id)
      (hr_original_policy_version r) (hr_original_membership_version r))
  else None.

(** [_validate_descriptor]; every refusal is [INVALID_INPUT]. *)
Definition dependency_valid (sources references : list string) (e : EvidenceDependency) : bool :=
  safe_id (de_reference_id e) && safe_id (de_source_version_id e) &&
  bool_decide (de_reference_id e ∈ references) && bool_decide (de_source_version_id e ∈ sources) &&
  bool_decide (de_segment_ids e ≠ []) && forallb safe_id (de_segment_ids e).

Definition descriptor_valid (h : HistoricalResultDescriptor) : bool :=
  safe_id (hd_result_id h) && safe_id (hd_result_kind h) && safe_id (hd_tenant_id h) &&
  safe_id (hd_workspace_id h) && safe_id (hd_original_policy_version h) &&
  forallb safe_id (hd_source_version_ids h) && forallb safe_id (hd_evidence_reference_ids h) &&
  (1 <=? hd_original_membership_version h) &&
  bool_decide (NoDup (hd_source_version_ids h)) && bool_decide (NoDup (hd_evidence_reference_ids h)) &&
  forallb (dependency_valid (hd_source_version_ids h) (hd_evidence_reference_ids h)) (hd_dependencies h) &&
  bool_decide (NoDup (map de_reference_id (hd_dependencies h))).

(** ** The repository *)

Section Repository.
Context {A I : Type}.
Abbreviation St := (M (State A I)).

Definition INVALID_INPUT : exn := AuthorizationError "INVALID_INPUT" 400.
Definition PERSISTENCE_CONFLICT : exn := AuthorizationError "PERSISTENCE_CONFLICT" 409.

Definition query {B} (f : Db → B) : St B := gets (λ s, f (db s)).
Definition update (f : Db → Db) : St unit := modify (λ s, set_db (f (db s)) s).

(** [_checked_id] *)
Definition checked_id (value : string) : St string :=
  guard (safe_id value) INVALID_INPUT ;;
  ret value.

(** [with self._repository.transaction() as connection: m] *)
Definition db_transaction {B} (m : St B) : St B := λ s,
  if closed s then (s, Raise (AuthorizationError "PERSISTENCE_UNAVAILABLE" 503))
  else match m s with
       | (s', Ret b) => (s', Ret b)
       | (s', Raise e) => (set_db (db s) s', Raise e)
       end.

(** An [INSERT] under a primary key: [IntegrityError], as [transaction] reports it *)
Definition insert_row `{Countable K} {V} (table : Db → gmap K V) (set : gmap K V → Db → Db)
    (k : K) (v : V) : St unit :=
  present <- query (λ d, bool_decide (is_Some (table d !! k))) ;;
  guard (negb present) PERSISTENCE_CONFLICT ;;
  update (λ d, set (<[k := v]> (table d)) d).

(** A row [INSERT OR IGNORE]d *)
Definition insert_or_ignore `{Countable K} {V} (k : K) (v : V) (m : gmap K V) : gmap K V :=
  match m !! k with Some _ => m | None => <[k := v]> m end.

Definition close : St unit := modify (λ s, mkState (db s) true (audit_store s) (identity s) (au_draws s)).

(** The workspace is already there as the caller describes it. *)
Definition same_bootstrap (w : WorkspaceRow) (role : option RoleRow) (tenant kind area : string)
    (owner_role : Role) : bool :=
  String.eqb (wk_tenant_id w) tenant && String.eqb (wk_workspace_kind w) kind &&
  String.eqb (wk_data_area w) area &&
  match role with Some r => bool_decide (rr_role r = owner_role) && active r | None => false end.

Definition bootstrap_workspace (tenant workspace owner : string) (owner_role : Role)
    (kind area : string) (cost_limit_cents now : Z) : St unit :=
  tenant <- checked_id tenant ;;
  workspace <- checked_id workspace ;;
  owner <- checked_id owner ;;
  kind <- checked_id kind ;;
  area <- checked_id area ;;
  guard (0 <=? cost_limit_cents) INVALID_INPUT ;;
  guard (bool_decide (role_kind owner_role = Some kind)) (AuthorizationError "INVALID_ROLE_SCOPE" 400) ;;
  db_transaction (
    existing <- query (λ d, workspaces d !! workspace) ;;
    role <- query (λ d, tenant_roles d !! (tenant, owner)) ;;
    match existing with
    | Some w =>
        guard (same_bootstrap w role tenant kind area owner_role) PERSISTENCE_CONFLICT
    | None =>
        others <- query (λ d, map snd (map_to_list (workspaces d))) ;;
        guard (forallb (λ w, negb (String.eqb (wk_tenant_id w) tenant) ||
          String.eqb (wk_workspace_kind w) kind) others) (AuthorizationError "INVALID_ROLE_SCOPE" 400) ;;
        guard (match role with
               | Some r => bool_decide (rr_role r = owner_role) && active r
               | None => true
               end) (AuthorizationError "INVALID_ROLE_SCOPE" 400) ;;
        guard (cost_limit_cents <? 2 ^ 63) (PyError "OverflowError") ;;
        insert_row workspaces set_workspaces workspace
          (mkWorkspace tenant kind area cost_limit_cents 1 1 now) ;;
        update (λ d, set_tenant_roles (insert_or_ignore (tenant, owner)
          (mkRoleRow owner_role "active" 1 now) (tenant_roles d)) d) ;;
        update (λ d, set_tenant_policies (insert_or_ignore tenant (mkPolicyRow 1 now)
          (tenant_policies d)) d) ;;
        insert_row workspace_policies set_workspace_policies (tenant, workspace) (mkPolicyRow 1 now)
    end).

(** [ORDER BY CASE workspace_kind WHEN 'personal' THEN 0 ELSE 1 END, workspace_id] *)
Definition primary_leb (a b : string * WorkspaceRow) : bool :=
  let rank (x : string * WorkspaceRow) := if String.eqb (wk_workspace_kind x.2) "personal" then 0 else 1 in
  (rank a <? rank b) || ((rank a =? rank b) && string_leb a.1 b.1).

Definition workspaces_of (d : Db) (tenant : string) : list (string * WorkspaceRow) :=
  filter (λ kv, wk_tenant_id kv.2 = tenant) (map_to_list (workspaces d)).

Definition primary_workspace_id (tenant : string) : St (option string) :=
  tenant <- checked_id tenant ;;
  db_transaction (
    rows <- query (λ d, sort_stable primary_leb (workspaces_of d tenant)) ;;
    ret (fst <$> head rows)).

Definition membership_version (tenant workspace user : string) : St (option Z) :=
  db_transaction (
    tenant <- checked_id tenant ;;
    workspace <- checked_id workspace ;;
    user <- checked_id user ;;
    query (λ d, rr_version <$> memberships d !! (tenant, workspace, user))).

Definition tenant_role_version (tenant user : string) : St (option Z) :=
  db_transaction (
    tenant <- checked_id tenant ;;
    user <- checked_id user ;;
    query (λ d, rr_version <$> tenant_roles d !! (tenant, user))).

(** [_insert_descriptor]: foreign keys are checked with the rows, after the
    version has been bound as a 64-bit integer. *)
Definition insert_descriptor (h : HistoricalResultDescriptor) (now : Z) : St unit :=
  guard (descriptor_valid h) INVALID_INPUT ;;
  guard (hd_original_membership_version h <? 2 ^ 63) (PyError "OverflowError") ;;
  known <- query (λ d, bool_decide (is_Some (find_workspace d (hd_tenant_id h) (hd_workspace_id h)))) ;;
  guard known PERSISTENCE_CONFLICT ;;
  insert_row historical_results set_historical_results (hd_result_id h)
    (mkHistorical (hd_result_kind h) (hd_tenant_id h) (hd_workspace_id h) (hd_source_version_ids h)
      (hd_evidence_reference_ids h) (hd_original_policy_version h)
      (hd_original_membership_version h) now) ;;
  mfor (hd_dependencies h) (λ e,
    insert_row result_dependencies set_result_dependencies (hd_result_id h, de_reference_id e)
      (mkDependencyRow (de_source_version_id e) (de_segment_ids e) (de_decisive e)
        (de_safe_separation e))).

Definition insert_historical_result (h : HistoricalResultDescriptor) (now : Z) : St unit :=
  db_transaction (insert_descriptor h now).

Definition read_historical_result (tenant workspace result_id : string)
    : St (option HistoricalResultDescriptor) :=
  db_transaction (
    tenant <- checked_id tenant ;;
    workspace <- checked_id workspace ;;
    result_id <- checked_id result_id ;;
    query (λ d, read_descriptor d tenant workspace result_id)).

Definition access_decision_count : St Z :=
  db_transaction (query (λ d, Z.of_nat (size (access_decisions d)))).
End Repository.

(** ** AuthorizationService *)

Section Service.
Context {W : World} {O : SetOrder} {A I : Type} {AS : AuditStore A} {IB : IdentityBoundary I}.
Abbreviation St := (M (State A I)).

(** [self._audit_store.append(draft)], any failure of which is reported as one *)
Definition record_event (draft : AuditEventDraft) : St unit := λ s,
  match audit_append draft (audit_store s) with
  | (a, Ret _) => (set_audit_store a s, Ret tt)
  | (a, Raise _) => (set_audit_store a s, Raise (AuthorizationError "AUDIT_WRITE_FAILED" 503))
  end.

(** [_audit] *)
Definition audit (p : IdentityPrincipal) (trace policy : string) (workspace : option string)
    (action : string) (outcome : AuditOutcome) (target_type target : string)
    (before after metadata : json) : St unit :=
  event_id <- new_id "audit" ;;
  now <- clock ;;
  actor <- checked_id (user_id p) ;;
  tenant <- checked_id (tenant_id p) ;;
  workspace <- match workspace with
               | None => ret None
               | Some w => w <- checked_id w ;; ret (Some w)
               end ;;
  action <- checked_id action ;;
  target_type <- checked_id target_type ;;
  target <- checked_id target ;;
  trace <- checked_id trace ;;
  policy <- checked_id policy ;;
  record_event (mkDraft (PyStr event_id) (Datetime now (Some 0)) (PyStr actor) (Some USER)
    (PyStr tenant) (opt_obj workspace) (PyStr action) (PyStr target_type) (PyStr target)
    (Some outcome) (PyStr trace) (PyStr policy) before after metadata).

(** A denial: the event, then the exception *)
Definition deny_unless (b : bool) (event : St unit) (e : exn) : St unit :=
  if b then ret tt else event ;; raise e.

Definition reason (code : string) : json := JObj [("reason_code", JStr code)].

(** [OrganizationAccessBridge.assert_organization_active], called for the
    organization's workspaces only ([_assert_organization_active]) *)
Definition organization_id (s : string) : bool :=
  negb (String.eqb s "") && String.eqb s (strip s) && Nat.leb (String.length s) 160.

Definition assert_organization_active (p : IdentityPrincipal) (w : option WorkspaceRow) : St unit :=
  if match w with Some w => negb (String.eqb (wk_workspace_kind w) "organization") | None => false end
  then ret tt
  else
    guard (organization_id (tenant_id p)) (AuthorizationError "INVALID_ID" 400) ;;
    guard (organization_id (user_id p)) (AuthorizationError "INVALID_ID" 400) ;;
    state <- query (λ d, m ← tenant_memberships d; m !! (tenant_id p, user_id p)) ;;
    guard (match state with Some st => String.eqb st "active" | None => true end)
      (AuthorizationError "ORGANIZATION_MEMBERSHIP_SUSPENDED" 403).

(** [_workspace] *)
Definition workspace_for (p : IdentityPrincipal) (workspace trace policy : string) : St WorkspaceRow :=
  tenant <- checked_id (tenant_id p) ;;
  workspace <- checked_id workspace ;;
  row <- query (λ d, find_workspace d tenant workspace) ;;
  match row with
  | None =>
      audit p trace policy None "authorization.resource.denied" DENIED "resource"
        "unavailable-resource" JNull JNull (reason "RESOURCE_UNAVAILABLE") ;;
      raise (AuthorizationError "RESOURCE_UNAVAILABLE" 404)
  | Some w =>
      assert_organization_active p (Some w) ;;
      ret w
  end.

Definition evaluate_permission (p : IdentityPrincipal) (workspace : string) (permission : Permission)
    (requested : bool) : St EffectivePermission :=
  db_transaction (
    workspace <- checked_id workspace ;;
    row <- query (λ d, find_workspace d (tenant_id p) workspace) ;;
    w <- from_option row (AuthorizationError "RESOURCE_UNAVAILABLE" 404) ;;
    binding <- query (λ d, role_binding d p workspace w) ;;
    assert_organization_active p (Some w) ;;
    b <- from_option binding (AuthorizationError "ACTION_DENIED" 403) ;;
    query (λ d, effective_permission d (rb_role b) (tenant_id p) workspace permission requested)).

Definition authorize_action (p : IdentityPrincipal) (workspace : string) (action : Action)
    (trace policy : string) (requested : list Permission) : St AuthorizationGrant :=
  db_transaction (
    w <- workspace_for p workspace trace policy ;;
    grant <- query (λ d, action_grant d p workspace w (role_binding d p workspace w) action requested) ;;
    match grant with
    | None =>
        audit p trace policy (Some workspace) "authorization.action.denied" DENIED "workspace_action"
          workspace JNull JNull
          (JObj [("reason_code", JStr "ACTION_DENIED"); ("requested_action", JStr (action_value action))]) ;;
        raise (AuthorizationError "ACTION_DENIED" 403)
    | Some g =>
        audit p trace policy (Some workspace) "authorization.action.allowed" SUCCEEDED
          "workspace_action" workspace JNull JNull
          (JObj [("requested_action", JStr (action_value action));
                 ("role", JStr (role_value (gr_role g)));
                 ("role_scope", JStr (scope_value (gr_role_scope g)))]) ;;
        ret g
    end).

Definition authorize_audit_read (p : IdentityPrincipal) (workspace : option string)
    (trace policy : string) : St unit :=
  match workspace with
  | Some w => authorize_action p w VIEW trace policy [] ;; ret tt
  | None =>
      db_transaction (
        role <- query (λ d, rr_role <$> active_tenant_role d p) ;;
        when (bool_decide (role = Some ORGANIZATION_ADMIN)) (assert_organization_active p None) ;;
        let allowed := match role with Some r => bool_decide (r ∈ TENANT_ROLES) | None => false end in
        audit p trace policy None
          (if allowed then "authorization.audit_read.allowed" else "authorization.audit_read.denied")
          (if allowed then SUCCEEDED else DENIED) "audit_scope" "tenant-audit" JNull JNull
          (JObj [("scope", JStr "tenant");
                 ("reason_code", JStr (if allowed then "TENANT_ROLE_ALLOWED" else "ACTION_DENIED"))]) ;;
        guard allowed (AuthorizationError "ACTION_DENIED" 403))
  end.

Definition organization_admin_workspace (p : IdentityPrincipal) (trace policy : string) : St string :=
  db_transaction (
    role <- query (λ d, rr_role <$> active_tenant_role d p) ;;
    rows <- query (λ d, match role ≫= role_kind with
                        | None => []
                        | Some kind => take 2 (sorted_strings (map fst
                            (filter (λ kv, wk_workspace_kind kv.2 = kind) (workspaces_of d (tenant_id p)))))
                        end) ;;
    let allowed := Nat.eqb (length rows) 1 in
    audit p trace policy None
      (if allowed then "authorization.organization_policy.allowed"
       else "authorization.organization_policy.denied")
      (if allowed then SUCCEEDED else DENIED) "organization_policy" (tenant_id p) JNull JNull
      (JObj [("reason_code", JStr (match role with
                                   | Some r => if allowed then role_upper r else "ACTION_DENIED"
                                   | None => "ACTION_DENIED"
                                   end));
             ("role", JStr (match role with Some r => role_value r | None => "none" end));
             ("candidate_count", JInt (Z.of_nat (length rows)))]) ;;
    guard allowed (AuthorizationError "ACTION_DENIED" 403) ;;
    from_option (head rows) (PyError "IndexError")).

(** ** Changes *)

(** The roles a role may assign, in [set_membership] *)
Definition assignable (actor : Role) : list Role :=
  match actor with
  | PERSONAL_OWNER | ORGANIZATION_ADMIN => WORKSPACE_ROLES
  | WORKSPACE_ADMIN => [EDITOR; REVIEWER; APPROVER; VIEWER]
  | _ => []
  end.

Definition ADMIN_ROLES : list Role := [PERSONAL_OWNER; ORGANIZATION_ADMIN; WORKSPACE_ADMIN].

Definition role_json (r : RoleRow) : json :=
  JObj [("role", JStr (role_value (rr_role r))); ("state", JStr (rr_state r));
        ("version", JInt (rr_version r))].

(** [UPDATE auth_workspaces SET acl_version=acl_version+1,updated_at=?] *)
Definition bump_acl (tenant workspace : string) (now : Z) (d : Db) : Db :=
  match find_workspace d tenant workspace with
  | Some w => set_workspaces (<[workspace := mkWorkspace (wk_tenant_id w) (wk_workspace_kind w)
      (wk_data_area w) (wk_cost_limit_cents w) (wk_acl_version w + 1) (wk_version w) now]>
      (workspaces d)) d
  | None => d
  end.

Definition set_membership (p : IdentityPrincipal) (workspace user : string) (role : Role)
    (expected_version : Z) (trace policy : string) : St Z :=
  let denied code := audit p trace policy (Some workspace) "authorization.membership.change_denied"
    DENIED "membership" "protected-membership" JNull JNull (reason code) in
  guard (0 <=? expected_version) INVALID_INPUT ;;
  user <- checked_id user ;;
  now <- clock ;;
  db_transaction (
    w <- workspace_for p workspace trace policy ;;
    deny_unless (bool_decide (role ∈ WORKSPACE_ROLES)) (denied "INVALID_ROLE_SCOPE")
      (AuthorizationError "INVALID_ROLE_SCOPE" 400) ;;
    binding <- query (λ d, role_binding d p workspace w) ;;
    deny_unless (match binding with
                 | Some b => bool_decide (role ∈ assignable (rb_role b))
                 | None => false
                 end) (denied "PRIVILEGE_ESCALATION_DENIED")
      (AuthorizationError "PRIVILEGE_ESCALATION_DENIED" 403) ;;
    current <- query (λ d, memberships d !! (tenant_id p, workspace, user)) ;;
    let current_version := default 0 (rr_version <$> current) in
    deny_unless (current_version =? expected_version) (denied "VERSION_CONFLICT")
      (AuthorizationError "VERSION_CONFLICT" 412) ;;
    let row := mkRoleRow role "active" (current_version + 1) now in
    update (λ d, set_memberships (<[(tenant_id p, workspace, user) := row]> (memberships d)) d) ;;
    update (bump_acl (tenant_id p) workspace now) ;;
    audit p trace policy (Some workspace) "authorization.membership.changed" SUCCEEDED "membership" user
      (match current with Some r => role_json r | None => JNull end) (role_json row) (JObj []) ;;
    ret (current_version + 1)).

(** The role of the tenant's kind of workspaces, if they are all of one kind *)
Definition expected_tenant_role (d : Db) (tenant : string) : option Role :=
  let kinds := map (λ kv, wk_workspace_kind kv.2) (workspaces_of d tenant) in
  if bool_decide (kinds = []) then None
  else if forallb (λ k, String.eqb k "personal") kinds then Some PERSONAL_OWNER
  else if forallb (λ k, String.eqb k "organization") kinds then Some ORGANIZATION_ADMIN
  else None.

Definition set_tenant_role (p : IdentityPrincipal) (user : string) (role : option Role)
    (expected_version : Z) (trace policy : string) : St Z :=
  let denied code := audit p trace policy None "authorization.tenant_role.change_denied" DENIED
    "tenant_role" "protected-tenant-role" JNull JNull (reason code) in
  guard (match role with Some r => bool_decide (r ∈ TENANT_ROLES) | None => true end)
    (AuthorizationError "INVALID_ROLE_SCOPE" 400) ;;
  guard (0 <=? expected_version) INVALID_INPUT ;;
  user <- checked_id user ;;
  now <- clock ;;
  db_transaction (
    actor <- query (λ d, active_tenant_role d p) ;;
    deny_unless (match actor with Some r => bool_decide (rr_role r ∈ TENANT_ROLES) | None => false end)
      (denied "PRIVILEGE_ESCALATION_DENIED") (AuthorizationError "PRIVILEGE_ESCALATION_DENIED" 403) ;;
    expected <- query (λ d, expected_tenant_role d (tenant_id p)) ;;
    guard (match expected with
           | Some e => match role with Some r => bool_decide (r = e) | None => true end
           | None => false
           end) (AuthorizationError "INVALID_ROLE_SCOPE" 400) ;;
    current <- query (λ d, tenant_roles d !! (tenant_id p, user)) ;;
    let current_version := default 0 (rr_version <$> current) in
    deny_unless (current_version =? expected_version) (denied "VERSION_CONFLICT")
      (AuthorizationError "VERSION_CONFLICT" 412) ;;
    next_role <- from_option (match role with Some r => Some r | None => rr_role <$> current end)
      (AuthorizationError "INVALID_ROLE_SCOPE" 400) ;;
    let row := mkRoleRow next_role (match role with Some _ => "active" | None => "revoked" end)
      (current_version + 1) now in
    update (λ d, set_tenant_roles (<[(tenant_id p, user) := row]> (tenant_roles d)) d) ;;
    audit p trace policy None "authorization.tenant_role.changed" SUCCEEDED "tenant_role" user
      (match current with Some r => role_json r | None => JNull end) (role_json row) (JObj []) ;;
    ret (current_version + 1)).

(** The binding is one of the administrators'. *)
Definition is_admin (b : option RoleBinding) : bool :=
  match b with Some b => bool_decide (rb_role b ∈ ADMIN_ROLES) | None => false end.

Definition set_source_access (p : IdentityPrincipal) (workspace user source_version : string)
    (allowed : bool) (expected_version : Z) (trace policy : string) : St Z :=
  user <- checked_id user ;;
  source_version <- checked_id source_version ;;
  guard (0 <=? expected_version) INVALID_INPUT ;;
  now <- clock ;;
  db_transaction (
    w <- workspace_for p workspace trace policy ;;
    binding <- query (λ d, role_binding d p workspace w) ;;
    guard (is_admin binding) (AuthorizationError "ACTION_DENIED" 403) ;;
    let key := (tenant_id p, workspace, user, source_version) in
    current <- query (λ d, source_access d !! key) ;;
    let current_version := default 0 (sa_version <$> current) in
    guard (current_version =? expected_version) (AuthorizationError "VERSION_CONFLICT" 412) ;;
    let row := mkSourceAccess allowed (current_version + 1) now in
    update (λ d, set_source_access_table (<[key := row]> (source_access d)) d) ;;
    update (bump_acl (tenant_id p) workspace now) ;;
    audit p trace policy (Some workspace) "authorization.source_access.changed" SUCCEEDED
      "source_access" source_version
      (match current with
       | Some r => JObj [("allowed", JBool (sa_allowed r)); ("version", JInt (sa_version r))]
       | None => JNull
       end)
      (JObj [("allowed", JBool allowed); ("version", JInt (current_version + 1))]) (JObj []) ;;
    ret (current_version + 1)).

(** The caller may change the policy of that scope. *)
Definition policy_change_allowed (scope : RoleScope) (b : option RoleBinding) : bool :=
  match scope with
  | TENANT => match b with Some b => bool_decide (rb_scope b = TENANT) | None => false end
  | WORKSPACE => is_admin b
  end.

Definition rule_json (permission : Permission) (r : RuleRow) (version : Z) : json :=
  JObj [("permission", JStr (permission_value permission)); ("effect", JStr (effect_value (ru_effect r)));
        ("locked", JBool (ru_locked r)); ("version", JInt version)].

(** A call of the identity service *)
Definition at_identity {B} (m : M I B) : St B := λ s,
  match identity s with
  | Some i => let '(i', o) := m i in (set_identity (Some i') s, o)
  | None => (s, Raise (AuthorizationError "IDENTITY_BOUNDARY_REQUIRED" 503))
  end.

(** The check of the caller's authority, made before the step-up is spent and
    again with the change *)
Definition policy_authority (p : IdentityPrincipal) (scope : RoleScope) (workspace trace policy : string)
    : St WorkspaceRow :=
  w <- workspace_for p workspace trace policy ;;
  allowed <- query (λ d, policy_change_allowed scope (role_binding d p workspace w)) ;;
  deny_unless allowed
    (audit p trace policy (Some workspace) "authorization.policy.change_denied" DENIED
      (scope_value scope +:+ "_policy") "protected-policy" JNull JNull
      (reason "PRIVILEGE_ESCALATION_DENIED"))
    (AuthorizationError "PRIVILEGE_ESCALATION_DENIED" 403) ;;
  ret w.

Definition policy_header (d : Db) (scope : RoleScope) (tenant workspace : string) : option PolicyRow :=
  match scope with
  | TENANT => tenant_policies d !! tenant
  | WORKSPACE => workspace_policies d !! (tenant, workspace)
  end.

Definition policy_rule (d : Db) (scope : RoleScope) (tenant workspace : string) (q : Permission)
    : option RuleRow :=
  match scope with
  | TENANT => tenant_rules d !! (tenant, permission_value q)
  | WORKSPACE => workspace_rules d !! (tenant, workspace, permission_value q)
  end.

(** The two statements that change a policy: its header's version, and the rule *)
Definition write_policy (scope : RoleScope) (tenant workspace : string) (q : Permission)
    (version : Z) (r : RuleRow) (now : Z) (d : Db) : Db :=
  match scope with
  | TENANT =>
      set_tenant_rules (<[(tenant, permission_value q) := r]> (tenant_rules d))
        (set_tenant_policies (alter (λ _, mkPolicyRow version now) tenant (tenant_policies d)) d)
  | WORKSPACE =>
      set_workspace_rules (<[(tenant, workspace, permission_value q) := r]> (workspace_rules d))
        (set_workspace_policies (alter (λ _, mkPolicyRow version now) (tenant, workspace)
          (workspace_policies d)) d)
  end.

Definition scope_of_arg (scope : string) : option RoleScope :=
  if String.eqb scope "tenant" then Some TENANT
  else if String.eqb scope "workspace" then Some WORKSPACE else None.

(** The second half of [set_permission_policy], once the step-up is spent *)
Definition policy_change (p : IdentityPrincipal) (scope : RoleScope) (scope_arg workspace : string)
    (permission : Permission) (effect : PolicyEffect) (locked : bool) (expected_version : Z)
    (target trace policy : string) : St Z :=
  now <- clock ;;
  db_transaction (
    policy_authority p scope workspace trace policy ;;
    header <- query (λ d, policy_header d scope (tenant_id p) workspace) ;;
    rule <- query (λ d, policy_rule d scope (tenant_id p) workspace permission) ;;
    let current_version := default 0 (po_version <$> header) in
    deny_unless (current_version =? expected_version)
      (audit p trace policy (Some workspace) "authorization.policy.change_denied" DENIED
        (scope_arg +:+ "_policy") "protected-policy" JNull JNull (reason "VERSION_CONFLICT"))
      (AuthorizationError "VERSION_CONFLICT" 412) ;;
    let r := mkRuleRow effect locked in
    update (write_policy scope (tenant_id p) workspace permission (current_version + 1) r now) ;;
    audit p trace policy (Some workspace) "authorization.policy.changed" SUCCEEDED
      (scope_arg +:+ "_policy") target
      (match rule with Some r => rule_json permission r current_version | None => JNull end)
      (rule_json permission r (current_version + 1)) (JObj []) ;;
    ret (current_version + 1)).

Definition set_permission_policy (access_token : string) (step_up_authorization : option string)
    (scope_arg workspace : string) (permission : Permission) (effect : PolicyEffect) (locked : bool)
    (expected_version : Z) (trace policy : string) : St Z :=
  present <- gets (λ s, bool_decide (is_Some (identity s))) ;;
  guard present (AuthorizationError "IDENTITY_BOUNDARY_REQUIRED" 503) ;;
  scope <- from_option (scope_of_arg scope_arg) INVALID_INPUT ;;
  guard (1 <=? expected_version) INVALID_INPUT ;;
  p <- at_identity (validate_access access_token trace policy) ;;
  target <- match scope with TENANT => ret (tenant_id p) | WORKSPACE => checked_id workspace end ;;
  db_transaction (policy_authority p scope workspace trace policy ;; ret tt) ;;
  at_identity (consume_step_up step_up_authorization access_token
    "organization_security_or_connector_policy_change" target policy trace) ;;
  policy_change p scope scope_arg workspace permission effect locked expected_version target trace policy.

(** ** Historical results *)

Definition register_historical_result (p : IdentityPrincipal) (h : HistoricalResultDescriptor)
    (trace policy : string) : St unit :=
  guard (descriptor_valid h) INVALID_INPUT ;;
  guard (String.eqb (hd_tenant_id h) (tenant_id p)) (AuthorizationError "RESOURCE_UNAVAILABLE" 404) ;;
  authorize_action p (hd_workspace_id h) GENERATE trace policy [] ;;
  db_transaction (
    workspace_for p (hd_workspace_id h) trace policy ;;
    known <- query (λ d, bool_decide (is_Some (historical_results d !! hd_result_id h))) ;;
    guard (negb known) (AuthorizationError "HISTORICAL_RESULT_IMMUTABLE" 409) ;;
    now <- clock ;;
    insert_descriptor h now ;;
    audit p trace policy (Some (hd_workspace_id h)) "authorization.historical_result.registered"
      SUCCEEDED "historical_result" (hd_result_id h) JNull
      (JObj [("result_kind", JStr (hd_result_kind h));
             ("source_count", JInt (Z.of_nat (length (hd_source_version_ids h))));
             ("reference_count", JInt (Z.of_nat (length (hd_evidence_reference_ids h))))])
      (JObj [])).

(** [_find_descriptor_for_principal] *)
Definition find_descriptor (p : IdentityPrincipal) (result_id trace policy : string)
    : St HistoricalResultDescriptor :=
  result_id <- checked_id result_id ;;
  found <- query (λ d, r ← historical_results d !! result_id;
                       if String.eqb (hr_tenant_id r) (tenant_id p)
                       then read_descriptor d (tenant_id p) (hr_workspace_id r) result_id else None) ;;
  match found with
  | None =>
      audit p trace policy None "authorization.resource.denied" DENIED "historical_result"
        "unavailable-resource" JNull JNull (reason "RESOURCE_UNAVAILABLE") ;;
      raise (AuthorizationError "RESOURCE_UNAVAILABLE" 404)
  | Some h => ret h
  end.

(** The local variables of the evaluation's loop *)
Record Evaluation := mkEvaluation {
  el_state : AccessState;
  el_reasons : list string;
  el_allowed_references : list string;
  el_masked_references : list string;
  el_allowed_segments : list string;
  el_masked_segments : list string
}.

(** [source_rule is None or bool(source_rule["allowed"])] *)
Definition source_allowed (d : Db) (p : IdentityPrincipal) (workspace source_version : string) : bool :=
  match source_access d !! (tenant_id p, workspace, user_id p, source_version) with
  | Some r => sa_allowed r
  | None => true
  end.

(** The body of the loop *)
Definition evaluate_dependency (allowed : string → bool) (v : Evaluation) (e : EvidenceDependency)
    : Evaluation :=
  if allowed (de_source_version_id e) then
    mkEvaluation (el_state v) (el_reasons v) (el_allowed_references v ++ [de_reference_id e])
      (el_masked_references v) (el_allowed_segments v ++ de_segment_ids e) (el_masked_segments v)
  else
    let '(st, rs) :=
      if de_decisive e then (ACCESS_BLOCKED, el_reasons v ++ ["DECISIVE_DEPENDENCY_DENIED"])
      else if negb (de_safe_separation e)
      then (ACCESS_BLOCKED, el_reasons v ++ ["SAFE_SEPARATION_UNAVAILABLE"])
      else if negb (bool_decide (el_state v = ACCESS_BLOCKED))
      then (PARTIALLY_REDACTED, el_reasons v ++ ["SOURCE_ACCESS_REVOKED"])
      else (el_state v, el_reasons v) in
    mkEvaluation st rs (el_allowed_references v) (el_masked_references v ++ [de_reference_id e])
      (el_allowed_segments v) (el_masked_segments v ++ de_segment_ids e).

Definition evaluate (granted : bool) (allowed : string → bool) (h : HistoricalResultDescriptor)
    : Evaluation :=
  if granted then
    fold_left (evaluate_dependency allowed) (hd_dependencies h) (mkEvaluation AVAILABLE [] [] [] [] [])
  else
    mkEvaluation ACCESS_BLOCKED ["CURRENT_MEMBERSHIP_OR_PERMISSION_DENIED"] []
      (hd_evidence_reference_ids h) [] (concat (map de_segment_ids (hd_dependencies h))).

(** The caller may do what the access needs, and what the evaluation of the
    result's dependencies gives. *)
Definition access_grant (d : Db) (p : IdentityPrincipal) (workspace : string) (w : WorkspaceRow)
    (action : AccessAction) : option AuthorizationGrant :=
  action_grant d p workspace w (role_binding d p workspace w) (ACCESS_ACTIONS action) [].

Definition access_evaluation (d : Db) (p : IdentityPrincipal) (h : HistoricalResultDescriptor)
    (w : WorkspaceRow) (action : AccessAction) : Evaluation :=
  evaluate (bool_decide (is_Some (access_grant d p (hd_workspace_id h) w action)))
    (source_allowed d p (hd_workspace_id h)) h.

Definition access_decision (d : Db) (p : IdentityPrincipal) (h : HistoricalResultDescriptor)
    (w : WorkspaceRow) (action : AccessAction) (decision_id : string) (now : Z) : AccessDecision :=
  let workspace := hd_workspace_id h in
  let binding := role_binding d p workspace w in
  let v := access_evaluation d p h w action in
  let reasons := sorted_strings (fromkeys (el_reasons v)) in
  mkDecision decision_id (user_id p) action (hd_result_id h) (tenant_id p) workspace
    (rb_scope <$> binding) (default 0 (rb_version <$> binding)) (wk_acl_version w)
    (policy_version d (tenant_id p) workspace) now
    (el_state v) (if bool_decide (reasons = []) then ["CURRENT_ACCESS_ALLOWED"] else reasons)
    (sorted_strings (el_allowed_references v)) (sorted_strings (el_masked_references v))
    (sorted_strings (el_allowed_segments v)) (sorted_strings (el_masked_segments v)).

Definition evaluate_historical_access (p : IdentityPrincipal) (result_id : string)
    (action : AccessAction) (trace policy : string) : St AccessDecision :=
  db_transaction (
    h <- find_descriptor p result_id trace policy ;;
    w <- workspace_for p (hd_workspace_id h) trace policy ;;
    decision_id <- new_id "acd" ;;
    now <- clock ;;
    decision <- query (λ d, access_decision d p h w action decision_id now) ;;
    insert_row access_decisions set_access_decisions decision_id decision ;;
    audit p trace policy (Some (hd_workspace_id h)) "authorization.access.decided"
      (if bool_decide (ad_state decision = ACCESS_BLOCKED) then DENIED else SUCCEEDED) "access_decision"
      decision_id JNull JNull
      (JObj [("access_state", JStr (access_state_value (ad_state decision)));
             ("requested_action", JStr (access_action_value action));
             ("reason_codes", JArr (map JStr (ad_reason_codes decision)));
             ("allowed_reference_count", JInt (Z.of_nat (length (ad_allowed_reference_ids decision))));
             ("masked_reference_count", JInt (Z.of_nat (length (ad_masked_reference_ids decision))))]) ;;
    ret decision).

(** (The exception also carries the decision.) *)
Definition require_historical_access (p : IdentityPrincipal) (result_id : string)
    (action : AccessAction) (trace policy : string) : St AccessDecision :=
  decision <- evaluate_historical_access p result_id action trace policy ;;
  guard (negb (bool_decide (ad_state decision = ACCESS_BLOCKED)))
    (AuthorizationError "CURRENT_ACCESS_DENIED" 403) ;;
  ret decision.

Definition snapshot_payload (r : RerunSnapshot) : json :=
  JObj [("tenant_id", JStr (rs_tenant_id r)); ("workspace_id", JStr (rs_workspace_id r));
        ("actor_id", JStr (rs_actor_id r)); ("role_scope", JStr (scope_value (rs_role_scope r)));
        ("membership_version", JInt (rs_membership_version r)); ("acl_version", JInt (rs_acl_version r));
        ("policy_version", JStr (rs_policy_version r)); ("data_area", JStr (rs_data_area r));
        ("cost_limit_cents", JInt (rs_cost_limit_cents r));
        ("source_version_ids", JArr (map JStr (rs_source_version_ids r)))].

(** The sources of the references the decision allows *)
Definition allowed_sources (decision : AccessDecision) (h : HistoricalResultDescriptor) : list string :=
  sorted_strings (fromkeys (map de_source_version_id
    (filter (λ e, de_reference_id e ∈ ad_allowed_reference_ids decision) (hd_dependencies h)))).

(** The second transaction of [authorize_rerun] *)
Definition commit_rerun (p : IdentityPrincipal) (result_id trace policy : string)
    (decision : AccessDecision) : St RerunAuthorization :=
  db_transaction (
    h <- find_descriptor p result_id trace policy ;;
    let workspace := hd_workspace_id h in
    w <- workspace_for p workspace trace policy ;;
    binding <- query (λ d, role_binding d p workspace w) ;;
    b <- from_option binding (AuthorizationError "CURRENT_ACCESS_DENIED" 403) ;;
    let snapshot := mkSnapshot (tenant_id p) workspace (user_id p) (rb_scope b) (rb_version b)
      (wk_acl_version w) (ad_policy_version decision) (wk_data_area w) (wk_cost_limit_cents w)
      (allowed_sources decision h) in
    run_request_id <- new_id "rrq" ;;
    now <- clock ;;
    known <- query (λ d, bool_decide (is_Some (access_decisions d !! ad_decision_id decision))) ;;
    guard known PERSISTENCE_CONFLICT ;;
    insert_row rerun_requests set_rerun_requests run_request_id
      (mkRerunRow (hd_result_id h) (ad_decision_id decision) (tenant_id p) workspace (user_id p)
        (dumps true (snapshot_payload snapshot)) now) ;;
    audit p trace policy (Some workspace) "authorization.rerun.authorized" SUCCEEDED "run_request"
      run_request_id JNull JNull
      (JObj [("access_state", JStr (access_state_value (ad_state decision)));
             ("source_count", JInt (Z.of_nat (length (rs_source_version_ids snapshot))));
             ("current_snapshot", JBool true)]) ;;
    ret (mkRerun run_request_id (ad_decision_id decision) snapshot)).

Definition authorize_rerun (p : IdentityPrincipal) (result_id trace policy : string)
    : St RerunAuthorization :=
  decision <- require_historical_access p result_id RERUN trace policy ;;
  commit_rerun p result_id trace policy decision.
End Service.

(** ** The audit stores keep the promise *)

#[export] Instance memory_audit {D : Digest} {H : HostParser} : AuditStore Store.
Proof.
  refine {| audit_append := append; audit_events := events |}.
  intros d a. eapply wp_mono; [|apply append_ok].
  intros [e|e] a'; [intros (-> & _ & _ & _ & ->)|intros ->]; by eauto.
Defined.

#[export] Instance postgres_audit {D : Digest} {H : HostParser} : AuditStore Table.
Proof.
  refine {| audit_append := pg_append; audit_events := λ t, t |}.
  intros d a. unfold pg_append. apply wp_bind. eapply wp_mono; [|apply validate_draft_ok].
  intros [v|e] s' [-> Hv]; [|done]. destruct Hv as (-> & _). by wp_run.
Defined.
