(* ===== verification/AuthorizationFacts.v ===== *)
(** What callers of the authorization service can do.

    Decisions: an action is granted exactly when the declarative policy
    ([entitled], [permitted], [holds_role]) allows it and the audit store takes
    the event ([action_granted_iff]); access to historical results and reruns
    follow the current tables ([historical_access_decided],
    [rerun_bound_to_current_access]).  Changes: every call is [accountable], and
    no sequence of calls escalates a privilege ([no_escalation]). *)

From S2P Require Import Prelude Sha256 PyStr Json HashChain Bytes AuditLog Authorization.
#[local] Open Scope Z_scope.

(** ** Reasoning about the service *)

Definition log {A I} `{AuditStore A} (s : State A I) : list AuditEvent := audit_events (audit_store s).

Section Rules.
Context {A I : Type}.

Lemma wp_query {B} (f : Db → B) Q (s : State A I) : Q (Ret (f (db s))) s → wp (query f) Q s.
Proof. done. Qed.

Lemma wp_update f Q (s : State A I) : Q (Ret tt) (set_db (f (db s)) s) → wp (update f) Q s.
Proof. done. Qed.

Lemma wp_checked_id v Q (s : State A I) :
  (safe_id v = true → Q (Ret v) s) → (safe_id v = false → Q (Raise INVALID_INPUT) s) →
  wp (checked_id v) Q s.
Proof. intros H1 H2. unfold checked_id. wp_run; auto. Qed.

Lemma wp_db_transaction {B} (m : M (State A I) B) (Q : outcome B → State A I → Prop) s :
  (closed s = true → Q (Raise (AuthorizationError "PERSISTENCE_UNAVAILABLE" 503)) s) →
  (closed s = false → wp m (λ o s', match o with
     | Ret b => Q (Ret b) s'
     | Raise e => Q (Raise e) (set_db (db s) s')
     end) s) →
  wp (db_transaction m) Q s.
Proof.
  unfold wp, db_transaction. destruct (closed s); [auto|]. intros _ H. specialize (H eq_refl).
  by destruct (m s) as [s' [b|e]].
Qed.

Lemma wp_insert_row `{Countable K} {V} (table : Db → gmap K V) set k v Q (s : State A I) :
  (table (db s) !! k = None → Q (Ret tt) (set_db (set (<[k := v]> (table (db s))) (db s)) s)) →
  Q (Raise PERSISTENCE_CONFLICT) s →
  wp (insert_row table set k v) Q s.
Proof.
  intros H1 H2. unfold insert_row. apply wp_bind, wp_query, wp_bind, wp_guard; [|done].
  intros Hn. apply wp_update, H1. apply negb_true_iff, bool_decide_eq_false_1 in Hn.
  by apply eq_None_not_Some.
Qed.
End Rules.

(** What a call leaves alone when it only reads the database and writes audit
    events: the database, and the events written before. *)
Record quiet {A I} `{AuditStore A} (s s' : State A I) : Prop := {
  qu_db : db s' = db s;
  qu_closed : closed s' = closed s;
  qu_identity : identity s' = identity s;
  qu_log : log s `prefix_of` log s'
}.

#[export] Instance quiet_preorder {A I} `{AuditStore A} : PreOrder (@quiet A I _).
Proof.
  split; [by constructor|]. intros s1 s2 s3 [] []. constructor; try congruence. by etrans.
Qed.

Section Quiet.
Context {W : World} {O : SetOrder} {A I : Type} {AS : AuditStore A} {IB : IdentityBoundary I}.
Implicit Types s : State A I.

(** The event of a call of [audit]. *)
Record event_of (p : IdentityPrincipal) (workspace : option string) (action : string)
    (outcome : AuditOutcome) (target : string) (e : AuditEvent) : Prop := {
  eo_actor : ev_actor_id e = user_id p;
  eo_tenant : ev_tenant_id e = tenant_id p;
  eo_workspace : ev_workspace_id e = workspace;
  eo_action : ev_action e = action;
  eo_outcome : ev_outcome e = outcome;
  eo_target : ev_target_id e = target
}.

Lemma opt_obj_inj o o' : opt_obj o = opt_obj o' → o = o'.
Proof. by destruct o, o'; intros [=]; subst. Qed.

Lemma event_of_draft p workspace action outcome ttype target id at_ trace policy before after metadata e :
  mkDraft id at_ (PyStr (user_id p)) (Some USER) (PyStr (tenant_id p)) (opt_obj workspace)
    (PyStr action) (PyStr ttype) (PyStr target) (Some outcome) trace policy before after metadata =
    draft_of e →
  event_of p workspace action outcome target e.
Proof.
  intros Hd. injection Hd as _ _ Ha _ Ht Hw Hac _ Hti Ho _ _ _ _ _.
  constructor; by (symmetry; first [assumption|apply opt_obj_inj]).
Qed.

Definition AUDIT_WRITE_FAILED : exn := AuthorizationError "AUDIT_WRITE_FAILED" 503.

Lemma wp_audit p trace policy workspace action outcome ttype target before after metadata
    (Q : Prelude.outcome unit → State A I → Prop) s :
  (∀ s' e, quiet s s' → log s' = log s ++ [e] → event_of p workspace action outcome target e →
     Q (Ret tt) s') →
  (∀ e s', quiet s s' → log s' = log s → e = INVALID_INPUT ∨ e = AUDIT_WRITE_FAILED → Q (Raise e) s') →
  wp (audit p trace policy workspace action outcome ttype target before after metadata) Q s.
Proof.
  intros HRet HRaise. unfold audit.
  do 2 (apply wp_bind; wp_step; cbn beta iota).
  match goal with |- wp _ _ ?st => set (s1 := st) end.
  assert (quiet s s1) as Hq by by constructor. assert (log s1 = log s) as Hl by done. clearbody s1.
  assert (∀ v (k : string → M (State A I) unit), wp (k v) Q s1 → wp (bind (checked_id v) k) Q s1) as Hid.
  { intros v k Hk. apply wp_bind, wp_checked_id; intros; [done|]. apply HRaise; auto. }
  do 2 apply Hid. apply wp_bind.
  assert (wp (match workspace with
              | None => ret None
              | Some w => w <- checked_id w ;; ret (Some w)
              end) (λ o s', s' = s1 ∧ match o with Ret v => v = workspace | Raise e => e = INVALID_INPUT end)
            s1) as Hw.
  { destruct workspace; [|done]. apply wp_bind, wp_checked_id; by intros. }
  eapply wp_mono; [|exact Hw]. intros [v|e] s' [-> ->]; [|apply HRaise; auto].
  do 5 apply Hid. unfold wp, record_event.
  match goal with |- context [audit_append ?d] => pose proof (audit_append_law d (audit_store s1)) as Hlaw end.
  unfold wp in Hlaw. unfold log in Hl. destruct (audit_append _ _) as [a [ev|e]]; simpl in *.
  - destruct Hlaw as [Hd Ha]. rewrite Hl in Ha. apply (HRet _ ev); [|exact Ha|by eapply event_of_draft].
    constructor; simpl; try apply Hq. unfold log. simpl. rewrite Ha. by apply prefix_app_r.
  - rewrite Hl in Hlaw. apply HRaise; [|exact Hlaw|by right].
    constructor; simpl; try apply Hq. unfold log. simpl. by rewrite Hlaw.
Qed.
(** The organization has not suspended the caller. *)
Definition organization_open (d : Db) (p : IdentityPrincipal) (w : option WorkspaceRow) : bool :=
  match w with Some w => negb (String.eqb (wk_workspace_kind w) "organization") | None => false end ||
  organization_id (tenant_id p) && organization_id (user_id p) &&
  match tenant_memberships d ≫= λ m, m !! (tenant_id p, user_id p) with
  | Some st => String.eqb st "active"
  | None => true
  end.

Definition ORGANIZATION_ERRORS : list exn :=
  [AuthorizationError "INVALID_ID" 400; AuthorizationError "ORGANIZATION_MEMBERSHIP_SUSPENDED" 403].

Lemma wp_assert_organization p w Q s :
  (organization_open (db s) p w = true → Q (Ret tt) s) →
  (∀ e, organization_open (db s) p w = false → e ∈ ORGANIZATION_ERRORS → Q (Raise e) s) →
  wp (assert_organization_active p w) Q s.
Proof.
  unfold assert_organization_active, organization_open, query.
  destruct (match w with Some w => _ | None => false end); simpl; intros H1 H2; [by apply H1|].
  apply wp_bind, wp_guard; intros Ht; rewrite Ht in *; [|apply H2; [done|left]].
  apply wp_bind, wp_guard; intros Hu; rewrite Hu in *; [|apply H2; [done|left]].
  apply wp_bind, wp_gets, wp_guard; intros Hst; [apply H1|apply H2; [|right; left]]; apply Hst.
Qed.

Definition RESOURCE_UNAVAILABLE : exn := AuthorizationError "RESOURCE_UNAVAILABLE" 404.

(** What [_workspace] raises. *)
Definition WORKSPACE_ERRORS : list exn :=
  INVALID_INPUT :: AUDIT_WRITE_FAILED :: RESOURCE_UNAVAILABLE :: ORGANIZATION_ERRORS.

(** The caller's workspace, and what has to hold for the caller to reach it. *)
Definition reachable_workspace (d : Db) (p : IdentityPrincipal) (workspace : string) (w : WorkspaceRow)
    : Prop :=
  safe_id (tenant_id p) = true ∧ safe_id workspace = true ∧
  find_workspace d (tenant_id p) workspace = Some w ∧ organization_open d p (Some w) = true.

Lemma wp_workspace_for p workspace trace policy Q s :
  (∀ w, reachable_workspace (db s) p workspace w → Q (Ret w) s) →
  (∀ e s', quiet s s' → e ∈ WORKSPACE_ERRORS → (¬ ∃ w, reachable_workspace (db s) p workspace w) →
     Q (Raise e) s') →
  wp (workspace_for p workspace trace policy) Q s.
Proof.
  intros H1 H2. unfold workspace_for, reachable_workspace in *.
  apply wp_bind, wp_checked_id; intros Ht.
  2: { apply H2; [done|set_solver|]. intros (w & ? & _). congruence. }
  apply wp_bind, wp_checked_id; intros Hw.
  2: { apply H2; [done|set_solver|]. intros (w & _ & ? & _). congruence. }
  apply wp_bind, wp_query. destruct (find_workspace _ _ _) as [w|] eqn:Hf.
  - apply wp_bind, wp_assert_organization.
    + intros Ho. by apply wp_ret, H1.
    + intros e Ho He. apply H2; [done|set_solver|]. intros (w' & _ & _ & [= <-] & ?). congruence.
  - assert (¬ ∃ w, safe_id (tenant_id p) = true ∧ safe_id workspace = true ∧
      None = Some w ∧ organization_open (db s) p (Some w) = true) as Hno
      by (intros (w & _ & _ & [=] & _)).
    apply wp_bind, wp_audit.
    + intros s' e Hq _ _. apply wp_raise, H2; [done|set_solver|done].
    + intros e s' Hq _ He. apply H2; [done|set_solver|done].
Qed.

Lemma wp_deny_unless b event e Q s :
  (b = true → Q (Ret tt) s) →
  (b = false → wp event (λ o s', match o with Ret _ => Q (Raise e) s' | Raise e => Q (Raise e) s' end) s) →
  wp (deny_unless b event e) Q s.
Proof.
  intros H1 H2. unfold deny_unless. destruct b; [by apply H1|]. apply wp_bind.
  eapply wp_mono; [|by apply H2]. by intros [[]|].
Qed.
End Quiet.

(** ** What a caller may do

    The policy the decisions implement, as rules. *)

(** The tenant's rule on [q] decides, whatever the workspace says. *)
Definition tenant_decides (r : RuleRow) : Prop := ru_locked r = true ∨ ru_effect r = DENY.

(** [role] has permission [q] in the workspace. *)
Inductive permitted (d : Db) (role : Role) (tenant workspace : string) (q : Permission) : Prop :=
| permitted_locked r :
    tenant_rules d !! (tenant, permission_value q) = Some r →
    ru_locked r = true → ru_effect r = GRANT → permitted d role tenant workspace q
| permitted_workspace r :
    (∀ r', tenant_rules d !! (tenant, permission_value q) = Some r' → ¬ tenant_decides r') →
    workspace_rules d !! (tenant, workspace, permission_value q) = Some r →
    ru_effect r = GRANT → permitted d role tenant workspace q
| permitted_tenant r :
    tenant_rules d !! (tenant, permission_value q) = Some r → ¬ tenant_decides r →
    workspace_rules d !! (tenant, workspace, permission_value q) = None →
    permitted d role tenant workspace q
| permitted_default :
    tenant_rules d !! (tenant, permission_value q) = None →
    workspace_rules d !! (tenant, workspace, permission_value q) = None →
    q ∈ ROLE_PERMISSION_DEFAULTS role → permitted d role tenant workspace q.

(** The caller holds a role in the workspace: a tenant role for workspaces of
    its kind, or else a membership.  A tenant role of the other kind excludes
    the caller, members too. *)
Inductive holds_role (d : Db) (p : IdentityPrincipal) (workspace : string) (w : WorkspaceRow)
    : RoleBinding → Prop :=
| holds_tenant_role r :
    tenant_roles d !! (tenant_id p, user_id p) = Some r → rr_state r = "active" →
    role_kind (rr_role r) = Some (wk_workspace_kind w) →
    holds_role d p workspace w (mkBinding (rr_role r) TENANT (rr_version r))
| holds_membership m :
    (∀ r, tenant_roles d !! (tenant_id p, user_id p) = Some r → rr_state r ≠ "active") →
    memberships d !! (tenant_id p, workspace, user_id p) = Some m → rr_state m = "active" →
    rr_role m ∈ WORKSPACE_ROLES →
    holds_role d p workspace w (mkBinding (rr_role m) WORKSPACE (rr_version m)).

(** The caller, in the role [b], may do [action] with the permissions asked for. *)
Definition entitled (d : Db) (p : IdentityPrincipal) (workspace : string) (w : WorkspaceRow)
    (b : RoleBinding) (action : Action) (requested : list Permission) : Prop :=
  reachable_workspace d p workspace w ∧ holds_role d p workspace w b ∧
  action ∈ ROLE_ACTION_MATRIX (rb_role b) ∧
  ∀ q, q ∈ ACTION_PERMISSIONS action ∨ q ∈ requested →
       permitted d (rb_role b) (tenant_id p) workspace q.

Section Decisions.
Context {O : SetOrder}.

Lemma effective_iff d role tenant workspace q :
  ep_effective (effective_permission d role tenant workspace q true) = true ↔
  permitted d role tenant workspace q.
Proof.
  unfold effective_permission, is_grant. simpl.
  destruct (tenant_rules _ !! _) as [r|] eqn:Ht.
  - destruct (ru_locked r || bool_decide (ru_effect r = DENY)) eqn:Hd; simpl.
    + rewrite bool_decide_eq_true. split.
      * intros Hg. rewrite Hg, bool_decide_eq_false_2, orb_false_r in Hd by done.
        by eapply permitted_locked.
      * assert (tenant_decides r) as Hr by (apply orb_true_iff in Hd as [|?%bool_decide_eq_true]; [by left|by right]).
        intros [r' Hr' _ Hg|r' Hno _ _|r' Hr' Hno _|Hr' _ _]; simplify_eq; [done|by destruct (Hno r)|done].
    + assert (¬ tenant_decides r) as Hn.
      { apply orb_false_iff in Hd as [? ?%bool_decide_eq_false]. intros [|]; congruence. }
      destruct (workspace_rules _ !! _) as [r'|] eqn:Hw; simpl.
      * rewrite bool_decide_eq_true. split.
        -- intros Hg. eapply permitted_workspace; [|done..]. intros; by simplify_eq.
        -- intros [r0 Hr' Hl _|r0 _ Hr' Hg|r0 _ _ Hr'|Hr' _ _]; simplify_eq; [|done].
           destruct Hn. by left.
      * split; [|done]. intros _. by eapply permitted_tenant.
  - destruct (workspace_rules _ !! _) as [r'|] eqn:Hw; simpl; rewrite bool_decide_eq_true; split.
    + intros Hg. eapply permitted_workspace; [|done..]. intros; by simplify_eq.
    + by intros []; simplify_eq.
    + intros Hg. by apply permitted_default.
    + by intros []; simplify_eq.
Qed.

Lemma effective_names d role tenant workspace q requested :
  ep_permission (effective_permission d role tenant workspace q requested) = q.
Proof.
  unfold effective_permission. destruct requested; simpl; [|done].
  destruct (tenant_rules _ !! _) as [r|], (workspace_rules _ !! _); simpl; by try case_match.
Qed.

(** [v] names the versions that the policies of a tenant and of a workspace have
    in the tables; a policy that has no row counts as version 0. *)
Definition versions_named (d : Db) (tenant workspace v : string) : Prop :=
  ∃ t w, v = "tenant-" +:+ str_int t +:+ ":workspace-" +:+ str_int w ∧
    match tenant_policies d !! tenant with Some r => po_version r = t | None => t = 0 end ∧
    match workspace_policies d !! (tenant, workspace) with Some r => po_version r = w | None => w = 0 end.

Lemma policy_version_named d tenant workspace :
  versions_named d tenant workspace (policy_version d tenant workspace).
Proof.
  unfold versions_named, policy_version, policy_versions. simpl. eexists _, _. split; [done|].
  split; [by destruct (tenant_policies d !! _)|by destruct (workspace_policies d !! _)].
Qed.

Lemma effective_version d role tenant workspace q requested :
  ep_policy_version (effective_permission d role tenant workspace q requested) =
  policy_version d tenant workspace.
Proof.
  unfold effective_permission. destruct requested; simpl; [|done].
  destruct (tenant_rules _ !! _) as [r|], (workspace_rules _ !! _); simpl; by try case_match.
Qed.

Lemma active_iff r : active r = true ↔ rr_state r = "active".
Proof. apply String.eqb_eq. Qed.

Lemma active_tenant_role_Some d p r :
  active_tenant_role d p = Some r ↔
  tenant_roles d !! (tenant_id p, user_id p) = Some r ∧ rr_state r = "active".
Proof.
  unfold active_tenant_role. destruct (tenant_roles _ !! _) as [r'|]; simpl; [|naive_solver].
  destruct (active r') eqn:Ha.
  - apply active_iff in Ha. naive_solver.
  - split; [done|]. intros [[= <-] Ha']. apply active_iff in Ha'. congruence.
Qed.

Lemma active_tenant_role_None d p :
  active_tenant_role d p = None ↔
  ∀ r, tenant_roles d !! (tenant_id p, user_id p) = Some r → rr_state r ≠ "active".
Proof.
  rewrite eq_None_not_Some. split.
  - intros Hn r Hr Ha. apply Hn. exists r. by apply active_tenant_role_Some.
  - intros Hn [r [Hr Ha]%active_tenant_role_Some]. by apply (Hn r).
Qed.

Lemma active_membership_Some d p workspace m :
  active_membership d p workspace = Some m ↔
  memberships d !! (tenant_id p, workspace, user_id p) = Some m ∧ rr_state m = "active".
Proof.
  unfold active_membership. destruct (memberships _ !! _) as [r'|]; simpl; [|naive_solver].
  destruct (active r') eqn:Ha.
  - apply active_iff in Ha. naive_solver.
  - split; [done|]. intros [[= <-] Ha']. apply active_iff in Ha'. congruence.
Qed.

Lemma role_binding_iff d p workspace w b :
  role_binding d p workspace w = Some b ↔ holds_role d p workspace w b.
Proof.
  unfold role_binding. destruct (active_tenant_role d p) as [r|] eqn:Ht.
  - apply active_tenant_role_Some in Ht as [Ht Ha]. case_bool_decide as Hk; split.
    + intros [= <-]. by apply holds_tenant_role.
    + intros [|]; simplify_eq; [done|]. naive_solver.
    + done.
    + intros [|]; simplify_eq; naive_solver.
  - pose proof (proj1 (active_tenant_role_None d p) Ht) as Hn.
    destruct (active_membership d p workspace) as [m|] eqn:Hm; simpl.
    + apply active_membership_Some in Hm as [Hm Ha]. case_bool_decide as Hk; split.
      * intros [= <-]. by apply holds_membership.
      * intros [|]; simplify_eq; [naive_solver|done].
      * done.
      * intros [|]; simplify_eq; naive_solver.
    + split; [done|]. intros [|m Hr Hm' Ha]; [naive_solver|].
      assert (active_membership d p workspace = Some m) by by apply active_membership_Some. congruence.
Qed.

Lemma elem_of_distinct q l : q ∈ distinct l ↔ q ∈ l.
Proof.
  unfold distinct. enough (∀ acc, q ∈ fold_left (λ acc x, if decide (x ∈ acc) then acc else acc ++ [x])
    l acc ↔ q ∈ acc ∨ q ∈ l) as H by (rewrite H; set_solver).
  induction l as [|x l IH]; intros acc; simpl; [set_solver|].
  rewrite IH. case_decide; set_solver.
Qed.

Lemma elem_of_needed q action requested :
  q ∈ needed_permissions action requested ↔ q ∈ ACTION_PERMISSIONS action ∨ q ∈ requested.
Proof.
  unfold needed_permissions. rewrite elem_of_distinct, elem_of_app.
  by rewrite (set_iter_perm Permission (ACTION_PERMISSIONS action)).
Qed.

Lemma action_grant_iff d p workspace w action requested g :
  action_grant d p workspace w (role_binding d p workspace w) action requested = Some g ↔
  ∃ b, holds_role d p workspace w b ∧ action ∈ ROLE_ACTION_MATRIX (rb_role b) ∧
       (∀ q, q ∈ ACTION_PERMISSIONS action ∨ q ∈ requested →
             permitted d (rb_role b) (tenant_id p) workspace q) ∧
       g = mkGrant true (user_id p) (tenant_id p) workspace (rb_role b) (rb_scope b) action
             (map (λ q, effective_permission d (rb_role b) (tenant_id p) workspace q true)
               (needed_permissions action requested))
             (required_step_up action (needed_permissions action requested)) (rb_version b)
             (wk_acl_version w) (policy_version d (tenant_id p) workspace).
Proof.
  setoid_rewrite <- role_binding_iff. unfold action_grant.
  destruct (role_binding d p workspace w) as [b|]; simpl; [|naive_solver].
  case_bool_decide as Ha; [|naive_solver].
  match goal with |- context [existsb ?f ?l] => destruct (existsb f l) eqn:He end.
  - split; [done|]. intros (b' & [= <-] & _ & Hq & _).
    apply existsb_exists in He as (e & He%list_elem_of_In & Hn). apply list_elem_of_fmap in He as (q & -> & Hin).
    apply elem_of_needed, Hq, effective_iff in Hin. by rewrite Hin in Hn.
  - split; [|naive_solver]. intros [= <-]. exists b. split_and!; [done..| |done].
    intros q Hq%elem_of_needed. apply effective_iff. apply not_false_iff_true. intros Hf.
    apply not_true_iff_false in He. apply He, existsb_exists.
    eexists. split; [apply list_elem_of_In, list_elem_of_fmap; eauto|]. by rewrite Hf.
Qed.
End Decisions.

(** ** Granted actions *)

Section Granted.
Context {W : World} {O : SetOrder} {A I : Type} {AS : AuditStore A} {IB : IdentityBoundary I}.
Implicit Types s : State A I.

(** The event that records a grant *)
Definition allowed_event (p : IdentityPrincipal) (workspace : string) (action : Action)
    (trace policy : string) (b : RoleBinding) : M (State A I) unit :=
  audit p trace policy (Some workspace) "authorization.action.allowed" SUCCEEDED "workspace_action"
    workspace JNull JNull
    (JObj [("requested_action", JStr (action_value action)); ("role", JStr (role_value (rb_role b)));
           ("role_scope", JStr (scope_value (rb_scope b)))]).

Definition ACTION_DENIED : exn := AuthorizationError "ACTION_DENIED" 403.

(** Entitlement decides the grant. *)
Lemma entitled_grant d p workspace w b w' action requested :
  entitled d p workspace w b action requested → reachable_workspace d p workspace w' →
  w' = w ∧ role_binding d p workspace w = Some b ∧
  is_Some (action_grant d p workspace w (role_binding d p workspace w) action requested).
Proof.
  intros ((_ & _ & Hf & _) & Hb & Ha & Hp) (_ & _ & Hf' & _). split_and!; [congruence| |].
  - by apply role_binding_iff.
  - eexists. apply action_grant_iff. exists b. by split_and!.
Qed.

Lemma wp_allowed_event p workspace action trace policy b s :
  wp (allowed_event p workspace action trace policy b) (λ o s', quiet s s' ∧ match o with
    | Ret _ => ∃ e, log s' = log s ++ [e] ∧
        event_of p (Some workspace) "authorization.action.allowed" SUCCEEDED workspace e
    | Raise e => e = INVALID_INPUT ∨ e = AUDIT_WRITE_FAILED
    end) s.
Proof. apply wp_audit; eauto. Qed.

(** Every path through a call: what it grants, what it refuses, and what it
    leaves in the audit store. *)
Lemma wp_authorize_action p workspace action trace policy requested s :
  wp (authorize_action p workspace action trace policy requested) (λ o s',
    quiet s s' ∧
    match o with
    | Ret g => closed s = false ∧ ∃ w b e,
        entitled (db s) p workspace w b action requested ∧
        action_grant (db s) p workspace w (role_binding (db s) p workspace w) action requested = Some g ∧
        result (allowed_event p workspace action trace policy b) s = Ret tt ∧
        log s' = log s ++ [e] ∧
        event_of p (Some workspace) "authorization.action.allowed" SUCCEEDED workspace e
    | Raise e =>
        (e = ACTION_DENIED → ∃ ev, log s' = log s ++ [ev] ∧
           event_of p (Some workspace) "authorization.action.denied" DENIED workspace ev) ∧
        (closed s = false → ∀ w b, entitled (db s) p workspace w b action requested →
           result (allowed_event p workspace action trace policy b) s ≠ Ret tt)
    end) s.
Proof.
  assert (∀ s', quiet s s' → quiet s (set_db (db s) s')) as Hback by (by intros s' []; constructor).
  unfold authorize_action. apply wp_db_transaction; intros Hc; [by split_and!; [|intros [=]|congruence]|].
  apply wp_bind, wp_workspace_for.
  2: { intros e s' Hq He Hno. split_and!; [auto| |].
       - intros ->. not_in He.
       - intros _ w b (Hw & _). destruct Hno. by exists w. }
  intros w Hw. apply wp_bind, wp_query.
  destruct (action_grant _ _ _ _ _ _ _) as [g|] eqn:Hg.
  - pose proof (proj1 (action_grant_iff _ _ _ _ _ _ _) Hg) as (b & Hb & Ha & Hp & Hgr).
    assert (entitled (db s) p workspace w b action requested) as He by done.
    assert (gr_role g = rb_role b ∧ gr_role_scope g = rb_scope b) as [-> ->] by by subst.
    apply wp_bind. fold (allowed_event p workspace action trace policy b).
    pose proof (wp_allowed_event p workspace action trace policy b s) as Hev. unfold wp in *.
    destruct (allowed_event p workspace action trace policy b s) as [s1 [[]|e]] eqn:Ho; simpl in *.
    + destruct Hev as (Hq & ev & Hl & Hev). split; [done|]. split; [done|]. exists w, b, ev. split_and!; [done..|by rewrite Ho|done|done].
    + destruct Hev as [Hq Hev]. split_and!; [auto|intros ->; destruct Hev; discriminate|].
      intros _ w' b' He'. destruct (entitled_grant _ _ _ _ _ _ _ _ He' Hw) as (-> & Hb' & _).
      apply role_binding_iff in Hb. assert (b' = b) as -> by congruence. by rewrite Ho.
  - assert (∀ w' b', ¬ entitled (db s) p workspace w' b' action requested) as Hno.
    { intros w' b' He. destruct (entitled_grant _ _ _ _ _ _ _ _ He Hw) as (-> & _ & [? ?]). congruence. }
    apply wp_bind, wp_audit.
    + intros s' e Hq Hl Hev. apply wp_raise. split_and!; [auto|by eauto|]. intros _ ? ? []%Hno.
    + intros e s' Hq Hl He. split_and!; [auto|intros ->; destruct He; discriminate|]. intros _ ? ? []%Hno.
Qed.

(** C1: An action is granted exactly when the repository is open, the caller
    reaches the workspace in a tenant of its own that has not suspended it,
    holds a role there whose actions include it, every permission it needs is
    permitted by the policies, and the audit store accepts the event; the grant
    names the action, the step-up it takes, that role with the version it was
    given at, the versions of the workspace and of the tenant's and workspace's
    policies in the tables, and those permissions, each in force under these
    policies, and the event is the only one written.  No call changes the
    database, and a refused action leaves exactly the event of its denial. *)
Theorem action_granted_iff p workspace action trace policy requested s :
  let call := authorize_action p workspace action trace policy requested in
  ((∃ g, result call s = Ret g) ↔
    closed s = false ∧ ∃ w b, entitled (db s) p workspace w b action requested ∧
      result (allowed_event p workspace action trace policy b) s = Ret tt) ∧
  (∀ g, result call s = Ret g → ∃ w b e,
    entitled (db s) p workspace w b action requested ∧
    gr_actor_id g = user_id p ∧ gr_tenant_id g = tenant_id p ∧ gr_workspace_id g = workspace ∧
    gr_role g = rb_role b ∧ gr_role_scope g = rb_scope b ∧ gr_membership_version g = rb_version b ∧
    gr_acl_version g = wk_acl_version w ∧
    versions_named (db s) (tenant_id p) workspace (gr_policy_version g) ∧
    Forall (λ x, ep_policy_version x = gr_policy_version g) (gr_effective_permissions g) ∧
    gr_allowed g = true ∧ gr_action g = action ∧
    gr_required_step_up_action g = required_step_up action (needed_permissions action requested) ∧
    map ep_permission (gr_effective_permissions g) = needed_permissions action requested ∧
    Forall (λ x, ep_effective x = true) (gr_effective_permissions g) ∧
    log (final call s) = log s ++ [e] ∧
    event_of p (Some workspace) "authorization.action.allowed" SUCCEEDED workspace e) ∧
  (result call s = Raise ACTION_DENIED → ∃ e, log (final call s) = log s ++ [e] ∧
    event_of p (Some workspace) "authorization.action.denied" DENIED workspace e) ∧
  db (final call s) = db s.
Proof.
  intros call. pose proof (wp_authorize_action p workspace action trace policy requested s) as [Hq H].
  fold call in Hq, H. split_and!; [split| | |apply Hq].
  - intros [g Hg]. rewrite Hg in H. destruct H as (Hc & w & b & e & He & _ & Ho & _).
    split; [done|]. by exists w, b.
  - intros (Hc & w & b & He & Ho). destruct (result call s) as [g|e]; [by exists g|].
    destruct H as [_ H]. by destruct (H Hc w b He).
  - intros g Hg. rewrite Hg in H. destruct H as (_ & w & b & e & He & Hgr & _ & Hl & Hev).
    exists w, b, e. split; [done|]. apply action_grant_iff in Hgr as (b' & Hb & Ha & Hp & ->).
    assert (b' = b) as ->.
    { destruct He as (_ & Hb' & _). apply role_binding_iff in Hb, Hb'. congruence. }
    split_and!; simpl; try done.
    + apply policy_version_named.
    + apply Forall_map, Forall_forall. intros q _. apply effective_version.
    + rewrite map_map. etrans; [|apply map_id]. apply map_ext. intros. apply effective_names.
    + apply Forall_map, Forall_forall. intros q Hq'%elem_of_needed. by apply effective_iff, Hp.
  - intros Hd. rewrite Hd in H. by apply H.
Qed.
End Granted.

(** ** Who can change what *)

(** The tables of a tenant that belong to no workspace are the same. *)
Record same_tenant (t : string) (d d' : Db) : Prop := {
  st_roles : ∀ u, tenant_roles d' !! (t, u) = tenant_roles d !! (t, u);
  st_policy : tenant_policies d' !! t = tenant_policies d !! t;
  st_rules : ∀ q, tenant_rules d' !! (t, q) = tenant_rules d !! (t, q)
}.

(** The rows of a workspace are the same. *)
Record same_workspace (t w : string) (d d' : Db) : Prop := {
  sw_workspace : find_workspace d' t w = find_workspace d t w;
  sw_memberships : ∀ u, memberships d' !! (t, w, u) = memberships d !! (t, w, u);
  sw_policy : workspace_policies d' !! (t, w) = workspace_policies d !! (t, w);
  sw_rules : ∀ q, workspace_rules d' !! (t, w, q) = workspace_rules d !! (t, w, q);
  sw_sources : ∀ u v, source_access d' !! (t, w, u, v) = source_access d !! (t, w, u, v)
}.

#[export] Instance same_tenant_preorder t : PreOrder (same_tenant t).
Proof.
  split; [by constructor|]. intros d1 d2 d3 [H1 H2 H3] [G1 G2 G3].
  constructor; intros; by rewrite ?G1, ?G2, ?G3.
Qed.

#[export] Instance same_workspace_preorder t w : PreOrder (same_workspace t w).
Proof.
  split; [by constructor|]. intros d1 d2 d3 [H1 H2 H3 H4 H5] [G1 G2 G3 G4 G5].
  constructor; intros; by rewrite ?G1, ?G2, ?G3, ?G4, ?G5.
Qed.

(** Everything of the tenant is the same. *)
Definition same_rows (t : string) (d d' : Db) : Prop :=
  same_tenant t d d' ∧ ∀ w, same_workspace t w d d'.

#[export] Instance same_rows_preorder t : PreOrder (same_rows t).
Proof.
  split; [by split|]. intros d1 d2 d3 [H1 H1'] [H2 H2']. split; [by transitivity d2|]. intros w. by transitivity d2.
Qed.

(** The caller acts with an active tenant role. *)
Definition tenant_holder (d : Db) (p : IdentityPrincipal) : Prop := is_Some (active_tenant_role d p).

(** [u] is an active administrator of the workspace. *)
Definition workspace_admin (d : Db) (t w u : string) : Prop :=
  ∃ m, memberships d !! (t, w, u) = Some m ∧ rr_state m = "active" ∧ rr_role m = WORKSPACE_ADMIN.

(** What a call by [p] may change. *)
Record call_effect (p : IdentityPrincipal) (d d' : Db) : Prop := {
  ce_tenant t : same_tenant t d d' ∨ (t = tenant_id p ∧ tenant_holder d p);
  ce_workspace t w : same_workspace t w d d' ∨
    (t = tenant_id p ∧ (tenant_holder d p ∨ workspace_admin d t w (user_id p)));
  ce_admin t w u : workspace_admin d' t w u →
    workspace_admin d t w u ∨ (t = tenant_id p ∧ tenant_holder d p)
}.

(** An event that a call by [p] wrote for a change it made *)
Definition change_event (p : IdentityPrincipal) (e : AuditEvent) : Prop :=
  ev_actor_id e = user_id p ∧ ev_tenant_id e = tenant_id p ∧ ev_outcome e = SUCCEEDED.

(** The tables of [d] and [d'] that decide about access are the same. *)
Definition untouched (d d' : Db) : Prop := ∀ t, same_rows t d d'.

#[export] Instance untouched_preorder : PreOrder untouched.
Proof. split; [by intros d t|]. intros d1 d2 d3 H1 H2 t. by transitivity d2. Qed.

(** What any call by [p] does: it changes nothing that decides about access,
    or it does so within its authority and leaves the event of the change. *)
Record accountable {A I} `{AuditStore A} (p : IdentityPrincipal) (s s' : State A I) : Prop := {
  ac_log : log s `prefix_of` log s';
  ac_effect : untouched (db s) (db s') ∨
    (call_effect p (db s) (db s') ∧ ∃ l e, log s' = log s ++ l ++ [e] ∧ change_event p e)
}.

Lemma untouched_admin d d' t w u : untouched d d' → workspace_admin d' t w u → workspace_admin d t w u.
Proof.
  intros H (m & Hm & ?). exists m. destruct (H t) as [_ Hw]. by rewrite (sw_memberships _ _ _ _ (Hw w)) in Hm.
Qed.

(** *** The effect of the statements *)

Lemma bump_tenant t w now d t' : same_tenant t' d (bump_acl t w now d).
Proof. unfold bump_acl. destruct (find_workspace d t w); [by constructor|done]. Qed.

Lemma bump_memberships t w now d : memberships (bump_acl t w now d) = memberships d.
Proof. unfold bump_acl. by destruct (find_workspace d t w). Qed.

Lemma bump_workspace t w now d t' w' :
  (t', w') ≠ (t, w) → same_workspace t' w' d (bump_acl t w now d).
Proof.
  intros Hne. unfold bump_acl. destruct (find_workspace d t w) as [r|] eqn:Hf; [|done].
  constructor; simpl; try done. unfold find_workspace in *. simpl.
  destruct (decide (w = w')) as [<-|]; [|by rewrite lookup_insert_ne].
  rewrite lookup_insert_eq. simpl. destruct (workspaces d !! w) as [r'|]; simpl in *; [|done].
  destruct (String.eqb_spec (wk_tenant_id r') t); [|done]. simplify_eq.
  by destruct (String.eqb_spec (wk_tenant_id r) t'); [congruence|].
Qed.

(** The authority to administer a workspace *)
Definition authority (d : Db) (p : IdentityPrincipal) (w : string) : Prop :=
  tenant_holder d p ∨ workspace_admin d (tenant_id p) w (user_id p).

Lemma holds_authority d p w row b :
  holds_role d p w row b → rb_role b ∈ ADMIN_ROLES → authority d p w.
Proof.
  intros [r Hr Ha _|m _ Hm Ha Hin] Hb; simpl in *.
  - left. exists r. by apply active_tenant_role_Some.
  - right. exists m. split_and!; [done..|]. destruct (rr_role m); try done; by (not_in Hb || not_in Hin).
Qed.

Lemma holds_tenant d p w row b : holds_role d p w row b → rb_scope b = TENANT → tenant_holder d p.
Proof. intros [r Hr Ha _|] Hs; [|done]. exists r. by apply active_tenant_role_Some. Qed.

Lemma is_admin_authority d p w row : is_admin (role_binding d p w row) = true → authority d p w.
Proof.
  unfold is_admin. destruct (role_binding d p w row) as [b|] eqn:Hb; [|done].
  intros Ha%bool_decide_eq_true. eapply holds_authority; [by apply role_binding_iff|done].
Qed.

Lemma assignable_admin role actor : role ∈ assignable actor → actor ∈ ADMIN_ROLES.
Proof. destruct actor; intros H; try is_in; not_in H. Qed.

Lemma assignable_authority d p w row b role :
  role_binding d p w row = Some b → role ∈ assignable (rb_role b) →
  authority d p w ∧ (role = WORKSPACE_ADMIN → tenant_holder d p).
Proof.
  intros Hb%role_binding_iff Hr. split; [eapply holds_authority; [done|by eapply assignable_admin]|].
  intros ->. destruct Hb as [r Hr' Ha _|m _ Hm Ha Hin]; simpl in *.
  - exists r. by apply active_tenant_role_Some.
  - destruct (rr_role m); first [not_in Hr | not_in Hin].
Qed.

Lemma membership_effect p d w user row now :
  authority d p w → (rr_role row = WORKSPACE_ADMIN → tenant_holder d p) →
  call_effect p d (bump_acl (tenant_id p) w now
    (set_memberships (<[(tenant_id p, w, user) := row]> (memberships d)) d)).
Proof.
  intros Ha Hrow. set (d1 := set_memberships _ d). constructor.
  - intros t. left. etrans; [|apply bump_tenant]. by constructor.
  - intros t w'. destruct (decide ((t, w') = (tenant_id p, w))) as [[= -> ->]|Hne]; [by right|left].
    etrans; [|by apply bump_workspace]. constructor; try done. intros u. simpl.
    rewrite lookup_insert_ne; [done|congruence].
  - intros t w' u (m & Hm & Hact & Hadm). rewrite bump_memberships in Hm. simpl in Hm.
    destruct (decide ((tenant_id p, w, user) = (t, w', u))) as [[= <- <- <-]|Hne].
    + rewrite lookup_insert_eq in Hm. simplify_eq. right. split; [done|by apply Hrow].
    + rewrite lookup_insert_ne in Hm by done. left. by exists m.
Qed.

Lemma source_access_effect p d w user v row now :
  authority d p w →
  call_effect p d (bump_acl (tenant_id p) w now
    (set_source_access_table (<[(tenant_id p, w, user, v) := row]> (source_access d)) d)).
Proof.
  intros Ha. set (d1 := set_source_access_table _ d). constructor.
  - intros t. left. etrans; [|apply bump_tenant]. by constructor.
  - intros t w'. destruct (decide ((t, w') = (tenant_id p, w))) as [[= -> ->]|Hne]; [by right|left].
    etrans; [|by apply bump_workspace]. constructor; try done. intros u v'. simpl.
    rewrite lookup_insert_ne; [done|congruence].
  - intros t w' u (m & Hm & ?). rewrite bump_memberships in Hm. left. by exists m.
Qed.

Lemma tenant_role_effect p d user row :
  tenant_holder d p →
  call_effect p d (set_tenant_roles (<[(tenant_id p, user) := row]> (tenant_roles d)) d).
Proof.
  intros Ha. constructor.
  - intros t. destruct (decide (t = tenant_id p)) as [->|Hne]; [by right|left].
    constructor; try done. intros u. simpl. rewrite lookup_insert_ne; [done|congruence].
  - intros t w. left. by constructor.
  - intros t w u H. by left.
Qed.

Lemma policy_effect p d scope w q version r now :
  match scope with TENANT => tenant_holder d p | WORKSPACE => authority d p w end →
  call_effect p d (write_policy scope (tenant_id p) w q version r now d).
Proof.
  destruct scope; intros Ha; constructor; simpl.
  - intros t. destruct (decide (t = tenant_id p)) as [->|Hne]; [by right|left].
    constructor; simpl; [done|by apply lookup_alter_ne|]. intros u. rewrite lookup_insert_ne; [done|congruence].
  - intros t w'. left. by constructor.
  - intros t w' u H. by left.
  - intros t. left. by constructor.
  - intros t w'. destruct (decide ((t, w') = (tenant_id p, w))) as [[= -> ->]|Hne]; [by right|left].
    constructor; simpl; try done; [apply lookup_alter_ne; congruence|].
    intros q'. rewrite lookup_insert_ne; [done|congruence].
  - intros t w' u H. by left.
Qed.

Section Accountable.
Context {W : World} {O : SetOrder} {A I : Type} {AS : AuditStore A} {IB : IdentityBoundary I}.
Implicit Types s : State A I.

Lemma quiet_accountable p s s' : quiet s s' → accountable p s s'.
Proof. intros [Hd _ _ Hl]. split; [done|]. left. by rewrite Hd. Qed.

(** A refused transaction: the database is as before, the events stay. *)
Lemma rollback_accountable p s s' : log s `prefix_of` log s' → accountable p s (set_db (db s) s').
Proof. by constructor; [|left]. Qed.

Lemma accountable_trans p s1 s2 s3 :
  accountable p s1 s2 → db s2 = db s1 → accountable p s2 s3 → accountable p s1 s3.
Proof.
  intros [Hl _] Hd [Hl' He]. split; [by etrans|]. rewrite Hd in He.
  destruct He as [He|(He & l & e & Hlog & Hev)]; [by left|right]. split; [done|].
  destruct Hl as [l0 Hl0]. exists (l0 ++ l), e. split; [|done]. by rewrite Hlog, Hl0, !app_assoc.
Qed.
Lemma wp_accountable_transaction {B} p (m : M (State A I) B) s :
  wp m (λ o s', match o with
    | Ret _ => accountable p s s'
    | Raise _ => log s `prefix_of` log s'
    end) s →
  wp (db_transaction m) (λ _, accountable p s) s.
Proof.
  intros H. apply wp_db_transaction; intros _; [by apply quiet_accountable|].
  eapply wp_mono; [|exact H]. intros [b|e] s' H'; [done|]. by apply rollback_accountable.
Qed.

(** The end of every change: the event is written, or the change is undone. *)
Lemma wp_record_change {B} p s s0 trace policy workspace action ttype target before after metadata
    (v : B) :
  log s0 = log s → call_effect p (db s) (db s0) →
  wp (audit p trace policy workspace action SUCCEEDED ttype target before after metadata ;; ret v)
    (λ o s', match o with
      | Ret _ => accountable p s s'
      | Raise _ => log s `prefix_of` log s'
      end) s0.
Proof.
  intros Hl He. apply wp_bind, wp_audit.
  - intros s' e Hq Hl' [] . apply wp_ret. constructor; [rewrite Hl', Hl; by apply prefix_app_r|right].
    rewrite (qu_db _ _ Hq). split; [done|]. exists [], e. split; [by rewrite Hl', Hl|]. by split_and!.
  - intros e s' _ Hl' _. by rewrite Hl', Hl.
Qed.

Lemma wp_denied {B} s b event e (k : M (State A I) B)
    (Q : Prelude.outcome B → State A I → Prop) :
  wp event (λ _ s', quiet s s') s →
  (∀ e s', quiet s s' → Q (Raise e) s') →
  (b = true → wp k Q s) →
  wp (deny_unless b event e ;; k) Q s.
Proof.
  intros Hev HQ Hk. apply wp_bind, wp_deny_unless; [done|]. intros _.
  eapply wp_mono; [|exact Hev]. intros [[]|e'] s' Hq; by apply HQ.
Qed.

Lemma wp_audit_quiet p trace policy workspace action outcome ttype target before after metadata s :
  wp (audit p trace policy workspace action outcome ttype target before after metadata)
    (λ _ s', quiet s s') s.
Proof. by apply wp_audit. Qed.

Lemma quiet_log s s' : quiet s s' → log s `prefix_of` log s'.
Proof. by intros []. Qed.

Lemma accountable_set_membership p workspace user role version trace policy s :
  wp (set_membership p workspace user role version trace policy) (λ _, accountable p s) s.
Proof.
  assert (accountable p s s) as Hrefl by by apply quiet_accountable.
  unfold set_membership. apply wp_bind, wp_guard; [intros _|done].
  apply wp_bind, wp_checked_id; intros _; [|done]. apply wp_bind, wp_clock.
  match goal with |- wp _ _ ?st => set (s1 := st) end.
  eapply wp_mono; [|apply (wp_accountable_transaction p)].
  { intros o s' H'. by apply (accountable_trans p s s1); [by apply quiet_accountable| |]. }
  clearbody s1. apply wp_bind, wp_workspace_for; [intros w Hw|by intros; apply quiet_log].
  apply wp_denied; [apply wp_audit_quiet|by intros; apply quiet_log|intros _].
  apply wp_bind, wp_query.
  apply wp_denied; [apply wp_audit_quiet|by intros; apply quiet_log|intros Ha].
  apply wp_bind, wp_query.
  apply wp_denied; [apply wp_audit_quiet|by intros; apply quiet_log|intros _].
  destruct (role_binding _ _ _ _) as [b|] eqn:Hb; [|done]. bools.
  destruct (assignable_authority _ _ _ _ _ _ Hb Ha) as [Hauth Hadm].
  apply wp_bind, wp_update, wp_bind, wp_update. apply wp_record_change; [done|].
  by apply membership_effect.
Qed.
Lemma accountable_tick p s Q :
  accountable p (with_draws (mkDraws (S (ticks (draws_of s))) (tokens (draws_of s))) s) Q →
  accountable p s Q.
Proof.
  intros H. refine (accountable_trans _ _ (with_draws _ s) _ _ _ H); [|done]. by apply quiet_accountable.
Qed.

Lemma accountable_set_tenant_role p user role version trace policy s :
  wp (set_tenant_role p user role version trace policy) (λ _, accountable p s) s.
Proof.
  assert (accountable p s s) as Hrefl by by apply quiet_accountable.
  unfold set_tenant_role. do 2 (apply wp_bind, wp_guard; [intros _|done]).
  apply wp_bind, wp_checked_id; intros _; [|done]. apply wp_bind, wp_clock.
  eapply wp_mono; [intros o s' H'; apply accountable_tick, H'|].
  match goal with |- wp _ _ ?st => generalize st; intros s1 end.
  apply wp_accountable_transaction, wp_bind, wp_query.
  apply wp_denied; [apply wp_audit_quiet|by intros; apply quiet_log|intros Ha].
  apply wp_bind, wp_query, wp_bind, wp_guard; [intros _|done]. apply wp_bind, wp_query.
  apply wp_denied; [apply wp_audit_quiet|by intros; apply quiet_log|intros _].
  apply wp_bind, wp_from_option; [intros r _|done].
  apply wp_bind, wp_update. apply wp_record_change; [done|]. apply tenant_role_effect.
  unfold tenant_holder. by destruct (active_tenant_role _ _).
Qed.

Lemma accountable_set_source_access p workspace user v allowed version trace policy s :
  wp (set_source_access p workspace user v allowed version trace policy) (λ _, accountable p s) s.
Proof.
  assert (accountable p s s) as Hrefl by by apply quiet_accountable.
  unfold set_source_access. do 2 (apply wp_bind, wp_checked_id; intros _; [|done]).
  apply wp_bind, wp_guard; [intros _|done]. apply wp_bind, wp_clock.
  eapply wp_mono; [intros o s' H'; apply accountable_tick, H'|].
  match goal with |- wp _ _ ?st => generalize st; intros s1 end.
  apply wp_accountable_transaction, wp_bind, wp_workspace_for; [intros w Hw|by intros; apply quiet_log].
  apply wp_bind, wp_query, wp_bind, wp_guard; [intros Ha|done].
  apply wp_bind, wp_query, wp_bind, wp_guard; [intros _|done].
  apply wp_bind, wp_update, wp_bind, wp_update. apply wp_record_change; [done|].
  by eapply source_access_effect, is_admin_authority.
Qed.

Lemma wp_policy_authority p scope workspace trace policy (Q : outcome WorkspaceRow → State A I → Prop) s :
  (∀ w, policy_change_allowed scope (role_binding (db s) p workspace w) = true → Q (Ret w) s) →
  (∀ e s', quiet s s' → Q (Raise e) s') →
  wp (policy_authority p scope workspace trace policy) Q s.
Proof.
  intros H1 H2. unfold policy_authority. apply wp_bind, wp_workspace_for; [intros w _|by intros; apply H2].
  apply wp_bind, wp_query. apply wp_denied; [apply wp_audit_quiet|done|]. intros Ha. by apply wp_ret, H1.
Qed.

Lemma accountable_policy_change p scope scope_arg workspace permission effect locked version target
    trace policy s :
  wp (policy_change p scope scope_arg workspace permission effect locked version target trace policy)
    (λ _, accountable p s) s.
Proof.
  unfold policy_change. apply wp_bind, wp_clock.
  eapply wp_mono; [intros o s' H'; apply accountable_tick, H'|].
  match goal with |- wp _ _ ?st => generalize st; intros s1 end.
  apply wp_accountable_transaction, wp_bind, wp_policy_authority; [intros w Ha|by intros; apply quiet_log].
  do 2 apply wp_bind, wp_query.
  apply wp_denied; [apply wp_audit_quiet|by intros; apply quiet_log|intros _].
  apply wp_bind, wp_update. apply wp_record_change; [done|]. apply policy_effect.
  destruct scope; simpl in Ha; [|by eapply is_admin_authority].
  destruct (role_binding _ _ _ _) as [b|] eqn:Hb; [|done]. bools.
  eapply holds_tenant; [by apply role_binding_iff|done].
Qed.
(** The caller the identity service names for an access token *)
Definition named_caller (access_token trace policy : string) s (p : IdentityPrincipal) : Prop :=
  ∃ i, identity s = Some i ∧ result (validate_access access_token trace policy) i = Ret p.

Lemma wp_at_identity {B} (m : M I B) Q s :
  (∀ i i' o, identity s = Some i → m i = (i', o) → Q o (set_identity (Some i') s)) →
  (∀ e, identity s = None → Q (Raise e) s) →
  wp (at_identity m) Q s.
Proof.
  intros H1 H2. unfold wp, at_identity. destruct (identity s) as [i|] eqn:Hi; [|by apply H2].
  destruct (m i) as [i' o] eqn:Hm. by eapply H1.
Qed.

Lemma accountable_set_permission_policy token step_up scope_arg workspace permission effect locked
    version trace policy s :
  wp (set_permission_policy token step_up scope_arg workspace permission effect locked version trace policy)
    (λ _ s', (db s' = db s ∧ log s `prefix_of` log s') ∨
      ∃ p, named_caller token trace policy s p ∧ accountable p s s') s.
Proof.
  unfold set_permission_policy. apply wp_bind, wp_gets, wp_bind, wp_guard; [intros _|by left].
  apply wp_bind, wp_from_option; [intros scope _|by left]. apply wp_bind, wp_guard; [intros _|by left].
  apply wp_bind, wp_at_identity; [intros i i' o Hi Hv|by left].
  destruct o as [p|e]; [|by left].
  assert (named_caller token trace policy s p) as Hp.
  { exists i. by rewrite Hv. }
  apply wp_mono with (Q := λ _, accountable p s); [by right; eauto|].
  set (s1 := set_identity _ s). assert (accountable p s s1) as H1 by by split; [|left].
  assert (db s1 = db s) as Hd1 by done. clearbody s1.
  apply wp_bind. eapply wp_mono with (Q := λ o s', s' = s1).
  2: { destruct scope; [done|]. by apply wp_checked_id. }
  intros [target|e] s' ->; [|done].
  apply wp_bind, wp_db_transaction; intros Hc; [done|].
  apply wp_bind, wp_policy_authority; [intros w Ha; apply wp_ret|].
  2: { intros e s' Hq. eapply accountable_trans; [done..|]. apply rollback_accountable. by destruct Hq. }
  apply wp_bind, wp_at_identity; [|done].
  intros j j' o Hj Hm. set (s2 := set_identity _ s1).
  assert (accountable p s s2) as H2 by by (destruct H1; split).
  assert (db s2 = db s) as Hd2 by done. clearbody s2. destruct o as [[]|e]; [|done].
  eapply wp_mono; [|apply (accountable_policy_change p)].
  intros o s' Hs'. by eapply accountable_trans.
Qed.

Lemma accountable_authorize_action p workspace action trace policy requested s :
  wp (authorize_action p workspace action trace policy requested) (λ _, quiet s) s.
Proof. eapply wp_mono; [|apply wp_authorize_action]. by intros ? ? []. Qed.

Lemma wp_find_descriptor p result_id trace policy (Q : outcome HistoricalResultDescriptor → State A I → Prop) s :
  (∀ h, hd_tenant_id h = tenant_id p →
     read_descriptor (db s) (tenant_id p) (hd_workspace_id h) result_id = Some h → Q (Ret h) s) →
  (∀ e s', quiet s s' → Q (Raise e) s') →
  wp (find_descriptor p result_id trace policy) Q s.
Proof.
  intros H1 H2. unfold find_descriptor. apply wp_bind, wp_checked_id; intros _; [|by apply H2].
  apply wp_bind, wp_query. destruct (historical_results (db s) !! result_id) as [r|] eqn:Hr; simpl.
  - destruct (String.eqb_spec (hr_tenant_id r) (tenant_id p)) as [Ht|].
    + unfold read_descriptor at 1. rewrite Hr. simpl. rewrite Ht, !String.eqb_refl. simpl.
      apply wp_ret, H1; simpl; [done|]. unfold read_descriptor. rewrite Hr. simpl.
      by rewrite Ht, !String.eqb_refl.
    + apply wp_bind, wp_audit; intros; [apply wp_raise|]; by apply H2.
  - apply wp_bind, wp_audit; intros; [apply wp_raise|]; by apply H2.
Qed.

(** Inserts outside the tables that decide about access *)
Lemma wp_insert_elsewhere `{Countable K} {V} (table : Db → gmap K V) set k v s :
  (∀ m d, untouched d (set m d)) →
  wp (insert_row table set k v) (λ o s', untouched (db s) (db s') ∧ log s' = log s ∧ closed s' = closed s) s.
Proof. intros Hset. apply wp_insert_row; [|done]. intros _. simpl. split_and!; [apply Hset|done..]. Qed.

Lemma wp_insert_descriptor h now s :
  wp (insert_descriptor h now)
    (λ o s', untouched (db s) (db s') ∧ log s' = log s ∧ closed s' = closed s) s.
Proof.
  assert (untouched (db s) (db s) ∧ log s = log s ∧ closed s = closed s) as Hrefl by done.
  unfold insert_descriptor. do 2 (apply wp_bind, wp_guard; [intros _|done]).
  apply wp_bind, wp_query, wp_bind, wp_guard; [intros _|done].
  apply wp_bind. eapply wp_mono; [|apply wp_insert_elsewhere].
  2: { intros m d t. split; [|intros w]; by constructor. }
  intros [[]|e] s1 H1; [|done].
  set (J := λ s', untouched (db s) (db s') ∧ log s' = log s ∧ closed s' = closed s).
  apply wp_mfor with (I := J) (E := λ _, J); [done| |by auto..].
  intros e s2 _ (Hu & Hl & Hc). eapply wp_mono; [|apply wp_insert_elsewhere].
  2: { intros m d t. split; [|intros w]; by constructor. }
  intros [[]|e'] s3 (Hu' & Hl' & Hc'); (split_and!; [by etrans|congruence..]).
Qed.

Lemma accountable_register p h trace policy s :
  wp (register_historical_result p h trace policy) (λ _, accountable p s) s.
Proof.
  assert (accountable p s s) as Hrefl by by apply quiet_accountable.
  unfold register_historical_result. do 2 (apply wp_bind, wp_guard; [intros _|done]).
  apply wp_bind. eapply wp_mono; [|apply accountable_authorize_action].
  intros [g|e] s1 Hq; [|by apply quiet_accountable].
  eapply wp_mono; [|apply (wp_accountable_transaction p)].
  { intros o s' H'. eapply accountable_trans; [by apply quiet_accountable| |done]. apply Hq. }
  clear Hq g. apply wp_bind, wp_workspace_for; [intros w Hw|by intros; apply quiet_log].
  apply wp_bind, wp_query, wp_bind, wp_guard; [intros _|done]. apply wp_bind, wp_clock, wp_bind.
  eapply wp_mono; [|apply wp_insert_descriptor]. simpl.
  intros [[]|e] s2 (Hu & Hl & _); [|by rewrite Hl].
  apply wp_audit; [intros s' e [Hd _ _ _] Hl' _|intros e s' _ Hl' _]; [constructor|]; rewrite ?Hl', ?Hl.
  - by apply prefix_app_r.
  - left. by rewrite Hd.
  - done.
Qed.
(** What an evaluation does, on every path. *)
Lemma wp_evaluate_historical_access p result_id action trace policy s :
  wp (evaluate_historical_access p result_id action trace policy) (λ o s', log s `prefix_of` log s' ∧
    match o with
    | Ret dec => ∃ h w e,
        hd_tenant_id h = tenant_id p ∧
        read_descriptor (db s) (tenant_id p) (hd_workspace_id h) result_id = Some h ∧
        reachable_workspace (db s) p (hd_workspace_id h) w ∧
        dec = access_decision (db s) p h w action (ad_decision_id dec) (ad_evaluated_at dec) ∧
        access_decisions (db s) !! ad_decision_id dec = None ∧
        db s' = set_access_decisions (<[ad_decision_id dec := dec]> (access_decisions (db s))) (db s) ∧
        log s' = log s ++ [e] ∧
        event_of p (Some (hd_workspace_id h)) "authorization.access.decided"
          (if bool_decide (ad_state dec = ACCESS_BLOCKED) then DENIED else SUCCEEDED)
          (ad_decision_id dec) e
    | Raise _ => db s' = db s
    end) s.
Proof.
  unfold evaluate_historical_access. apply wp_db_transaction; intros _; [done|].
  apply wp_bind, wp_find_descriptor; [intros h Ht Hh|by intros e s' []].
  apply wp_bind, wp_workspace_for; [intros w Hw|by intros e s' []].
  apply wp_bind, wp_new_id, wp_bind, wp_clock, wp_bind, wp_query, wp_bind.
  apply wp_insert_row; [intros Hnew|done].
  apply wp_bind, wp_audit; [|by intros e s' []].
  intros s' e [Hd _ _ Hl] Hlog Hev. apply wp_ret. split; [done|].
  exists h, w, e. by split_and!.
Qed.

Lemma accountable_evaluate p result_id action trace policy s :
  wp (evaluate_historical_access p result_id action trace policy)
    (λ _ s', untouched (db s) (db s') ∧ log s `prefix_of` log s') s.
Proof.
  eapply wp_mono; [|apply wp_evaluate_historical_access].
  intros [dec|e] s' [Hl H]; (split; [|done]); [|by rewrite H].
  destruct H as (h & w & e & _ & _ & _ & _ & _ & -> & _). intros t. split; [|intros w']; by constructor.
Qed.

(** The row that records a rerun of [h] for the caller *)
Definition rerun_row (p : IdentityPrincipal) (h : HistoricalResultDescriptor) (ra : RerunAuthorization)
    (now : Z) : RerunRow :=
  mkRerunRow (hd_result_id h) (ra_access_decision_id ra) (tenant_id p) (hd_workspace_id h) (user_id p)
    (dumps true (snapshot_payload (ra_snapshot ra))) now.

(** What [commit_rerun] binds the rerun to and records, in the tables [d]. *)
Record rerun_committed (d d' : Db) (p : IdentityPrincipal) (result_id : string) (decision : AccessDecision)
    (ra : RerunAuthorization) (h : HistoricalResultDescriptor) (w : WorkspaceRow) (b : RoleBinding)
    (now : Z) : Prop := {
  rc_result : read_descriptor d (tenant_id p) (hd_workspace_id h) result_id = Some h;
  rc_workspace : reachable_workspace d p (hd_workspace_id h) w;
  rc_role : holds_role d p (hd_workspace_id h) w b;
  rc_decision : ra_access_decision_id ra = ad_decision_id decision ∧
    is_Some (access_decisions d !! ad_decision_id decision);
  rc_snapshot : ra_snapshot ra = mkSnapshot (tenant_id p) (hd_workspace_id h) (user_id p) (rb_scope b)
    (rb_version b) (wk_acl_version w) (ad_policy_version decision) (wk_data_area w)
    (wk_cost_limit_cents w) (allowed_sources decision h);
  rc_fresh : rerun_requests d !! ra_run_request_id ra = None;
  rc_recorded : d' = set_rerun_requests (<[ra_run_request_id ra := rerun_row p h ra now]> (rerun_requests d)) d
}.

Lemma wp_commit_rerun p result_id trace policy decision s :
  wp (commit_rerun p result_id trace policy decision)
    (λ o s', log s `prefix_of` log s' ∧ match o with
      | Ret ra => ∃ h w b now e, rerun_committed (db s) (db s') p result_id decision ra h w b now ∧
          log s' = log s ++ [e] ∧
          event_of p (Some (hd_workspace_id h)) "authorization.rerun.authorized" SUCCEEDED
            (ra_run_request_id ra) e
      | Raise _ => db s' = db s
      end) s.
Proof.
  unfold commit_rerun. apply wp_db_transaction; intros _; [done|].
  apply wp_bind, wp_find_descriptor; [intros h Ht Hh|by intros e s' []].
  apply wp_bind, wp_workspace_for; [intros w Hw|by intros e s' []].
  apply wp_bind, wp_query, wp_bind, wp_from_option; [intros b Hb|done].
  apply wp_bind, wp_new_id, wp_bind, wp_clock, wp_bind, wp_query, wp_bind, wp_guard; [intros Hk|done]. bools.
  apply wp_bind, wp_insert_row; [intros Hn|done].
  apply wp_bind, wp_audit; [|by intros e s' []].
  intros s' e [Hd _ _ Hl] Hlog Hev. apply wp_ret. split; [done|].
  eexists h, w, b, _, e. apply role_binding_iff in Hb. split_and!; [|done..].
  by constructor; [..|rewrite Hd].
Qed.

Lemma committed_untouched d d' p x dec ra h w b now :
  rerun_committed d d' p x dec ra h w b now → untouched d d'.
Proof. intros [_ _ _ _ _ _ ->] t. split; [|intros w']; by constructor. Qed.

Lemma accountable_commit_rerun p result_id trace policy decision s :
  wp (commit_rerun p result_id trace policy decision)
    (λ _ s', untouched (db s) (db s') ∧ log s `prefix_of` log s') s.
Proof.
  eapply wp_mono; [|apply wp_commit_rerun]. intros [ra|e] s' [Hl H]; (split; [|done]).
  - destruct H as (h & w & b & now & e & Hc & _). by eapply committed_untouched.
  - by rewrite H.
Qed.

(** A transaction that only reads, and writes events *)
Lemma wp_quiet_transaction {B} (m : M (State A I) B) s :
  wp m (λ _, quiet s) s → wp (db_transaction m) (λ _, quiet s) s.
Proof.
  intros H. apply wp_db_transaction; intros _; [done|]. eapply wp_mono; [|exact H].
  intros [b|e] s' [Hd Hc Hi Hl]; by constructor.
Qed.

Lemma quiet_evaluate_permission p workspace permission requested s :
  wp (evaluate_permission p workspace permission requested) (λ _, quiet s) s.
Proof.
  apply wp_quiet_transaction, wp_bind, wp_checked_id; intros _; [|done].
  apply wp_bind, wp_query, wp_bind, wp_from_option; [intros w _|done].
  apply wp_bind, wp_query, wp_bind, wp_assert_organization; [intros _|done].
  by apply wp_bind, wp_from_option.
Qed.

Lemma quiet_audit_read p workspace trace policy s :
  wp (authorize_audit_read p workspace trace policy) (λ _, quiet s) s.
Proof.
  unfold authorize_audit_read. destruct workspace as [w|].
  - apply wp_bind. eapply wp_mono; [|apply accountable_authorize_action]. by intros [].
  - apply wp_quiet_transaction, wp_bind, wp_query, wp_bind, wp_when.
    + intros _. apply wp_assert_organization; [intros _|done]. apply wp_bind, wp_audit; [|done].
      intros. by apply wp_guard.
    + intros _. apply wp_bind, wp_audit; [|done]. intros. by apply wp_guard.
Qed.

Lemma quiet_organization_admin p trace policy s :
  wp (organization_admin_workspace p trace policy) (λ _, quiet s) s.
Proof.
  apply wp_quiet_transaction, wp_bind, wp_query, wp_bind, wp_query. cbv zeta.
  apply wp_bind, wp_audit; [|done]. intros s' e Hq _ _. apply wp_bind, wp_guard; [intros _|done].
  by apply wp_from_option.
Qed.
End Accountable.

(** *** Sequences of calls *)

(** The calls a client makes of the service. *)
Inductive request :=
| EvaluatePermission (workspace : string) (permission : Permission) (requested : bool)
| AuthorizeAction (workspace : string) (action : Action) (requested : list Permission)
| AuthorizeAuditRead (workspace : option string)
| OrganizationAdminWorkspace
| SetMembership (workspace user : string) (role : Role) (expected_version : Z)
| SetTenantRole (user : string) (role : option Role) (expected_version : Z)
| SetSourceAccess (workspace user source_version : string) (allowed : bool) (expected_version : Z)
| RegisterHistoricalResult (h : HistoricalResultDescriptor)
| EvaluateHistoricalAccess (result_id : string) (action : AccessAction)
| RequireHistoricalAccess (result_id : string) (action : AccessAction)
| AuthorizeRerun (result_id : string).

Section Sequences.
Context {W : World} {O : SetOrder} {A I : Type} {AS : AuditStore A} {IB : IdentityBoundary I}.
Implicit Types s : State A I.

(** The state after a call, whether it returned or raised *)
Definition perform (p : IdentityPrincipal) (trace policy : string) (r : request) s : State A I :=
  match r with
  | EvaluatePermission w q b => final (evaluate_permission p w q b) s
  | AuthorizeAction w a l => final (authorize_action p w a trace policy l) s
  | AuthorizeAuditRead w => final (authorize_audit_read p w trace policy) s
  | OrganizationAdminWorkspace => final (organization_admin_workspace p trace policy) s
  | SetMembership w u r v => final (set_membership p w u r v trace policy) s
  | SetTenantRole u r v => final (set_tenant_role p u r v trace policy) s
  | SetSourceAccess w u sv b v => final (set_source_access p w u sv b v trace policy) s
  | RegisterHistoricalResult h => final (register_historical_result p h trace policy) s
  | EvaluateHistoricalAccess x a => final (evaluate_historical_access p x a trace policy) s
  | RequireHistoricalAccess x a => final (require_historical_access p x a trace policy) s
  | AuthorizeRerun x => final (authorize_rerun p x trace policy) s
  end.

(** One step while only callers of [C] use the service: a call, a change of a
    permission policy by a caller the identity service names, or a change of
    what other components keep. *)
Inductive call (C : IdentityPrincipal → Prop) s : State A I → Prop :=
| call_perform p trace policy r : C p → call C s (perform p trace policy r s)
| call_set_permission_policy token step_up scope w q e l v trace policy :
    (∀ p, named_caller token trace policy s p → C p) →
    call C s (final (set_permission_policy token step_up scope w q e l v trace policy) s)
| call_elsewhere members i :
    call C s (set_identity i (set_db (set_tenant_memberships members (db s)) s)).

Lemma accountable_untouched p s s' :
  untouched (db s) (db s') → log s `prefix_of` log s' → accountable p s s'.
Proof. by constructor; [|left]. Qed.

Lemma accountable_require p result_id action trace policy s :
  wp (require_historical_access p result_id action trace policy)
    (λ _ s', untouched (db s) (db s') ∧ log s `prefix_of` log s') s.
Proof.
  apply wp_bind. eapply wp_mono; [|apply accountable_evaluate].
  intros [dec|e] s' H; [|done]. by apply wp_bind, wp_guard.
Qed.

Lemma accountable_perform p trace policy r s : accountable p s (perform p trace policy r s).
Proof.
  destruct r; simpl.
  - apply quiet_accountable, quiet_evaluate_permission.
  - apply quiet_accountable, accountable_authorize_action.
  - apply quiet_accountable, quiet_audit_read.
  - apply quiet_accountable, quiet_organization_admin.
  - apply accountable_set_membership.
  - apply accountable_set_tenant_role.
  - apply accountable_set_source_access.
  - apply accountable_register.
  - eapply accountable_untouched; apply accountable_evaluate.
  - eapply accountable_untouched; apply accountable_require.
  - enough (wp (authorize_rerun p result_id trace policy)
      (λ _ s', untouched (db s) (db s') ∧ log s `prefix_of` log s') s) as [? ?] by by apply accountable_untouched.
    apply wp_bind. eapply wp_mono; [|apply accountable_require]. intros [dec|e] s1 [Hu Hl]; [|done].
    eapply wp_mono; [|apply accountable_commit_rerun]. intros o s' [Hu' Hl']. split; by etrans.
Qed.

(** What has happened since [s0] when no caller of [C] has a tenant role. *)
Record contained (C : IdentityPrincipal → Prop) (t : string) (s0 s : State A I) : Prop := {
  cn_tenant : same_tenant t (db s0) (db s);
  cn_workspace w :
    (∀ p, C p → tenant_id p = t → ¬ workspace_admin (db s0) t w (user_id p)) →
    same_workspace t w (db s0) (db s);
  cn_admin w u : workspace_admin (db s) t w u → workspace_admin (db s0) t w u;
  cn_log : ∃ new, log s = log s0 ++ new ∧
    (same_rows t (db s0) (db s) ∨ ∃ p e, C p ∧ tenant_id p = t ∧ e ∈ new ∧ change_event p e)
}.

Lemma same_tenant_role d d' p :
  same_tenant (tenant_id p) d d' → active_tenant_role d' p = active_tenant_role d p.
Proof. intros [H _ _]. unfold active_tenant_role. by rewrite H. Qed.

Lemma contained_untouched C t s0 s s' :
  contained C t s0 s → untouched (db s) (db s') → log s `prefix_of` log s' → contained C t s0 s'.
Proof.
  intros [Ht Hw Ha (new & Hl & Hch)] Hu [l1 Hl1]. destruct (Hu t) as [Htu Hwu].
  split; [by transitivity (db s)|..].
  - intros w Hno. etrans; [by apply Hw|apply Hwu].
  - intros w u Hadm. by eapply Ha, untouched_admin.
  - exists (new ++ l1). split; [by rewrite Hl1, Hl, app_assoc|].
    destruct Hch as [Hs|(q & e & ? & ? & ? & ?)]; [left; transitivity (db s); [done|by split]|right].
    exists q, e. split_and!; [done..| |done]. set_solver.
Qed.

Lemma contained_refl C t s : contained C t s s.
Proof. split; [done..|]. exists []. rewrite app_nil_r. split; [done|by left]. Qed.

(** A call that is accountable keeps what was contained contained. *)
Lemma contained_accountable C t p s0 s s' :
  (∀ p, C p → tenant_id p = t → active_tenant_role (db s0) p = None) → C p →
  contained C t s0 s → accountable p s s' → contained C t s0 s'.
Proof.
  intros HC Hp Hcn [Hpre [Hu|(He & l & e & Hlog & Hev)]]; [by eapply contained_untouched|].
  destruct Hcn as [Ht Hw Ha (new & Hl & Hch)].
  assert (t = tenant_id p → ¬ tenant_holder (db s) p) as Hnot.
  { intros Heq. unfold tenant_holder. rewrite (same_tenant_role (db s0)); [|congruence].
    rewrite HC by done. by intros []. }
  split.
  - destruct (ce_tenant _ _ _ He t) as [Hs|[Heq Hh]]; [by transitivity (db s)|]. by destruct Hnot.
  - intros w Hno. etrans; [by apply Hw|]. destruct (ce_workspace _ _ _ He t w) as [|[Heq [Hh|Hadm]]].
    + done.
    + by destruct Hnot.
    + apply Ha in Hadm. by destruct (Hno p).
  - intros w u Hadm. destruct (ce_admin _ _ _ He t w u Hadm) as [|[Heq Hh]]; [by apply Ha|].
    by destruct Hnot.
  - exists (new ++ l ++ [e]). split; [by rewrite Hlog, Hl, <- app_assoc|].
    destruct (decide (t = tenant_id p)) as [Heq|Hne].
    + right. exists p, e. split_and!; [done..| |done]. set_solver.
    + assert (same_rows t (db s) (db s')) as Hs.
      { split; [by destruct (ce_tenant _ _ _ He t) as [|[]]|].
        intros w. by destruct (ce_workspace _ _ _ He t w) as [|[]]. }
      destruct Hch as [Hs0|(q & e' & ? & ? & ? & ?)]; [left; by transitivity (db s)|right].
      exists q, e'. split_and!; [done..| |done]. set_solver.
Qed.

Lemma untouched_elsewhere d members : untouched d (set_tenant_memberships members d).
Proof. intros t. split; [|intros w]; by constructor. Qed.

Lemma contained_call C t s0 s s' :
  (∀ p, C p → tenant_id p = t → active_tenant_role (db s0) p = None) →
  contained C t s0 s → call C s s' → contained C t s0 s'.
Proof.
  intros HC Hs [p trace policy r Hp|token step_up scope w q e l v trace policy Hn|members i].
  - eapply contained_accountable; [done..|apply accountable_perform].
  - destruct (accountable_set_permission_policy token step_up scope w q e l v trace policy s)
      as [[Hd Hl]|(p & Hp & Hacc)].
    + eapply contained_untouched; [done| |done]. by rewrite Hd.
    + eapply contained_accountable; [done|by apply Hn|done..].
  - eapply contained_untouched; [done|apply untouched_elsewhere|done].
Qed.

(** C2: Privileges do not grow. However callers of whom none has a tenant role
    in [t] use the service, and whatever the other components do, the tenant's
    roles and policy stay as they are, and so does every workspace that none of
    them administers: its memberships, policy and source access, and its
    version for access control. Nobody becomes an administrator of a workspace
    who was not one. Every change that is made is the caller's own to make and
    leaves its event in the audit store, from which nothing is removed. *)
Theorem no_escalation C t s s' :
  (∀ p, C p → tenant_id p = t → active_tenant_role (db s) p = None) →
  rtc (call C) s s' →
  same_tenant t (db s) (db s') ∧
  (∀ w, (∀ p, C p → tenant_id p = t → ¬ workspace_admin (db s) t w (user_id p)) →
        same_workspace t w (db s) (db s')) ∧
  (∀ w u, workspace_admin (db s') t w u → workspace_admin (db s) t w u) ∧
  ∃ new, log s' = log s ++ new ∧
    (same_rows t (db s) (db s') ∨ ∃ p e, C p ∧ tenant_id p = t ∧ e ∈ new ∧ change_event p e).
Proof.
  intros HC Hr. enough (contained C t s s') as [] by done.
  eapply (rtc_invariant _ (contained C t s)); [|done|apply contained_refl].
  intros s1 s2 H1 H2. by eapply contained_call.
Qed.
End Sequences.

(** ** Access to historical results *)

Section Evaluations.
Context (allowed : string → bool).

Definition revoked (e : EvidenceDependency) : bool := negb (allowed (de_source_version_id e)).

(** A revoked dependency that cannot be taken out of the result *)
Definition blocking (e : EvidenceDependency) : bool :=
  revoked e && (de_decisive e || negb (de_safe_separation e)).

(** The state of a result whose dependencies are [es] *)
Definition overall (es : list EvidenceDependency) : AccessState :=
  if existsb blocking es then ACCESS_BLOCKED
  else if existsb revoked es then PARTIALLY_REDACTED else AVAILABLE.

Definition kept_dependencies (es : list EvidenceDependency) : list EvidenceDependency :=
  filter (λ e, revoked e = false) es.
Definition revoked_dependencies (es : list EvidenceDependency) : list EvidenceDependency :=
  filter (λ e, revoked e = true) es.

(** The reasons the loop gives *)
Definition REVOCATION_REASONS : list string :=
  ["DECISIVE_DEPENDENCY_DENIED"; "SAFE_SEPARATION_UNAVAILABLE"; "SOURCE_ACCESS_REVOKED"].

(** What the loop has computed after the dependencies [es]. *)
Record evaluated (es : list EvidenceDependency) (v : Evaluation) : Prop := {
  ed_state : el_state v = overall es;
  ed_allowed : el_allowed_references v = map de_reference_id (kept_dependencies es);
  ed_masked : el_masked_references v = map de_reference_id (revoked_dependencies es);
  ed_allowed_segments : el_allowed_segments v = concat (map de_segment_ids (kept_dependencies es));
  ed_masked_segments : el_masked_segments v = concat (map de_segment_ids (revoked_dependencies es));
  ed_reasons : el_reasons v = [] ↔ el_state v = AVAILABLE;
  ed_no_reason c : c ∈ el_reasons v → c ∈ REVOCATION_REASONS;
  ed_decisive : "DECISIVE_DEPENDENCY_DENIED" ∈ el_reasons v ↔
    ∃ e, e ∈ es ∧ revoked e = true ∧ de_decisive e = true;
  ed_inseparable : "SAFE_SEPARATION_UNAVAILABLE" ∈ el_reasons v ↔
    ∃ e, e ∈ es ∧ revoked e = true ∧ de_decisive e = false ∧ de_safe_separation e = false
}.

Lemma overall_snoc es e :
  overall (es ++ [e]) =
    if blocking e || bool_decide (overall es = ACCESS_BLOCKED) then ACCESS_BLOCKED
    else if revoked e then PARTIALLY_REDACTED else overall es.
Proof.
  unfold overall. rewrite !existsb_app. simpl. rewrite !orb_false_r.
  destruct (existsb blocking es), (blocking e), (existsb revoked es), (revoked e); done.
Qed.

Lemma filter_snoc b es e :
  filter (λ e, revoked e = b) (es ++ [e]) =
  filter (λ e, revoked e = b) es ++ (if decide (revoked e = b) then [e] else []).
Proof. by rewrite filter_app. Qed.

Lemma exists_snoc {X} (P : X → Prop) (es : list X) e :
  (∃ x, x ∈ es ++ [e] ∧ P x) ↔ (∃ x, x ∈ es ∧ P x) ∨ P e.
Proof.
  setoid_rewrite elem_of_app. setoid_rewrite list_elem_of_singleton. split.
  - intros (x & [Hx| ->] & HP); [left; by exists x|by right].
  - intros [(x & Hx & HP)|HP]; [exists x; by auto|exists e; by auto].
Qed.

(** What a revoked dependency does to the state and the reasons *)
Lemma revoked_reasons es v e (q := if de_decisive e then (ACCESS_BLOCKED, el_reasons v ++ ["DECISIVE_DEPENDENCY_DENIED"])
    else if negb (de_safe_separation e) then (ACCESS_BLOCKED, el_reasons v ++ ["SAFE_SEPARATION_UNAVAILABLE"])
    else if negb (bool_decide (el_state v = ACCESS_BLOCKED))
    then (PARTIALLY_REDACTED, el_reasons v ++ ["SOURCE_ACCESS_REVOKED"])
    else (el_state v, el_reasons v)) :
  evaluated es v → revoked e = true →
  q.1 = overall (es ++ [e]) ∧ (q.2 = [] ↔ q.1 = AVAILABLE) ∧ (∀ c, c ∈ q.2 → c ∈ REVOCATION_REASONS) ∧
  ("DECISIVE_DEPENDENCY_DENIED" ∈ q.2 ↔ "DECISIVE_DEPENDENCY_DENIED" ∈ el_reasons v ∨ de_decisive e = true) ∧
  ("SAFE_SEPARATION_UNAVAILABLE" ∈ q.2 ↔ "SAFE_SEPARATION_UNAVAILABLE" ∈ el_reasons v ∨
    de_decisive e = false ∧ de_safe_separation e = false).
Proof.
  intros [Hst _ _ _ _ Hr Hno _ _] Hre. rewrite overall_snoc, <- Hst. unfold blocking. rewrite Hre. subst q.
  unfold REVOCATION_REASONS in *. clear - Hr Hno.
  destruct (de_decisive e), (de_safe_separation e); [..|destruct (el_state v)|destruct (el_state v)];
    simpl; split_and!; try done; try (split; [|done]; by destruct (el_reasons v));
    try (intros c; rewrite elem_of_app, list_elem_of_singleton; intros [Hc| ->]; [by apply Hno|is_in]);
    rewrite ?elem_of_app, ?list_elem_of_singleton; naive_solver.
Qed.

Lemma evaluated_step es v e : evaluated es v → evaluated (es ++ [e]) (evaluate_dependency allowed v e).
Proof.
  intros Hv. pose proof (revoked_reasons es v e Hv) as Hrr. destruct Hv as [Hst Ha Hm Has Hms Hr Hno Hd Hi].
  unfold kept_dependencies, revoked_dependencies, evaluate_dependency in *.
  assert (revoked e = negb (allowed (de_source_version_id e))) as Hre by done.
  pose proof (overall_snoc es e) as Ho. unfold blocking in Ho.
  destruct (allowed (de_source_version_id e)); simpl in Hre; rewrite Hre in *.
  - constructor; unfold kept_dependencies, revoked_dependencies; simpl;
      rewrite ?exists_snoc, ?filter_snoc, ?Hre, ?map_app, ?concat_app; simpl; rewrite ?app_nil_r; try done;
      [|(congruence || naive_solver)..].
    rewrite Ho, Hst. simpl. by destruct (overall es).
  - destruct (Hrr eq_refl) as (Hq & Hqr & Hqn & Hqd & Hqi). clear Hrr.
    destruct (if de_decisive e then _ else _) as [st rs]. simpl in Hq, Hqr, Hqn, Hqd, Hqi.
    constructor; unfold kept_dependencies, revoked_dependencies; simpl;
      rewrite ?exists_snoc, ?filter_snoc, ?Hre, ?map_app, ?concat_app; simpl; rewrite ?app_nil_r;
      congruence || done || naive_solver.
Qed.

Lemma evaluate_granted h :
  evaluated (hd_dependencies h) (evaluate true allowed h).
Proof.
  unfold evaluate. generalize (hd_dependencies h). intros es.
  induction es as [|e es IH] using rev_ind.
  { constructor; simpl; try done; [by intros c ?%elem_of_nil|..];
      (split; [by intros ?%elem_of_nil|by intros (e & ?%elem_of_nil & _)]). }
  rewrite fold_left_app. by apply evaluated_step.
Qed.

Lemma overall_blocked es : overall es = ACCESS_BLOCKED ↔ ∃ e, e ∈ es ∧ blocking e = true.
Proof.
  unfold overall. destruct (existsb blocking es) eqn:He.
  - split; [|done]. intros _. apply existsb_exists in He as (e & He%list_elem_of_In & ?). by exists e.
  - split; [by destruct (existsb revoked es)|]. intros (e & Hin & Hb).
    apply not_true_iff_false in He. exfalso. apply He, existsb_exists.
    exists e. by rewrite <- list_elem_of_In.
Qed.

Lemma overall_available es : overall es = AVAILABLE ↔ ∀ e, e ∈ es → revoked e = false.
Proof.
  unfold overall. split.
  - intros Ho e Hin. destruct (revoked e) eqn:Hr; [|done].
    assert (existsb revoked es = true) as Hex
      by (apply existsb_exists; exists e; by rewrite <- list_elem_of_In).
    rewrite Hex in Ho. by destruct (existsb blocking es).
  - intros Hall. assert (∀ f, (∀ e, e ∈ es → f e = false) → existsb f es = false) as Hno.
    { intros f Hf. apply not_true_iff_false. intros (e & Hin%list_elem_of_In & He)%existsb_exists.
      by rewrite Hf in He. }
    rewrite !Hno; [done|done|]. intros e Hin. unfold blocking. by rewrite Hall.
Qed.
End Evaluations.

Section Historical.
Context {W : World} {O : SetOrder} {A I : Type} {AS : AuditStore A} {IB : IdentityBoundary I}.
Implicit Types s : State A I.

(** The caller's current role permits what the access needs. *)
Definition access_granted (d : Db) (p : IdentityPrincipal) (workspace : string) (w : WorkspaceRow)
    (action : AccessAction) : Prop :=
  ∃ b, holds_role d p workspace w b ∧ ACCESS_ACTIONS action ∈ ROLE_ACTION_MATRIX (rb_role b) ∧
    ∀ q, q ∈ ACTION_PERMISSIONS (ACCESS_ACTIONS action) →
         permitted d (rb_role b) (tenant_id p) workspace q.

Lemma access_grant_iff d p workspace w action :
  is_Some (access_grant d p workspace w action) ↔ access_granted d p workspace w action.
Proof.
  unfold access_grant. split.
  - intros [g (b & Hb & Ha & Hp & _)%action_grant_iff]. exists b. split_and!; [done..|]. auto.
  - intros (b & Hb & Ha & Hp). eexists. apply action_grant_iff. exists b.
    split_and!; [done..| |done]. intros q [|Hq]; [auto|]. by apply elem_of_nil in Hq.
Qed.

(** The sources of the result the caller may not use now *)
Definition revoked_for (d : Db) (p : IdentityPrincipal) (h : HistoricalResultDescriptor)
    (e : EvidenceDependency) : Prop :=
  revoked (source_allowed d p (hd_workspace_id h)) e = true.

(** What a decision on [h] says, given the current tables. *)
Record decided (d : Db) (p : IdentityPrincipal) (h : HistoricalResultDescriptor) (w : WorkspaceRow)
    (action : AccessAction) (dec : AccessDecision) : Prop := {
  dc_blocked : ad_state dec = ACCESS_BLOCKED ↔
    ¬ access_granted d p (hd_workspace_id h) w action ∨
    ∃ e, e ∈ hd_dependencies h ∧ revoked_for d p h e ∧
         (de_decisive e = true ∨ de_safe_separation e = false);
  dc_available : ad_state dec = AVAILABLE ↔
    access_granted d p (hd_workspace_id h) w action ∧
    ∀ e, e ∈ hd_dependencies h → ¬ revoked_for d p h e;
  dc_allowed r : r ∈ ad_allowed_reference_ids dec ↔
    access_granted d p (hd_workspace_id h) w action ∧
    ∃ e, e ∈ hd_dependencies h ∧ de_reference_id e = r ∧ ¬ revoked_for d p h e;
  dc_allowed_segments g : g ∈ ad_allowed_segment_ids dec ↔
    access_granted d p (hd_workspace_id h) w action ∧
    ∃ e, e ∈ hd_dependencies h ∧ g ∈ de_segment_ids e ∧ ¬ revoked_for d p h e;
  dc_masked r : r ∈ ad_masked_reference_ids dec ↔
    (¬ access_granted d p (hd_workspace_id h) w action ∧ r ∈ hd_evidence_reference_ids h) ∨
    access_granted d p (hd_workspace_id h) w action ∧
    ∃ e, e ∈ hd_dependencies h ∧ de_reference_id e = r ∧ revoked_for d p h e;
  dc_masked_segments g : g ∈ ad_masked_segment_ids dec ↔
    ∃ e, e ∈ hd_dependencies h ∧ g ∈ de_segment_ids e ∧
         (access_granted d p (hd_workspace_id h) w action → revoked_for d p h e);
  dc_reasons : ad_reason_codes dec = ["CURRENT_ACCESS_ALLOWED"] ↔ ad_state dec = AVAILABLE;
  dc_denied : "CURRENT_MEMBERSHIP_OR_PERMISSION_DENIED" ∈ ad_reason_codes dec ↔
    ¬ access_granted d p (hd_workspace_id h) w action;
  dc_decisive : "DECISIVE_DEPENDENCY_DENIED" ∈ ad_reason_codes dec ↔
    access_granted d p (hd_workspace_id h) w action ∧
    ∃ e, e ∈ hd_dependencies h ∧ revoked_for d p h e ∧ de_decisive e = true;
  dc_inseparable : "SAFE_SEPARATION_UNAVAILABLE" ∈ ad_reason_codes dec ↔
    access_granted d p (hd_workspace_id h) w action ∧
    ∃ e, e ∈ hd_dependencies h ∧ revoked_for d p h e ∧ de_decisive e = false ∧ de_safe_separation e = false;
  dc_actor : ad_actor_id dec = user_id p ∧ ad_tenant_id dec = tenant_id p ∧
    ad_workspace_id dec = hd_workspace_id h ∧ ad_resource_id dec = hd_result_id h ∧
    ad_action dec = action ∧ ad_acl_version dec = wk_acl_version w;
  dc_role : match ad_role_scope dec with
    | Some scope => ∃ b, holds_role d p (hd_workspace_id h) w b ∧ rb_scope b = scope ∧
        ad_membership_version dec = rb_version b
    | None => (¬ ∃ b, holds_role d p (hd_workspace_id h) w b) ∧ ad_membership_version dec = 0
    end;
  dc_policy : versions_named d (tenant_id p) (hd_workspace_id h) (ad_policy_version dec)
}.

Lemma fromkeys_nil l : sorted_strings (fromkeys l) = [] ↔ l = [].
Proof.
  split; [|by intros ->]. intros Hs. destruct l as [|x l]; [done|]. exfalso.
  assert (x ∈ sorted_strings (fromkeys (x :: l))) as Hx
    by (apply elem_of_sorted_strings, elem_of_fromkeys; left).
  rewrite Hs in Hx. by apply elem_of_nil in Hx.
Qed.

Lemma decision_reasons l c :
  c ∉ l →
  (if bool_decide (sorted_strings (fromkeys l) = []) then [c] else sorted_strings (fromkeys l)) = [c] ↔
  l = [].
Proof.
  intros Hc. case_bool_decide as Hs; rewrite fromkeys_nil in Hs; [done|]. split; [|done].
  intros Heq. exfalso. apply Hc, elem_of_fromkeys, elem_of_sorted_strings. rewrite Heq. left.
Qed.

Lemma elem_of_segments g (l : list EvidenceDependency) :
  g ∈ concat (map de_segment_ids l) ↔ ∃ e, e ∈ l ∧ g ∈ de_segment_ids e.
Proof.
  rewrite list_elem_of_In, in_concat. split.
  - intros (x & (e & <- & He)%in_map_iff & Hg). exists e. by rewrite !list_elem_of_In.
  - intros (e & He & Hg). exists (de_segment_ids e).
    rewrite <- !list_elem_of_In. split; [by apply list_elem_of_fmap_2|done].
Qed.

(** The reason codes are the reasons, or the code of allowed access. *)
Lemma elem_of_reason_codes c l (codes := sorted_strings (fromkeys l)) :
  c ≠ "CURRENT_ACCESS_ALLOWED" →
  c ∈ (if bool_decide (codes = []) then ["CURRENT_ACCESS_ALLOWED"] else codes) ↔ c ∈ l.
Proof.
  intros Hc. subst codes. case_bool_decide as Hs.
  - apply fromkeys_nil in Hs as ->. by rewrite list_elem_of_singleton, elem_of_nil.
  - by rewrite elem_of_sorted_strings, elem_of_fromkeys.
Qed.

Lemma role_binding_None d p workspace w :
  role_binding d p workspace w = None → ¬ ∃ b, holds_role d p workspace w b.
Proof. intros Hn [b Hb%role_binding_iff]. congruence. Qed.

Lemma decided_granted d p h w action id now :
  access_granted d p (hd_workspace_id h) w action →
  decided d p h w action (access_decision d p h w action id now).
Proof.
  intros Hs. unfold access_decision, access_evaluation. rewrite bool_decide_true by by apply access_grant_iff.
  pose proof (evaluate_granted (source_allowed d p (hd_workspace_id h)) h) as Hv.
  revert Hv. generalize (evaluate true (source_allowed d p (hd_workspace_id h)) h).
  intros v [Hst Ha Hm Has Hms Hr Hno Hdd Hdi].
  assert (∀ e, revoked (source_allowed d p (hd_workspace_id h)) e = false ↔ ¬ revoked_for d p h e) as Hrv.
  { intros e. unfold revoked_for. by rewrite not_true_iff_false. }
  constructor; simpl; rewrite ?Hst; try done.
  - rewrite overall_blocked. unfold blocking. split.
    + intros (e & He & Hb). bools. right. exists e. split_and!; [done..|].
      match goal with H : _ || _ = true |- _ => apply orb_true_iff in H as [|]; bools; by auto end.
    + intros [|(e & He & Hre & Hd)]; [done|]. exists e. split; [done|]. rewrite Hre. simpl.
      destruct Hd as [-> | ->]; [done|by rewrite orb_true_r].
  - rewrite overall_available. setoid_rewrite Hrv. naive_solver.
  - intros r. rewrite elem_of_sorted_strings, Ha, list_elem_of_fmap. unfold kept_dependencies.
    setoid_rewrite list_elem_of_filter. setoid_rewrite Hrv. naive_solver.
  - intros g. rewrite elem_of_sorted_strings, Has, elem_of_segments. unfold kept_dependencies.
    setoid_rewrite list_elem_of_filter. setoid_rewrite Hrv. naive_solver.
  - intros r. rewrite elem_of_sorted_strings, Hm, list_elem_of_fmap. unfold revoked_dependencies.
    setoid_rewrite list_elem_of_filter. unfold revoked_for. naive_solver.
  - intros g. rewrite elem_of_sorted_strings, Hms, elem_of_segments. unfold revoked_dependencies.
    setoid_rewrite list_elem_of_filter. unfold revoked_for. naive_solver.
  - rewrite decision_reasons; [by rewrite <- Hst|]. intros H%Hno. unfold REVOCATION_REASONS in H. not_in H.
  - rewrite elem_of_reason_codes by done. split; [|done].
    intros H%Hno. unfold REVOCATION_REASONS in H. not_in H.
  - rewrite elem_of_reason_codes, Hdd by done. unfold revoked_for. naive_solver.
  - rewrite elem_of_reason_codes, Hdi by done. unfold revoked_for. naive_solver.
  - destruct (role_binding d p (hd_workspace_id h) w) as [b|] eqn:Hb; simpl.
    + exists b. by apply role_binding_iff in Hb.
    + split; [by apply role_binding_None|done].
  - apply policy_version_named.
Qed.

Lemma decided_denied d p h w action id now :
  ¬ access_granted d p (hd_workspace_id h) w action →
  decided d p h w action (access_decision d p h w action id now).
Proof.
  intros Hs. unfold access_decision, access_evaluation.
  rewrite bool_decide_false by by rewrite access_grant_iff. unfold evaluate.
  assert (∀ c, c ∈ @nil string → False) as Hnil by (by intros c ?%elem_of_nil).
  constructor; simpl; try done.
  - split; [by left|done].
  - split; [done|naive_solver].
  - intros r. split; [by intros Hr%elem_of_sorted_strings%Hnil|naive_solver].
  - intros g. split; [by intros Hr%elem_of_sorted_strings%Hnil|naive_solver].
  - intros r. rewrite elem_of_sorted_strings. naive_solver.
  - intros g. rewrite elem_of_sorted_strings, elem_of_segments. naive_solver.
  - split; [done|intros _; is_in].
  - split; [intros H; not_in H|naive_solver].
  - split; [intros H; not_in H|naive_solver].
  - destruct (role_binding d p (hd_workspace_id h) w) as [b|] eqn:Hb; simpl.
    + exists b. by apply role_binding_iff in Hb.
    + split; [by apply role_binding_None|done].
  - apply policy_version_named.
Qed.

Lemma access_decision_decided d p h w action id now :
  decided d p h w action (access_decision d p h w action id now).
Proof.
  destruct (decide (is_Some (access_grant d p (hd_workspace_id h) w action))) as [Hg|Hg];
    rewrite access_grant_iff in Hg; [by apply decided_granted|by apply decided_denied].
Qed.
(** A result's references are distinct: they are keys of its rows. *)
Lemma dependencies_NoDup d result_id : NoDup (map de_reference_id (dependencies_of d result_id)).
Proof.
  unfold dependencies_of. rewrite sort_stable_perm.
  enough (∀ l : list (string * string * DependencyRow), NoDup (l.*1) →
    NoDup (map de_reference_id (omap (λ kv, if String.eqb kv.1.1 result_id
      then Some (mkDependency kv.1.2 (dp_source_version_id kv.2) (dp_segment_ids kv.2)
                 (dp_decisive kv.2) (dp_safe_separation kv.2)) else None) l))) as H
    by apply H, NoDup_fst_map_to_list.
  induction l as [|[[x r] row] l IH]; intros Hl; simpl in *; [constructor|].
  apply NoDup_cons in Hl as [Hx Hl]. destruct (String.eqb_spec x result_id) as [->|]; simpl; [|auto].
  apply NoDup_cons. split; [|auto]. intros (e & He & Hin)%list_elem_of_fmap.
  apply list_elem_of_omap in Hin as ([[y r'] row'] & Hin & Heq). simpl in Heq.
  destruct (String.eqb_spec y result_id) as [->|]; simplify_eq/=.
  apply Hx, list_elem_of_fmap. by exists (result_id, r', row').
Qed.

Lemma read_descriptor_dependencies d t w result_id h :
  read_descriptor d t w result_id = Some h → hd_dependencies h = dependencies_of d result_id.
Proof.
  unfold read_descriptor. destruct (historical_results d !! result_id) as [r|]; simpl; [|done].
  destruct (_ && _); [by intros [= <-]|done].
Qed.

Lemma read_descriptor_inj d t w w' result_id h h' :
  read_descriptor d t w result_id = Some h → read_descriptor d t w' result_id = Some h' → h = h'.
Proof.
  unfold read_descriptor. destruct (historical_results d !! result_id) as [r|]; simpl; [|done].
  do 2 (destruct (_ && _); [intros [= <-]|done]). done.
Qed.

(** The sources a rerun may use are those of the dependencies that are not revoked. *)
Lemma elem_of_allowed_sources d p h w action dec v :
  decided d p h w action dec → NoDup (map de_reference_id (hd_dependencies h)) →
  access_granted d p (hd_workspace_id h) w action →
  v ∈ allowed_sources dec h ↔
  ∃ e, e ∈ hd_dependencies h ∧ de_source_version_id e = v ∧ ¬ revoked_for d p h e.
Proof.
  intros Hd Hn Hg. unfold allowed_sources.
  rewrite elem_of_sorted_strings, elem_of_fromkeys, list_elem_of_fmap.
  setoid_rewrite list_elem_of_filter. setoid_rewrite (dc_allowed _ _ _ _ _ _ Hd). split.
  - intros (e & -> & (_ & e' & He' & Hr & Hrv) & He). exists e. split_and!; [done..|].
    by rewrite (NoDup_map_inj _ _ _ _ Hn He He' (eq_sym Hr)).
  - intros (e & He & <- & Hrv). exists e. split_and!; [done|done|by exists e|done].
Qed.

(** C3: A decision on access to a historical result is taken from the tables as
    they are now, never from those the result was made under: it blocks exactly
    when the caller's current role does not permit the access or a revoked
    source is decisive or cannot be separated, is unrestricted exactly when the
    role permits it and no dependency is revoked.  It allows exactly the
    references and segments of dependencies that are not revoked, nothing when
    the role does not permit the access; it masks those of the revoked ones, or
    all when the role does not permit it; its reasons tell these cases apart,
    and it names the role's version and those of the workspace and policies.  It is stored
    under a new identifier, with one event, and nothing else changes; a result
    is seen by callers of its tenant only. *)
Theorem historical_access_decided p result_id action trace policy s :
  let call := evaluate_historical_access p result_id action trace policy in
  (∀ e, result call s = Raise e → db (final call s) = db s) ∧
  ∀ dec, result call s = Ret dec → ∃ h w e,
    hd_tenant_id h = tenant_id p ∧
    read_descriptor (db s) (tenant_id p) (hd_workspace_id h) result_id = Some h ∧
    reachable_workspace (db s) p (hd_workspace_id h) w ∧
    decided (db s) p h w action dec ∧
    access_decisions (db s) !! ad_decision_id dec = None ∧
    db (final call s) =
      set_access_decisions (<[ad_decision_id dec := dec]> (access_decisions (db s))) (db s) ∧
    log (final call s) = log s ++ [e] ∧ ev_target_id e = ad_decision_id dec ∧
    (ev_outcome e = DENIED ↔ ad_state dec = ACCESS_BLOCKED).
Proof.
  intros call. pose proof (wp_evaluate_historical_access p result_id action trace policy s) as [_ H].
  fold call in H. split; [by intros e He; rewrite He in H|].
  intros dec Hdec. rewrite Hdec in H. destruct H as (h & w & e & Ht & Hh & Hw & Hd & Hn & Hdb & Hl & Hev).
  exists h, w, e. split_and!; try done.
  - rewrite Hd. apply access_decision_decided.
  - apply (eo_target _ _ _ _ _ _ Hev).
  - rewrite (eo_outcome _ _ _ _ _ _ Hev). by case_bool_decide.
Qed.

(** The decision that a rerun is committed under: it does not block. *)
Lemma unblocked_decision d p h w dec :
  decided d p h w RERUN dec → ad_state dec ≠ ACCESS_BLOCKED →
  access_granted d p (hd_workspace_id h) w RERUN ∧
  ∀ e, e ∈ hd_dependencies h → revoked_for d p h e → de_decisive e = false ∧ de_safe_separation e = true.
Proof.
  intros Hd Hnb. rewrite (dc_blocked _ _ _ _ _ _ Hd) in Hnb. split.
  - apply access_grant_iff. destruct (access_grant d p (hd_workspace_id h) w RERUN) eqn:Hg; [by eexists|].
    destruct Hnb. left. intros Hg'%access_grant_iff. rewrite Hg in Hg'. by destruct Hg'.
  - intros x Hx Hrv. split; [apply not_true_iff_false|apply not_false_iff_true]; intros Hx'; apply Hnb; right;
      exists x; by auto.
Qed.

(** What [authorize_rerun] has done when it returns: it took a decision in the
    tables [d], recorded it, and committed the rerun under it, seeing the same
    result, workspace and role. *)
Lemma wp_authorize_rerun p result_id trace policy s :
  wp (authorize_rerun p result_id trace policy) (λ o s', match o with
    | Ret ra => ∃ h w b dec now,
        rerun_committed (set_access_decisions (<[ad_decision_id dec := dec]> (access_decisions (db s))) (db s))
          (db s') p result_id dec ra h w b now ∧
        access_decisions (db s) !! ad_decision_id dec = None ∧
        decided (db s) p h w RERUN dec ∧ ad_state dec ≠ ACCESS_BLOCKED ∧
        ad_policy_version dec = policy_version (db s) (tenant_id p) (hd_workspace_id h)
    | Raise _ => rerun_requests (db s') = rerun_requests (db s)
    end) s.
Proof.
  unfold authorize_rerun, require_historical_access. do 2 apply wp_bind.
  eapply wp_mono; [|apply wp_evaluate_historical_access].
  intros [dec|e] s1 [_ H]; [|by rewrite H]. destruct H as (h & w & e & Ht & Hh & Hw & Hd & Hn & Hdb & _).
  apply wp_bind, wp_guard; [|by rewrite Hdb]. intros Hst. apply wp_ret. bools.
  eapply wp_mono; [|apply wp_commit_rerun].
  intros [ra|e'] s2 [_ H]; [|by rewrite H, Hdb]. destruct H as (h' & w' & b & now & e' & Hc & _).
  pose proof Hc as [Hh' Hw' _ _ _ _ _]. rewrite Hdb in Hc, Hh', Hw'.
  assert (h' = h) as -> by exact (read_descriptor_inj (db s) _ _ _ _ _ _ Hh' Hh).
  assert (w' = w) as ->.
  { destruct Hw as (_ & _ & Hf & _), Hw' as (_ & _ & Hf' & _). change (find_workspace (db s) (tenant_id p)
      (hd_workspace_id h) = Some w') in Hf'. congruence. }
  exists h, w, b, dec, now. split_and!; [done|done| |done|by rewrite Hd].
  rewrite Hd. apply access_decision_decided.
Qed.

(** C4: A rerun of a historical result is authorised only for a caller whose
    role now permits generating in its workspace, and only when no revoked
    source blocks the result; the sources it may read are exactly those of the
    dependencies that are not revoked, and the role, the versions, the data
    area and the cost limit it is bound to are the current ones.  Of the
    database exactly two rows change: the decision and the request are inserted
    under new identifiers, the request with the snapshot that is returned; a
    refusal records no request.  The request is recorded by a transaction of its
    own, [commit_rerun], which may find tables that have changed since the
    decision: in whatever state it runs, it binds the rerun to the workspace
    and the role as they are then, and to the policies and references of the
    decision it is given. *)
Theorem rerun_bound_to_current_access p result_id trace policy s :
  let call := authorize_rerun p result_id trace policy in
  (∀ ra, result call s = Ret ra →
    untouched (db s) (db (final call s)) ∧
    ∃ h w b dec now, read_descriptor (db s) (tenant_id p) (hd_workspace_id h) result_id = Some h ∧
      reachable_workspace (db s) p (hd_workspace_id h) w ∧
      holds_role (db s) p (hd_workspace_id h) w b ∧
      GENERATE ∈ ROLE_ACTION_MATRIX (rb_role b) ∧
      (∀ e, e ∈ hd_dependencies h → revoked_for (db s) p h e →
            de_decisive e = false ∧ de_safe_separation e = true) ∧
      (∀ v, v ∈ rs_source_version_ids (ra_snapshot ra) ↔
            ∃ e, e ∈ hd_dependencies h ∧ de_source_version_id e = v ∧ ¬ revoked_for (db s) p h e) ∧
      rs_tenant_id (ra_snapshot ra) = tenant_id p ∧ rs_actor_id (ra_snapshot ra) = user_id p ∧
      rs_workspace_id (ra_snapshot ra) = hd_workspace_id h ∧
      rs_role_scope (ra_snapshot ra) = rb_scope b ∧
      rs_membership_version (ra_snapshot ra) = rb_version b ∧
      rs_acl_version (ra_snapshot ra) = wk_acl_version w ∧
      rs_policy_version (ra_snapshot ra) = policy_version (db s) (tenant_id p) (hd_workspace_id h) ∧
      rs_data_area (ra_snapshot ra) = wk_data_area w ∧
      rs_cost_limit_cents (ra_snapshot ra) = wk_cost_limit_cents w ∧
      decided (db s) p h w RERUN dec ∧ ra_access_decision_id ra = ad_decision_id dec ∧
      access_decisions (db s) !! ad_decision_id dec = None ∧
      rerun_requests (db s) !! ra_run_request_id ra = None ∧
      db (final call s) =
        set_rerun_requests (<[ra_run_request_id ra := rerun_row p h ra now]> (rerun_requests (db s)))
          (set_access_decisions (<[ad_decision_id dec := dec]> (access_decisions (db s))) (db s))) ∧
  (∀ e, result call s = Raise e → rerun_requests (db (final call s)) = rerun_requests (db s)) ∧
  ∀ dec, let commit := commit_rerun p result_id trace policy dec in
    (∀ ra, result commit s = Ret ra → ∃ h w b now e,
      rerun_committed (db s) (db (final commit s)) p result_id dec ra h w b now ∧
      log (final commit s) = log s ++ [e] ∧
      event_of p (Some (hd_workspace_id h)) "authorization.rerun.authorized" SUCCEEDED (ra_run_request_id ra) e) ∧
    (∀ e, result commit s = Raise e → db (final commit s) = db s).
Proof.
  intros call. pose proof (wp_authorize_rerun p result_id trace policy s) as H. fold call in H. split_and!.
  - intros ra Hra. unfold wp in H. fold (result call s) (final call s) in H. rewrite Hra in H.
    destruct H as (h & w & b & dec & now & Hc & Hn & Hdec & Hnb & Hpol).
    pose proof (committed_untouched _ _ _ _ _ _ _ _ _ _ Hc) as Hu.
    destruct Hc as [Hh Hw Hb [Hid _] Hra' Hfresh Hdb].
    destruct (unblocked_decision _ _ _ _ _ Hdec Hnb) as [Hg Hrv].
    assert (holds_role (db s) p (hd_workspace_id h) w b) as Hb0 by (destruct Hb; by constructor).
    split; [etrans; [|exact Hu]; intros t; split; [|intros w0]; by constructor|].
    exists h, w, b, dec, now. rewrite Hra'. simpl. split_and!; try done.
    + destruct Hg as (b' & Hb' & Ha & _). apply role_binding_iff in Hb', Hb0. by simplify_eq.
    + intros v. eapply elem_of_allowed_sources; [done| |done].
      rewrite (read_descriptor_dependencies _ _ _ _ _ Hh). apply dependencies_NoDup.
  - intros e He. unfold wp in H. fold (result call s) (final call s) in H. by rewrite He in H.
  - intros dec. pose proof (wp_commit_rerun p result_id trace policy dec s) as [_ Hc].
    split; [intros ra Hra|intros e He]; [rewrite Hra in Hc|rewrite He in Hc]; done.
Qed.
End Historical.
