(* ===== verification/AuthorizationTables.v ===== *)
(** The tables of the authorization service are well formed in every state that
    calls and the provisioning of workspaces can reach ([tables_typed]): foreign
    keys and the constraints the program keeps without the schema's help. *)

From S2P Require Import Prelude Sha256 PyStr Json HashChain Bytes AuditLog Authorization AuthorizationFacts.
#[local] Open Scope Z_scope.

(** ** The invariant *)

Definition KINDS : list string := ["personal"; "organization"].

Definition dependency_of_row (reference : string) (r : DependencyRow) : EvidenceDependency :=
  mkDependency reference (dp_source_version_id r) (dp_segment_ids r) (dp_decisive r)
    (dp_safe_separation r).

Record result_ok (find : string → string → option WorkspaceRow) (result_id : string)
    (r : HistoricalRow) : Prop := {
  ro_workspace : is_Some (find (hr_tenant_id r) (hr_workspace_id r));
  ro_ids : Forall (λ x, safe_id x = true) (result_id :: hr_result_kind r :: hr_tenant_id r ::
    hr_workspace_id r :: hr_original_policy_version r :: hr_source_version_ids r ++
    hr_evidence_reference_ids r);
  ro_distinct : NoDup (hr_source_version_ids r) ∧ NoDup (hr_evidence_reference_ids r);
  ro_version : 1 <= hr_original_membership_version r < 2 ^ 63
}.

(** A decision is about a stored result, holds a version exactly of the role it
    was taken for, and gives its reasons; without a role it blocks. *)
Record decision_ok (results : gmap string HistoricalRow) (decision_id : string) (x : AccessDecision) : Prop := {
  do_id : ad_decision_id x = decision_id;
  do_result : ∃ r, results !! ad_resource_id x = Some r ∧ hr_tenant_id r = ad_tenant_id x ∧
    hr_workspace_id r = ad_workspace_id x;
  do_acl : 1 <= ad_acl_version x;
  do_role : match ad_role_scope x with
    | Some _ => 1 <= ad_membership_version x
    | None => ad_membership_version x = 0 ∧ ad_state x = ACCESS_BLOCKED
    end;
  do_reasons : ad_reason_codes x ≠ [] ∧
    (ad_reason_codes x = ["CURRENT_ACCESS_ALLOWED"] ↔ ad_state x = AVAILABLE)
}.

(** A rerun was requested by the caller whom a decision did not block, for the
    same result. *)
Record rerun_ok (decisions : gmap string AccessDecision) (r : RerunRow) : Prop := {
  rn_decision : ∃ x, decisions !! rq_access_decision_id r = Some x ∧ ad_action x = RERUN ∧
    ad_state x ≠ ACCESS_BLOCKED ∧ ad_actor_id x = rq_actor_id r ∧ ad_resource_id x = rq_result_id r ∧
    ad_tenant_id x = rq_tenant_id r ∧ ad_workspace_id x = rq_workspace_id r
}.

Record tables_ok (d : Db) : Prop := {
  to_workspace k w : workspaces d !! k = Some w →
    wk_workspace_kind w ∈ KINDS ∧ 0 <= wk_cost_limit_cents w < 2 ^ 63 ∧ 1 <= wk_acl_version w ∧
    1 <= wk_version w ∧ is_Some (tenant_policies d !! wk_tenant_id w) ∧
    is_Some (workspace_policies d !! (wk_tenant_id w, k));
  to_kinds k k' w w' : workspaces d !! k = Some w → workspaces d !! k' = Some w' →
    wk_tenant_id w = wk_tenant_id w' → wk_workspace_kind w = wk_workspace_kind w';
  to_tenant_role t u r : tenant_roles d !! (t, u) = Some r →
    1 <= rr_version r ∧ rr_state r ∈ ["active"; "revoked"] ∧
    ∃ k w, workspaces d !! k = Some w ∧ wk_tenant_id w = t ∧
           role_kind (rr_role r) = Some (wk_workspace_kind w);
  to_membership t w u m : memberships d !! (t, w, u) = Some m →
    is_Some (find_workspace d t w) ∧ rr_role m ∈ WORKSPACE_ROLES ∧ rr_state m = "active" ∧
    1 <= rr_version m;
  to_tenant_rule t q r : tenant_rules d !! (t, q) = Some r →
    is_Some (tenant_policies d !! t) ∧ ∃ x, q = permission_value x;
  to_workspace_rule t w q r : workspace_rules d !! (t, w, q) = Some r →
    is_Some (workspace_policies d !! (t, w)) ∧ ∃ x, q = permission_value x;
  to_tenant_policy t r : tenant_policies d !! t = Some r → 1 <= po_version r;
  to_workspace_policy t w r : workspace_policies d !! (t, w) = Some r →
    is_Some (find_workspace d t w) ∧ 1 <= po_version r;
  to_source t w u v r : source_access d !! (t, w, u, v) = Some r →
    is_Some (find_workspace d t w) ∧ 1 <= sa_version r;
  to_result x r : historical_results d !! x = Some r → result_ok (find_workspace d) x r;
  to_dependency x y r : result_dependencies d !! (x, y) = Some r →
    ∃ h, historical_results d !! x = Some h ∧
         dependency_valid (hr_source_version_ids h) (hr_evidence_reference_ids h)
           (dependency_of_row y r) = true;
  to_decision x dec : access_decisions d !! x = Some dec → decision_ok (historical_results d) x dec;
  to_rerun x r : rerun_requests d !! x = Some r →
    rerun_ok (access_decisions d) r ∧ is_Some (find_workspace d (rq_tenant_id r) (rq_workspace_id r))
}.

Lemma tables_empty : tables_ok empty_db.
Proof. split; intros *; simpl; rewrite ?lookup_empty; try done; by intros []. Qed.

(** ** Writes keep it *)

Lemma find_workspace_Some d t w row :
  find_workspace d t w = Some row ↔ workspaces d !! w = Some row ∧ wk_tenant_id row = t.
Proof.
  unfold find_workspace. destruct (workspaces d !! w) as [r|]; simpl; [|naive_solver].
  destruct (String.eqb_spec (wk_tenant_id r) t); naive_solver.
Qed.

Lemma lookup_insert_or `{Countable K} {V} (m : gmap K V) k v k' v' (P : Prop) :
  <[k := v]> m !! k' = Some v' → (k' = k → v' = v → P) → (m !! k' = Some v' → P) → P.
Proof.
  intros Hl H1 H2. destruct (decide (k = k')) as [<-|Hne].
  - rewrite lookup_insert_eq in Hl. simplify_eq. by apply H1.
  - rewrite lookup_insert_ne in Hl by done. by apply H2.
Qed.

(** The tables that other rows refer to only grow. *)
Lemma insert_is_Some `{Countable K} {V} (m : gmap K V) k v k' :
  is_Some (m !! k') → is_Some (<[k := v]> m !! k').
Proof. intros. destruct (decide (k = k')) as [<-|]; [rewrite lookup_insert_eq|rewrite lookup_insert_ne]; done. Qed.

Lemma alter_const_is_Some `{Countable K} {V} (m : gmap K V) v k k' :
  is_Some (m !! k') → is_Some (alter (λ _, v) k m !! k').
Proof.
  intros [x Hx]. destruct (decide (k = k')) as [<-|]; [rewrite lookup_alter_eq|rewrite lookup_alter_ne];
    rewrite ?Hx; by eauto.
Qed.

Lemma alter_const_inv `{Countable K} {V} (m : gmap K V) v k k' x :
  alter (λ _, v) k m !! k' = Some x → ∃ y, m !! k' = Some y ∧ (x = v ∨ x = y).
Proof.
  destruct (decide (k = k')) as [<-|]; [rewrite lookup_alter_eq|rewrite lookup_alter_ne by done; by eauto].
  destruct (m !! k); naive_solver.
Qed.

(** A change of rows that leaves the referenced tables alone. *)
Ltac keep_tables :=
  match goal with H : tables_ok _ |- _ => destruct H end; split; try assumption; simpl.

Lemma tables_membership d t w u m :
  tables_ok d → is_Some (find_workspace d t w) → rr_role m ∈ WORKSPACE_ROLES → rr_state m = "active" →
  1 <= rr_version m → tables_ok (set_memberships (<[(t, w, u) := m]> (memberships d)) d).
Proof.
  intros H Hf Hr Hs Hv. keep_tables. intros t' w' u' m' Hm.
  apply (lookup_insert_or _ _ _ _ _ _ Hm); [|by eauto]. by intros [= -> -> ->] ->.
Qed.

Lemma tables_tenant_role d t u r :
  tables_ok d → 1 <= rr_version r → rr_state r ∈ ["active"; "revoked"] →
  (∃ k w, workspaces d !! k = Some w ∧ wk_tenant_id w = t ∧
          role_kind (rr_role r) = Some (wk_workspace_kind w)) →
  tables_ok (set_tenant_roles (<[(t, u) := r]> (tenant_roles d)) d).
Proof.
  intros H Hv Hs Hk. keep_tables. intros t' u' r' Hr.
  apply (lookup_insert_or _ _ _ _ _ _ Hr); [|by eauto]. by intros [= -> ->] ->.
Qed.

Lemma tables_source_access d t w u v r :
  tables_ok d → is_Some (find_workspace d t w) → 1 <= sa_version r →
  tables_ok (set_source_access_table (<[(t, w, u, v) := r]> (source_access d)) d).
Proof.
  intros H Hf Hv. keep_tables. intros t' w' u' v' r' Hr.
  apply (lookup_insert_or _ _ _ _ _ _ Hr); [|by eauto]. by intros [= -> -> -> ->] ->.
Qed.

Lemma tables_policy d scope t w q version r now :
  tables_ok d → is_Some (policy_header d scope t w) → 1 <= version →
  tables_ok (write_policy scope t w q version r now d).
Proof.
  intros H Hh Hv. destruct scope; simpl in *; keep_tables.
  - intros k row Hrow. edestruct to_workspace0 as (? & [? ?] & ? & ? & ? & ?); [done|].
    split_and!; try done. by apply alter_const_is_Some.
  - intros t' q' r' Hr. apply (lookup_insert_or _ _ _ _ _ _ Hr).
    + intros [= -> ->] ->. split; [by apply alter_const_is_Some|by eexists].
    + intros Hr'. edestruct to_tenant_rule0; [done|]. split; [by apply alter_const_is_Some|done].
  - intros t' r' (r0 & Hr0 & [-> | ->])%alter_const_inv; [done|by eauto].
  - intros k row Hrow. edestruct to_workspace0 as (? & [? ?] & ? & ? & ? & ?); [done|].
    split_and!; try done. by apply alter_const_is_Some.
  - intros t' w' q' r' Hr. apply (lookup_insert_or _ _ _ _ _ _ Hr).
    + intros [= -> -> ->] ->. split; [by apply alter_const_is_Some|by eexists].
    + intros Hr'. edestruct to_workspace_rule0; [done|]. split; [by apply alter_const_is_Some|done].
  - intros t' w' r' (r0 & Hr0 & Hr')%alter_const_inv. destruct (to_workspace_policy0 _ _ _ Hr0).
    split; [done|]. by destruct Hr' as [-> | ->].
Qed.

(** [bump_acl] replaces a row by one of the same workspace. *)
Lemma bump_lookup t w now d k row :
  workspaces (bump_acl t w now d) !! k = Some row →
  ∃ row0, workspaces d !! k = Some row0 ∧ wk_tenant_id row = wk_tenant_id row0 ∧
    wk_workspace_kind row = wk_workspace_kind row0 ∧
    wk_cost_limit_cents row = wk_cost_limit_cents row0 ∧ wk_acl_version row0 <= wk_acl_version row ∧
    wk_version row0 <= wk_version row.
Proof.
  unfold bump_acl. destruct (find_workspace d t w) as [r|] eqn:Hf; simpl; [|by eauto 10 with lia].
  apply find_workspace_Some in Hf as [Hf _]. intros Hl. apply (lookup_insert_or _ _ _ _ _ _ Hl).
  - intros -> ->. exists r. simpl. split_and!; by (done || lia).
  - intros Hr. exists row. split_and!; by (done || lia).
Qed.

Lemma bump_kept t w now d k row0 :
  workspaces d !! k = Some row0 →
  ∃ row, workspaces (bump_acl t w now d) !! k = Some row ∧ wk_tenant_id row = wk_tenant_id row0 ∧
    wk_workspace_kind row = wk_workspace_kind row0.
Proof.
  intros Hk. unfold bump_acl. destruct (find_workspace d t w) as [r|] eqn:Hf; simpl; [|by eauto].
  apply find_workspace_Some in Hf as [Hf _]. destruct (decide (w = k)) as [<-|].
  - rewrite lookup_insert_eq. simplify_eq. by eexists.
  - rewrite lookup_insert_ne by done. by eauto.
Qed.

Lemma bump_find t w now d t' w' :
  is_Some (find_workspace d t' w') → is_Some (find_workspace (bump_acl t w now d) t' w').
Proof.
  intros [row [Hk Ht]%find_workspace_Some]. destruct (bump_kept t w now d _ _ Hk) as (row' & Hk' & Ht' & _).
  exists row'. apply find_workspace_Some. split; congruence.
Qed.

Lemma tables_bump d t w now : tables_ok d → tables_ok (bump_acl t w now d).
Proof.
  intros H. assert (∀ t' w', is_Some (find_workspace d t' w') →
    is_Some (find_workspace (bump_acl t w now d) t' w')) as Hf by (intros; by apply bump_find).
  assert (∀ k row, workspaces d !! k = Some row → _) as Hkept by exact (bump_kept t w now d).
  pose proof (bump_lookup t w now d) as Hinv.
  assert (set_workspaces (workspaces (bump_acl t w now d)) d = bump_acl t w now d) as Heq.
  { unfold bump_acl. destruct (find_workspace d t w); by destruct d. }
  revert Hf Hkept Hinv. rewrite <- Heq. generalize (workspaces (bump_acl t w now d)). intros ws Hf Hkept Hinv.
  destruct H; split; try assumption; simpl.
  - intros k row (row0 & Hk & -> & -> & -> & Hle & Hlv)%Hinv.
    destruct (to_workspace0 _ _ Hk) as (? & [? ?] & ? & ? & ? & ?).
    split_and!; by (done || lia).
  - intros k k' r r' (r0 & Hk & -> & -> & _)%Hinv (r0' & Hk' & -> & -> & _)%Hinv. by eauto.
  - intros t' u r (? & ? & k & row & Hk & Ht & Hrk)%to_tenant_role0. split_and!; [done..|].
    destruct (Hkept _ _ Hk) as (row' & Hk' & Ht' & Hkd). exists k, row'. by rewrite Ht', Hkd.
  - intros t' w' u m (? & ? & ? & ?)%to_membership0. split_and!; by auto.
  - intros t' w' r [? ?]%to_workspace_policy0. by auto.
  - intros t' w' u v r [? ?]%to_source0. by auto.
  - intros x r [? ? ? ?]%to_result0. split; [by apply Hf|done..].
  - intros x r [? ?]%to_rerun0. by auto.
Qed.

Lemma tables_decision d x dec :
  tables_ok d → access_decisions d !! x = None → decision_ok (historical_results d) x dec →
  tables_ok (set_access_decisions (<[x := dec]> (access_decisions d)) d).
Proof.
  intros H Hx Hdec. keep_tables.
  - intros x' dec' Hd. apply (lookup_insert_or _ _ _ _ _ _ Hd); [by intros -> ->|by apply to_decision0].
  - intros x' r [[(dec' & Hd & ?)] ?]%to_rerun0. split; [|done]. split. exists dec'. split; [|done].
    rewrite lookup_insert_ne; [done|congruence].
Qed.

Lemma tables_rerun d x r :
  tables_ok d → rerun_ok (access_decisions d) r →
  is_Some (find_workspace d (rq_tenant_id r) (rq_workspace_id r)) →
  tables_ok (set_rerun_requests (<[x := r]> (rerun_requests d)) d).
Proof.
  intros H Hd Hf. keep_tables. intros x' r' Hr. apply (lookup_insert_or _ _ _ _ _ _ Hr); [|by eauto].
  by intros -> ->.
Qed.

Lemma tables_members d m : tables_ok d → tables_ok (set_tenant_memberships m d).
Proof. intros H. by keep_tables. Qed.

Lemma tables_result d x r :
  tables_ok d → historical_results d !! x = None → result_ok (find_workspace d) x r →
  tables_ok (set_historical_results (<[x := r]> (historical_results d)) d).
Proof.
  intros H Hx Hr. keep_tables.
  - intros x' r' Hr'. apply (lookup_insert_or _ _ _ _ _ _ Hr'); [by intros -> ->|by apply to_result0].
  - intros x' y r' (h & Hh & Hv)%to_dependency0. exists h. split; [|done].
    rewrite lookup_insert_ne; [done|congruence].
  - intros x' dec [? (h & Hh & ?) ? ? ?]%to_decision0. split; [done| |done..]. exists h. split; [|done].
    rewrite lookup_insert_ne; [done|congruence].
Qed.

Lemma tables_dependency d x y r h :
  tables_ok d → historical_results d !! x = Some h →
  dependency_valid (hr_source_version_ids h) (hr_evidence_reference_ids h) (dependency_of_row y r) = true →
  tables_ok (set_result_dependencies (<[(x, y) := r]> (result_dependencies d)) d).
Proof.
  intros H Hx Hv. keep_tables. intros x' y' r' Hr'. apply (lookup_insert_or _ _ _ _ _ _ Hr').
  - intros [= -> ->] ->. by exists h.
  - by apply to_dependency0.
Qed.

Section Ignore.
Context `{Countable K} {V : Type}.
Implicit Types m : gmap K V.

Lemma insert_or_ignore_inv m k v k' x :
  insert_or_ignore k v m !! k' = Some x → (k' = k ∧ x = v) ∨ m !! k' = Some x.
Proof.
  unfold insert_or_ignore. destruct (m !! k) eqn:Hk; [by right|].
  intros Hl. apply (lookup_insert_or _ _ _ _ _ _ Hl); by auto.
Qed.

Lemma insert_or_ignore_is_Some m k v k' :
  is_Some (m !! k') → is_Some (insert_or_ignore k v m !! k').
Proof. unfold insert_or_ignore. destruct (m !! k); [done|]. apply insert_is_Some. Qed.

Lemma insert_or_ignore_eq m k v : is_Some (insert_or_ignore k v m !! k).
Proof. unfold insert_or_ignore. destruct (m !! k) eqn:Hk; [by eexists|]. rewrite lookup_insert_eq. by eexists. Qed.
End Ignore.

(** A new workspace, with the rows [bootstrap_workspace] gives it. *)
Lemma tables_bootstrap d t k owner role kind area cost now :
  tables_ok d → workspaces d !! k = None → role_kind role = Some kind → 0 <= cost < 2 ^ 63 →
  (∀ k' w, workspaces d !! k' = Some w → wk_tenant_id w = t → wk_workspace_kind w = kind) →
  tables_ok (set_workspace_policies (<[(t, k) := mkPolicyRow 1 now]> (workspace_policies d))
    (set_tenant_policies (insert_or_ignore t (mkPolicyRow 1 now) (tenant_policies d))
    (set_tenant_roles (insert_or_ignore (t, owner) (mkRoleRow role "active" 1 now) (tenant_roles d))
    (set_workspaces (<[k := mkWorkspace t kind area cost 1 1 now]> (workspaces d)) d)))).
Proof.
  intros H Hk Hrole Hcost Hkinds.
  assert (∀ t' w', is_Some (find_workspace d t' w') →
    is_Some (find_workspace (set_workspaces (<[k := mkWorkspace t kind area cost 1 1 now]> (workspaces d)) d)
      t' w')) as Hfind.
  { intros t' w' [row [Hrow Ht]%find_workspace_Some]. exists row. apply find_workspace_Some. simpl.
    rewrite lookup_insert_ne; [done|congruence]. }
  assert (find_workspace (set_workspaces (<[k := mkWorkspace t kind area cost 1 1 now]> (workspaces d)) d) t k
    = Some (mkWorkspace t kind area cost 1 1 now)) as Hnew
    by (apply find_workspace_Some; simpl; by rewrite lookup_insert_eq).
  assert (kind ∈ KINDS) as Hkind by (destruct role; simplify_eq/=; is_in).
  destruct H; split; try assumption; simpl.
  - intros k' w Hw. apply (lookup_insert_or _ _ _ _ _ _ Hw).
    + intros -> ->. simpl. split_and!; try done; [lia..|apply insert_or_ignore_eq|].
      rewrite lookup_insert_eq. by eexists.
    + intros (? & [? ?] & ? & ? & ? & ?)%to_workspace0.
      split_and!; try done; [by apply insert_or_ignore_is_Some|by apply insert_is_Some].
  - intros k1 k2 w1 w2 H1 H2. apply (lookup_insert_or _ _ _ _ _ _ H1);
      [intros -> ->|intros H1']; apply (lookup_insert_or _ _ _ _ _ _ H2);
      [intros -> ->|intros H2'|intros -> ->|intros H2']; simpl; intros Ht.
    + done.
    + by rewrite (Hkinds _ _ H2').
    + by rewrite (Hkinds _ _ H1').
    + by eapply to_kinds0.
  - intros t' u r [[[= -> ->] ->]|(? & ? & k' & w & Hk' & ? & ?)%to_tenant_role0]%insert_or_ignore_inv.
    + split_and!; [done|is_in|]. exists k. eexists. rewrite lookup_insert_eq. by split_and!.
    + split_and!; [done..|]. exists k', w. rewrite lookup_insert_ne; [done|congruence].
  - intros t' w' u m (? & ? & ? & ?)%to_membership0. split_and!; try done. by apply Hfind.
  - intros t' q r [? ?]%to_tenant_rule0. split; [by apply insert_or_ignore_is_Some|done].
  - intros t' w' q r [? ?]%to_workspace_rule0. split; [by apply insert_is_Some|done].
  - intros t' r [[-> ->]|Hr]%insert_or_ignore_inv; [done|by eauto].
  - intros t' w' r Hr. apply (lookup_insert_or _ _ _ _ _ _ Hr).
    + intros [= -> ->] ->. split; [eexists; exact Hnew|done].
    + intros [? ?]%to_workspace_policy0. split; [by apply Hfind|done].
  - intros t' w' u v r [? ?]%to_source0. split; [by apply Hfind|done].
  - intros x r [? ? ? ?]%to_result0. split; [by apply Hfind|done..].
  - intros x r [? ?]%to_rerun0. split; [done|by apply Hfind].
Qed.

(** ** Calls keep it *)

Section Calls.
Context {W : World} {O : SetOrder} {A I : Type} {AS : AuditStore A} {IB : IdentityBoundary I}.
Implicit Types s : State A I.

Definition typed s : Prop := tables_ok (db s).

(** Inside a transaction only what returns has to keep the tables in order. *)
Definition commits {B} (o : outcome B) s : Prop :=
  match o with Ret _ => typed s | Raise _ => True end.

Lemma typed_transaction {B} (m : M (State A I) B) s :
  typed s → wp m commits s → wp (db_transaction m) (λ _, typed) s.
Proof.
  intros Hs Hm. apply wp_db_transaction; intros _; [done|]. eapply wp_mono; [|exact Hm]. by intros [].
Qed.

Lemma typed_record {B} p trace policy workspace action outcome ttype target before after metadata (v : B) s :
  typed s →
  wp (audit p trace policy workspace action outcome ttype target before after metadata ;; ret v) commits s.
Proof. intros Hs. apply wp_bind, wp_audit; [|done]. intros s' e [Hd _ _ _] _ _. apply wp_ret. simpl. red. by rewrite Hd. Qed.

Lemma typed_set_membership p w u role v trace policy s :
  typed s → wp (set_membership p w u role v trace policy) (λ _, typed) s.
Proof.
  intros Hs. unfold set_membership. apply wp_bind, wp_guard; [intros _|done].
  apply wp_bind, wp_checked_id; intros _; [|done]. apply wp_bind, wp_clock.
  apply typed_transaction; [done|]. apply wp_bind, wp_workspace_for; [intros row Hw|done].
  apply wp_denied; [apply wp_audit_quiet|done|intros Hrole].
  apply wp_bind, wp_query. apply wp_denied; [apply wp_audit_quiet|done|intros _].
  apply wp_bind, wp_query. apply wp_denied; [apply wp_audit_quiet|done|intros Hv].
  apply wp_bind, wp_update, wp_bind, wp_update, typed_record. bools. apply tables_bump.
  destruct Hw as (_ & _ & Hf & _). apply tables_membership; simpl; [done|by eexists|done|done|].
  destruct (memberships _ !! _) as [m|] eqn:Hm; simpl; [|lia].
  apply (to_membership _ Hs) in Hm. lia.
Qed.

Lemma expected_tenant_role_kind d t r :
  expected_tenant_role d t = Some r →
  ∃ k w, workspaces d !! k = Some w ∧ wk_tenant_id w = t ∧ role_kind r = Some (wk_workspace_kind w).
Proof.
  unfold expected_tenant_role. case_bool_decide as Hn; [done|].
  destruct (workspaces_of d t) as [|[k w] l] eqn:Hl; [done|]. intros He. exists k, w.
  assert ((k, w) ∈ workspaces_of d t) as Hin by (rewrite Hl; left).
  unfold workspaces_of in Hin. apply list_elem_of_filter in Hin as [Ht Hin]. simpl in Ht.
  apply elem_of_map_to_list in Hin. split_and!; [done..|]. simpl in He.
  destruct (String.eqb_spec (wk_workspace_kind w) "personal") as [->|]; simpl in He.
  - destruct (forallb _ _); [by simplify_eq|].
    by destruct (String.eqb_spec "personal" "organization").
  - destruct (String.eqb_spec (wk_workspace_kind w) "organization") as [->|]; simpl in He; [|done].
    destruct (forallb _ _); by simplify_eq.
Qed.

Lemma typed_set_tenant_role p u role v trace policy s :
  typed s → wp (set_tenant_role p u role v trace policy) (λ _, typed) s.
Proof.
  intros Hs. unfold set_tenant_role. do 2 (apply wp_bind, wp_guard; [intros _|done]).
  apply wp_bind, wp_checked_id; intros _; [|done]. apply wp_bind, wp_clock.
  apply typed_transaction; [done|]. apply wp_bind, wp_query.
  apply wp_denied; [apply wp_audit_quiet|done|intros _].
  apply wp_bind, wp_query, wp_bind, wp_guard; [intros He|done].
  apply wp_bind, wp_query. apply wp_denied; [apply wp_audit_quiet|done|intros _].
  apply wp_bind, wp_from_option; [intros r Hr|done].
  apply wp_bind, wp_update, typed_record.
  apply tables_tenant_role; [done|..]; simpl.
  - destruct (tenant_roles _ !! _) as [m|] eqn:Hm; simpl; [|lia].
    apply (to_tenant_role _ Hs) in Hm. lia.
  - destruct role; is_in.
  - destruct (expected_tenant_role _ _) as [e|] eqn:Hexp; [|done]. destruct role as [r0|].
    + bools. simplify_eq. by apply expected_tenant_role_kind.
    + destruct (tenant_roles _ !! _) as [m|] eqn:Hm; simplify_eq/=.
      by apply (to_tenant_role _ Hs) in Hm as (_ & _ & ?).
Qed.

Lemma typed_set_source_access p w u sv b v trace policy s :
  typed s → wp (set_source_access p w u sv b v trace policy) (λ _, typed) s.
Proof.
  intros Hs. unfold set_source_access. do 2 (apply wp_bind, wp_checked_id; intros _; [|done]).
  apply wp_bind, wp_guard; [intros _|done]. apply wp_bind, wp_clock.
  apply typed_transaction; [done|]. apply wp_bind, wp_workspace_for; [intros row Hw|done].
  apply wp_bind, wp_query, wp_bind, wp_guard; [intros _|done].
  apply wp_bind, wp_query, wp_bind, wp_guard; [intros _|done].
  apply wp_bind, wp_update, wp_bind, wp_update, typed_record, tables_bump.
  destruct Hw as (_ & _ & Hf & _). apply tables_source_access; simpl; [done|by eexists|].
  destruct (source_access _ !! _) as [m|] eqn:Hm; simpl; [|lia].
  apply (to_source _ Hs) in Hm. lia.
Qed.

Lemma policy_header_there d p scope w row :
  tables_ok d → find_workspace d (tenant_id p) w = Some row → is_Some (policy_header d scope (tenant_id p) w).
Proof.
  intros Hd [Hw <-]%find_workspace_Some. apply (to_workspace _ Hd) in Hw as (_ & _ & _ & _ & ? & ?).
  by destruct scope.
Qed.

Lemma typed_policy_change p scope arg w q e l v target trace policy s :
  typed s → wp (policy_change p scope arg w q e l v target trace policy) (λ _, typed) s.
Proof.
  intros Hs. unfold policy_change. apply wp_bind, wp_clock. apply typed_transaction; [done|].
  unfold policy_authority. apply wp_bind, wp_bind, wp_workspace_for; [intros row Hw|done].
  apply wp_bind, wp_query. apply wp_denied; [apply wp_audit_quiet|done|intros _]. apply wp_ret.
  do 2 apply wp_bind, wp_query. apply wp_denied; [apply wp_audit_quiet|done|intros _].
  destruct Hw as (_ & _ & Hf & _). pose proof (policy_header_there _ _ scope _ _ Hs Hf) as [r Hr].
  apply wp_bind, wp_update, typed_record, tables_policy; [done|by eexists|]. simpl. rewrite Hr. simpl.
  enough (1 <= po_version r) by lia. destruct scope; simpl in Hr; [by eapply to_tenant_policy|].
  by eapply to_workspace_policy.
Qed.

Lemma typed_set_permission_policy token step_up arg w q e l v trace policy s :
  typed s → wp (set_permission_policy token step_up arg w q e l v trace policy) (λ _, typed) s.
Proof.
  intros Hs. unfold set_permission_policy. apply wp_bind, wp_gets, wp_bind, wp_guard; [intros _|done].
  apply wp_bind, wp_from_option; [intros scope _|done]. apply wp_bind, wp_guard; [intros _|done].
  apply wp_bind, wp_at_identity; [intros i i' o _ _|done]. destruct o as [p|]; [|done].
  apply wp_bind. eapply wp_mono with (Q := λ o s', typed s').
  2: { destruct scope; [done|]. by apply wp_checked_id. }
  intros [target|] s1 H1; [|done]. apply wp_bind. eapply wp_mono; [|apply typed_transaction; [done|]].
  2: { apply wp_bind, wp_policy_authority; [|done]. intros. by apply wp_ret. }
  intros [[]|] s2 H2; [|done]. apply wp_bind, wp_at_identity; [intros j j' o _ _|done].
  destruct o as [[]|]; [|done]. by apply typed_policy_change.
Qed.
Lemma typed_quiet s s' : quiet s s' → typed s → typed s'.
Proof. unfold typed. by intros [-> _ _ _]. Qed.

(** A descriptor's rows *)
Lemma descriptor_valid_rows h d now :
  descriptor_valid h = true → hd_original_membership_version h < 2 ^ 63 → is_Some (find_workspace d (hd_tenant_id h) (hd_workspace_id h)) →
  result_ok (find_workspace d) (hd_result_id h)
    (mkHistorical (hd_result_kind h) (hd_tenant_id h) (hd_workspace_id h) (hd_source_version_ids h)
      (hd_evidence_reference_ids h) (hd_original_policy_version h)
      (hd_original_membership_version h) now) ∧
  ∀ e, e ∈ hd_dependencies h →
    dependency_valid (hd_source_version_ids h) (hd_evidence_reference_ids h) e = true.
Proof.
  intros Hv Hmax Hf. unfold descriptor_valid in Hv. bools.
  repeat match goal with H : forallb _ _ = true |- _ => rewrite forallb_elem in H end.
  split; [|done]. split; simpl; try done. repeat (apply Forall_cons; split; [done|]).
  apply Forall_app. split; by apply Forall_forall.
Qed.

Lemma typed_insert_descriptor h now s : typed s → wp (insert_descriptor h now) commits s.
Proof.
  intros Hs. unfold insert_descriptor. do 2 (apply wp_bind, wp_guard; [intros ?Hv|done]).
  apply wp_bind, wp_query, wp_bind, wp_guard; [intros Hf|done]. bools.
  destruct (descriptor_valid_rows _ _ now Hv Hv0 Hf) as [Hr Hdeps].
  apply wp_bind, wp_insert_row; [intros Hn|done].
  match type of Hr with result_ok _ _ ?r => set (row := r) in * end.
  apply wp_mfor with (I := λ s', typed s' ∧ historical_results (db s') !! hd_result_id h = Some row)
    (E := λ _ _, True); [| |by intros s' []|done].
  - simpl. split; [by apply tables_result|]. apply lookup_insert_eq.
  - intros e s1 He [H1 Hrow]. apply wp_insert_row; [intros _|done]. simpl. split; [|done].
    eapply tables_dependency; [done..|]. simpl. destruct e. by apply Hdeps.
Qed.

Lemma typed_register p h trace policy s :
  typed s → wp (register_historical_result p h trace policy) (λ _, typed) s.
Proof.
  intros Hs. unfold register_historical_result. do 2 (apply wp_bind, wp_guard; [intros _|done]).
  apply wp_bind. eapply wp_mono; [|apply accountable_authorize_action].
  intros [g|e] s1 Hq; pose proof (typed_quiet _ _ Hq Hs) as H1; [|done].
  apply typed_transaction; [done|]. apply wp_bind, wp_workspace_for; [intros w Hw|done].
  apply wp_bind, wp_query, wp_bind, wp_guard; [intros _|done]. apply wp_bind, wp_clock, wp_bind.
  eapply wp_mono; [|apply typed_insert_descriptor, H1]. intros [[]|e] s2 H2; [|done].
  apply wp_audit; [|done]. intros s' e Hq' _ _. by eapply typed_quiet.
Qed.

Lemma holds_role_version d p k w b : tables_ok d → holds_role d p k w b → 1 <= rb_version b.
Proof.
  intros Hd [r Hr|m _ Hm]; simpl; [by apply (to_tenant_role _ Hd) in Hr as [? _]|].
  by apply (to_membership _ Hd) in Hm as (_ & _ & _ & ?).
Qed.

Lemma access_decision_ok d p k x h w a id now :
  tables_ok d → read_descriptor d (tenant_id p) k x = Some h → hd_tenant_id h = tenant_id p →
  find_workspace d (tenant_id p) (hd_workspace_id h) = Some w →
  decision_ok (historical_results d) id (access_decision d p h w a id now).
Proof.
  intros Hd Hh Ht [Hw _]%find_workspace_Some. apply (to_workspace _ Hd) in Hw as (_ & _ & Hacl & _).
  pose proof (access_decision_decided d p h w a id now) as Hdec. split; [done| |done|..].
  - simpl. unfold read_descriptor in Hh. destruct (historical_results d !! x) as [r|] eqn:Hr; simpl in Hh; [|done].
    destruct (_ && _); [|done]. injection Hh as <-. by exists r.
  - pose proof (dc_role _ _ _ _ _ _ Hdec) as Hr. destruct (ad_role_scope _).
    + destruct Hr as (b & Hb & _ & ->). by eapply holds_role_version.
    + destruct Hr as [Hr ->]. split; [done|]. apply (dc_blocked _ _ _ _ _ _ Hdec). left.
      intros (b & Hb & _). apply Hr. by exists b.
  - split; [|apply (dc_reasons _ _ _ _ _ _ Hdec)]. simpl. by case_bool_decide.
Qed.

(** An evaluation keeps the tables, and its decision is there. *)
Lemma typed_evaluate p x a trace policy s :
  typed s → wp (evaluate_historical_access p x a trace policy) (λ o s', typed s' ∧ match o with
    | Ret dec => access_decisions (db s') !! ad_decision_id dec = Some dec ∧ ad_action dec = a ∧
        ad_actor_id dec = user_id p ∧ ad_resource_id dec = x ∧ ad_tenant_id dec = tenant_id p
    | Raise _ => True
    end) s.
Proof.
  intros Hs. eapply wp_mono; [|apply wp_evaluate_historical_access]. unfold typed.
  intros [dec|e] s' [_ H]; [|by rewrite H].
  destruct H as (h & w & e & Ht & Hh & (_ & _ & Hf & _) & Hd & Hn & -> & _).
  assert (hd_result_id h = x) as Hx.
  { clear - Hh. unfold read_descriptor in Hh. destruct (historical_results _ !! x) as [r|]; simpl in Hh; [|done].
    destruct (_ && _); [|done]. by injection Hh as <-. }
  split; [|simpl; rewrite lookup_insert_eq, Hd; by split_and!]. apply tables_decision; [done..|].
  rewrite Hd. by eapply access_decision_ok.
Qed.

Lemma typed_require p x a trace policy s :
  typed s → wp (require_historical_access p x a trace policy) (λ o s', typed s' ∧ match o with
    | Ret dec => access_decisions (db s') !! ad_decision_id dec = Some dec ∧ ad_action dec = a ∧
        ad_state dec ≠ ACCESS_BLOCKED ∧
        ad_actor_id dec = user_id p ∧ ad_resource_id dec = x ∧ ad_tenant_id dec = tenant_id p
    | Raise _ => True
    end) s.
Proof.
  intros Hs. apply wp_bind. eapply wp_mono; [|by apply typed_evaluate].
  intros [dec|e] s' [H Hd]; [|done]. apply wp_bind, wp_guard; [intros Hb|done]. bools. apply wp_ret. naive_solver.
Qed.

Lemma typed_commit_rerun p x trace policy dec s :
  typed s → access_decisions (db s) !! ad_decision_id dec = Some dec → ad_action dec = RERUN →
  ad_state dec ≠ ACCESS_BLOCKED → ad_actor_id dec = user_id p → ad_resource_id dec = x →
  ad_tenant_id dec = tenant_id p →
  wp (commit_rerun p x trace policy dec) (λ _, typed) s.
Proof.
  intros Hs Hdec Ha Hb Hp Hx Ht. unfold typed.
  eapply wp_mono; [|apply wp_commit_rerun]. intros [ra|e] s' [_ H]; [|by rewrite H].
  destruct H as (h & w & b & now & e & [Hh (_ & _ & Hf & _) _ [Hid _] _ _ ->] & _).
  apply tables_rerun; [done| |by eexists]. destruct (do_result _ _ _ (to_decision _ Hs _ _ Hdec)) as (r & Hr & _ & Hw).
  split. exists dec. simpl. rewrite Hid. split_and!; try done; [|].
  all: clear - Hh Hx Hr Hw; subst x; unfold read_descriptor in Hh; rewrite Hr in Hh; simpl in Hh;
    (destruct (_ && _); [|done]); injection Hh as <-; done.
Qed.

Lemma typed_perform p trace policy r s : typed s → typed (perform p trace policy r s).
Proof.
  intros Hs. destruct r; simpl.
  - by eapply typed_quiet; [apply quiet_evaluate_permission|].
  - by eapply typed_quiet; [apply accountable_authorize_action|].
  - by eapply typed_quiet; [apply quiet_audit_read|].
  - by eapply typed_quiet; [apply quiet_organization_admin|].
  - by apply typed_set_membership.
  - by apply typed_set_tenant_role.
  - by apply typed_set_source_access.
  - by apply typed_register.
  - by apply typed_evaluate.
  - by apply typed_require.
  - enough (wp (authorize_rerun p result_id trace policy) (λ _, typed) s) as H by done.
    apply wp_bind. eapply wp_mono; [|by apply typed_require].
    intros [dec|e] s1 [H1 Hd]; [|done]. destruct Hd as (? & ? & ? & ? & ? & ?). by apply typed_commit_rerun.
Qed.

Lemma typed_bootstrap t k owner role kind area cost now s :
  typed s → wp (bootstrap_workspace t k owner role kind area cost now) (λ _, typed) s.
Proof.
  intros Hs. unfold bootstrap_workspace. do 5 (apply wp_bind, wp_checked_id; intros _; [|done]).
  apply wp_bind, wp_guard; [intros Hc|done]. apply wp_bind, wp_guard; [intros Hrole|done]. bools.
  apply typed_transaction; [done|]. do 2 apply wp_bind, wp_query.
  destruct (workspaces (db s) !! k) as [w|] eqn:Hk; [by apply wp_guard|].
  apply wp_bind, wp_query, wp_bind, wp_guard; [intros Hkinds|done].
  apply wp_bind, wp_guard; [intros _|done]. apply wp_bind, wp_guard; [intros Hmax|done]. bools.
  apply wp_bind, wp_insert_row; [intros _|done]. do 2 apply wp_bind, wp_update.
  apply wp_insert_row; [intros _|done]. simpl. red. simpl.
  apply (tables_bootstrap (db s) t k owner role kind area cost now); [done..|].
  intros k' w' Hw' <-. rewrite forallb_elem in Hkinds.
  specialize (Hkinds w'). rewrite String.eqb_refl in Hkinds. simpl in Hkinds.
  apply String.eqb_eq, Hkinds. apply list_elem_of_fmap. exists (k', w').
  split; [done|]. by apply elem_of_map_to_list.
Qed.
End Calls.

(** ** Reachable states *)

Section Reachable.
Context {W : World} {O : SetOrder} {A I : Type} {AS : AuditStore A} {IB : IdentityBoundary I}.
Implicit Types s : State A I.

(** Calls of the service, and what the runtime does with the repository itself *)
Inductive table_step s : State A I → Prop :=
| ts_call s' : call (λ _, True) s s' → table_step s s'
| ts_bootstrap t k owner role kind area cost now :
    table_step s (final (bootstrap_workspace t k owner role kind area cost now) s)
| ts_insert h now : table_step s (final (insert_historical_result h now) s)
| ts_close : table_step s (final close s).

Definition initial s : Prop := db s = empty_db.

Lemma typed_step s s' : table_step s s' → typed s → typed s'.
Proof.
  intros [s1 Hc| | |] Hs.
  - destruct Hc; [by apply typed_perform|by apply typed_set_permission_policy|by apply tables_members].
  - by apply typed_bootstrap.
  - apply typed_transaction; [done|by apply typed_insert_descriptor].
  - done.
Qed.

Lemma typed_reachable s0 s : initial s0 → rtc table_step s0 s → typed s.
Proof.
  intros H0 Hr. eapply (rtc_invariant _ typed); [intros ? ? ? ?; by eapply typed_step|done|].
  red. rewrite H0. apply tables_empty.
Qed.

Lemma elem_of_dependencies d x e :
  e ∈ dependencies_of d x ↔
  ∃ y r, result_dependencies d !! (x, y) = Some r ∧ e = dependency_of_row y r.
Proof.
  unfold dependencies_of. rewrite sort_stable_perm, list_elem_of_omap. split.
  - intros ([[x' y] r] & Hin%elem_of_map_to_list & He). simpl in He.
    destruct (String.eqb_spec x' x) as [->|]; simplify_eq. by exists y, r.
  - intros (y & r & Hr & ->). exists ((x, y), r). split; [by apply elem_of_map_to_list|].
    simpl. by rewrite String.eqb_refl.
Qed.

Lemma stored_descriptor_valid d t k x h :
  tables_ok d → read_descriptor d t k x = Some h → descriptor_valid h = true.
Proof.
  intros Hd. unfold read_descriptor. destruct (historical_results d !! x) as [r|] eqn:Hr; simpl; [|done].
  destruct (_ && _); [|done]. intros [= <-]. destruct (to_result _ Hd _ _ Hr) as [_ Hids [Hn1 Hn2] Hv].
  rewrite Forall_forall in Hids. assert (∀ y, y ∈ hr_source_version_ids r ++ hr_evidence_reference_ids r →
    safe_id y = true) as Hl by (intros y Hy; apply Hids; by do 5 right).
  unfold descriptor_valid. simpl. rewrite !andb_true_iff, !forallb_elem, !bool_decide_eq_true.
  split_and!; try (apply Hids; set_solver); try done.
  - intros y Hy. apply Hl. set_solver.
  - intros y Hy. apply Hl. set_solver.
  - by apply Z.leb_le, Hv.
  - intros e (y & row & Hrow & ->)%elem_of_dependencies.
    destruct (to_dependency _ Hd _ _ _ Hrow) as (h & Hh & Hval). by simplify_eq.
  - apply dependencies_NoDup.
Qed.

(** C26: In every state that provisioning and calls reach from the empty
    database the tables are well typed: every row refers to a workspace, policy
    or result that is there, holds a role of its own scope, a version of at
    least 1 (roles, memberships, workspaces, policies, source rules, results),
    and a workspace kind its tenant's other workspaces share.  A decision is
    kept under its identifier, is about a stored result of its workspace, and
    has a version exactly when a role was held; without one it blocks.  A
    request for a rerun names a decision for a rerun of the same result by the
    same caller that does not block.  (The rows of tenant memberships belong to
    the organization service.)  Hence
    an active tenant role is the role its holder has in every workspace of the
    tenant, and every stored result reads back as a descriptor that registering
    accepts. *)
Theorem tables_typed s0 s :
  initial s0 → rtc table_step s0 s →
  tables_ok (db s) ∧
  (∀ p r k w, active_tenant_role (db s) p = Some r → find_workspace (db s) (tenant_id p) k = Some w →
    role_binding (db s) p k w = Some (mkBinding (rr_role r) TENANT (rr_version r))) ∧
  (∀ t k x h, read_descriptor (db s) t k x = Some h → descriptor_valid h = true).
Proof.
  intros H0 Hr. pose proof (typed_reachable s0 s H0 Hr) as Hs. split_and!; [done| |].
  - intros p r k w Hp Hw. apply role_binding_iff. apply active_tenant_role_Some in Hp as [Hp Ha].
    apply holds_tenant_role; [done..|].
    destruct (to_tenant_role _ Hs _ _ _ Hp) as (_ & _ & k' & w' & Hw' & Ht & ->). f_equal.
    apply find_workspace_Some in Hw as [Hw Htw]. eapply (to_kinds _ Hs); [done..|congruence].
  - intros t k x h. by apply stored_descriptor_valid.
Qed.
End Reachable.
