(* ===== verification/AuthorizationSamples.v ===== *)
(** A tenant with two workspaces, the runs that witness the theorems about
    authorization, and runs that show what the service does not prevent. *)

From S2P Require Import Prelude Sha256 PyStr Json HashChain Bytes AuditLog Authorization AuthorizationFacts.
From S2P Require Import AuthorizationTables.
#[local] Open Scope Z_scope.
#[local] Existing Instance checksum_digest.
#[local] Existing Instance sample_world.

(** ** A sample *)

(** Sets are iterated in the order they are written. *)
#[export] Instance written_order : SetOrder :=
  {| set_iter _ l := l; set_iter_perm _ l := Permutation_refl l |}.

#[export] Instance sample_hosts : HostParser :=
  {| ip_address _ := None; url_hostname _ := Some None |}.

(** An identity service that takes the access token for the user's name. *)
#[export] Instance sample_identity : IdentityBoundary unit := {|
  validate_access token _ _ := ret (mkPrincipal token "session-1" "device-1" "tenant-1");
  consume_step_up code _ _ _ _ _ :=
    guard (bool_decide (code = Some "step-up")) (AuthorizationError "STEP_UP_REQUIRED" 403)
|}.

Abbreviation Sys := (State Store unit).

Definition user (name : string) : IdentityPrincipal := mkPrincipal name "session-1" "device-1" "tenant-1".
Definition boss : IdentityPrincipal := user "boss".
Definition amy : IdentityPrincipal := user "amy".
Definition ed : IdentityPrincipal := user "ed".

Definition start : Sys := mkState empty_db false empty_store (Some tt) (mkDraws 0 0).

Definition bootstrapped : Sys :=
  final (bootstrap_workspace "tenant-1" "beta" "boss" ORGANIZATION_ADMIN "organization" "area-1" 500 0)
    (final (bootstrap_workspace "tenant-1" "alpha" "boss" ORGANIZATION_ADMIN "organization" "area-1" 500 0)
      start).

Definition by_ (p : IdentityPrincipal) (r : request) (s : Sys) : Sys := perform p "trace-1" "policy-1" r s.

(** Amy administers alpha, and Ed edits there. *)
Definition staffed : Sys :=
  by_ amy (SetMembership "alpha" "ed" EDITOR 0)
    (by_ boss (SetMembership "alpha" "amy" WORKSPACE_ADMIN 0) bootstrapped).

(** A result of three sources: one decisive, two that can be taken out. *)
Definition sample_result : HistoricalResultDescriptor :=
  mkDescriptor "result-1" "report" "tenant-1" "alpha" ["source-1"; "source-2"; "source-3"]
    ["ref-1"; "ref-2"]
    [mkDependency "ref-1" "source-1" ["seg-1"] true true;
     mkDependency "ref-2" "source-2" ["seg-2"; "seg-3"] false true]
    "tenant-1:workspace-1" 1.

Definition registered : Sys :=
  by_ boss (SetSourceAccess "alpha" "ed" "source-2" false 0)
    (by_ ed (RegisterHistoricalResult sample_result) staffed).

Example sample_staff :
  (role_binding (db staffed) amy "alpha" <$> find_workspace (db staffed) "tenant-1" "alpha",
   role_binding (db staffed) ed "alpha" <$> find_workspace (db staffed) "tenant-1" "alpha",
   role_binding (db staffed) boss "beta" <$> find_workspace (db staffed) "tenant-1" "beta") =
  (Some (Some (mkBinding WORKSPACE_ADMIN WORKSPACE 1)), Some (Some (mkBinding EDITOR WORKSPACE 1)),
   Some (Some (mkBinding ORGANIZATION_ADMIN TENANT 1))).
Proof. vm_compute. reflexivity. Qed.

Example sample_access :
  match result (evaluate_historical_access ed "result-1" READ "trace-1" "policy-1") registered with
  | Ret dec => Some (ad_state dec, ad_allowed_reference_ids dec, ad_masked_segment_ids dec, ad_reason_codes dec)
  | Raise _ => None
  end = Some (PARTIALLY_REDACTED, ["ref-1"], ["seg-2"; "seg-3"], ["SOURCE_ACCESS_REVOKED"]).
Proof. vm_compute. reflexivity. Qed.

Example sample_policy :
  result (set_permission_policy "boss" (Some "step-up") "tenant" "alpha" FILE_DOWNLOAD_SHARE DENY true 1
    "trace-1" "policy-1") registered = Ret 2.
Proof. vm_compute. reflexivity. Qed.

(** ** Witnesses *)

Definition after_amy : Sys := by_ amy (SetMembership "alpha" "zoe" EDITOR 0) staffed.

Lemma amy_alone p : p = amy → tenant_id p = "tenant-1" → active_tenant_role (db staffed) p = None.
Proof. intros -> _. vm_compute. reflexivity. Qed.

Lemma amy_not_beta p : p = amy → tenant_id p = "tenant-1" →
  ¬ workspace_admin (db staffed) "tenant-1" "beta" (user_id p).
Proof. intros -> _ (m & Hm & _). vm_compute in Hm. discriminate. Qed.

Lemma amy_run : rtc (call (λ p, p = amy)) staffed after_amy.
Proof. eapply rtc_once. by apply (call_perform _ _ amy "trace-1" "policy-1"). Qed.

Example amy_added :
  rr_role <$> memberships (db after_amy) !! ("tenant-1", "alpha", "zoe") = Some EDITOR.
Proof. vm_compute. reflexivity. Qed.

Lemma no_escalation_witness :
  rtc (call (λ p, p = amy)) staffed after_amy ∧
  same_tenant "tenant-1" (db staffed) (db after_amy) ∧
  same_workspace "tenant-1" "beta" (db staffed) (db after_amy).
Proof.
  split; [exact amy_run|]. split.
  - exact (proj1 (no_escalation (λ p, p = amy) "tenant-1" staffed after_amy amy_alone amy_run)).
  - exact (proj1 (proj2 (no_escalation (λ p, p = amy) "tenant-1" staffed after_amy amy_alone amy_run))
      "beta" amy_not_beta).
Defined.

Definition sample_rerun : RerunAuthorization :=
  mkRerun "rrq-7" "acd-5" (mkSnapshot "tenant-1" "alpha" "ed" WORKSPACE 1 4
    "tenant-1:workspace-1" "area-1" 500 ["source-1"]).

Lemma sample_rerun_returned :
  result (authorize_rerun ed "result-1" "trace-1" "policy-1") registered = Ret sample_rerun.
Proof. vm_compute. reflexivity. Qed.

Definition after_rerun : Sys := final (authorize_rerun ed "result-1" "trace-1" "policy-1") registered.

Example rerun_recorded :
  (size (rerun_requests (db registered)), rq_actor_id <$> rerun_requests (db after_rerun) !! "rrq-7",
   rq_access_decision_id <$> rerun_requests (db after_rerun) !! "rrq-7",
   ad_masked_segment_ids <$> access_decisions (db after_rerun) !! "acd-5") =
  (0%nat, Some "ed", Some "acd-5", Some ["seg-2"; "seg-3"]).
Proof. vm_compute. reflexivity. Qed.

Lemma rerun_bound_to_current_access_witness :
  rs_source_version_ids (ra_snapshot sample_rerun) = ["source-1"] ∧
  untouched (db registered) (db after_rerun) ∧
  ∃ h now, rerun_requests (db after_rerun) !! "rrq-7" = Some (rerun_row ed h sample_rerun now).
Proof.
  split; [reflexivity|].
  destruct (proj1 (rerun_bound_to_current_access ed "result-1" "trace-1" "policy-1" registered) sample_rerun
    sample_rerun_returned) as [Hu (h & w & b & dec & now & Hr)]. split; [exact Hu|].
  exists h, now. do 19 destruct Hr as [_ Hr]. change (db after_rerun) with
    (db (final (authorize_rerun ed "result-1" "trace-1" "policy-1") registered)). rewrite Hr.
  exact (lookup_insert_eq _ "rrq-7" _).
Defined.

Lemma registered_reachable : rtc table_step start registered.
Proof.
  assert (∀ p r s, rtc table_step start s → rtc table_step start (by_ p r s)) as Hcall.
  { intros p r s Hs. eapply rtc_r; [exact Hs|]. apply ts_call. by apply call_perform. }
  do 4 apply Hcall. eapply rtc_r; [eapply rtc_once|]; apply ts_bootstrap.
Qed.

Lemma tables_typed_witness :
  size (memberships (db registered)) = 2%nat ∧ tables_ok (db registered).
Proof.
  split; [vm_compute; reflexivity|]. exact (proj1 (tables_typed start registered eq_refl registered_reachable)).
Defined.

(** ** What the service does not prevent *)

(** A source of the result that no dependency names is not looked at: it can be
    revoked without the result being redacted. *)
Example unlinked_source_not_checked :
  match result (evaluate_historical_access ed "result-1" READ "trace-1" "policy-1")
    (by_ boss (SetSourceAccess "alpha" "ed" "source-3" false 0)
      (by_ ed (RegisterHistoricalResult sample_result) staffed)) with
  | Ret dec => Some (ad_state dec, ad_reason_codes dec)
  | Raise _ => None
  end = Some (AVAILABLE, ["CURRENT_ACCESS_ALLOWED"]).
Proof. vm_compute. reflexivity. Qed.

(** Between its two transactions a rerun does not look again: a caller made a
    viewer in between, who may not generate, still gets the rerun. *)
Definition decided_then_demoted : option (Sys * AccessDecision) :=
  match require_historical_access ed "result-1" RERUN "trace-1" "policy-1" registered with
  | (s, Ret dec) => Some (by_ boss (SetMembership "alpha" "ed" VIEWER 1) s, dec)
  | (_, Raise _) => None
  end.

Example rerun_after_demotion :
  match decided_then_demoted with
  | Some (s, dec) =>
      (match result (commit_rerun ed "result-1" "trace-1" "policy-1" dec) s with
       | Ret ra => Some (rs_membership_version (ra_snapshot ra), rs_source_version_ids (ra_snapshot ra))
       | Raise _ => None
       end,
       match result (authorize_action ed "alpha" GENERATE "trace-1" "policy-1" []) s with
       | Ret _ => None
       | Raise e => Some e
       end)
  | None => (None, None)
  end = (Some (2, ["source-1"]), Some ACTION_DENIED).
Proof. vm_compute. reflexivity. Qed.

(** The last holder of a tenant role can give it up; nobody can assign one again. *)
Definition without_boss : Sys := by_ boss (SetTenantRole "boss" None 1) staffed.

Example last_tenant_role_revoked :
  map_Forall (λ _ r, rr_state r = "revoked") (tenant_roles (db without_boss)) ∧
  result (set_tenant_role boss "boss" (Some ORGANIZATION_ADMIN) 2 "trace-1" "policy-1") without_boss =
    Raise (AuthorizationError "PRIVILEGE_ESCALATION_DENIED" 403).
Proof. split; [apply (bool_decide_unpack _)|]; vm_compute; [exact Logic.I|reflexivity]. Qed.

(** The module records every security decision, but a caller who is refused a
    change of source access leaves no event. *)
Example unrecorded_denial :
  let call := set_source_access ed "alpha" "ed" "source-2" true 1 "trace-1" "policy-1" in
  result call registered = Raise ACTION_DENIED ∧ log (final call registered) = log registered.
Proof. vm_compute. split; reflexivity. Qed.
