(* ===== verification/AdminRoles.v ===== *)
(** Changes of workspace roles by system administrators, and the delivery of
    their audit events (admin_membership_roles.py).

    A change and the record of it are one transaction over the tables of
    [Authorization] and the table [auth_admin_role_operations]; the record is an
    outbox, from which a loop appends the audit events later, in sweeps of at
    most 32.  The users' table is the set of its keys.  A transaction of a sweep
    may fail, and the loop may be stopped at any of its checks; both are
    functions of how far the sweep has come. *)

From S2P Require Import Prelude Sha256 PyStr Json HashChain Bytes AuditLog Authorization AuthorizationFacts.
From S2P Require Import AuthorizationTables.
#[local] Open Scope Z_scope.

(** ** Data *)

Definition REASON_CODES : list string :=
  ["ROLE_DUTY_CHANGE"; "ACCESS_REVIEW"; "SECURITY_RESTRICTION"; "CORRECTION"; "OTHER"].

Definition INITIAL_ADMIN_USER_ID : string := "admin".

Record TenantMembershipView := mkTenantView {
  tv_tenant_id : string;
  tv_role : Role;
  tv_state : string;
  tv_version : Z
}.

Record WorkspaceMembershipView := mkWorkspaceView {
  wv_workspace_id : string;
  wv_role : Role;
  wv_state : string;
  wv_version : Z
}.

Record EffectiveMemberships := mkEffectiveMemberships {
  em_tenant : option TenantMembershipView;
  em_workspaces : list WorkspaceMembershipView
}.

Record WorkspaceRoleChange := mkRoleChange {
  wc_tenant_id : string;
  wc_workspace_id : string;
  wc_user_id : string;
  wc_role : Role;
  wc_state : string;
  wc_version : Z;
  wc_acl_version : Z;
  wc_replayed : bool
}.

(** [auth_admin_role_operations], by (actor_id, idempotency_key) *)
Record OperationRow := mkOperation {
  op_request_fingerprint : string;
  op_event_id : string;
  op_tenant_id : string;
  op_workspace_id : string;
  op_user_id : string;
  op_old_role : Role;
  op_new_role : Role;
  op_old_version : Z;
  op_new_version : Z;
  op_acl_version : Z;
  op_reason : string;
  op_outcome : string;
  op_created_at : Z;
  op_delivered_at : option Z
}.

Abbreviation Key := (string * string)%type.

Record AdminState (A : Type) := mkAdmin {
  ad_db : Db;
  ad_operations : gmap Key OperationRow;
  ad_users : gset string;
  ad_closed : bool;
  ad_audit : A;
  ad_cursor : option (Z * string);
  ad_watermark : option (Z * string);
  ad_draws : Draws
}.
Arguments mkAdmin {A}.
Arguments ad_db {A}.
Arguments ad_operations {A}.
Arguments ad_users {A}.
Arguments ad_closed {A}.
Arguments ad_audit {A}.
Arguments ad_cursor {A}.
Arguments ad_watermark {A}.
Arguments ad_draws {A}.

Definition set_ad_db {A : Type} (v : Db) (s : AdminState A) : AdminState A :=
  mkAdmin v (ad_operations s) (ad_users s) (ad_closed s) (ad_audit s) (ad_cursor s) (ad_watermark s)
    (ad_draws s).
Definition set_ad_operations {A : Type} (v : gmap Key OperationRow) (s : AdminState A) : AdminState A :=
  mkAdmin (ad_db s) v (ad_users s) (ad_closed s) (ad_audit s) (ad_cursor s) (ad_watermark s) (ad_draws s).
Definition set_ad_audit {A : Type} (v : A) (s : AdminState A) : AdminState A :=
  mkAdmin (ad_db s) (ad_operations s) (ad_users s) (ad_closed s) v (ad_cursor s) (ad_watermark s)
    (ad_draws s).
Definition set_ad_cursor {A : Type} (v : option (Z * string)) (s : AdminState A) : AdminState A :=
  mkAdmin (ad_db s) (ad_operations s) (ad_users s) (ad_closed s) (ad_audit s) v (ad_watermark s)
    (ad_draws s).
Definition set_ad_watermark {A : Type} (v : option (Z * string)) (s : AdminState A) : AdminState A :=
  mkAdmin (ad_db s) (ad_operations s) (ad_users s) (ad_closed s) (ad_audit s) (ad_cursor s) v (ad_draws s).

#[export] Instance admin_drawing {A : Type} : Drawing (AdminState A) := {|
  draws_of := ad_draws;
  with_draws v s := mkAdmin (ad_db s) (ad_operations s) (ad_users s) (ad_closed s) (ad_audit s)
    (ad_cursor s) (ad_watermark s) v
|}.

(** ** Changing a role *)

Section AdminRoles.
Context {D : Digest} {W : World} {A : Type} {AS : AuditStore A}.
(** [system_admin_user_ids] *)
Context (system_admins : gset string).
Abbreviation St := (M (AdminState A)).

Definition INVALID_INPUT_422 : exn := AuthorizationError "INVALID_INPUT" 422.
Definition DENIED_403 : exn := AuthorizationError "ACTION_DENIED" 403.
Definition UNAVAILABLE_404 : exn := AuthorizationError "RESOURCE_UNAVAILABLE" 404.
Definition VERSION_CONFLICT : exn := AuthorizationError "VERSION_CONFLICT" 412.

(** [_input_id] *)
Definition input_id (value : string) : St string :=
  guard (safe_id value) INVALID_INPUT_422 ;;
  ret value.

(** [with self._repository.transaction() as connection: m] *)
Definition admin_transaction {B} (m : St B) : St B := λ s,
  if ad_closed s then (s, Raise (AuthorizationError "PERSISTENCE_UNAVAILABLE" 503))
  else match m s with
       | (s', Ret b) => (s', Ret b)
       | (s', Raise e) => (set_ad_operations (ad_operations s) (set_ad_db (ad_db s) s'), Raise e)
       end.

(** [_actor] *)
Definition admin_actor (p : IdentityPrincipal) : St string :=
  guard (safe_id (user_id p)) INVALID_INPUT ;;
  guard (bool_decide (user_id p ∈ system_admins)) DENIED_403 ;;
  ret (user_id p).

(** [_require_target_user] *)
Definition require_target_user (user : string) : St unit :=
  known <- gets (λ s, bool_decide (user ∈ ad_users s)) ;;
  guard known UNAVAILABLE_404.

(** The tenants with a workspace or an active tenant role, each with its name *)
Definition list_tenants (p : IdentityPrincipal) : St (list (string * string)) :=
  admin_actor p ;;
  admin_transaction (
    gets (λ s, map (λ t, (t, t)) (sorted_strings (fromkeys (
      map (λ kv, wk_tenant_id kv.2) (map_to_list (workspaces (ad_db s))) ++
      map (λ kv, kv.1.1) (filter (λ kv, rr_state kv.2 = "active")
        (map_to_list (tenant_roles (ad_db s))))))))).

(** The active memberships in workspaces of the tenant, in order *)
Definition membership_views (d : Db) (tenant user : string) : list (string * RoleRow) :=
  sort_stable (λ a b, string_leb a.1 b.1)
    (omap (λ kv,
      if String.eqb kv.1.1.1 tenant && String.eqb kv.1.2 user && active kv.2 &&
         bool_decide (is_Some (find_workspace d tenant kv.1.1.2))
      then Some (kv.1.1.2, kv.2) else None) (map_to_list (memberships d))).

Definition list_effective_memberships (p : IdentityPrincipal) (tenant user : string)
    : St EffectiveMemberships :=
  admin_actor p ;;
  tenant <- input_id tenant ;;
  user <- input_id user ;;
  admin_transaction (
    require_target_user user ;;
    row <- gets (λ s, r ← tenant_roles (ad_db s) !! (tenant, user); if active r then Some r else None) ;;
    rows <- gets (λ s, membership_views (ad_db s) tenant user) ;;
    guard (bool_decide (row ≠ None ∨ rows ≠ [])) UNAVAILABLE_404 ;;
    ret (mkEffectiveMemberships
      ((λ r, mkTenantView tenant (rr_role r) "active" (rr_version r)) <$> row)
      (omap (λ kr, if bool_decide (rr_role kr.2 ∈ WORKSPACE_ROLES)
                   then Some (mkWorkspaceView kr.1 (rr_role kr.2) "active" (rr_version kr.2))
                   else None) rows))).

Definition operation_event_id (actor key : string) : string :=
  "auth-admin-role-" +:+ sha256_hex (encode (actor +:+ "|" +:+ key)).

(** [request], the arguments that a repetition has to share *)
Definition change_request (actor tenant workspace user : string) (role : Role) (expected : Z)
    (reason : string) : json :=
  JArr [JStr actor; JStr tenant; JStr workspace; JStr user; JStr (role_value role); JInt expected; JStr reason].

Definition change_fingerprint (actor tenant workspace user : string) (role : Role) (expected : Z)
    (reason : string) : string :=
  fingerprint (change_request actor tenant workspace user role expected reason).

(** The workspace keeps another active administrator. *)
Definition other_admin (d : Db) (tenant workspace user : string) : bool :=
  existsb (λ kv, String.eqb kv.1.1.1 tenant && String.eqb kv.1.1.2 workspace &&
    negb (String.eqb kv.1.2 user) && bool_decide (rr_role kv.2 = WORKSPACE_ADMIN) && active kv.2)
    (map_to_list (memberships d)).

(** The two [UPDATE]s of a change, each of which must find its row *)
Definition write_role (tenant workspace user : string) (role : Role) (old_version acl_version now : Z)
    : St unit :=
  row <- gets (λ s, memberships (ad_db s) !! (tenant, workspace, user)) ;;
  r <- from_option row VERSION_CONFLICT ;;
  guard (active r && (rr_version r =? old_version)) VERSION_CONFLICT ;;
  modify (λ s, set_ad_db (set_memberships (<[(tenant, workspace, user) :=
    mkRoleRow role (rr_state r) (old_version + 1) now]> (memberships (ad_db s))) (ad_db s)) s) ;;
  w <- gets (λ s, find_workspace (ad_db s) tenant workspace) ;;
  guard (match w with Some w => wk_acl_version w =? acl_version | None => false end) VERSION_CONFLICT ;;
  modify (λ s, set_ad_db (bump_acl tenant workspace now (ad_db s)) s).

(** [INSERT INTO auth_admin_role_operations]: both keys of the table are unique. *)
Definition insert_operation (key : Key) (row : OperationRow) : St unit :=
  free <- gets (λ s, bool_decide (ad_operations s !! key = None) &&
    forallb (λ kv, negb (String.eqb (op_event_id kv.2) (op_event_id row))) (map_to_list (ad_operations s))) ;;
  guard free (AuthorizationError "AUDIT_WRITE_FAILED" 503) ;;
  modify (λ s, set_ad_operations (<[key := row]> (ad_operations s)) s).

Definition change_existing_workspace_role (p : IdentityPrincipal) (tenant workspace user : string)
    (role : Role) (expected_version : pyobj) (key reason : string) : St WorkspaceRoleChange :=
  actor <- admin_actor p ;;
  tenant <- input_id tenant ;;
  workspace <- input_id workspace ;;
  user <- input_id user ;;
  guard (bool_decide (role ∈ WORKSPACE_ROLES)) (AuthorizationError "INVALID_ROLE_SCOPE" 422) ;;
  expected <- from_option (match expected_version with PyInt z => if 1 <=? z then Some z else None | _ => None end)
    INVALID_INPUT_422 ;;
  guard (Nat.leb 16 (String.length key) && Nat.leb (String.length key) 128) INVALID_INPUT_422 ;;
  key <- input_id key ;;
  guard (bool_decide (reason ∈ REASON_CODES)) INVALID_INPUT_422 ;;
  let print := change_fingerprint actor tenant workspace user role expected reason in
  now <- clock ;;
  admin_transaction (
    found <- gets (λ s, find_workspace (ad_db s) tenant workspace) ;;
    w <- from_option found UNAVAILABLE_404 ;;
    require_target_user user ;;
    prior <- gets (λ s, ad_operations s !! (actor, key)) ;;
    match prior with
    | Some op =>
        guard (String.eqb (op_request_fingerprint op) print) (AuthorizationError "IDEMPOTENCY_KEY_REUSED" 409) ;;
        ret (mkRoleChange tenant workspace user (op_new_role op) "active" (op_new_version op)
          (op_acl_version op) true)
    | None =>
        current <- gets (λ s, memberships (ad_db s) !! (tenant, workspace, user)) ;;
        r <- from_option (r ← current; if active r && bool_decide (rr_role r ∈ WORKSPACE_ROLES)
                                       then Some r else None) UNAVAILABLE_404 ;;
        guard (negb (String.eqb user actor || String.eqb user INITIAL_ADMIN_USER_ID ||
          bool_decide (user ∈ system_admins))) DENIED_403 ;;
        guard (rr_version r =? expected) VERSION_CONFLICT ;;
        others <- gets (λ s, other_admin (ad_db s) tenant workspace user) ;;
        guard (negb (bool_decide (rr_role r = WORKSPACE_ADMIN) && negb (bool_decide (role = WORKSPACE_ADMIN))) ||
          others) DENIED_403 ;;
        let changed := negb (bool_decide (rr_role r = role)) in
        let next_version := if changed then rr_version r + 1 else rr_version r in
        let acl_version := wk_acl_version w + (if changed then 1 else 0) in
        when changed (write_role tenant workspace user role (rr_version r) (wk_acl_version w) now) ;;
        insert_operation (actor, key) (mkOperation print (operation_event_id actor key) tenant workspace
          user (rr_role r) role (rr_version r) next_version acl_version reason
          (if changed then "changed" else "unchanged") now None) ;;
        ret (mkRoleChange tenant workspace user role "active" next_version acl_version false)
    end).

(** ** Delivering the events *)

(** The order of (created_at, event_id), times as the text they are stored as *)
Definition mark_leb (a b : Z * string) : bool :=
  if decide (isoformat a.1 = isoformat b.1) then string_leb a.2 b.2
  else string_leb (isoformat a.1) (isoformat b.1).

Definition mark (row : OperationRow) : Z * string := (op_created_at row, op_event_id row).

(** The operations whose event is not delivered, in order *)
Definition pending (ops : gmap Key OperationRow) : list (Key * OperationRow) :=
  sort_stable (λ a b, mark_leb (mark a.2) (mark b.2))
    (filter (λ kv, op_delivered_at kv.2 = None) (map_to_list ops)).

(** [ORDER BY created_at,event_id LIMIT 32] of the rows after the cursor, up to
    the watermark *)
Definition in_sweep (cursor : option (Z * string)) (high : Z * string) (row : OperationRow) : bool :=
  match cursor with Some c => negb (mark_leb (mark row) c) | None => true end && mark_leb (mark row) high.

Definition batch_of (ops : gmap Key OperationRow) (cursor : option (Z * string)) (high : Z * string)
    : list (Key * OperationRow) :=
  take 32 (filter (λ kv, in_sweep cursor high kv.2 = true) (pending ops)).

(** One round of [for _ in range(2)]: [None] ends the sweep, an empty batch
    tries again. *)
Definition batch_round : St (option (list (Key * OperationRow))) :=
  high <- gets ad_watermark ;;
  newest <- gets (λ s, last (pending (ad_operations s))) ;;
  match match high with Some h => Some h | None => (λ kv, mark kv.2) <$> newest end with
  | None => modify (set_ad_cursor None) ;; ret None
  | Some h =>
      modify (set_ad_watermark (Some h)) ;;
      rows <- gets (λ s, batch_of (ad_operations s) (ad_cursor s) h) ;;
      match last rows with
      | Some kv => modify (set_ad_cursor (Some (mark kv.2))) ;; ret (Some rows)
      | None => modify (λ s, set_ad_cursor None (set_ad_watermark None s)) ;; ret (Some [])
      end
  end.

Definition next_batch : St (list (Key * OperationRow)) :=
  first <- batch_round ;;
  match first with
  | None => ret []
  | Some [] => second <- batch_round ;; ret (default [] second)
  | Some rows => ret rows
  end.

(** The event of an operation *)
Definition operation_draft (actor : string) (row : OperationRow) : AuditEventDraft :=
  mkDraft (PyStr (op_event_id row)) (Datetime (op_created_at row) (Some 0)) (PyStr actor) (Some USER)
    (PyStr (op_tenant_id row)) (PyStr (op_workspace_id row))
    (PyStr (if String.eqb (op_outcome row) "changed" then "authorization.membership.changed"
            else "authorization.membership.unchanged"))
    (PyStr "membership") (PyStr (op_user_id row)) (Some SUCCEEDED) (PyStr "not-recorded")
    (PyStr "not-recorded")
    (JObj [("role", JStr (role_value (op_old_role row))); ("version", JInt (op_old_version row))])
    (JObj [("role", JStr (role_value (op_new_role row))); ("version", JInt (op_new_version row))])
    (JObj [("reason_code", JStr (op_reason row)); ("outcome", JStr (op_outcome row));
           ("acl_version", JInt (op_acl_version row))]).

Definition DUPLICATE_EVENT : exn := AuditError "DUPLICATE_EVENT_ID".

(** The event is in the audit store: appended now, or before. *)
Definition deliver_event (actor : string) (row : OperationRow) : St bool := λ s,
  match audit_append (operation_draft actor row) (ad_audit s) with
  | (a, Ret _) => (set_ad_audit a s, Ret true)
  | (a, Raise e) => (set_ad_audit a s, Ret (bool_decide (e = DUPLICATE_EVENT)))
  end.

(** [UPDATE ... SET delivered_at=? WHERE event_id=? AND delivered_at IS NULL] *)
Definition mark_delivered (event_id : string) (now : Z) (ops : gmap Key OperationRow)
    : gmap Key OperationRow :=
  (λ row, if String.eqb (op_event_id row) event_id && bool_decide (op_delivered_at row = None)
          then mkOperation (op_request_fingerprint row) (op_event_id row) (op_tenant_id row)
                 (op_workspace_id row) (op_user_id row) (op_old_role row) (op_new_role row)
                 (op_old_version row) (op_new_version row) (op_acl_version row) (op_reason row)
                 (op_outcome row) (op_created_at row) (Some now)
          else row) <$> ops.

(** The body of the loop: [None] when the loop is to stop.  [stop] tells
    whether the event is set at a check, [available] whether the transaction of
    a row goes through. *)
Definition deliver_row (stop : nat → bool) (available : nat → bool) (n : nat)
    (item : Key * OperationRow) : St (option nat) :=
  if stop (2 * n)%nat then ret None
  else
    sent <- deliver_event item.1.1 item.2 ;;
    if negb sent then ret (Some (S n))
    else if stop (2 * n + 1)%nat then ret None
    else
      down <- gets ad_closed ;;
      when (available n && negb down) (
        now <- clock ;;
        modify (λ s, set_ad_operations (mark_delivered (op_event_id item.2) now (ad_operations s)) s)) ;;
      ret (Some (S n)).

Fixpoint deliver_rows (stop available : nat → bool) (n : nat) (rows : list (Key * OperationRow)) : St unit :=
  match rows with
  | [] => ret tt
  | item :: rest =>
      next <- deliver_row stop available n item ;;
      match next with
      | None => ret tt
      | Some n' => deliver_rows stop available n' rest
      end
  end.

(** [_dispatch_pending_audit], with an audit store; a closed repository ends it. *)
Definition dispatch_pending_audit (stop available : nat → bool) : St unit :=
  down <- gets ad_closed ;;
  if (down : bool) then ret tt
  else
    rows <- next_batch ;;
    deliver_rows stop available 0 rows.
End AdminRoles.

(** ** Reasoning about calls *)

Section Facts.
Context {D : Digest} {W : World} {A : Type} {AS : AuditStore A}.
Context (system_admins : gset string).
Implicit Types s : AdminState A.

(** Nothing of what a transaction protects differs. *)
Definition tables_kept s s' : Prop :=
  ad_db s' = ad_db s ∧ ad_operations s' = ad_operations s ∧ ad_users s' = ad_users s ∧
  ad_closed s' = ad_closed s ∧ ad_audit s' = ad_audit s ∧ ad_cursor s' = ad_cursor s ∧
  ad_watermark s' = ad_watermark s.

Lemma wp_admin_transaction {B} (m : M (AdminState A) B) (Q : outcome B → AdminState A → Prop) s :
  (∀ e, Q (Raise e) s) →
  (ad_closed s = false → wp m (λ o s', match o with
     | Ret b => Q (Ret b) s'
     | Raise e => Q (Raise e) (set_ad_operations (ad_operations s) (set_ad_db (ad_db s) s'))
     end) s) →
  wp (admin_transaction m) Q s.
Proof.
  unfold wp, admin_transaction. destruct (ad_closed s); [intros H _; apply H|]. intros _ H. specialize (H eq_refl).
  by destruct (m s) as [s' [b|e]].
Qed.

Lemma wp_input_id v Q s :
  (safe_id v = true → Q (Ret v) s) → Q (Raise INVALID_INPUT_422) s → wp (input_id v) Q s.
Proof. intros H1 H2. unfold input_id. by wp_run; auto. Qed.

Lemma wp_admin_actor p Q s :
  (user_id p ∈ system_admins → safe_id (user_id p) = true → Q (Ret (user_id p)) s) →
  (∀ e, Q (Raise e) s) → wp (admin_actor system_admins p) Q s.
Proof. intros H1 H2. unfold admin_actor. wp_run; bools; auto. Qed.

(** What a change that is not a replay does. *)
Record role_changed (actor tenant workspace user : string) (role : Role) (expected : Z)
    (key reason : string) s s' (c : WorkspaceRoleChange) : Prop := {
  rc_target : user ∈ ad_users s ∧ user ≠ actor ∧ user ≠ INITIAL_ADMIN_USER_ID ∧ user ∉ system_admins;
  rc_change : ∃ r w now,
    memberships (ad_db s) !! (tenant, workspace, user) = Some r ∧ rr_state r = "active" ∧
    rr_role r ∈ WORKSPACE_ROLES ∧ rr_version r = expected ∧
    find_workspace (ad_db s) tenant workspace = Some w ∧
    (let changed := negb (bool_decide (rr_role r = role)) in
     let next := if changed then expected + 1 else expected in
     let acl := wk_acl_version w + (if changed then 1 else 0) in
     c = mkRoleChange tenant workspace user role "active" next acl false ∧
     ad_db s' = (if changed then bump_acl tenant workspace now (set_memberships
         (<[(tenant, workspace, user) := mkRoleRow role "active" next now]> (memberships (ad_db s))) (ad_db s))
       else ad_db s) ∧
     ad_operations s' = <[(actor, key) := mkOperation
         (change_fingerprint actor tenant workspace user role expected reason)
         (operation_event_id actor key) tenant workspace user (rr_role r) role expected next acl reason
         (if changed then "changed" else "unchanged") now None]> (ad_operations s));
  rc_admins : (∃ u, workspace_admin (ad_db s) tenant workspace u) →
    ∃ u, workspace_admin (ad_db s') tenant workspace u;
  rc_new : ad_operations s !! (actor, key) = None ∧
    ∀ k row, ad_operations s !! k = Some row → op_event_id row ≠ operation_event_id actor key
}.

Lemma other_admin_true d tenant workspace user :
  other_admin d tenant workspace user = true → ∃ u, u ≠ user ∧ workspace_admin d tenant workspace u.
Proof.
  intros ([[[t w] u] m] & Hin%list_elem_of_In%elem_of_map_to_list & H)%existsb_exists. simpl in H. bools.
  subst. exists u. split; [done|]. exists m. split_and!; [done|by apply active_iff|done].
Qed.

(** Replacing the role of [user] leaves an administrator where there was one. *)
Lemma admins_kept d tenant workspace user role r now version :
  memberships d !! (tenant, workspace, user) = Some r →
  negb (bool_decide (rr_role r = WORKSPACE_ADMIN) && negb (bool_decide (role = WORKSPACE_ADMIN))) ||
    other_admin d tenant workspace user = true →
  (∃ u, workspace_admin d tenant workspace u) →
  ∃ u, workspace_admin (bump_acl tenant workspace now (set_memberships
    (<[(tenant, workspace, user) := mkRoleRow role "active" version now]> (memberships d)) d))
    tenant workspace u.
Proof.
  intros Hr Hg (u & Hu).
  assert (∀ u, u ≠ user → workspace_admin d tenant workspace u → workspace_admin (bump_acl tenant workspace now
    (set_memberships (<[(tenant, workspace, user) := mkRoleRow role "active" version now]> (memberships d)) d))
    tenant workspace u) as Hother.
  { intros u' Hne (m & Hm & ?). exists m. rewrite bump_memberships. simpl.
    rewrite lookup_insert_ne by congruence. done. }
  destruct (decide (u = user)) as [->|Hne]; [|by eauto].
  destruct Hu as (m & Hm & Ha & Hadm). simplify_eq.
  rewrite (bool_decide_eq_true_2 _ Hadm) in Hg. simpl in Hg. case_bool_decide as Hrole; simpl in Hg.
  - exists user, (mkRoleRow role "active" version now). rewrite bump_memberships. simpl.
    by rewrite lookup_insert_eq.
  - apply other_admin_true in Hg as (u' & Hne & Hu'). by eauto.
Qed.
Lemma wp_write_role tenant workspace user role version acl now (Q : outcome unit → AdminState A → Prop) s :
  (∀ r, memberships (ad_db s) !! (tenant, workspace, user) = Some r → rr_state r = "active" →
    Q (Ret tt) (set_ad_db (bump_acl tenant workspace now (set_memberships
      (<[(tenant, workspace, user) := mkRoleRow role "active" (version + 1) now]> (memberships (ad_db s)))
      (ad_db s))) s)) →
  (∀ e s', tables_kept s (set_ad_db (ad_db s) s') → Q (Raise e) s') →
  wp (write_role tenant workspace user role version acl now) Q s.
Proof.
  intros H1 H2. unfold write_role. apply wp_bind, wp_gets, wp_bind, wp_from_option; [intros r Hr|by intros; apply H2].
  apply wp_bind, wp_guard; [intros Ha|by intros; apply H2]. bools.
  apply wp_bind, wp_modify, wp_bind, wp_gets, wp_bind, wp_guard; [intros _|by intros; apply H2].
  apply wp_modify. match goal with H : active r = true |- _ => apply active_iff in H as Ha' end.
  rewrite Ha'. by apply (H1 r).
Qed.

(** The arguments of a change pass its checks. *)
Record inputs_ok (actor tenant workspace user : string) (role : Role) (key reason : string) : Prop := {
  io_ids : safe_id actor = true ∧ safe_id tenant = true ∧ safe_id workspace = true ∧
    safe_id user = true ∧ safe_id key = true;
  io_role : role ∈ WORKSPACE_ROLES;
  io_key : (16 <= String.length key <= 128)%nat;
  io_reason : reason ∈ REASON_CODES
}.

(** Every path through a change of a role. *)
Lemma wp_change p tenant workspace user role expected_version key reason s :
  wp (change_existing_workspace_role system_admins p tenant workspace user role expected_version key reason)
    (λ o s', ad_users s' = ad_users s ∧ ad_closed s' = ad_closed s ∧ ad_audit s' = ad_audit s ∧
      ad_cursor s' = ad_cursor s ∧ ad_watermark s' = ad_watermark s ∧ match o with
      | Raise _ => ad_db s' = ad_db s ∧ ad_operations s' = ad_operations s
      | Ret c => user_id p ∈ system_admins ∧ inputs_ok (user_id p) tenant workspace user role key reason ∧
          ∃ expected, expected_version = PyInt expected ∧ 1 <= expected ∧
          if wc_replayed c then ad_db s' = ad_db s ∧ ad_operations s' = ad_operations s ∧
            ∃ op, ad_operations s !! (user_id p, key) = Some op ∧
              op_request_fingerprint op = change_fingerprint (user_id p) tenant workspace user role expected reason ∧
              c = mkRoleChange tenant workspace user (op_new_role op) "active" (op_new_version op)
                    (op_acl_version op) true
          else role_changed (user_id p) tenant workspace user role expected key reason s s' c
      end) s.
Proof.
  unfold change_existing_workspace_role.
  apply wp_bind, wp_admin_actor; [intros Hp Hi0|intros; by split_and!].
  apply wp_bind, wp_input_id; [intros Hi1|intros; by split_and!].
  apply wp_bind, wp_input_id; [intros Hi2|intros; by split_and!].
  apply wp_bind, wp_input_id; [intros Hi3|intros; by split_and!].
  apply wp_bind, wp_guard; [intros Hrole|intros; by split_and!].
  apply wp_bind, wp_from_option; [intros expected Hexp|intros; by split_and!].
  apply wp_bind, wp_guard; [intros Hlen|intros; by split_and!].
  apply wp_bind, wp_input_id; [intros Hi4|intros; by split_and!].
  apply wp_bind, wp_guard; [intros Hreason|intros; by split_and!]. apply wp_bind, wp_clock.
  assert (inputs_ok (user_id p) tenant workspace user role key reason) as Hin.
  { apply bool_decide_eq_true_1 in Hrole, Hreason. apply andb_true_iff in Hlen as [Hl1 Hl2].
    apply Nat.leb_le in Hl1, Hl2. by constructor. }
  assert (expected_version = PyInt expected ∧ 1 <= expected) as [-> Hge].
  { destruct expected_version; try done. destruct (1 <=? z) eqn:Hz; [|done]. bools. by simplify_eq. }
  apply wp_admin_transaction; [intros; by split_and!|intros _].
  apply wp_bind, wp_gets, wp_bind, wp_from_option; [intros w Hw|intros; by split_and!].
  unfold require_target_user. apply wp_bind, wp_bind, wp_gets, wp_guard; [intros Hu|intros; by split_and!]. bools.
  apply wp_bind, wp_gets. destruct (ad_operations _ !! (user_id p, key)) as [op|] eqn:Hop.
  { apply wp_bind, wp_guard; [intros Hf|intros; by split_and!]. bools. apply wp_ret. simpl.
    split_and!; try done. exists expected. split_and!; try done. by exists op. }
  apply wp_bind, wp_gets, wp_bind, wp_from_option; [intros r Hr|intros; by split_and!].
  destruct (memberships _ !! _) as [r'|] eqn:Hm; simpl in Hr; [|done].
  destruct (active r' && _) eqn:Hact; [|done]. simplify_eq. bools.
  apply wp_bind, wp_guard; [intros Hnot|intros; by split_and!]. bools.
  apply wp_bind, wp_guard; [intros Hv|intros; by split_and!]. bools.
  apply wp_bind, wp_gets, wp_bind, wp_guard; [intros Hadm|intros; by split_and!].
  assert (rr_state r = "active") as Hst by by apply active_iff.
  apply wp_bind, wp_when; intros Hch.
  - apply wp_write_role; [|by intros e s' (? & ? & ? & ? & ? & ? & ?); split_and!].
    intros r0 Hr0 _. unfold insert_operation.
    apply wp_bind, wp_bind, wp_gets, wp_bind, wp_guard; [intros Hfree|intros; by split_and!]. bools.
    apply wp_modify, wp_ret. simpl. split_and!; try done. exists expected. split_and!; try done. subst expected.
    constructor; [by split_and!| | |].
    + exists r, w, (clock_at (ticks (ad_draws s))). rewrite bool_decide_eq_false_2 by done. simpl. by split_and!.
    + simpl. apply (admins_kept _ _ _ _ _ r); done.
    + split; [done|]. intros k row Hk Heq. match goal with H : forallb _ _ = true |- _ =>
        rewrite forallb_elem in H; specialize (H (k, row)) end.
      rewrite elem_of_map_to_list in *. simpl in *. rewrite Heq, String.eqb_refl in *. naive_solver.
  - unfold insert_operation.
    apply wp_bind, wp_bind, wp_gets, wp_bind, wp_guard; [intros Hfree|intros; by split_and!]. bools.
    apply wp_modify, wp_ret. simpl. split_and!; try done. exists expected. split_and!; try done. subst expected.
    constructor; [by split_and!| | |].
    + exists r, w, (clock_at (ticks (ad_draws s))). rewrite bool_decide_eq_true_2 by done. simpl. rewrite Z.add_0_r. by split_and!.
    + done.
    + split; [done|]. intros k row Hk Heq. match goal with H : forallb _ _ = true |- _ =>
        rewrite forallb_elem in H; specialize (H (k, row)) end.
      rewrite elem_of_map_to_list in *. simpl in *. rewrite Heq, String.eqb_refl in *. naive_solver.
Qed.

(** A change whose key is taken is answered from the operation, or refused. *)
Lemma change_replay p tenant workspace user role expected key reason s op :
  user_id p ∈ system_admins → inputs_ok (user_id p) tenant workspace user role key reason → 1 <= expected →
  ad_closed s = false → is_Some (find_workspace (ad_db s) tenant workspace) → user ∈ ad_users s →
  ad_operations s !! (user_id p, key) = Some op →
  wp (change_existing_workspace_role system_admins p tenant workspace user role (PyInt expected) key reason)
    (λ o s', tables_kept s s' ∧
      o = if String.eqb (op_request_fingerprint op)
               (change_fingerprint (user_id p) tenant workspace user role expected reason)
          then Ret (mkRoleChange tenant workspace user (op_new_role op) "active" (op_new_version op)
                 (op_acl_version op) true)
          else Raise (AuthorizationError "IDEMPOTENCY_KEY_REUSED" 409)) s.
Proof.
  intros Hp [(H1 & H2 & H3 & H4 & H5) Hrole [Hl Hl'] Hreason] Hge Hopen [w Hw] Hu Hop.
  unfold change_existing_workspace_role, admin_actor, input_id.
  rewrite H1, H2, H3, H4, H5, (bool_decide_eq_true_2 _ Hp), (bool_decide_eq_true_2 _ Hrole),
    (bool_decide_eq_true_2 _ Hreason).
  rewrite (proj2 (Nat.leb_le _ _) Hl), (proj2 (Nat.leb_le _ _) Hl').
  replace (1 <=? expected) with true by (symmetry; by apply Z.leb_le).
  unfold wp, guard, admin_transaction, require_target_user, clock, bind, gets, from_option, ret. simpl.
  rewrite Hopen. simpl. rewrite Hw. simpl. rewrite (bool_decide_eq_true_2 _ Hu). simpl. rewrite Hop. simpl.
  by destruct (String.eqb _ _).
Qed.

Lemma change_request_inj actor tenant workspace user role expected reason tenant' workspace' user' role' expected'
    reason' :
  change_fingerprint actor tenant workspace user role expected reason =
    change_fingerprint actor tenant' workspace' user' role' expected' reason' →
  (tenant, workspace, user, role, expected, reason) = (tenant', workspace', user', role', expected', reason') ∨
  collision (json_bytes true (change_request actor tenant workspace user role expected reason))
    (json_bytes true (change_request actor tenant' workspace' user' role' expected' reason')).
Proof.
  intros [H|H]%fingerprint_inj; [left|by right]. injection H as -> -> -> Hr -> ->.
  by destruct role, role'; simplify_eq.
Qed.

(** Everything else than the member's row and the workspace's ACL version stays. *)
Lemma changed_rows actor tenant workspace user role expected key reason s s' c :
  role_changed actor tenant workspace user role expected key reason s s' c →
  (∀ t, same_tenant t (ad_db s) (ad_db s')) ∧
  (∀ t w, (t, w) ≠ (tenant, workspace) → same_workspace t w (ad_db s) (ad_db s')) ∧
  (∀ u, u ≠ user → memberships (ad_db s') !! (tenant, workspace, u) =
                   memberships (ad_db s) !! (tenant, workspace, u)).
Proof.
  intros [_ (r & w & now & _ & _ & _ & _ & _ & _ & -> & _) _ _].
  destruct (negb _); [|split_and!; intros; reflexivity]. split_and!.
  - intros t. etransitivity; [|apply bump_tenant]. by constructor.
  - intros t w' Hne. etransitivity; [|by apply bump_workspace]. constructor; try done. intros u. simpl.
    rewrite lookup_insert_ne; [done|congruence].
  - intros u Hne. rewrite bump_memberships. simpl. rewrite lookup_insert_ne; [done|congruence].
Qed.

(** The tables stay well typed. *)
Lemma changed_tables actor tenant workspace user role expected key reason s s' c :
  role_changed actor tenant workspace user role expected key reason s s' c →
  role ∈ WORKSPACE_ROLES → 1 <= expected → tables_ok (ad_db s) → tables_ok (ad_db s').
Proof.
  intros [_ (r & w & now & _ & _ & _ & _ & Hw & _ & -> & _) _ _] Hrole Hge Hok.
  destruct (negb _); [|done]. apply tables_bump, tables_membership; simpl; [done|by rewrite Hw|done|done|lia].
Qed.

(** The operation a change leaves, but for the delivery of its event *)
Definition operation_of (actor key tenant workspace user : string) (role : Role) (expected : Z)
    (reason : string) (c : WorkspaceRoleChange) (op : OperationRow) : Prop :=
  op_request_fingerprint op = change_fingerprint actor tenant workspace user role expected reason ∧
  op_new_role op = role ∧ op_new_version op = wc_version c ∧ op_acl_version op = wc_acl_version c ∧
  op_event_id op = operation_event_id actor key.

(** C15: only a system administrator changes a role, never their own, the first
    administrator's or another system administrator's.  A change that returns
    found the member active at the expected version, replaces the member's role,
    leaves every other row of the tables as it was and all of them well typed,
    lets a workspace keep an active administrator if it had one, and records one
    pending operation; a refused one changes nothing.  From then on, in any
    store that still has that operation, the same call is answered with the same
    versions as replayed, and no call with the same key for anything else
    returns, unless two fingerprints collide. *)
Theorem admin_role_change p tenant workspace user role version key reason s :
  wp (change_existing_workspace_role system_admins p tenant workspace user role version key reason)
    (λ o s', match o with
      | Raise _ => ad_db s' = ad_db s ∧ ad_operations s' = ad_operations s
      | Ret c => user_id p ∈ system_admins ∧ ∃ expected, version = PyInt expected ∧ 1 <= expected ∧
          if wc_replayed c then ad_db s' = ad_db s ∧ ad_operations s' = ad_operations s
          else role_changed (user_id p) tenant workspace user role expected key reason s s' c ∧
            (tables_ok (ad_db s) → tables_ok (ad_db s')) ∧
            (∀ t, same_tenant t (ad_db s) (ad_db s')) ∧
            (∀ t w, (t, w) ≠ (tenant, workspace) → same_workspace t w (ad_db s) (ad_db s')) ∧
            (∀ u, u ≠ user → memberships (ad_db s') !! (tenant, workspace, u) =
                             memberships (ad_db s) !! (tenant, workspace, u)) ∧
            ∀ s2 op, ad_operations s2 !! (user_id p, key) = Some op →
              operation_of (user_id p) key tenant workspace user role expected reason c op →
              (ad_closed s2 = false → is_Some (find_workspace (ad_db s2) tenant workspace) → user ∈ ad_users s2 →
               wp (change_existing_workspace_role system_admins p tenant workspace user role version key reason)
                 (λ o2 s2', tables_kept s2 s2' ∧ o2 = Ret (mkRoleChange tenant workspace user role "active"
                   (wc_version c) (wc_acl_version c) true)) s2) ∧
              ∀ p2 tenant2 workspace2 user2 role2 version2 reason2, user_id p2 = user_id p →
               wp (change_existing_workspace_role system_admins p2 tenant2 workspace2 user2 role2 (PyInt version2)
                     key reason2)
                 (λ o2 s2', ad_db s2' = ad_db s2 ∧ ad_operations s2' = ad_operations s2 ∧ ∀ c2, o2 = Ret c2 →
                   (tenant2, workspace2, user2, role2, version2, reason2) =
                     (tenant, workspace, user, role, expected, reason) ∨
                   collision (json_bytes true (change_request (user_id p) tenant2 workspace2 user2 role2 version2 reason2))
                     (json_bytes true (change_request (user_id p) tenant workspace user role expected reason))) s2
      end) s.
Proof.
  eapply wp_mono; [|apply wp_change]. intros [c|e] s'; [|naive_solver].
  intros (_ & _ & _ & _ & _ & Hp & Hin & expected & -> & Hge & Hc). split; [done|]. exists expected.
  split_and!; [done..|]. destruct (wc_replayed c); [naive_solver|]. split; [done|].
  destruct (changed_rows _ _ _ _ _ _ _ _ _ _ _ Hc) as (Ht & Hw & Hu). split_and!; [|done..|].
  { apply (changed_tables _ _ _ _ _ _ _ _ _ _ _ Hc); [apply (io_role _ _ _ _ _ _ _ Hin)|done]. }
  intros s2 op Hop (Hf & Hr & Hv & Ha & _). split.
  - intros Hopen Hws Huser. eapply wp_mono; [|by apply change_replay]. rewrite Hf, String.eqb_refl, Hr, Hv, Ha. done.
  - intros p2 tenant2 workspace2 user2 role2 version2 reason2 Hp2. eapply wp_mono; [|apply wp_change].
    intros [c2|e2] s2'; [|naive_solver]. rewrite Hp2. intros (_ & _ & _ & _ & _ & _ & _ & ? & [= <-] & _ & Hc2).
    destruct (wc_replayed c2); [|by destruct Hc2 as [_ _ _ [? _]]; simplify_eq].
    destruct Hc2 as (? & ? & op' & Hop' & Hf' & _). rewrite Hop in Hop'. injection Hop' as <-. split_and!; [done..|].
    intros _ _. apply change_request_inj. by rewrite <- Hf, <- Hf'.
Qed.
End Facts.
