(* ===== verification/AdminOutbox.v ===== *)
(** The outbox of the role changes (admin_membership_roles.py): whatever the
    order of changes, sweeps, failures and appends of others, the audit log has
    at most one event per change and none without a change, and enough
    undisturbed sweeps deliver every event.

    [UniqueAudit] is what the loop relies on of the audit store: it keeps event
    ids unique and says so with its own error.  The in-memory store of
    [AuditLog] keeps that promise. *)

From S2P Require Import Prelude Sha256 PyStr Json HashChain Bytes AuditLog Authorization AuthorizationFacts.
From S2P Require Import AuthorizationTables AdminRoles.
#[local] Open Scope Z_scope.

(** ** The audit store's promise *)

Class UniqueAudit (A : Type) {AS : AuditStore A} := {
  audit_ok : A → Prop;
  audit_unique a : audit_ok a → NoDup (map ev_event_id (audit_events a));
  audit_append_unique d a : audit_ok a →
    wp (audit_append d) (λ o a', audit_ok a' ∧
      (o = Raise DUPLICATE_EVENT → ∃ e, e ∈ audit_events a ∧ dr_event_id d = PyStr (ev_event_id e))) a
}.

Section MemoryStore.
Context {D : Digest} {H : HostParser}.

(** No other check of a draft fails with the error for a known id. *)
Definition other_error {B} (o : outcome B) : Prop := o ≠ Raise DUPLICATE_EVENT.

Lemma freeze_json_other v : ∀ depth, other_error (freeze_json depth v).
Proof.
  unfold other_error. induction v as [|b|z|t|l IH|l IH] using json_ind; intros depth.
  1-4: simpl; by repeat case_match.
  - rewrite freeze_arr. case_match; [done|].
    assert (freeze_items (S depth) l ≠ Raise DUPLICATE_EVENT) as Hl; [|by case_match; congruence].
    induction IH as [|v l Hv _ IHl]; simpl; [done|]. specialize (Hv (S depth)). by repeat case_match; congruence.
  - rewrite freeze_obj. case_match; [done|].
    assert (freeze_members (S depth) l ≠ Raise DUPLICATE_EVENT) as Hl; [|by case_match; congruence].
    induction IH as [|[k v] l Hv _ IHl]; simpl; [done|]. specialize (Hv (S depth)). simpl in Hv.
    destruct (key_error k) as [code|] eqn:Hk; [|by repeat case_match; congruence].
    unfold key_error in Hk. by repeat case_match; simplify_eq.
Qed.

Lemma validate_text_other {T} F v (s : T) :
  invalid F ≠ DUPLICATE_EVENT → wp (validate_text F v) (λ o _, other_error o) s.
Proof. intros HF. unfold validate_text. wp_run; unfold other_error; congruence. Qed.

Lemma validate_projection_other {T} F v (s : T) :
  invalid F ≠ DUPLICATE_EVENT → AuditError (F +:+ "_TOO_LARGE") ≠ DUPLICATE_EVENT →
  wp (validate_projection F v) (λ o _, other_error o) s.
Proof.
  intros H1 H2. unfold validate_projection, other_error. pose proof (freeze_json_other v 0) as Hf.
  destruct v; wp_run; try congruence. unfold from_outcome.
  destruct (freeze_json 0 _); wp_run; unfold other_error in *; congruence.
Qed.

Lemma wp_bind_other {T B C} (m : M T B) (k : B → M T C) s :
  wp m (λ o _, other_error o) s → (∀ b s', wp (k b) (λ o _, other_error o) s') →
  wp (bind m k) (λ o _, other_error o) s.
Proof.
  intros Hm Hk. apply wp_bind. eapply wp_mono; [|exact Hm]. intros [b|e] s' H'; [apply Hk|].
  intros [= ->]. by apply H'.
Qed.

Lemma validate_optional_other {T} F v (s : T) :
  invalid F ≠ DUPLICATE_EVENT → wp (validate_optional F v) (λ o _, other_error o) s.
Proof.
  intros HF. unfold validate_optional. destruct v; [done|..].
  all: apply wp_bind_other; [by apply validate_text_other|done].
Qed.

Lemma validate_draft_other {T} d (s : T) : wp (validate_draft d) (λ o _, other_error o) s.
Proof.
  unfold validate_draft.
  repeat (apply wp_bind_other; [|intros ? ?]).
  all: first [by apply validate_text_other|by apply validate_optional_other|by apply validate_projection_other|idtac].
  all: unfold validate_utc; wp_run; done.
Qed.

(** The in-memory store takes every valid draft whose id it does not know. *)
Lemma memory_accepts d a v :
  validate_draft d a = (a, Ret v) →
  match result (append d) a with Ret _ => True | Raise e => e = DUPLICATE_EVENT end.
Proof.
  intros Hv. unfold append. rewrite (bind_Ret _ _ _ _ _ Hv). unfold bind, gets, guard, raise.
  by case_bool_decide.
Qed.

#[export] Instance memory_unique : UniqueAudit Store.
Proof.
  refine {| audit_ok s := NoDup (map ev_event_id (events s)) ∧
    event_ids s = list_to_set (map ev_event_id (events s)) |}; simpl.
  { by intros a []. }
  intros d a [Hn Hids]. pose proof (append_ok d a) as Hok. unfold wp in *.
  destruct (append d a) as [a' [e|e]] eqn:Happ; simpl in *.
  - destruct Hok as (_ & _ & Hnew & _ & ->). split; [|done]. simpl. rewrite map_app. split; [|set_solver].
    apply NoDup_app. split_and!; [done| |apply NoDup_singleton]. rewrite Hids in Hnew. set_solver.
  - subst a'. split; [done|]. intros [= ->]. unfold append in Happ. unfold bind at 1 in Happ.
    pose proof (validate_draft_ok d a) as Hv. pose proof (validate_draft_other d a) as Ho. unfold wp in Hv, Ho.
    destruct (validate_draft d a) as [a' [v|e]]; simpl in *; [|congruence].
    destruct Hv as (-> & -> & _). unfold bind, gets, guard, raise in Happ.
    case_bool_decide as Hk; [done|]. rewrite Hids, elem_of_list_to_set in Hk.
    apply list_elem_of_fmap in Hk as (e & Heq & Hin). exists e. split; [done|]. simpl. by rewrite Heq.
Defined.
End MemoryStore.

(** ** The invariant *)

Section Outbox.
Context {D : Digest} {W : World} {A : Type} {AS : AuditStore A} {UA : UniqueAudit A}.
Context (system_admins : gset string).
Implicit Types s : AdminState A.

Abbreviation logged s := (audit_events (ad_audit s)).

(** What happens to the state: calls of this service, and what the rest of the
    program does to the tables it shares.  Others do not write the operations,
    and their events carry other ids. *)
Inductive outbox_step : relation (AdminState A) :=
| os_change p tenant workspace user role version key reason s :
    outbox_step s (final (change_existing_workspace_role system_admins p tenant workspace user role version
      key reason) s)
| os_dispatch stop available s : outbox_step s (final (dispatch_pending_audit stop available) s)
| os_audit d s : (∀ actor key, dr_event_id d ≠ PyStr (operation_event_id actor key)) →
    outbox_step s (set_ad_audit (final (audit_append d) (ad_audit s)) s)
| os_other d users closed draws s :
    outbox_step s (mkAdmin d (ad_operations s) users closed (ad_audit s) (ad_cursor s) (ad_watermark s) draws).

(** Every event with an operation's id is the event of an operation on record,
    and every operation on record as delivered has its event. *)
Record outbox_ok s : Prop := {
  ob_audit : audit_ok (ad_audit s);
  ob_id k row : ad_operations s !! k = Some row → op_event_id row = operation_event_id k.1 k.2;
  ob_inj k k' row row' : ad_operations s !! k = Some row → ad_operations s !! k' = Some row' →
    op_event_id row = op_event_id row' → k = k';
  ob_event e k : e ∈ logged s → ev_event_id e = operation_event_id k.1 k.2 →
    ∃ k' row, ad_operations s !! k' = Some row ∧ draft_of e = operation_draft k'.1 row;
  ob_delivered k row : ad_operations s !! k = Some row → op_delivered_at row ≠ None →
    ∃ e, e ∈ logged s ∧ draft_of e = operation_draft k.1 row
}.

Lemma draft_event_id e actor row : draft_of e = operation_draft actor row → ev_event_id e = op_event_id row.
Proof. by intros [= H]%(f_equal dr_event_id). Qed.

(** An event with the id of an operation on record is its event. *)
Lemma event_of_operation s k row e :
  outbox_ok s → ad_operations s !! k = Some row → e ∈ logged s → ev_event_id e = op_event_id row →
  draft_of e = operation_draft k.1 row.
Proof.
  intros Hok Hk He Hid. assert (ev_event_id e = operation_event_id k.1 k.2) as Hid'
    by (by rewrite Hid, (ob_id _ Hok k row)).
  destruct (ob_event _ Hok e k He Hid') as (k' & row' & Hk' & Hd).
  assert (k' = k) as -> by (eapply (ob_inj _ Hok); [done..|]; by rewrite <- (draft_event_id _ _ _ Hd)).
  by simplify_eq.
Qed.

(** Appending an event that is no operation's, or the event of one on record *)
Lemma append_outbox_ok s d :
  outbox_ok s →
  (∀ actor key, dr_event_id d ≠ PyStr (operation_event_id actor key)) ∨
    (∃ k row, ad_operations s !! k = Some row ∧ d = operation_draft k.1 row) →
  outbox_ok (set_ad_audit (final (audit_append d) (ad_audit s)) s) ∧
  match result (audit_append d) (ad_audit s) with
  | Ret e => d = draft_of e ∧
      logged (set_ad_audit (final (audit_append d) (ad_audit s)) s) = logged s ++ [e]
  | Raise e => logged (set_ad_audit (final (audit_append d) (ad_audit s)) s) = logged s ∧
      (e = DUPLICATE_EVENT → ∃ e0, e0 ∈ logged s ∧ dr_event_id d = PyStr (ev_event_id e0))
  end.
Proof.
  intros Hok Hd. pose proof (audit_append_law d (ad_audit s)) as Hl.
  pose proof (audit_append_unique d (ad_audit s) (ob_audit _ Hok)) as Hu. unfold wp in Hl, Hu.
  destruct (audit_append d (ad_audit s)) as [a' [e|e]]; simpl in *.
  - destruct Hl as [-> Hl], Hu as [Ha _]. split; [|done].
    constructor; simpl; [done|by apply (ob_id _ Hok)|by apply (ob_inj _ Hok)| |].
    + intros e' k He Hk. rewrite Hl in He. apply elem_of_app in He as [He|He%list_elem_of_singleton].
      { by eapply (ob_event _ Hok). }
      subst e'. destruct Hd as [Hd|(k' & row & Hk' & Hd)]; [|by eauto].
      exfalso. apply (Hd k.1 k.2). simpl. by rewrite Hk.
    + intros k row Hk Hdel. destruct (ob_delivered _ Hok k row Hk Hdel) as (e' & He' & ?). exists e'.
      rewrite Hl. set_solver.
  - destruct Hu as [Ha Hu]. split; [|split; [done|by intros ->; apply Hu]].
    constructor; simpl; [done|by apply (ob_id _ Hok)|by apply (ob_inj _ Hok)|..]; rewrite Hl;
      [by apply (ob_event _ Hok)|by apply (ob_delivered _ Hok)].
Qed.

(** *** Marking an operation as delivered *)

Definition undelivered (row : OperationRow) : OperationRow :=
  mkOperation (op_request_fingerprint row) (op_event_id row) (op_tenant_id row) (op_workspace_id row)
    (op_user_id row) (op_old_role row) (op_new_role row) (op_old_version row) (op_new_version row)
    (op_acl_version row) (op_reason row) (op_outcome row) (op_created_at row) None.

(** The operation is on record as delivered. *)
Definition delivered (ops : gmap Key OperationRow) (k : Key) : Prop :=
  ∃ row, ops !! k = Some row ∧ op_delivered_at row ≠ None.

(** Only deliveries were noted, and events appended. *)
Record delivers s s' : Prop := {
  dl_rows k : undelivered <$> ad_operations s' !! k = undelivered <$> ad_operations s !! k;
  dl_delivered k : delivered (ad_operations s) k → delivered (ad_operations s') k;
  dl_log : logged s `prefix_of` logged s';
  dl_closed : ad_closed s' = ad_closed s
}.

#[local] Instance delivers_preorder : PreOrder delivers.
Proof.
  split; [by constructor|]. intros s1 s2 s3 [H1 H2 H3 H4] [G1 G2 G3 G4].
  constructor; [intros k; by rewrite G1, H1|by auto|by transitivity (logged s2)|by rewrite G4].
Qed.

Lemma undelivered_draft actor row row' :
  undelivered row = undelivered row' →
  operation_draft actor row = operation_draft actor row' ∧ op_event_id row = op_event_id row'.
Proof. destruct row, row'. unfold undelivered. simpl. by intros [= -> -> -> -> -> -> -> -> -> -> -> -> ->]. Qed.

Lemma dl_lookup s s' k row :
  delivers s s' → ad_operations s !! k = Some row →
  ∃ row', ad_operations s' !! k = Some row' ∧ undelivered row' = undelivered row.
Proof.
  intros H Hk. pose proof (dl_rows _ _ H k) as Hr. rewrite Hk in Hr. simpl in Hr.
  apply fmap_Some in Hr as (row' & ? & ?). by eauto.
Qed.

Lemma mark_delivered_lookup id now ops k row' :
  mark_delivered id now ops !! k = Some row' →
  ∃ row, ops !! k = Some row ∧ undelivered row' = undelivered row ∧
    (op_delivered_at row' ≠ None ↔ op_delivered_at row ≠ None ∨ op_event_id row = id).
Proof.
  unfold mark_delivered. rewrite lookup_fmap. intros (row & Hk & ->)%fmap_Some. exists row. split; [done|].
  destruct (String.eqb _ _) eqn:Hid; bools; simpl; [case_bool_decide; simpl|]; split; try done; naive_solver.
Qed.

Lemma mark_delivered_Some id now ops k row :
  ops !! k = Some row →
  ∃ row', mark_delivered id now ops !! k = Some row' ∧ undelivered row' = undelivered row ∧
    (op_delivered_at row' ≠ None ↔ op_delivered_at row ≠ None ∨ op_event_id row = id).
Proof.
  intros Hk. destruct (mark_delivered id now ops !! k) as [row'|] eqn:Hm.
  - exists row'. split; [done|]. apply mark_delivered_lookup in Hm as (row0 & ? & ?). by simplify_eq.
  - unfold mark_delivered in Hm. rewrite lookup_fmap, Hk in Hm. done.
Qed.

Lemma mark_delivered_ok s k row now draws :
  outbox_ok s → ad_operations s !! k = Some row →
  (∃ e, e ∈ logged s ∧ draft_of e = operation_draft k.1 row) →
  let s' := set_ad_operations (mark_delivered (op_event_id row) now (ad_operations s))
    (with_draws draws s) in
  outbox_ok s' ∧ delivers s s' ∧ delivered (ad_operations s') k.
Proof.
  intros Hok Hk He s'. split_and!.
  - constructor; simpl.
    + apply (ob_audit _ Hok).
    + intros k' row' (row0 & Hk0 & Hu & _)%mark_delivered_lookup.
      destruct (undelivered_draft k'.1 _ _ Hu) as [_ ->]. by apply (ob_id _ Hok).
    + intros k1 k2 r1 r2 (row1 & Hk1 & Hu1 & _)%mark_delivered_lookup (row2 & Hk2 & Hu2 & _)%mark_delivered_lookup.
      destruct (undelivered_draft "" _ _ Hu1) as [_ ->], (undelivered_draft "" _ _ Hu2) as [_ ->].
      by apply (ob_inj _ Hok).
    + intros e k' Hin Hid. destruct (ob_event _ Hok e k' Hin Hid) as (k0 & row0 & Hk0 & Hd).
      destruct (mark_delivered_Some (op_event_id row) now _ _ _ Hk0) as (row' & Hk' & Hu & _).
      exists k0, row'. split; [done|]. by destruct (undelivered_draft k0.1 _ _ Hu) as [-> _].
    + intros k' row' (row0 & Hk0 & Hu & Hdel)%mark_delivered_lookup Hd.
      destruct (undelivered_draft k'.1 _ _ Hu) as [-> _].
      apply Hdel in Hd as [Hd|Hd]; [by eapply (ob_delivered _ Hok)|].
      assert (k' = k) as -> by by eapply (ob_inj _ Hok). by simplify_eq.
  - constructor; simpl; [|..]; try done.
    + intros k'. apply option_eq. intros row'. destruct (ad_operations s !! k') as [row0|] eqn:Hk0.
      * destruct (mark_delivered_Some (op_event_id row) now _ _ _ Hk0) as (r & -> & Hu & _). simpl. by rewrite Hu.
      * unfold mark_delivered. by rewrite lookup_fmap, Hk0.
    + intros k' (row0 & Hk0 & Hd).
      destruct (mark_delivered_Some (op_event_id row) now _ _ _ Hk0) as (r & Hr & _ & Hiff). exists r.
      split; [done|]. apply Hiff. by left.
  - destruct (mark_delivered_Some (op_event_id row) now _ _ _ Hk) as (r & Hr & _ & Hiff). exists r.
    split; [done|]. apply Hiff. by right.
Qed.

(** *** Delivering *)

(** The store takes the event of an operation, or has it. *)
Definition accepts (k : Key) (row : OperationRow) : Prop :=
  ∀ a, audit_ok a → match result (audit_append (operation_draft k.1 row)) a with
                    | Ret _ => True
                    | Raise e => e = DUPLICATE_EVENT
                    end.

Definition on_record s (item : Key * OperationRow) : Prop :=
  undelivered <$> ad_operations s !! item.1 = Some (undelivered item.2).

Lemma on_record_later s s' item : delivers s s' → on_record s item → on_record s' item.
Proof. unfold on_record. intros H. by rewrite (dl_rows _ _ H). Qed.

Lemma wp_deliver_event s item :
  outbox_ok s → on_record s item →
  wp (deliver_event item.1.1 item.2) (λ o s', ∃ sent, o = Ret sent ∧ outbox_ok s' ∧ delivers s s' ∧
    (sent = true → ∃ e, e ∈ logged s' ∧ draft_of e = operation_draft item.1.1 item.2) ∧
    (accepts item.1 item.2 → sent = true)) s.
Proof.
  intros Hok (row & Hk & Hu)%fmap_Some. symmetry in Hu.
  destruct (undelivered_draft item.1.1 _ _ Hu) as [Hd Hid].
  destruct (append_outbox_ok s (operation_draft item.1.1 item.2) Hok) as [Hok' Hres].
  { right. exists item.1, row. by rewrite <- Hd. }
  unfold wp, deliver_event. destruct (audit_append _ (ad_audit s)) as [a [e|e]] eqn:Happ; simpl in *.
  - destruct Hres as [Hdr Hl]. exists true. split_and!; try done.
    + constructor; try done. simpl. rewrite Hl. by apply prefix_app_r.
    + intros _. exists e. rewrite Hl. split; [set_solver|done].
  - destruct Hres as [Hl Hdup]. eexists. split_and!; try done.
    + constructor; try done. simpl. by rewrite Hl.
    + intros He%bool_decide_eq_true. destruct (Hdup He) as (e0 & He0 & Hid0). exists e0. rewrite Hl. split; [done|].
      rewrite <- Hd. apply (event_of_operation s item.1 row); try done. by injection Hid0 as <-.
    + intros Hacc. specialize (Hacc (ad_audit s) (ob_audit _ Hok)). rewrite Happ in Hacc. simpl in Hacc.
      by rewrite bool_decide_eq_true.
Qed.

(** Nothing stops the sweep and no transaction of it fails. *)
Definition calm (stop available : nat → bool) s : Prop :=
  (∀ i, stop i = false) ∧ (∀ i, available i = true) ∧ ad_closed s = false.

Lemma wp_deliver_row stop available n item s :
  outbox_ok s → on_record s item →
  wp (deliver_row stop available n item) (λ o s', ∃ next, o = Ret next ∧ outbox_ok s' ∧ delivers s s' ∧
    (calm stop available s → accepts item.1 item.2 → next = Some (S n) ∧ delivered (ad_operations s') item.1)) s.
Proof.
  intros Hok Hitem. unfold deliver_row. destruct (stop (2 * n)%nat) eqn:Hs0.
  { apply wp_ret. exists None. split_and!; try done. intros (Hs & _). by rewrite Hs in Hs0. }
  apply wp_bind. eapply wp_mono; [|by apply wp_deliver_event].
  intros o s1 (sent & -> & Hok1 & Hdl & Hsent & Hacc). destruct sent; cbn [negb].
  2: { apply wp_ret. eexists. split_and!; try done. intros _ Ha. by apply Hacc in Ha. }
  destruct (stop (2 * n + 1)%nat) eqn:Hs1.
  { apply wp_ret. exists None. split_and!; try done. intros (Hs & _). by rewrite Hs in Hs1. }
  apply wp_bind, wp_gets, wp_bind, wp_when; intros Hav.
  - apply wp_bind, wp_clock, wp_modify, wp_ret. eexists. split; [done|].
    pose proof (on_record_later _ _ _ Hdl Hitem) as (row & Hk & Hu)%fmap_Some.
    destruct (undelivered_draft item.1.1 _ _ Hu) as [Hd Hid]. rewrite Hid.
    destruct (mark_delivered_ok s1 item.1 row (clock_at (ticks (draws_of s1)))
      (mkDraws (S (ticks (draws_of s1))) (tokens (draws_of s1))) Hok1 Hk) as (Hok2 & Hdl2 & Hdel).
    { rewrite <- Hd. by apply Hsent. }
    split_and!; [exact Hok2|transitivity s1; [done|exact Hdl2]|]. intros _ _. split; [done|exact Hdel].
  - apply wp_ret. eexists. split_and!; try done. intros (_ & Ha & Hopen).
    rewrite Ha, (dl_closed _ _ Hdl), Hopen in Hav. done.
Qed.

Lemma wp_deliver_rows stop available n rows s :
  outbox_ok s → Forall (on_record s) rows →
  wp (deliver_rows stop available n rows) (λ o s', o = Ret tt ∧ outbox_ok s' ∧ delivers s s' ∧
    (calm stop available s → Forall (λ item, accepts item.1 item.2) rows →
     Forall (λ item, delivered (ad_operations s') item.1) rows)) s.
Proof.
  revert n s. induction rows as [|item rest IH]; intros n s Hok Hrec; simpl.
  { apply wp_ret. by split_and!. }
  inversion_clear Hrec as [|? ? Hitem Hrest].
  apply wp_bind. eapply wp_mono; [|by apply wp_deliver_row].
  intros o s1 (next & -> & Hok1 & Hdl & Hcalm). destruct next as [n'|].
  2: { apply wp_ret. split_and!; try done. intros Hc Hacc. inversion_clear Hacc. by destruct (Hcalm Hc). }
  eapply wp_mono; [|apply IH; [done|]].
  2: { eapply Forall_impl; [exact Hrest|]. intros x. by apply on_record_later. }
  intros o s2 (-> & Hok2 & Hdl2 & Hc2). split_and!; [done|done|by transitivity s1|].
  intros Hc Hacc. inversion_clear Hacc as [|? ? Ha Has]. destruct (Hcalm Hc Ha) as [_ Hdel].
  constructor; [by apply (dl_delivered _ _ Hdl2)|]. apply Hc2; [|done].
  destruct Hc as (? & ? & ?). split_and!; try done. by rewrite (dl_closed _ _ Hdl).
Qed.

(** *** Choosing the rows of a sweep *)

Lemma elem_of_pending ops k row :
  (k, row) ∈ pending ops ↔ ops !! k = Some row ∧ op_delivered_at row = None.
Proof.
  unfold pending. rewrite sort_stable_perm, list_elem_of_filter, elem_of_map_to_list. simpl. tauto.
Qed.

Lemma mark_leb_refl a : mark_leb a a = true.
Proof. unfold mark_leb. rewrite decide_True by done. by apply bool_decide_eq_true. Qed.

Lemma elem_of_batch ops cursor high item :
  item ∈ batch_of ops cursor high → item ∈ pending ops.
Proof.
  unfold batch_of. intros Hin. apply subseteq_take in Hin. by apply list_elem_of_filter in Hin as [_ ?].
Qed.

(** Choosing a batch writes the cursor and the watermark only. *)
Definition chose s s' : Prop :=
  ad_operations s' = ad_operations s ∧ ad_audit s' = ad_audit s ∧ ad_closed s' = ad_closed s.

Lemma wp_batch_round s :
  wp batch_round (λ o s', chose s s' ∧ match o with
    | Ret None => pending (ad_operations s) = []
    | Ret (Some []) => ad_cursor s' = None ∧ ad_watermark s' = None ∧
        (ad_cursor s ≠ None ∨ ad_watermark s ≠ None)
    | Ret (Some rows) => Forall (λ item, item ∈ pending (ad_operations s)) rows
    | Raise _ => False
    end) s.
Proof.
  unfold batch_round. apply wp_bind, wp_gets, wp_bind, wp_gets.
  destruct (ad_watermark s) as [h|] eqn:Hw.
  - apply wp_bind, wp_modify, wp_bind, wp_gets. simpl.
    destruct (last (batch_of _ _ _)) as [kv|] eqn:Hl; simpl.
    + apply wp_bind, wp_modify, wp_ret. split; [done|]. destruct (batch_of _ _ _) eqn:Hb; [done|].
      rewrite <- Hb. apply Forall_forall. apply elem_of_batch.
    + apply wp_bind, wp_modify, wp_ret. split; [done|]. split_and!; try done. by right.
  - destruct (last (pending _)) as [kv|] eqn:Hp; simpl.
    2: { apply wp_bind, wp_modify, wp_ret. split; [done|]. by apply last_None. }
    apply wp_bind, wp_modify, wp_bind, wp_gets. simpl.
    destruct (last (batch_of _ _ _)) as [kv'|] eqn:Hl; simpl.
    + apply wp_bind, wp_modify, wp_ret. split; [done|]. destruct (batch_of _ _ _) eqn:Hb; [done|].
      rewrite <- Hb. apply Forall_forall. apply elem_of_batch.
    + apply wp_bind, wp_modify, wp_ret. split; [done|]. split_and!; try done. left. intros Hc.
      rewrite Hc in Hl. apply last_None in Hl. apply last_Some in Hp as (l & Hp).
      assert (kv ∈ filter (λ kv0, in_sweep None (mark kv.2) kv0.2 = true) (pending (ad_operations s))) as Hin.
      { apply list_elem_of_filter. split; [apply mark_leb_refl|]. rewrite Hp. set_solver. }
      unfold batch_of in Hl. destruct (filter _ (pending _)); [by apply elem_of_nil in Hin|done].
Qed.

(** A batch is empty only when nothing is pending. *)
Lemma wp_next_batch s :
  wp next_batch (λ o s', chose s s' ∧ ∃ rows, o = Ret rows ∧
    Forall (λ item, item ∈ pending (ad_operations s)) rows ∧
    (rows = [] → pending (ad_operations s) = [])) s.
Proof.
  unfold next_batch. apply wp_bind. eapply wp_mono; [|apply wp_batch_round].
  intros [[[|x rows]|]|e] s1 [Hch H1]; [| | |done].
  2-3: apply wp_ret; split; [done|]; eexists; by split_and!.
  destruct H1 as (Hc & Hw & _), Hch as (Ho & Ha & Hcl). apply wp_bind.
  eapply wp_mono; [|apply wp_batch_round].
  intros [[[|x rows]|]|e] s2 [(Ho2 & Ha2 & Hcl2) H2]; [by naive_solver| | |done];
    apply wp_ret; (split; [by split_and!; etransitivity|]); rewrite Ho in H2; eexists; by split_and!.
Qed.

Lemma chose_ok s s' : chose s s' → outbox_ok s → outbox_ok s' ∧ delivers s s'.
Proof.
  intros (Ho & Ha & Hc) [H1 H2 H3 H4 H5]. split; [constructor; by rewrite ?Ha, ?Ho|].
  constructor; by rewrite ?Ha, ?Ho, ?Hc.
Qed.

Lemma wp_dispatch stop available s :
  outbox_ok s →
  wp (dispatch_pending_audit stop available) (λ o s', o = Ret tt ∧ outbox_ok s' ∧ delivers s s' ∧
    (calm stop available s →
     (∀ k row, ad_operations s !! k = Some row → accepts k row) → pending (ad_operations s) ≠ [] →
     ∃ k row, (k, row) ∈ pending (ad_operations s) ∧ delivered (ad_operations s') k)) s.
Proof.
  intros Hok. unfold dispatch_pending_audit. apply wp_bind, wp_gets. destruct (ad_closed s) eqn:Hcl.
  { apply wp_ret. split_and!; try done. intros (_ & _ & ?). congruence. }
  apply wp_bind. eapply wp_mono; [|apply wp_next_batch].
  intros o s1 (Hch & rows & -> & Hrows & Hne). destruct (chose_ok _ _ Hch Hok) as [Hok1 Hdl].
  eapply wp_mono; [|apply wp_deliver_rows; [done|]].
  2: { eapply Forall_impl; [exact Hrows|]. intros [k row] [Hk _]%elem_of_pending. unfold on_record. simpl.
       destruct Hch as (-> & _). by rewrite Hk. }
  intros o s2 (-> & Hok2 & Hdl2 & Hc2). split_and!; [done|done|by transitivity s1|].
  intros Hc Hacc Hp. destruct rows as [|[k row] rows]; [by destruct (Hp (Hne eq_refl))|]. exists k, row.
  inversion_clear Hrows as [|? ? Hin Hrest]. split; [done|].
  assert (calm stop available s1) as Hc1.
  { destruct Hc as (? & ? & ?). split_and!; try done. by rewrite (dl_closed _ _ Hdl). }
  enough (Forall (λ item, delivered (ad_operations s2) item.1) ((k, row) :: rows)) as Hall by by inversion Hall.
  apply (Hc2 Hc1). constructor.
  - apply elem_of_pending in Hin as [? _]. by apply Hacc.
  - eapply Forall_impl; [exact Hrest|]. intros [k' row'] [? _]%elem_of_pending. by apply Hacc.
Qed.

(** *** Every step keeps the invariant *)

Lemma change_outbox_ok p tenant workspace user role version key reason s :
  outbox_ok s →
  wp (change_existing_workspace_role system_admins p tenant workspace user role version key reason)
    (λ _, outbox_ok) s.
Proof.
  intros Hok. assert (∀ s', ad_audit s' = ad_audit s → ad_operations s' = ad_operations s → outbox_ok s') as Hsame.
  { intros s' Ha Ho. destruct Hok as [H1 H2 H3 H4 H5]. constructor; by rewrite ?Ha, ?Ho. }
  eapply wp_mono; [|apply wp_change]. intros [c|e] s' (_ & _ & Ha & _ & _ & Hc); [|by destruct Hc; apply Hsame].
  destruct Hc as (_ & _ & expected & _ & _ & Hc). destruct (wc_replayed c); [by destruct Hc as (_ & ? & _); apply Hsame|].
  destruct Hc as [_ (r & w & now & _ & _ & _ & _ & _ & _ & _ & Hops) _ [Hfree Hids]].
  set (key' := (user_id p, key)) in *. match type of Hops with _ = <[_ := ?x]> _ => set (new := x) in * end.
  assert (op_event_id new = operation_event_id (user_id p) key) as Hid by done.
  assert (op_delivered_at new = None) as Hnew by done.
  clearbody new. constructor; rewrite ?Ha, ?Hops; [apply (ob_audit _ Hok)|..].
  - intros k row [[<- <-]|[_ Hk]]%lookup_insert_Some; [done|by apply (ob_id _ Hok)].
  - intros k k' row row' [[<- <-]|[_ Hk]]%lookup_insert_Some [[<- <-]|[_ Hk']]%lookup_insert_Some Heq;
      [done| | |by eapply (ob_inj _ Hok)]; exfalso.
    + by apply (Hids _ _ Hk'); rewrite <- Hid.
    + by apply (Hids _ _ Hk); rewrite <- Hid.
  - intros e k He Hk. destruct (ob_event _ Hok e k He Hk) as (k0 & row0 & Hk0 & Hd). exists k0, row0.
    split; [|done]. rewrite lookup_insert_ne; [done|]. intros <-. congruence.
  - intros k row [[<- <-]|[_ Hk]]%lookup_insert_Some Hdel; [|by apply (ob_delivered _ Hok)].
    destruct (Hdel Hnew).
Qed.

Lemma outbox_step_ok s s' : outbox_step s s' → outbox_ok s → outbox_ok s'.
Proof.
  intros Hstep Hok. destruct Hstep as [p tenant workspace user role version key reason s|stop available s|d s Hd|d users closed draws s].
  - by apply change_outbox_ok.
  - pose proof (wp_dispatch stop available s Hok) as (_ & ? & _). done.
  - apply append_outbox_ok; [done|]. by left.
  - destruct Hok. by constructor.
Qed.

(** *** Progress *)

Lemma NoDup_pending ops : NoDup (map fst (pending ops)).
Proof.
  apply NoDup_fmap_2_strong.
  - intros [k row] [k' row'] [Hk _]%elem_of_pending [Hk' _]%elem_of_pending. simpl. intros <-. by simplify_eq.
  - unfold pending. rewrite sort_stable_perm. apply NoDup_filter, NoDup_map_to_list.
Qed.

Lemma delivers_pending s s' k :
  delivers s s' → k ∈ map fst (pending (ad_operations s')) → k ∈ map fst (pending (ad_operations s)).
Proof.
  intros Hd ([k' row'] & -> & [Hk Hdel]%elem_of_pending)%list_elem_of_fmap. simpl.
  pose proof (dl_rows _ _ Hd k') as Hr. rewrite Hk in Hr. symmetry in Hr. apply fmap_Some in Hr as (row & Hrow & _).
  apply list_elem_of_fmap. exists (k', row). split; [done|]. apply elem_of_pending. split; [done|].
  destruct (op_delivered_at row) eqn:Hdr; [|done].
  destruct (dl_delivered _ _ Hd k') as (row0 & Hk0 & Hne); [|by simplify_eq]. exists row. by rewrite Hdr.
Qed.

Lemma dispatch_progress s :
  outbox_ok s → ad_closed s = false →
  (∀ k row, ad_operations s !! k = Some row → accepts k row) →
  let s' := final (dispatch_pending_audit (λ _, false) (λ _, true)) s in
  outbox_ok s' ∧ delivers s s' ∧
  (length (pending (ad_operations s')) <= length (pending (ad_operations s)) - 1)%nat.
Proof.
  intros Hok Hcl Hacc s'. pose proof (wp_dispatch (λ _, false) (λ _, true) s Hok) as (_ & Hok' & Hd & Hc).
  fold s' in Hok', Hd, Hc. split_and!; [done..|].
  assert (map fst (pending (ad_operations s')) ⊆ map fst (pending (ad_operations s))) as Hsub
    by (intros k; by apply delivers_pending).
  rewrite <- (length_map fst (pending (ad_operations s'))), <- (length_map fst (pending (ad_operations s))).
  destruct (decide (pending (ad_operations s) = [])) as [He|Hne].
  { rewrite He in *. simpl in *. destruct (map fst (pending (ad_operations s'))) as [|k l]; simpl; [lia|].
    exfalso. by apply (not_elem_of_nil k), Hsub; left. }
  destruct (Hc ltac:(by split_and!) Hacc Hne) as (k & row & Hin & row' & Hk' & Hdel).
  assert (k :: map fst (pending (ad_operations s')) ⊆+ map fst (pending (ad_operations s))) as Hlen%submseteq_length.
  { apply NoDup_submseteq; [constructor; [|apply NoDup_pending]|].
    - intros ([k0 row0] & -> & [Hk0 Hd0]%elem_of_pending)%list_elem_of_fmap. simpl in *. by simplify_eq.
    - intros k0 [->|Hk0]%elem_of_cons; [|by apply Hsub]. apply list_elem_of_fmap. by exists (k, row). }
  simpl in Hlen. lia.
Qed.

Lemma dispatches_progress n s :
  outbox_ok s → ad_closed s = false →
  (∀ k row, ad_operations s !! k = Some row → accepts k row) →
  let s' := Nat.iter n (λ s, final (dispatch_pending_audit (λ _, false) (λ _, true)) s) s in
  outbox_ok s' ∧ delivers s s' ∧
  (length (pending (ad_operations s')) <= length (pending (ad_operations s)) - n)%nat.
Proof.
  intros Hok Hcl Hacc. induction n as [|n IH]; cbn zeta in *; simpl; [by split_and!; [..|lia]|].
  destruct IH as (Hok1 & Hd1 & Hl1). set (s1 := Nat.iter n _ s) in *.
  destruct (dispatch_progress s1) as (Hok2 & Hd2 & Hl2); [done|by rewrite (dl_closed _ _ Hd1)| |].
  - intros k row Hk. pose proof (dl_rows _ _ Hd1 k) as Hr. rewrite Hk in Hr. symmetry in Hr.
    apply fmap_Some in Hr as (row0 & Hk0 & Hu). intros a Ha.
    destruct (undelivered_draft k.1 _ _ Hu) as [-> _]. by apply (Hacc k row0).
  - split_and!; [done|by transitivity s1|lia].
Qed.

(** C14: the outbox of role changes, from any state without operations.  Whatever
    changes, sweeps (stopped anywhere, their transactions failing anywhere) and
    appends of others there were: event ids are unique in the audit log, an
    event with an operation's id is exactly the event of an operation on record,
    and an operation marked as delivered has its event.  As many undisturbed
    sweeps as operations are pending, or more, deliver all of them, if the store
    takes their events: then each operation's event is in the log once. *)
Theorem outbox_exactly_once s0 s :
  audit_ok (ad_audit s0) → ad_operations s0 = ∅ →
  (∀ e k, e ∈ logged s0 → ev_event_id e ≠ operation_event_id k.1 k.2) →
  rtc outbox_step s0 s →
  NoDup (map ev_event_id (logged s)) ∧
  (∀ e k, e ∈ logged s → ev_event_id e = operation_event_id k.1 k.2 →
    ∃ k' row, ad_operations s !! k' = Some row ∧ draft_of e = operation_draft k'.1 row) ∧
  (∀ k row, ad_operations s !! k = Some row → op_delivered_at row ≠ None →
    ∃ e, e ∈ logged s ∧ draft_of e = operation_draft k.1 row) ∧
  (ad_closed s = false → (∀ k row, ad_operations s !! k = Some row → accepts k row) →
   ∀ n, (length (pending (ad_operations s)) <= n)%nat →
   let s' := Nat.iter n (λ s, final (dispatch_pending_audit (λ _, false) (λ _, true)) s) s in
   pending (ad_operations s') = [] ∧
   ∀ k row, ad_operations s !! k = Some row → ∃ e, e ∈ logged s' ∧ draft_of e = operation_draft k.1 row ∧
     ∀ e', e' ∈ logged s' → ev_event_id e' = op_event_id row → e' = e).
Proof.
  intros Ha He Hlog Hreach. assert (outbox_ok s) as Hok.
  { eapply rtc_invariant; [|exact Hreach|]; [intros x y ? ?; by eapply outbox_step_ok|].
    constructor; [done|..]; rewrite He; [by intros ? ?; rewrite lookup_empty..| |by intros ? ?; rewrite lookup_empty].
    intros e k Hin Hid. by destruct (Hlog e k Hin). }
  split_and!; [apply audit_unique, (ob_audit _ Hok)|apply (ob_event _ Hok)|apply (ob_delivered _ Hok)|].
  intros Hcl Hacc n Hn. destruct (dispatches_progress n s Hok Hcl Hacc) as (Hok' & Hd & Hl). cbn zeta.
  set (s' := Nat.iter n _ s) in *. assert (pending (ad_operations s') = []) as Hnil.
  { apply length_zero_iff_nil. lia. }
  split; [done|]. intros k row Hk. destruct (dl_lookup _ _ _ _ Hd Hk) as (row' & Hk' & Hu).
  destruct (undelivered_draft k.1 _ _ Hu) as [Hdr Hid].
  destruct (ob_delivered _ Hok' k row' Hk') as (e & Hin & Hed).
  { intros Hnone. apply (not_elem_of_nil (k, row')). rewrite <- Hnil. by apply elem_of_pending. }
  exists e. rewrite <- Hdr. split_and!; [done..|]. intros e' Hin' Hid'.
  eapply NoDup_map_inj; [by apply audit_unique, (ob_audit _ Hok')|done|done|].
  by rewrite Hid', (draft_event_id _ _ _ Hed).
Qed.
End Outbox.
