(* ===== verification/AdminSamples.v ===== *)
(** A system administrator's change of a role, its delivery, and the witnesses
    of the theorems about both. *)

From S2P Require Import Prelude Sha256 PyStr Json HashChain Bytes AuditLog Authorization AuthorizationFacts.
From S2P Require Import AuthorizationTables AuthorizationSamples AdminRoles AdminOutbox.
#[local] Open Scope Z_scope.
#[local] Existing Instance checksum_digest.
#[local] Existing Instance sample_world.

Definition admins : gset string := {["root"]}.
Definition root : IdentityPrincipal := user "root".

Definition before_change : AdminState Store :=
  mkAdmin (db staffed) ∅ {["boss"; "amy"; "ed"; "root"]} false empty_store None None (mkDraws 9 0).

Definition demote (s : AdminState Store) : AdminState Store * outcome WorkspaceRoleChange :=
  change_existing_workspace_role admins root "tenant-1" "alpha" "ed" VIEWER (PyInt 1)
    "change-0123456789" "ACCESS_REVIEW" s.

Definition after_change : AdminState Store := fst (demote before_change).

Definition demoted : WorkspaceRoleChange :=
  mkRoleChange "tenant-1" "alpha" "ed" VIEWER "active" 2 4 false.

Lemma demote_returned : snd (demote before_change) = Ret demoted.
Proof. vm_compute. reflexivity. Qed.

(** The last administrator of a workspace stays. *)
Example last_admin_stays :
  result (change_existing_workspace_role admins root "tenant-1" "alpha" "amy" EDITOR (PyInt 1)
    "change-0123456790" "CORRECTION") before_change = Raise DENIED_403.
Proof. vm_compute. reflexivity. Qed.

Lemma admin_role_change_witness :
  snd (demote before_change) = Ret demoted ∧
  role_changed admins "root" "tenant-1" "alpha" "ed" VIEWER 1 "change-0123456789" "ACCESS_REVIEW"
    before_change after_change demoted.
Proof.
  split; [exact demote_returned|].
  pose proof (admin_role_change admins root "tenant-1" "alpha" "ed" VIEWER (PyInt 1) "change-0123456789"
    "ACCESS_REVIEW" before_change) as H.
  unfold wp in H. change (change_existing_workspace_role admins root "tenant-1" "alpha" "ed" VIEWER (PyInt 1)
    "change-0123456789" "ACCESS_REVIEW" before_change) with (demote before_change) in H.
  rewrite demote_returned in H. destruct H as (_ & expected & [= <-] & _ & Hc & _). exact Hc.
Defined.

(** ** Delivery *)

Lemma no_events_before e (k : Key) :
  e ∈ audit_events (ad_audit before_change) → ev_event_id e ≠ operation_event_id k.1 k.2.
Proof. by intros ?%elem_of_nil. Qed.

Lemma change_run : rtc (outbox_step admins) before_change after_change.
Proof. apply rtc_once, os_change. Qed.

Lemma open_after : ad_closed after_change = false.
Proof. vm_compute. reflexivity. Qed.

Lemma one_pending : (length (pending (ad_operations after_change)) <= 1)%nat.
Proof. vm_compute. constructor. Qed.

Definition the_operations : list (Key * OperationRow) :=
  Eval vm_compute in map_to_list (ad_operations after_change).

Lemma operations_after : map_to_list (ad_operations after_change) = the_operations.
Proof. vm_compute. reflexivity. Qed.

Lemma store_accepts k row : ad_operations after_change !! k = Some row → accepts (A := Store) k row.
Proof.
  intros Hk%elem_of_map_to_list a _. rewrite operations_after in Hk. apply list_elem_of_singleton in Hk as [= -> ->].
  eapply memory_accepts. vm_compute. reflexivity.
Qed.

(** A sweep that is stopped before it notes the delivery, and one that is not *)
Definition delivered_twice : AdminState Store :=
  final (dispatch_pending_audit (λ _, false) (λ _, true))
    (final (dispatch_pending_audit (λ n, Nat.eqb n 1) (λ _, true)) after_change).

Example delivered_once :
  (map ev_action (events (ad_audit delivered_twice)), pending (ad_operations delivered_twice)) =
  (["authorization.membership.changed"], []).
Proof. vm_compute. reflexivity. Qed.

Lemma outbox_exactly_once_witness :
  length the_operations = 1%nat ∧
  pending (ad_operations (final (dispatch_pending_audit (λ _, false) (λ _, true)) after_change)) = [].
Proof.
  split; [reflexivity|].
  exact (proj1 (proj2 (proj2 (proj2 (outbox_exactly_once admins before_change after_change
    (conj (NoDup_nil_2) eq_refl) eq_refl no_events_before change_run))) open_after store_accepts 1%nat one_pending)).
Defined.
