(* ===== verification/EgressPolicy.v ===== *)
(** Egress policies of organizations and workspaces (egress_policy.py): the
    policy a workspace is subject to, the service that resolves and activates
    policies over a repository ([EgressRepository]), and the reference
    repository.  Fields whose types the program checks have those types. *)

From S2P Require Import Prelude Sha256 PyStr Json.
From Stdlib Require Import Ascii.
#[local] Open Scope Z_scope.

(** ** Data *)

Definition EgressPolicyError (code : string) (status : Z) : exn := Raised code status false.
Definition PAYLOAD_INVALID : exn := EgressPolicyError "EGRESS_POLICY_PAYLOAD_INVALID" 400.

(** [^[A-Za-z0-9](?:[A-Za-z0-9.-]{0,251}[A-Za-z0-9])?$] *)
Definition destination_char (c : ascii) : bool := is_alnum c || has_char c ".-".

Fixpoint last_is (p : ascii → bool) (s : string) : bool :=
  match s with
  | EmptyString => false
  | String c EmptyString => p c
  | String _ s' => last_is p s'
  end.

Definition destination_ok (s : string) : bool :=
  match_id is_alnum destination_char 253 s && last_is is_alnum s.

(** [_CLASSIFICATION_RANK] and [_APPROVER_RANK] *)
Definition classification_rank (s : string) : option Z :=
  if String.eqb s "public" then Some 0 else if String.eqb s "internal" then Some 1
  else if String.eqb s "confidential" then Some 2 else if String.eqb s "restricted" then Some 3
  else None.

Definition approver_rank (s : string) : option Z :=
  if String.eqb s "workspace_manager" then Some 0 else if String.eqb s "organization_admin" then Some 1
  else None.

Definition PROVIDER_KINDS : list string := ["external_api"; "server_internal"; "local_runtime"].

Record EgressPolicyContext := mkEgressContext {
  ec_tenant_id : string;
  ec_organization_id : string;
  ec_workspace_id : string;
  ec_actor_id : string;
  ec_trace_id : string;
  ec_authorization_policy_version : string
}.

(** [EgressPolicyContext.__post_init__] *)
Definition make_context (c : EgressPolicyContext) : outcome EgressPolicyContext :=
  if negb (forallb safe_id [ec_tenant_id c; ec_organization_id c; ec_workspace_id c; ec_actor_id c;
     ec_trace_id c; ec_authorization_policy_version c])
  then Raise (EgressPolicyError "EGRESS_POLICY_CONTEXT_INVALID" 400)
  else if negb (String.eqb (ec_tenant_id c) (ec_organization_id c))
  then Raise (EgressPolicyError "EGRESS_POLICY_SCOPE_MISMATCH" 400)
  else Ret c.

Record EgressPolicyPayload := mkPayload {
  pl_mode : string;
  pl_allowed_provider_kinds : list string;
  pl_allowed_destinations : list string;
  pl_classification : string;
  pl_max_bytes : Z;
  pl_masking_required : bool;
  pl_redaction_required : bool;
  pl_required_approver : string;
  pl_question_step_up_required : bool
}.

Definition denies (p : EgressPolicyPayload) : bool := String.eqb (pl_mode p) "deny_external".

Definition payload_ok (p : EgressPolicyPayload) : bool :=
  (negb (denies p) || pl_question_step_up_required p) &&
  bool_decide (pl_mode p ∈ ["deny_external"; "allow_approved_external"]) &&
  bool_decide (is_Some (classification_rank (pl_classification p))) &&
  bool_decide (is_Some (approver_rank (pl_required_approver p))) &&
  ((0 <=? pl_max_bytes p) && (pl_max_bytes p <=? 104857600)) &&
  (Nat.leb (length (pl_allowed_provider_kinds p)) 32 && Nat.leb (length (pl_allowed_destinations p)) 64) &&
  bool_decide (NoDup (pl_allowed_provider_kinds p)) &&
  forallb (λ k, bool_decide (k ∈ PROVIDER_KINDS)) (pl_allowed_provider_kinds p) &&
  bool_decide (NoDup (pl_allowed_destinations p)) &&
  forallb destination_ok (pl_allowed_destinations p) &&
  negb (denies p && (bool_decide (pl_allowed_provider_kinds p ≠ []) ||
    bool_decide (pl_allowed_destinations p ≠ []) || negb (pl_max_bytes p =? 0))).

(** [EgressPolicyPayload.__post_init__] *)
Definition make_payload (p : EgressPolicyPayload) : outcome EgressPolicyPayload :=
  if payload_ok p then Ret p else Raise PAYLOAD_INVALID.

(** [EgressPolicyPayload.deny_external] *)
Definition deny_external : EgressPolicyPayload :=
  mkPayload "deny_external" [] [] "restricted" 0 true true "organization_admin" true.

Definition JStrs (l : list string) : json := JArr (map JStr l).

Definition as_dict (p : EgressPolicyPayload) : list (string * json) :=
  [("allowed_destinations", JStrs (pl_allowed_destinations p));
   ("allowed_provider_kinds", JStrs (pl_allowed_provider_kinds p));
   ("classification", JStr (pl_classification p));
   ("masking_required", JBool (pl_masking_required p));
   ("max_bytes", JInt (pl_max_bytes p));
   ("mode", JStr (pl_mode p));
   ("redaction_required", JBool (pl_redaction_required p));
   ("required_approver", JStr (pl_required_approver p))] ++
  (if negb (pl_question_step_up_required p) then [("question_step_up_required", JBool false)] else []).

Record EgressPolicyBindingView := mkBindingView {
  bv_tenant_id : string;
  bv_organization_id : string;
  bv_workspace_id : option string;
  bv_scope_type : string;
  bv_policy_version_id : string;
  bv_policy_version : Z;
  bv_policy_state : string;
  bv_binding_id : string;
  bv_binding_version : Z;
  bv_active : bool;
  bv_current : bool;
  bv_payload : EgressPolicyPayload
}.

Record EffectiveEgressPolicy := mkEffectivePolicy {
  ef_organization_policy_version_id : string;
  ef_organization_binding_id : string;
  ef_workspace_policy_version_id : string;
  ef_workspace_binding_id : string;
  ef_payload : EgressPolicyPayload;
  ef_parent_locked : bool;
  ef_fingerprint : string;
  ef_etag : string;
  ef_organization_etag : string;
  ef_workspace_etag : string;
  ef_organization_policy : list (string * json);
  ef_workspace_policy : list (string * json)
}.

Section Digests.
Context {D : Digest}.

Definition canonical_text (p : EgressPolicyPayload) : string := dumps false (JObj (as_dict p)).
Definition digest_sha256 (p : EgressPolicyPayload) : string := sha256_hex (json_bytes false (JObj (as_dict p))).

(** [EgressPolicyBindingView.etag] *)
Definition bv_etag (b : EgressPolicyBindingView) : string :=
  dquoted ("egress-policy:" +:+ bv_scope_type b +:+ ":" +:+ str_int (bv_binding_version b) +:+ ":" +:+
    digest_sha256 (bv_payload b)).
End Digests.

(** [EffectiveEgressPolicy.frozen_context] *)
Definition frozen_context (e : EffectiveEgressPolicy) : list (string * json) :=
  let p := ef_payload e in
  [("organization_policy_version_id", JStr (ef_organization_policy_version_id e));
   ("organization_binding_id", JStr (ef_organization_binding_id e));
   ("workspace_policy_version_id", JStr (ef_workspace_policy_version_id e));
   ("workspace_binding_id", JStr (ef_workspace_binding_id e));
   ("mode", JStr (pl_mode p));
   ("allowed_provider_kinds", JStrs (pl_allowed_provider_kinds p));
   ("allowed_destinations", JStrs (pl_allowed_destinations p));
   ("classification", JStr (pl_classification p));
   ("max_bytes", JInt (pl_max_bytes p));
   ("masking_required", JBool (pl_masking_required p));
   ("redaction_required", JBool (pl_redaction_required p));
   ("required_approver", JStr (pl_required_approver p));
   ("fingerprint", JStr (ef_fingerprint e))] ++
  (if negb (pl_question_step_up_required p) then [("question_step_up_required", JBool false)] else []).

(** [EgressPolicyRepository] *)
Class EgressRepository (R : Type) := {
  repo_current : EgressPolicyContext → string → M R EgressPolicyBindingView;
  repo_create_and_activate : EgressPolicyContext → string → EgressPolicyPayload → string → string →
    M R EgressPolicyBindingView;
  repo_record_denial : EgressPolicyContext → string → string → M R unit
}.

(** ** Resolving *)

(** [max((a, b), key=rank.__getitem__)] *)
Definition max_by (rank : string → option Z) (a b : string) : outcome string :=
  match rank a, rank b with
  | Some x, Some y => Ret (if x <? y then b else a)
  | _, _ => Raise (PyError "KeyError")
  end.

(** [tuple(sorted(set(a) & set(b)))] *)
Definition intersection (a b : list string) : list string :=
  sorted_strings (filter (λ x, x ∈ b) (fromkeys a)).

Definition resolve_effective_payload (organization workspace : EgressPolicyPayload)
    : outcome (EgressPolicyPayload * bool) :=
  let parent_locked := denies organization in
  if parent_locked || denies workspace then Ret (deny_external, parent_locked)
  else
    match max_by classification_rank (pl_classification organization) (pl_classification workspace) with
    | Raise e => Raise e
    | Ret classification =>
        match max_by approver_rank (pl_required_approver organization) (pl_required_approver workspace) with
        | Raise e => Raise e
        | Ret approver =>
            match make_payload (mkPayload "allow_approved_external"
              (intersection (pl_allowed_provider_kinds organization) (pl_allowed_provider_kinds workspace))
              (intersection (pl_allowed_destinations organization) (pl_allowed_destinations workspace))
              classification
              (Z.min (pl_max_bytes organization) (pl_max_bytes workspace))
              (pl_masking_required organization || pl_masking_required workspace)
              (pl_redaction_required organization || pl_redaction_required workspace)
              approver
              (pl_question_step_up_required organization || pl_question_step_up_required workspace)) with
            | Raise e => Raise e
            | Ret p => Ret (p, false)
            end
        end
    end.

Section Service.
Context {D : Digest} {R : Type} {ER : EgressRepository R}.

(** [_validate_binding] *)
Definition validate_binding (c : EgressPolicyContext) (b : EgressPolicyBindingView) (scope_type : string)
    : M R unit :=
  let expected_workspace := if String.eqb scope_type "organization" then None else Some (ec_workspace_id c) in
  guard (String.eqb (bv_tenant_id b) (ec_tenant_id c) &&
         String.eqb (bv_organization_id b) (ec_organization_id c) &&
         bool_decide (bv_workspace_id b = expected_workspace) &&
         String.eqb (bv_scope_type b) scope_type) (EgressPolicyError "EGRESS_POLICY_UNAVAILABLE" 503) ;;
  guard (bv_active b && bv_current b && String.eqb (bv_policy_state b) "active")
    (EgressPolicyError "EGRESS_POLICY_STALE" 503).

(** What the fingerprint of an effective policy is of *)
Definition frozen_policy (organization workspace : EgressPolicyBindingView) (p : EgressPolicyPayload) : json :=
  JObj ([("organization_policy_version_id", JStr (bv_policy_version_id organization));
         ("organization_binding_id", JStr (bv_binding_id organization));
         ("workspace_policy_version_id", JStr (bv_policy_version_id workspace));
         ("workspace_binding_id", JStr (bv_binding_id workspace))] ++ as_dict p).

Definition effective_of (organization workspace : EgressPolicyBindingView) (p : EgressPolicyPayload)
    (parent_locked : bool) : EffectiveEgressPolicy :=
  let print := "sha256:" +:+ sha256_hex (json_bytes false (frozen_policy organization workspace p)) in
  let seed := bv_etag organization +:+ "|" +:+ bv_etag workspace +:+ "|" +:+ print in
  mkEffectivePolicy (bv_policy_version_id organization) (bv_binding_id organization)
    (bv_policy_version_id workspace) (bv_binding_id workspace) p parent_locked print
    (dquoted ("egress-effective:" +:+ sha256_hex (encode seed))) (bv_etag organization) (bv_etag workspace)
    (as_dict (bv_payload organization)) (as_dict (bv_payload workspace)).

Definition get_effective (c : EgressPolicyContext) : M R EffectiveEgressPolicy :=
  organization <- repo_current c "organization" ;;
  workspace <- repo_current c "workspace" ;;
  validate_binding c organization "organization" ;;
  validate_binding c workspace "workspace" ;;
  match resolve_effective_payload (bv_payload organization) (bv_payload workspace) with
  | Raise e => raise e
  | Ret (payload, parent_locked) => ret (effective_of organization workspace payload parent_locked)
  end.

(** [try: m; except EgressPolicyError as error: if error.code == "VERSION_CONFLICT": denial; raise] *)
Definition on_conflict {A} (m : M R A) (denial : M R unit) : M R A := λ s,
  match m s with
  | (s', Raise (Raised code status retryable)) =>
      if String.eqb code "VERSION_CONFLICT"
      then (denial ;; raise (Raised code status retryable)) s'
      else (s', Raise (Raised code status retryable))
  | other => other
  end.

Definition create_and_activate (c : EgressPolicyContext) (scope_type : string) (p : EgressPolicyPayload)
    (expected_etag idempotency_key : string) : M R EgressPolicyBindingView :=
  guard (bool_decide (scope_type ∈ ["organization"; "workspace"]))
    (EgressPolicyError "EGRESS_POLICY_SCOPE_INVALID" 400) ;;
  when (String.eqb scope_type "workspace" && String.eqb (pl_mode p) "allow_approved_external") (
    organization <- repo_current c "organization" ;;
    validate_binding c organization "organization" ;;
    when (denies (bv_payload organization)) (
      repo_record_denial c "egress_policy.activate" "EGRESS_POLICY_DENIED" ;;
      raise (EgressPolicyError "EGRESS_POLICY_DENIED" 403))) ;;
  on_conflict (repo_create_and_activate c scope_type p expected_etag idempotency_key)
    (repo_record_denial c "egress_policy.activate" "VERSION_CONFLICT").
End Service.

(** ** ReferenceEgressPolicyRepository *)

Abbreviation BindingKey := (string * string * string * option string)%type.
Abbreviation ReplayKey := (string * string * string * string)%type.

Record Reference := mkReference {
  rf_current : gmap BindingKey EgressPolicyBindingView;
  rf_idempotency : gmap ReplayKey (string * EgressPolicyBindingView);
  rf_audit_outcomes : list (string * string);
  rf_write_count : Z
}.

Definition empty_reference : Reference := mkReference ∅ ∅ [] 0.

Section ReferenceOps.
Context {D : Digest}.
Abbreviation St := (M Reference).

Definition scope_workspace (c : EgressPolicyContext) (scope_type : string) : option string :=
  if String.eqb scope_type "organization" then None else Some (ec_workspace_id c).

(** [_key] *)
Definition binding_key (c : EgressPolicyContext) (scope_type : string) : BindingKey :=
  (ec_tenant_id c, ec_organization_id c, scope_type, scope_workspace c scope_type).

Definition binding_at (c : EgressPolicyContext) (scope_type : string) (version : Z)
    (p : EgressPolicyPayload) : EgressPolicyBindingView :=
  mkBindingView (ec_tenant_id c) (ec_organization_id c) (scope_workspace c scope_type) scope_type
    ("policy-" +:+ scope_type +:+ "-" +:+ str_int version) version "active"
    ("binding-" +:+ scope_type +:+ "-" +:+ str_int version) version true true p.

Definition seed (c : EgressPolicyContext) (scope_type : string) (p : EgressPolicyPayload)
    : St EgressPolicyBindingView :=
  let view := binding_at c scope_type 1 p in
  modify (λ s, mkReference (<[binding_key c scope_type := view]> (rf_current s)) (rf_idempotency s)
    (rf_audit_outcomes s) (rf_write_count s)) ;;
  ret view.

Definition ref_current (c : EgressPolicyContext) (scope_type : string) : St EgressPolicyBindingView :=
  found <- gets (λ s, rf_current s !! binding_key c scope_type) ;;
  from_option found (EgressPolicyError "EGRESS_POLICY_UNAVAILABLE" 503).

(** [corrupt_current], with the changes as a function *)
Definition corrupt_current (c : EgressPolicyContext) (scope_type : string)
    (changes : EgressPolicyBindingView → EgressPolicyBindingView) : St unit :=
  found <- gets (λ s, rf_current s !! binding_key c scope_type) ;;
  view <- from_option found (PyError "KeyError") ;;
  modify (λ s, mkReference (<[binding_key c scope_type := changes view]> (rf_current s)) (rf_idempotency s)
    (rf_audit_outcomes s) (rf_write_count s)).

Definition activation_fingerprint (scope_type : string) (p : EgressPolicyPayload) (expected_etag : string)
    : string :=
  sha256_hex (json_bytes false (JObj [("scope_type", JStr scope_type); ("payload", JObj (as_dict p));
    ("expected_etag", JStr expected_etag)])).

Definition ref_create_and_activate (c : EgressPolicyContext) (scope_type : string) (p : EgressPolicyPayload)
    (expected_etag idempotency_key : string) : St EgressPolicyBindingView :=
  let print := activation_fingerprint scope_type p expected_etag in
  let replay_key := (ec_tenant_id c, ec_actor_id c, scope_type, idempotency_key) in
  replay <- gets (λ s, rf_idempotency s !! replay_key) ;;
  match replay with
  | Some (known, view) =>
      guard (String.eqb known print) (EgressPolicyError "IDEMPOTENCY_KEY_REUSED" 409) ;;
      ret view
  | None =>
      current <- ref_current c scope_type ;;
      guard (String.eqb (bv_etag current) expected_etag) (EgressPolicyError "VERSION_CONFLICT" 409) ;;
      let stored := binding_at c scope_type (bv_binding_version current + 1) p in
      modify (λ s, mkReference (<[binding_key c scope_type := stored]> (rf_current s))
        (<[replay_key := (print, stored)]> (rf_idempotency s))
        (rf_audit_outcomes s ++ [("egress_policy.activate", "succeeded")]) (rf_write_count s + 1)) ;;
      ret stored
  end.

Definition ref_record_denial (c : EgressPolicyContext) (action code : string) : St unit :=
  modify (λ s, mkReference (rf_current s) (rf_idempotency s) (rf_audit_outcomes s ++ [(action, "denied")])
    (rf_write_count s)).

#[export] Instance reference_repository : EgressRepository Reference := {|
  repo_current := ref_current;
  repo_create_and_activate := ref_create_and_activate;
  repo_record_denial := ref_record_denial
|}.
End ReferenceOps.

(** ** The effective policy is the meet of the two *)

(** The policy lets [bytes] bytes go to the destination of a provider of that kind. *)
Definition permits (p : EgressPolicyPayload) (kind destination : string) (bytes : Z) : Prop :=
  pl_mode p = "allow_approved_external" ∧ kind ∈ pl_allowed_provider_kinds p ∧
  destination ∈ pl_allowed_destinations p ∧ bytes <= pl_max_bytes p.

Definition rank_le (rank : string → option Z) (a b : string) : Prop :=
  ∃ x y, rank a = Some x ∧ rank b = Some y ∧ x <= y.

(** Everything [q] demands [p] demands as well. *)
Record demands (p q : EgressPolicyPayload) : Prop := {
  dm_masking : pl_masking_required q = true → pl_masking_required p = true;
  dm_redaction : pl_redaction_required q = true → pl_redaction_required p = true;
  dm_step_up : pl_question_step_up_required q = true → pl_question_step_up_required p = true;
  dm_classification : rank_le classification_rank (pl_classification q) (pl_classification p);
  dm_approver : rank_le approver_rank (pl_required_approver q) (pl_required_approver p)
}.

(** What [p] lets through [q] lets through, and [p] demands for it what [q] does. *)
Definition narrower (p q : EgressPolicyPayload) : Prop :=
  ∀ kind destination bytes, permits p kind destination bytes →
    permits q kind destination bytes ∧ demands p q.

(** The members of [payload_ok] one by one *)
Record payload_valid (p : EgressPolicyPayload) : Prop := {
  pv_mode : pl_mode p = "deny_external" ∨ pl_mode p = "allow_approved_external";
  pv_step_up : pl_mode p = "deny_external" → pl_question_step_up_required p = true;
  pv_classification : is_Some (classification_rank (pl_classification p));
  pv_approver : is_Some (approver_rank (pl_required_approver p));
  pv_bytes : 0 <= pl_max_bytes p <= 104857600;
  pv_lengths : (length (pl_allowed_provider_kinds p) <= 32)%nat ∧
    (length (pl_allowed_destinations p) <= 64)%nat;
  pv_kinds : NoDup (pl_allowed_provider_kinds p) ∧ pl_allowed_provider_kinds p ⊆ PROVIDER_KINDS;
  pv_destinations : NoDup (pl_allowed_destinations p) ∧
    ∀ d, d ∈ pl_allowed_destinations p → destination_ok d = true;
  pv_nothing : pl_mode p = "deny_external" → pl_allowed_provider_kinds p = [] ∧
    pl_allowed_destinations p = [] ∧ pl_max_bytes p = 0
}.

Lemma denies_iff p : denies p = true ↔ pl_mode p = "deny_external".
Proof. apply String.eqb_eq. Qed.

Lemma payload_ok_iff p : payload_ok p = true ↔ payload_valid p.
Proof.
  unfold payload_ok. rewrite !andb_true_iff, !orb_true_iff, !negb_true_iff, !bool_decide_eq_true,
    !Z.leb_le, !Nat.leb_le, !forallb_elem. split.
  - intros ((((((((((Hs & Hm) & Hc) & Ha) & Hb) & Hl) & Hk) & Hk') & Hd) & Hd') & Hn).
    constructor; try done; [set_solver| | |].
    + intros Hdeny. destruct Hs as [Hs|Hs]; [|done]. apply denies_iff in Hdeny. congruence.
    + split; [done|]. intros k Hin. exact (bool_decide_eq_true_1 _ (Hk' k Hin)).
    + intros Hdeny%denies_iff. rewrite Hdeny in Hn. simpl in Hn. bools.
      split_and!; [by apply dec_stable..|done].
  - intros [Hm Hs Hc Ha Hb Hl [Hk Hk'] [Hd Hd'] Hn]. split_and!; try done; try lia.
    + destruct (denies p) eqn:E; [right|by left]. by apply Hs, denies_iff.
    + set_solver.
    + intros k Hin. apply bool_decide_eq_true_2. by apply Hk'.
    + destruct (denies p) eqn:E; [|done]. apply denies_iff, Hn in E as (-> & -> & ->). done.
Qed.

Lemma elem_of_intersection x a b : x ∈ intersection a b ↔ x ∈ a ∧ x ∈ b.
Proof.
  unfold intersection. rewrite elem_of_sorted_strings, list_elem_of_filter, elem_of_fromkeys. tauto.
Qed.

Lemma NoDup_intersection a b : NoDup (intersection a b).
Proof. unfold intersection. rewrite sorted_strings_perm. apply NoDup_filter, NoDup_fromkeys. Qed.

Lemma length_intersection a b : (length (intersection a b) <= length a)%nat.
Proof.
  unfold intersection. rewrite sorted_strings_perm. etransitivity; [apply length_filter|].
  apply sublist_length, fromkeys_aux_sublist.
Qed.

(** The greater of two ranks is an upper bound of both, and the least. *)
Lemma max_by_spec rank a b :
  is_Some (rank a) → is_Some (rank b) →
  ∃ m, max_by rank a b = Ret m ∧ m ∈ [a; b] ∧ is_Some (rank m) ∧ rank_le rank a m ∧ rank_le rank b m ∧
    ∀ c, rank_le rank a c → rank_le rank b c → rank_le rank m c.
Proof.
  intros [x Hx] [y Hy].
  assert (max_by rank a b = Ret (if x <? y then b else a)) as -> by (unfold max_by; by rewrite Hx, Hy).
  eexists. split; [done|]. destruct (x <? y) eqn:Hlt; bools.
  - split_and!; [set_solver|by eauto|exists x, y|exists y, y|by auto]; split_and!; try done; lia.
  - split_and!; [set_solver|by eauto|exists x, x|exists y, x|by auto]; split_and!; try done; lia.
Qed.

Lemma deny_external_ok : payload_ok deny_external = true.
Proof. reflexivity. Qed.

Lemma nothing_permitted p kind destination bytes : denies p = true → ¬ permits p kind destination bytes.
Proof. intros Hd%denies_iff (Ha & _). congruence. Qed.

Lemma permits_mode p kind destination bytes : permits p kind destination bytes → denies p = false.
Proof. intros H. destruct (denies p) eqn:E; [|done]. by apply (nothing_permitted p kind destination bytes) in E. Qed.

#[export] Instance rank_le_trans rank : Transitive (rank_le rank).
Proof.
  intros a b c (x & y & Ha & Hb & Hxy) (y' & z & Hb' & Hc & Hyz). exists x, z. simplify_eq.
  split_and!; [done..|lia].
Qed.

#[export] Instance demands_trans : Transitive demands.
Proof.
  intros p q r [H1 H2 H3 H4 H5] [G1 G2 G3 G4 G5].
  constructor; [by auto..|by transitivity (pl_classification q)|by transitivity (pl_required_approver q)].
Qed.

#[export] Instance narrower_trans : Transitive narrower.
Proof.
  intros p q r Hpq Hqr k d n Hp. destruct (Hpq k d n Hp) as [Hq Hd], (Hqr k d n Hq) as [Hr Hd'].
  split; [done|by transitivity q].
Qed.

(** What resolving two valid policies of which neither denies gives *)
Lemma resolve_allowed o w :
  payload_valid o → payload_valid w → denies o = false → denies w = false →
  ∃ p, resolve_effective_payload o w = Ret (p, false) ∧ payload_ok p = true ∧
    (∀ k d n, permits p k d n ↔ permits o k d n ∧ permits w k d n) ∧ demands p o ∧ demands p w ∧
    (∀ q, demands q o → demands q w → demands q p) ∧
    pl_classification p ∈ [pl_classification o; pl_classification w] ∧
    pl_masking_required p = pl_masking_required o || pl_masking_required w ∧
    pl_redaction_required p = pl_redaction_required o || pl_redaction_required w ∧
    pl_question_step_up_required p = pl_question_step_up_required o || pl_question_step_up_required w ∧
    pl_mode p = "allow_approved_external".
Proof.
  intros Ho Hw Hdo Hdw. unfold resolve_effective_payload. rewrite Hdo, Hdw. simpl.
  assert (∀ x, payload_valid x → denies x = false → pl_mode x = "allow_approved_external") as Hmode.
  { intros x Hx Hdx. destruct (pv_mode _ Hx) as [Hm|]; [|done]. apply denies_iff in Hm. congruence. }
  pose proof (Hmode _ Ho Hdo) as Hmo. pose proof (Hmode _ Hw Hdw) as Hmw.
  destruct (max_by_spec classification_rank (pl_classification o) (pl_classification w)) as
    (c & -> & Hin & Hc & Hco & Hcw & Hcl); [apply (pv_classification _ Ho)|apply (pv_classification _ Hw)|].
  destruct (max_by_spec approver_rank (pl_required_approver o) (pl_required_approver w)) as
    (a & -> & _ & Ha & Hao & Haw & Hal); [apply (pv_approver _ Ho)|apply (pv_approver _ Hw)|].
  set (p := mkPayload _ _ _ _ _ _ _ _ _).
  assert (payload_ok p = true) as Hp.
  { apply payload_ok_iff. constructor; simpl; [by right|done|done|done| | | | |done].
    - pose proof (pv_bytes _ Ho). pose proof (pv_bytes _ Hw). lia.
    - split; (etransitivity; [apply length_intersection|]); apply (pv_lengths _ Ho).
    - split; [apply NoDup_intersection|]. intros k [Hk _]%elem_of_intersection. by apply (pv_kinds _ Ho).
    - split; [apply NoDup_intersection|]. intros d [Hd _]%elem_of_intersection. by apply (pv_destinations _ Ho). }
  unfold make_payload. rewrite Hp. exists p. split_and!; try done.
  - intros k d n. unfold permits. simpl. rewrite !elem_of_intersection, Hmo, Hmw.
    split; [intros (_ & [? ?] & [? ?] & ?)|intros [(_ & ? & ? & ?) (_ & ? & ? & ?)]]; split_and!; try done; lia.
  - constructor; simpl; try done; by intros ->.
  - constructor; simpl; try done; intros ->; apply orb_true_r.
  - intros q [H1 H2 H3 H4 H5] [G1 G2 G3 G4 G5]. constructor; simpl; [intros [?|?]%orb_true_iff; auto..| |];
      [by apply Hcl|by apply Hal].
Qed.

Lemma resolve_total o w :
  payload_ok o = true → payload_ok w = true → ∃ p, resolve_effective_payload o w = Ret (p, denies o).
Proof.
  intros Ho%payload_ok_iff Hw%payload_ok_iff. destruct (denies o) eqn:Hdo; [|destruct (denies w) eqn:Hdw].
  1-2: exists deny_external; unfold resolve_effective_payload; by rewrite Hdo, ?Hdw.
  destruct (resolve_allowed o w Ho Hw Hdo Hdw) as (p & Hp & _). by exists p.
Qed.

(** C13: the policy a workspace is subject to is the meet of the organization's
    and its own: it lets through only what both let through and demands then
    whatever either demands, and every policy that does so lets through no more
    and demands no less.  Resolving valid policies never fails, gives a valid
    policy, one that lets nothing through as soon as one of the two denies, and
    reports the parent as locked exactly when the organization denies. *)
Theorem effective_is_meet o w :
  payload_ok o = true → payload_ok w = true →
  ∃ p, resolve_effective_payload o w = Ret (p, denies o) ∧ payload_ok p = true ∧
    narrower p o ∧ narrower p w ∧
    (∀ q, payload_ok q = true → narrower q o → narrower q w → narrower q p) ∧
    (∀ kind destination bytes, permits p kind destination bytes ↔
      permits o kind destination bytes ∧ permits w kind destination bytes) ∧
    (p = deny_external ↔ denies o = true ∨ denies w = true).
Proof.
  intros Ho%payload_ok_iff Hw%payload_ok_iff. destruct (denies o) eqn:Hdo; [|destruct (denies w) eqn:Hdw].
  1-2: exists deny_external; split_and!;
    [unfold resolve_effective_payload; by rewrite Hdo, ?Hdw|done|by intros ? ? ? []|by intros ? ? ? []|..|naive_solver].
  - intros q _ Hqo _ k d n Hq. destruct (Hqo k d n Hq) as [Hp _]. by apply nothing_permitted in Hp.
  - intros k d n. split; [by intros []|]. intros [Hp _]. by apply nothing_permitted in Hp.
  - intros q _ _ Hqw k d n Hq. destruct (Hqw k d n Hq) as [Hp _]. by apply nothing_permitted in Hp.
  - intros k d n. split; [by intros []|]. intros [_ Hp]. by apply nothing_permitted in Hp.
  - destruct (resolve_allowed o w Ho Hw Hdo Hdw) as (p & Hres & Hok & Hp & Hpo & Hpw & Hleast & _ & _ & _ & _ & Hm).
    exists p. split_and!; [done|done| | | |exact Hp|].
    + intros k d n [H _]%Hp. by split.
    + intros k d n [_ H]%Hp. by split.
    + intros q _ Hqo Hqw k d n Hq. destruct (Hqo k d n Hq) as [Ho' ?], (Hqw k d n Hq) as [Hw' ?].
      split; [by apply Hp|by apply Hleast].
    + split; [intros ->; discriminate|by intros [|]].
Qed.

(** Hosts are the same in both lists only when they are spelt the same. *)
Definition sample_allow (destinations : list string) (approver : string) (limit : Z) : EgressPolicyPayload :=
  mkPayload "allow_approved_external" ["external_api"] destinations "internal" limit true true approver false.

Example meet_example :
  resolve_effective_payload
    (sample_allow ["api.example.com"; "llm.example.com"; "EU.example.com"] "workspace_manager" 4096)
    (sample_allow ["llm.example.com"; "eu.example.com"] "organization_admin" 65536) =
  Ret (sample_allow ["llm.example.com"] "organization_admin" 4096, false).
Proof. vm_compute. reflexivity. Qed.

Lemma effective_is_meet_witness :
  ∃ p, resolve_effective_payload (sample_allow ["api.example.com"] "workspace_manager" 4096) deny_external =
    Ret (p, false) ∧ p = deny_external.
Proof.
  pose (o := sample_allow ["api.example.com"] "workspace_manager" 4096).
  assert (payload_ok o = true) as Ho by (vm_compute; reflexivity).
  destruct (effective_is_meet o deny_external Ho eq_refl) as (p & Hp & _ & _ & _ & _ & _ & Hd).
  exists p. split; [exact Hp|]. apply Hd. right. reflexivity.
Defined.
