(* ===== verification/EgressStore.v ===== *)
(** The reference repository of egress policies behind the service
    (egress_policy.py): its bindings stay well formed, an activation replaces
    the binding it was made against and no other, and of two activations against
    one entity tag only the first is accepted. *)

From S2P Require Import Prelude Sha256 PyStr Json EgressPolicy.
#[local] Open Scope Z_scope.

Section Store.
Context {D : Digest}.

(** A binding is the current one of its key, with a valid policy. *)
Record binding_ok (k : BindingKey) (b : EgressPolicyBindingView) : Prop := {
  bo_key : k = (bv_tenant_id b, bv_organization_id b, bv_scope_type b, bv_workspace_id b);
  bo_active : bv_active b = true ∧ bv_current b = true ∧ bv_policy_state b = "active";
  bo_version : 1 <= bv_binding_version b ∧ bv_policy_version b = bv_binding_version b;
  bo_payload : payload_ok (bv_payload b) = true
}.

Definition store_ok (s : Reference) : Prop := map_Forall binding_ok (rf_current s).

Lemma binding_at_ok c scope version p :
  1 <= version → payload_ok p = true → binding_ok (binding_key c scope) (binding_at c scope version p).
Proof. intros Hv Hp. by constructor. Qed.

(** Seeding a scope that has no policy yet, and calls of the service with
    payloads that could be built *)
Inductive policy_step : relation Reference :=
| ps_seed c scope p s : rf_current s !! binding_key c scope = None → payload_ok p = true →
    policy_step s (final (seed c scope p) s)
| ps_activate c scope p etag key s : payload_ok p = true →
    policy_step s (final (create_and_activate c scope p etag key) s).

(** *** The entity tag tells versions apart *)

Lemma colon_stops r : stops num_char (":" +:+ r).
Proof. done. Qed.

Lemma etag_version b b' :
  bv_scope_type b = bv_scope_type b' → bv_etag b = bv_etag b' → bv_binding_version b = bv_binding_version b'.
Proof.
  intros Hs H%dquoted_inj%string_app_inv_l. rewrite Hs in H. apply string_app_inv_l, string_app_inv_l in H.
  apply (run_split num_char) in H as [H _]; [by apply str_int_inj|..].
  all: try apply str_int_chars; apply colon_stops.
Qed.

(** *** Every path through an activation *)

(** Only denials were recorded. *)
Definition kept (s s' : Reference) : Prop :=
  rf_current s' = rf_current s ∧ rf_idempotency s' = rf_idempotency s ∧ rf_write_count s' = rf_write_count s.

Lemma wp_on_conflict {A} (m : M Reference A) c action code Q s :
  wp m (λ o s', match o with
    | Ret a => Q (Ret a) s'
    | Raise e => ∀ s'', kept s' s'' → Q (Raise e) s''
    end) s →
  wp (on_conflict m (repo_record_denial c action code)) Q s.
Proof.
  unfold wp, on_conflict. destruct (m s) as [s' [a|[code' status retryable|class]]]; simpl; [done|intros H..].
  - destruct (String.eqb _ _); by apply H.
  - by apply H.
Qed.

Definition replay_key_of (c : EgressPolicyContext) (scope key : string) : ReplayKey :=
  (ec_tenant_id c, ec_actor_id c, scope, key).

(** What an activation that is not a replay leaves *)
Definition activated (c : EgressPolicyContext) (scope : string) (p : EgressPolicyPayload) (etag key : string)
    (cur b : EgressPolicyBindingView) (s : Reference) : Reference :=
  mkReference (<[binding_key c scope := b]> (rf_current s))
    (<[replay_key_of c scope key := (activation_fingerprint scope p etag, b)]> (rf_idempotency s))
    (rf_audit_outcomes s ++ [("egress_policy.activate", "succeeded")]) (rf_write_count s + 1).

(** The organization lets a workspace allow external transfer. *)
Definition parent_allows (c : EgressPolicyContext) (s : Reference) : Prop :=
  ∃ o, rf_current s !! binding_key c "organization" = Some o ∧ denies (bv_payload o) = false.

Lemma wp_parent_check c s (Q : outcome unit → Reference → Prop) :
  (parent_allows c s → Q (Ret tt) s) → (∀ e s', kept s s' → Q (Raise e) s') →
  wp (organization <- repo_current c "organization" ;;
      validate_binding c organization "organization" ;;
      when (denies (bv_payload organization)) (
        repo_record_denial c "egress_policy.activate" "EGRESS_POLICY_DENIED" ;;
        raise (EgressPolicyError "EGRESS_POLICY_DENIED" 403))) Q s.
Proof.
  intros H1 H2. apply wp_bind. simpl. unfold ref_current. apply wp_bind, wp_gets, wp_from_option; [intros o Ho|by intros; apply H2].
  unfold validate_binding. apply wp_bind, wp_bind, wp_guard; [intros _|by intros; apply H2].
  apply wp_guard; [intros _|by intros; apply H2]. apply wp_when; intros Hd.
  - apply wp_bind. unfold ref_record_denial. apply wp_modify, wp_raise. by apply H2.
  - apply H1. by exists o.
Qed.

Lemma wp_activate c scope p etag key s :
  wp (create_and_activate c scope p etag key) (λ o s', match o with
    | Raise _ => kept s s'
    | Ret b => scope ∈ ["organization"; "workspace"] ∧
        (scope = "workspace" → pl_mode p = "allow_approved_external" → parent_allows c s) ∧
        match rf_idempotency s !! replay_key_of c scope key with
        | Some (print, known) => s' = s ∧ b = known ∧ print = activation_fingerprint scope p etag
        | None => ∃ cur, rf_current s !! binding_key c scope = Some cur ∧ bv_etag cur = etag ∧
            b = binding_at c scope (bv_binding_version cur + 1) p ∧ s' = activated c scope p etag key cur b s
        end
    end) s.
Proof.
  unfold create_and_activate. apply wp_bind, wp_guard; [intros Hscope|done]. bools.
  assert (∀ s0, s0 = s → (scope = "workspace" → pl_mode p = "allow_approved_external" → parent_allows c s) →
    wp (on_conflict (repo_create_and_activate c scope p etag key)
      (repo_record_denial c "egress_policy.activate" "VERSION_CONFLICT")) (λ o s', match o with
    | Raise _ => kept s s'
    | Ret b => scope ∈ ["organization"; "workspace"] ∧
        (scope = "workspace" → pl_mode p = "allow_approved_external" → parent_allows c s) ∧
        match rf_idempotency s !! replay_key_of c scope key with
        | Some (print, known) => s' = s ∧ b = known ∧ print = activation_fingerprint scope p etag
        | None => ∃ cur, rf_current s !! binding_key c scope = Some cur ∧ bv_etag cur = etag ∧
            b = binding_at c scope (bv_binding_version cur + 1) p ∧ s' = activated c scope p etag key cur b s
        end
    end) s0) as Hrest.
  { intros s0 -> Hparent. apply wp_on_conflict. simpl. unfold ref_create_and_activate.
    apply wp_bind, wp_gets. fold (replay_key_of c scope key).
    destruct (rf_idempotency s !! replay_key_of c scope key) as [[print known]|] eqn:Hk.
    - apply wp_bind, wp_guard; [intros Hp; bools|done]. by apply wp_ret.
    - unfold ref_current. apply wp_bind, wp_bind, wp_gets, wp_from_option; [intros cur Hcur|done].
      apply wp_bind, wp_guard; [intros He; bools|done]. apply wp_bind, wp_modify, wp_ret.
      split_and!; [done..|]. by exists cur. }
  apply wp_bind, wp_when.
  - intros [Hw Hm]%andb_true_iff. bools. apply wp_parent_check; [intros Hp; by apply Hrest|done].
  - intros Hn. apply Hrest; [done|]. intros -> Hm. by rewrite Hm in Hn.
Qed.

Lemma policy_step_ok s s' : policy_step s s' → store_ok s → store_ok s'.
Proof.
  intros [c scope p s0 Hnew Hp|c scope p etag key s0 Hp] Hok.
  - simpl. apply map_Forall_insert_2; [|done]. by apply binding_at_ok.
  - pose proof (wp_activate c scope p etag key s0) as H. unfold wp in H.
    destruct (create_and_activate c scope p etag key s0) as [s1 [b|e]]; simpl in *.
    2: { destruct H as (Hc & _). unfold store_ok. by rewrite Hc. }
    destruct H as (_ & _ & H). destruct (rf_idempotency s0 !! _) as [[print known]|]; [by destruct H as [-> _]|].
    destruct H as (cur & Hcur & _ & -> & ->). simpl. apply map_Forall_insert_2; [|done].
    destruct (bo_version _ _ (Hok _ _ Hcur)). apply binding_at_ok; [lia|done].
Qed.

Lemma reachable_store_ok s : rtc policy_step empty_reference s → store_ok s.
Proof.
  intros Hr. eapply rtc_invariant; [|exact Hr|apply map_Forall_empty].
  intros x y ? ?. by eapply policy_step_ok.
Qed.

(** Where both policies are seeded the service resolves them. *)
Lemma effective_available c s o w :
  store_ok s → ec_tenant_id c = ec_organization_id c →
  rf_current s !! binding_key c "organization" = Some o → rf_current s !! binding_key c "workspace" = Some w →
  ∃ p, resolve_effective_payload (bv_payload o) (bv_payload w) = Ret (p, denies (bv_payload o)) ∧
    get_effective c s = (s, Ret (effective_of o w p (denies (bv_payload o)))).
Proof.
  intros Hok Hc Ho Hw. destruct (Hok _ _ Ho) as [[= Ht Hg Hs Hn] (Ha & Hcu & Hst) _ Hpo].
  destruct (Hok _ _ Hw) as [[= Ht' Hg' Hs' Hn'] (Ha' & Hcu' & Hst') _ Hpw].
  destruct (resolve_total _ _ Hpo Hpw) as (p & Hp). exists p. split; [done|].
  unfold get_effective, validate_binding, bind, guard, ret. simpl. unfold ref_current, bind, gets, from_option, ret.
  rewrite Ho, Hw. simpl. rewrite <- Ht, <- Ht', <- Hg, <- Hg', <- Hs, <- Hs', <- Hn, <- Hn', Ha, Ha', Hcu, Hcu',
    Hst, Hst', Hp. rewrite !String.eqb_refl. by rewrite !bool_decide_eq_true_2.
Qed.

(** A repeated activation is answered from the replays. *)
Lemma activate_replay c scope p etag key s b :
  store_ok s → scope ∈ ["organization"; "workspace"] →
  (scope = "workspace" → pl_mode p = "allow_approved_external" → parent_allows c s) →
  rf_idempotency s !! replay_key_of c scope key = Some (activation_fingerprint scope p etag, b) →
  create_and_activate c scope p etag key s = (s, Ret b).
Proof.
  intros Hok Hscope Hparent Hk. unfold create_and_activate.
  rewrite (bind_Ret _ _ s s tt) by by apply guard_Ret, bool_decide_eq_true_2.
  assert (when (String.eqb scope "workspace" && String.eqb (pl_mode p) "allow_approved_external")
    (organization <- repo_current c "organization" ;;
     validate_binding c organization "organization" ;;
     when (denies (bv_payload organization)) (
       repo_record_denial c "egress_policy.activate" "EGRESS_POLICY_DENIED" ;;
       raise (EgressPolicyError "EGRESS_POLICY_DENIED" 403))) s = (s, Ret tt)) as Hw.
  { destruct (String.eqb scope "workspace" && _) eqn:E; [|done]. bools.
    destruct Hparent as (o & Ho & Hd); [done..|]. destruct (Hok _ _ Ho) as [[= Ht Hg Hs Hn] (Ha & Hcu & Hst) _ _].
    simpl. unfold ref_current, validate_binding, bind, gets, from_option, guard, ret. rewrite Ho. simpl.
    rewrite <- Ht, <- Hg, <- Hs, <- Hn, Ha, Hcu, Hst, Hd, !String.eqb_refl, bool_decide_eq_true_2 by done. done. }
  rewrite (bind_Ret _ _ s s tt Hw). unfold on_conflict. simpl. unfold ref_create_and_activate, bind, gets.
  unfold replay_key_of in Hk. rewrite Hk. unfold guard. by rewrite String.eqb_refl.
Qed.

(** An activation that returns for a fresh key was made against the current
    binding of its scope and replaces exactly that binding by the next version
    with the given policy; a workspace allows external transfer only while its
    organization does.  The same call again returns the same binding and changes
    nothing, every other activation against that entity tag fails, whoever makes
    it, and changes no binding, and the policies that are in force are resolved
    from then on. *)
Theorem activation_exclusive s c scope p etag key b :
  rtc policy_step empty_reference s → payload_ok p = true →
  rf_idempotency s !! replay_key_of c scope key = None →
  result (create_and_activate c scope p etag key) s = Ret b →
  let s' := final (create_and_activate c scope p etag key) s in
  (∃ cur, rf_current s !! binding_key c scope = Some cur ∧ bv_etag cur = etag ∧
    b = binding_at c scope (bv_binding_version cur + 1) p ∧
    rf_current s' = <[binding_key c scope := b]> (rf_current s) ∧
    rf_write_count s' = rf_write_count s + 1) ∧
  (scope = "workspace" → denies p = false → parent_allows c s) ∧
  create_and_activate c scope p etag key s' = (s', Ret b) ∧
  (∀ c2 p2 key2, binding_key c2 scope = binding_key c scope →
    rf_idempotency s' !! replay_key_of c2 scope key2 = None →
    ∃ e s2, create_and_activate c2 scope p2 etag key2 s' = (s2, Raise e) ∧ kept s' s2) ∧
  (∀ c2 o w, ec_tenant_id c2 = ec_organization_id c2 →
    rf_current s' !! binding_key c2 "organization" = Some o →
    rf_current s' !! binding_key c2 "workspace" = Some w →
    ∃ q, resolve_effective_payload (bv_payload o) (bv_payload w) = Ret (q, denies (bv_payload o)) ∧
      get_effective c2 s' = (s', Ret (effective_of o w q (denies (bv_payload o))))).
Proof.
  intros Hr Hp Hfresh Hres s'. pose proof (reachable_store_ok _ Hr) as Hok.
  assert (store_ok s') as Hok' by (eapply policy_step_ok; [by apply ps_activate|done]).
  pose proof (wp_activate c scope p etag key s) as H. unfold wp in H. rewrite Hres, Hfresh in H. fold s' in H.
  destruct H as (Hscope & Hparent & cur & Hcur & He & Hb & Hs').
  assert (pl_mode p = "allow_approved_external" ↔ denies p = false) as Hmode.
  { apply payload_ok_iff in Hp. pose proof (denies_iff p). destruct (pv_mode _ Hp) as [Hm|Hm]; rewrite Hm in *;
      destruct (denies p); naive_solver. }
  split_and!.
  - exists cur. rewrite Hs'. by split_and!.
  - intros Hw Hd. apply Hparent; [done|by apply Hmode].
  - apply activate_replay; [done|done| |].
    + intros Hw Hm. destruct (Hparent Hw Hm) as (o & Ho & Hd). exists o. split; [|done].
      rewrite Hs'. simpl. rewrite lookup_insert_ne; [done|]. rewrite Hw. by intros [=].
    + rewrite Hs'. simpl. apply lookup_insert_eq.
  - intros c2 p2 key2 Hkey Hfresh2. pose proof (wp_activate c2 scope p2 etag key2 s') as H2. unfold wp in H2.
    destruct (create_and_activate c2 scope p2 etag key2 s') as [s2 [b2|e]]; simpl in H2; [|by eauto].
    exfalso. rewrite Hfresh2 in H2. destruct H2 as (_ & _ & cur2 & Hcur2 & He2 & _).
    rewrite Hkey, Hs' in Hcur2. unfold activated in Hcur2. simpl in Hcur2. rewrite lookup_insert_eq in Hcur2.
    injection Hcur2 as <-. destruct (Hok _ _ Hcur) as [[= _ _ Hs _] _ _ _].
    assert (bv_binding_version b = bv_binding_version cur) as Hv.
    { apply etag_version; [by rewrite Hb, <- Hs|congruence]. }
    rewrite Hb in Hv. simpl in Hv. lia.
  - intros c2 o w. by apply effective_available.
Qed.
End Store.

(** ** A sample *)

Section Sample.
#[local] Existing Instance checksum_digest.

Definition org_context : EgressPolicyContext :=
  mkEgressContext "tenant-1" "tenant-1" "alpha" "boss" "trace-1" "policy-1".
Definition beta_context : EgressPolicyContext :=
  mkEgressContext "tenant-1" "tenant-1" "beta" "boss" "trace-1" "policy-1".

Definition organization_policy : EgressPolicyPayload :=
  sample_allow ["api.example.com"; "llm.example.com"] "workspace_manager" 65536.
Definition workspace_policy : EgressPolicyPayload :=
  sample_allow ["llm.example.com"; "eu.example.com"] "organization_admin" 4096.

Definition seeded : Reference :=
  final (seed beta_context "workspace" deny_external)
    (final (seed org_context "workspace" deny_external)
      (final (seed org_context "organization" organization_policy) empty_reference)).

Definition denied_tag : string := bv_etag (binding_at org_context "workspace" 1 deny_external).

Definition activate (c : EgressPolicyContext) : M Reference EgressPolicyBindingView :=
  create_and_activate c "workspace" workspace_policy denied_tag "key-1".

Definition opened : Reference := final (activate org_context) seeded.

Lemma seeded_reachable : rtc policy_step empty_reference seeded.
Proof.
  eapply rtc_l; [apply (ps_seed org_context "organization" organization_policy); vm_compute; reflexivity|].
  eapply rtc_l; [apply (ps_seed org_context "workspace" deny_external); vm_compute; reflexivity|].
  eapply rtc_l; [apply (ps_seed beta_context "workspace" deny_external); vm_compute; reflexivity|].
  apply rtc_refl.
Qed.

Lemma activated_once : result (activate org_context) seeded = Ret (binding_at org_context "workspace" 2 workspace_policy).
Proof. vm_compute. reflexivity. Qed.

Lemma activation_exclusive_witness :
  result (activate org_context) seeded = Ret (binding_at org_context "workspace" 2 workspace_policy) ∧
  activate org_context opened = (opened, Ret (binding_at org_context "workspace" 2 workspace_policy)).
Proof.
  split; [exact activated_once|].
  assert (payload_ok workspace_policy = true) as Hp by (vm_compute; reflexivity).
  assert (rf_idempotency seeded !! replay_key_of org_context "workspace" "key-1" = None) as Hk
    by (vm_compute; reflexivity).
  exact (proj1 (proj2 (proj2 (activation_exclusive seeded org_context "workspace" workspace_policy denied_tag
    "key-1" _ seeded_reachable Hp Hk activated_once)))).
Defined.

Example effective_sample :
  match result (get_effective org_context) opened with
  | Ret e => Some (pl_allowed_destinations (ef_payload e), pl_max_bytes (ef_payload e),
                   pl_required_approver (ef_payload e), ef_parent_locked e)
  | Raise _ => None
  end = Some (["llm.example.com"], 4096, "organization_admin", false).
Proof. vm_compute. reflexivity. Qed.

(** The replays do not tell the workspaces of an actor apart: the same call for
    another workspace whose binding has the same tag returns the binding of the
    first one, and the other workspace keeps its policy. *)
Example replay_crosses_workspaces :
  match activate beta_context opened with
  | (s, Ret b) => (bv_workspace_id b, bv_payload <$> rf_current s !! binding_key beta_context "workspace")
  | _ => (None, None)
  end = (Some "alpha", Some deny_external).
Proof. vm_compute. reflexivity. Qed.
End Sample.
