(* ===== verification/QuestionEgress.v ===== *)
(** Whether a question, or an original document, may leave for a provider
    (question_egress.py, routing.py, document_processing.py): the policy in
    force, the approval of the request and the routing of the model together.

    Of [authorize] this is the decision; how it is persisted with the run is not
    modelled.  The observation of a refusal, whose failures the program ignores,
    is an operation of the surroundings ([DenialObserver]). *)

From S2P Require Import Prelude Sha256 PyStr Json HashChain Bytes AuditLog PyFloat EgressPolicy EgressStore.
#[local] Open Scope Z_scope.

(** ** Routing (routing.py) *)

Record RoutingContext := mkRouting {
  rx_actor_id : string;
  rx_tenant_id : string;
  rx_workspace_id : string;
  rx_mode : string;
  rx_required_role : string;
  rx_data_realm : string;
  rx_external_egress_allowed : bool;
  rx_policy_version : string;
  rx_cost_limit : float;
  rx_estimated_cost : float;
  rx_payload_bytes : Z
}.

Record CandidateDeployment := mkCandidate {
  cd_deployment_id : string;
  cd_artifact_digest : string;
  cd_role : string;
  cd_data_realm : string;
  cd_health : string;
  cd_provider_kind : string
}.

Record EgressDecision := mkEgressDecision {
  ed_destination : string;
  ed_payload_bytes : Z;
  ed_allowed : bool;
  ed_reason : string;
  ed_policy_version : string
}.

Record RoutingResult := mkRoutingResult {
  rt_status : string;
  rt_code : option string;
  rt_deployment_id : option string;
  rt_artifact_digest : option string;
  rt_policy_version : string;
  rt_egress : EgressDecision
}.

Definition SERVER_INTERNAL : string := "server_internal".

(** [_blocked], and the result without a deployment *)
Definition unrouted (c : RoutingContext) (status code reason : string) : RoutingResult :=
  mkRoutingResult status (Some code) None None (rx_policy_version c)
    (mkEgressDecision "unknown" (rx_payload_bytes c) false reason (rx_policy_version c)).

Definition blocked (c : RoutingContext) : string → string → RoutingResult := unrouted c "policy_blocked".

(** The body of the loop: the candidates allowed so far, and whether one was
    denied for leaving the system. *)
Definition consider (c : RoutingContext) (acc : list CandidateDeployment * bool)
    (candidate : CandidateDeployment) : list CandidateDeployment * bool :=
  let '(allowed, egress_denied) := acc in
  let external := String.eqb (cd_provider_kind candidate) "external_api" in
  if external && String.eqb (rx_data_realm c) "local_private" && negb (rx_external_egress_allowed c)
  then (allowed, true)
  else if negb (String.eqb (cd_role candidate) (rx_required_role c)) ||
          negb (String.eqb (cd_data_realm candidate) (rx_data_realm c))
  then acc
  else if negb (String.eqb (cd_health candidate) "ready") then acc
  else if external && negb (rx_external_egress_allowed c) then (allowed, true)
  else (allowed ++ [candidate], egress_denied).

Definition route_single_model (c : RoutingContext) (candidates : list CandidateDeployment) : RoutingResult :=
  if flt (rx_cost_limit c) (rx_estimated_cost c)
  then blocked c "COST_LIMIT_EXCEEDED" "frozen cost limit exceeded"
  else
    let considered := if String.eqb (rx_mode c) "pinned" then take 1 candidates else candidates in
    match fold_left (consider c) considered ([], false) with
    | ([], true) => blocked c "EXTERNAL_EGRESS_DENIED" "external egress is not allowed"
    | ([], false) => unrouted c "failed" "NO_AVAILABLE_DEPLOYMENT" "no ready candidate matched the frozen context"
    | (selected :: _, _) =>
        mkRoutingResult "selected" None (Some (cd_deployment_id selected)) (Some (cd_artifact_digest selected))
          (rx_policy_version c)
          (mkEgressDecision
            (if String.eqb (cd_provider_kind selected) "" then SERVER_INTERNAL else cd_provider_kind selected)
            (rx_payload_bytes c) true "approved candidate matched frozen context" (rx_policy_version c))
    end.

(** ** Questions (question_egress.py) *)

Definition external_question_policy_matches (p : EgressPolicyPayload) (provider_kind destination : string)
    (payload_bytes : Z) (classification : string) (masking_required redaction_required : bool) : bool :=
  String.eqb (pl_mode p) "allow_approved_external" &&
  bool_decide (provider_kind ∈ pl_allowed_provider_kinds p) &&
  bool_decide (casefold destination ∈ map casefold (pl_allowed_destinations p)) &&
  ((0 <=? payload_bytes) && (payload_bytes <=? pl_max_bytes p)) &&
  String.eqb (pl_classification p) classification &&
  Bool.eqb (pl_masking_required p) masking_required &&
  Bool.eqb (pl_redaction_required p) redaction_required.

(** What [authorize] reads of the [QuestionContext] *)
Record QuestionContext := mkQuestionContext {
  qc_tenant_id : string;
  qc_workspace_id : string;
  qc_actor_id : string;
  qc_trace_id : string;
  qc_policy_version : string
}.

Record TextModelSelection := mkSelection {
  ts_provider_code : string;
  ts_base_url : string;
  ts_profile_id : string;
  ts_deployment_id : string;
  ts_model_id : string;
  ts_binding_version : Z;
  ts_provider_kind : string;
  ts_connection_id : option string;
  ts_credential_version : Z;
  ts_catalog_version : Z;
  ts_routing_owner : string;
  ts_daon_fallback_allowed : bool
}.

(** [approved_authorization], a mapping of texts *)
Abbreviation Approval := (list (string * string)).

(** [approved.get(key) == value] *)
Definition has (approved : Approval) (key value : string) : bool :=
  bool_decide (dict_get key approved = Some value).

(** [_approval_matches] *)
Definition approval_matches (approved : option Approval) (sel : TextModelSelection)
    (policy_fingerprint payload_fingerprint : string) : bool :=
  match approved with
  | None => false
  | Some a =>
      bool_decide (dict_get "authorization_mode" a = None ∨ dict_get "authorization_mode" a = Some "policy_approved") &&
      (has a "policy_fingerprint" policy_fingerprint &&
       has a "provider_payload_fingerprint" payload_fingerprint &&
       has a "provider_kind" (ts_provider_kind sel) &&
       has a "deployment_id" (ts_deployment_id sel) &&
       match ts_connection_id sel with
       | None => true
       | Some connection =>
           has a "connection_id" connection &&
           has a "credential_version" (str_int (ts_credential_version sel)) &&
           has a "default_version" (str_int (ts_binding_version sel)) &&
           has a "catalog_version" (str_int (ts_catalog_version sel))
       end)
  end.

Definition safe_model_context (sel : TextModelSelection) : list (string * json) :=
  [("connection_id", JOpt (ts_connection_id sel)); ("provider_code", JStr (ts_provider_code sel));
   ("model_id", JStr (ts_model_id sel)); ("credential_version", JInt (ts_credential_version sel));
   ("default_version", JInt (ts_binding_version sel)); ("catalog_version", JInt (ts_catalog_version sel));
   ("routing_owner", JStr (ts_routing_owner sel)); ("daon_fallback_allowed", JBool (ts_daon_fallback_allowed sel))].

(** [_record_early_denial], before its failures are ignored *)
Class DenialObserver (R : Type) := { observe_denial : QuestionContext → string → M R unit }.

(** [try: m; except Exception: pass] *)
Definition ignoring {R} (m : M R unit) : M R unit := λ s, (fst (m s), Ret tt).

Record QuestionDecision := mkQuestionDecision {
  qd_effective : EffectiveEgressPolicy;
  qd_allowed : bool;
  qd_reason : string;
  qd_routing : RoutingResult;
  qd_frozen : list (string * json)
}.

Definition QUESTION_DENIED : exn := Raised "EGRESS_POLICY_DENIED" 403 false.

Section Questions.
Context {D : Digest} {H : HostParser} {R : Type} {ER : EgressRepository R} {DO : DenialObserver R}.

(** [_opaque_id] *)
Definition opaque_id (prefix : string) (values : list string) : string :=
  prefix +:+ "-" +:+ String.substring 0 32 (sha256_hex (encode (String.concat "|" values))).

Definition policy_context (c : QuestionContext) : EgressPolicyContext :=
  mkEgressContext (qc_tenant_id c) (qc_tenant_id c) (qc_workspace_id c) (qc_actor_id c) (qc_trace_id c)
    (qc_policy_version c).

Definition payload_fingerprint (payload : list N) : string := "sha256:" +:+ sha256_hex payload.

Definition policy_approved (approved : option Approval) : bool :=
  match approved with Some a => has a "authorization_mode" "policy_approved" | None => false end.

(** [approval_exact] *)
Definition approval_exact (approved : option Approval) (sel : TextModelSelection) (payload : list N)
    (effective : EffectiveEgressPolicy) : bool :=
  approval_matches approved sel (ef_fingerprint effective) (payload_fingerprint payload) &&
  (negb (policy_approved approved) || negb (pl_question_step_up_required (ef_payload effective))).

(** The decision of [authorize] *)
Definition decide_question (c : QuestionContext) (run_id : string) (sel : TextModelSelection)
    (provider_payload : list N) (no_external_payload : bool) (approved : option Approval)
    : M R QuestionDecision :=
  context <- from_outcome (make_context (policy_context c)) ;;
  effective <- get_effective context ;;
  host <- from_option (url_hostname (ts_base_url sel)) (PyError "ValueError") ;;
  let destination := casefold (default "" host) in
  let external := String.eqb (ts_provider_kind sel) "external_api" && negb no_external_payload in
  let payload_bytes := Z.of_nat (length provider_payload) in
  let exact := approval_exact approved sel provider_payload effective in
  let scope_allowed := external_question_policy_matches (ef_payload effective) (ts_provider_kind sel) destination
    payload_bytes "internal" true true in
  when (external && (negb scope_allowed || negb exact)) (
    ignoring (observe_denial c run_id) ;;
    raise QUESTION_DENIED) ;;
  let policy_allowed := negb external || scope_allowed in
  let routing := route_single_model
    (mkRouting (qc_actor_id c) (qc_tenant_id c) (qc_workspace_id c) "pinned" "text" "cloud_sync" policy_allowed
      (ef_fingerprint effective) f_zero f_zero payload_bytes)
    [mkCandidate (ts_deployment_id sel) (opaque_id "artifact-digest" [ts_provider_code sel; ts_model_id sel])
      "text" "cloud_sync" "ready" (ts_provider_kind sel)] in
  let allowed := policy_allowed && String.eqb (rt_status routing) "selected" in
  let reason :=
    if no_external_payload && allowed then "no_external_payload"
    else if allowed then "approved_policy_binding"
    else if external && negb exact then "egress_approval_required"
    else match rt_code routing with
         | Some code => if String.eqb code "" then "effective_policy_denied" else code
         | None => "effective_policy_denied"
         end in
  ret (mkQuestionDecision effective allowed reason routing
    (frozen_context effective ++
     [("payload_fingerprint", JStr (payload_fingerprint provider_payload));
      ("payload_bytes", JInt payload_bytes); ("provider_kind", JStr (ts_provider_kind sel))] ++
     safe_model_context sel ++
     [("destination", JStr destination);
      ("approved_request_fingerprint", JOpt (a ← approved; dict_get "request_fingerprint" a));
      ("authorization_mode", JStr (if policy_approved approved && exact then "policy_approved"
        else if exact then "step_up_approved" else "none"))])).

(** ** Original documents (document_processing.py) *)

Definition INTERNAL_KINDS : list string := ["local"; "server_internal"; "local_runtime"].

Definition document_error (code : string) (status : Z) (retryable : bool) : exn := Raised code status retryable.

(** [try: self._policy_service.get_effective(...)] of the guard, whose errors
    become errors of the document *)
Definition effective_for_document (c : EgressPolicyContext) : M R EffectiveEgressPolicy := λ s,
  match (context <- from_outcome (make_context c) ;; get_effective context) s with
  | (s', Raise (Raised code status _)) => (s', Raise (document_error code status (500 <=? status)))
  | (s', Raise (PyError class)) =>
      (s', Raise (if String.eqb class "CloudDatabaseError"
                  then document_error "EGRESS_POLICY_UNAVAILABLE" 503 true else PyError class))
  | other => other
  end.

(** [OriginalDocumentEgressGuard.authorize], of the kinds of the selected models *)
Definition authorize_original (policy_service : bool) (c : EgressPolicyContext) (kinds : list string) : M R unit :=
  let denied := document_error "EGRESS_POLICY_DENIED" 403 false in
  guard (forallb (λ k, bool_decide (k ∈ INTERNAL_KINDS ++ ["external_api"])) kinds) denied ;;
  if negb (existsb (String.eqb "external_api") kinds) then ret tt
  else
    guard policy_service (document_error "EGRESS_POLICY_UNAVAILABLE" 503 true) ;;
    effective <- effective_for_document c ;;
    guard (String.eqb (pl_mode (ef_payload effective)) "allow_approved_external") denied ;;
    raise denied.
End Questions.

(** ** Routing picks the first candidate that may be used *)

Definition eligible (c : RoutingContext) (x : CandidateDeployment) : bool :=
  String.eqb (cd_role x) (rx_required_role c) && String.eqb (cd_data_realm x) (rx_data_realm c) &&
  String.eqb (cd_health x) "ready" &&
  (negb (String.eqb (cd_provider_kind x) "external_api") || rx_external_egress_allowed c).

Lemma consider_spec c acc denied x :
  (consider c (acc, denied) x).1 = if eligible c x then acc ++ [x] else acc.
Proof.
  unfold consider, eligible. destruct (String.eqb (cd_provider_kind x) "external_api"),
    (rx_external_egress_allowed c), (String.eqb (rx_data_realm c) "local_private"),
    (String.eqb (cd_role x) (rx_required_role c)), (String.eqb (cd_data_realm x) (rx_data_realm c)),
    (String.eqb (cd_health x) "ready"); done.
Qed.

Lemma considered_spec c l acc denied :
  (fold_left (consider c) l (acc, denied)).1 = acc ++ filter (λ x, eligible c x = true) l.
Proof.
  revert acc denied. induction l as [|x l IH]; intros acc denied; cbn [fold_left]; [by rewrite app_nil_r|].
  pose proof (consider_spec c acc denied x) as Hx. destruct (consider c (acc, denied) x) as [acc' denied'].
  rewrite IH. simpl in Hx. subst acc'. rewrite filter_cons. destruct (eligible c x); [|done].
  rewrite <- app_assoc. by rewrite decide_True.
Qed.

(** A deployment is selected exactly when the cost is within its limit and one
    of the candidates considered, of a pinned context the first only, has the
    role, the realm and the health asked for and does not leave the system
    unless that is allowed; it is the first such. *)
Theorem routing_selects_first c candidates :
  let considered := if String.eqb (rx_mode c) "pinned" then take 1 candidates else candidates in
  (rt_status (route_single_model c candidates) = "selected" ↔
    flt (rx_cost_limit c) (rx_estimated_cost c) = false ∧ Exists (λ x, eligible c x = true) considered) ∧
  ∀ id, rt_deployment_id (route_single_model c candidates) = Some id →
    ∃ before x after, considered = before ++ x :: after ∧ cd_deployment_id x = id ∧ eligible c x = true ∧
      Forall (λ y, eligible c y = false) before ∧
      (cd_provider_kind x = "external_api" → rx_external_egress_allowed c = true).
Proof.
  intros considered. unfold route_single_model. fold considered.
  pose proof (considered_spec c considered [] false) as Hf.
  destruct (flt _ _); [split; [split; [discriminate|by intros []]|discriminate]|].
  destruct (fold_left (consider c) considered ([], false)) as [[|x l] denied] eqn:Hfold; simpl in Hf.
  - split.
    + split; [destruct denied; discriminate|]. intros [_ (x & Hin & Hx)%Exists_exists].
      exfalso. apply (not_elem_of_nil x). rewrite Hf. by apply list_elem_of_filter.
    + destruct denied; discriminate.
  - split.
    + split; [|done]. intros _. split; [done|]. apply Exists_exists. exists x.
      assert (x ∈ filter (λ x, eligible c x = true) considered) as [??]%list_elem_of_filter by (rewrite <- Hf; left).
      done.
    + simpl. intros id [= <-]. symmetry in Hf. clear Hfold. induction considered as [|y ys IH]; [done|].
      rewrite filter_cons in Hf. case_decide as Hy.
      * injection Hf as -> Hf. exists [], x, ys. split_and!; try done. intros He. unfold eligible in Hy.
        rewrite He in Hy. bools. match goal with H : _ || _ = true |- _ => by apply orb_true_iff in H as [|] end.
      * destruct (IH Hf) as (before & z & after & -> & ? & ? & ? & ?). exists (y :: before), z, after.
        split_and!; try done. constructor; [by apply not_true_is_false|done].
Qed.

(** ** What may leave *)

Section Facts.
Context {D : Digest} {H : HostParser} {R : Type} {ER : EgressRepository R} {DO : DenialObserver R}.

(** [b] is the active current binding of the scope. *)
Definition in_force (c : EgressPolicyContext) (scope : string) (b : EgressPolicyBindingView) : Prop :=
  bv_tenant_id b = ec_tenant_id c ∧ bv_organization_id b = ec_organization_id c ∧
  bv_workspace_id b = (if String.eqb scope "organization" then None else Some (ec_workspace_id c)) ∧
  bv_scope_type b = scope ∧ bv_active b = true ∧ bv_current b = true ∧ bv_policy_state b = "active".

(** The repository hands out the two policies, one after the other. *)
Definition policies_read (c : EgressPolicyContext) (s s' : R) (o w : EgressPolicyBindingView) : Prop :=
  ∃ s1, repo_current c "organization" s = (s1, Ret o) ∧ repo_current c "workspace" s1 = (s', Ret w).

Lemma validate_binding_iff c scope b (s : R) :
  validate_binding c b scope s = (s, Ret tt) ↔ in_force c scope b.
Proof.
  unfold validate_binding, in_force, bind, guard, ret, raise. split.
  - destruct (String.eqb (bv_tenant_id b) _ && _ && _ && _) eqn:E1; [|done].
    destruct (bv_active b && _ && _) eqn:E2; [|done]. intros _. bools. by split_and!.
  - intros (-> & -> & -> & -> & -> & -> & ->). rewrite !String.eqb_refl. by rewrite bool_decide_eq_true_2.
Qed.

Lemma validate_binding_cases c scope b (s : R) :
  (validate_binding c b scope s = (s, Ret tt) ∧ in_force c scope b) ∨
  ∃ e, validate_binding c b scope s = (s, Raise e) ∧ ¬ in_force c scope b.
Proof.
  assert (readonly (S:=R) (validate_binding c b scope)) as Hr by (unfold validate_binding; auto with py).
  specialize (Hr s). destruct (validate_binding c b scope s) as [s' [[]|e]] eqn:E; simpl in Hr; subst s'.
  - left. split; [done|]. by apply (validate_binding_iff c scope b s).
  - right. exists e. split; [done|]. intros Hf%(validate_binding_iff c scope b s). congruence.
Qed.

(** The effective policy is resolved exactly from two policies in force. *)
Lemma get_effective_Ret c s s' e :
  get_effective c s = (s', Ret e) ↔
  ∃ o w p l, policies_read c s s' o w ∧ in_force c "organization" o ∧ in_force c "workspace" w ∧
    resolve_effective_payload (bv_payload o) (bv_payload w) = Ret (p, l) ∧ e = effective_of o w p l.
Proof.
  unfold get_effective. split.
  - unfold bind at 1. destruct (repo_current c "organization" s) as [s1 [o|]] eqn:Ho; [|done].
    unfold bind at 1. destruct (repo_current c "workspace" s1) as [s2 [w|]] eqn:Hw; [|done].
    unfold bind at 1. destruct (validate_binding_cases c "organization" o s2) as [[-> Hio]|(e' & -> & _)]; [|done].
    unfold bind. destruct (validate_binding_cases c "workspace" w s2) as [[-> Hiw]|(e' & -> & _)]; [|done].
    destruct (resolve_effective_payload _ _) as [[p l]|e'] eqn:Hres; [|done]. intros [= -> <-].
    exists o, w, p, l. split_and!; [by exists s1|done..].
  - intros (o & w & p & l & (s1 & Ho & Hw) & Hio & Hiw & Hres & ->).
    rewrite (bind_Ret _ _ _ _ _ Ho), (bind_Ret _ _ _ _ _ Hw).
    rewrite (bind_Ret _ _ s' s' tt) by by apply validate_binding_iff.
    rewrite (bind_Ret _ _ s' s' tt) by by apply validate_binding_iff. by rewrite Hres.
Qed.

(** Both policies let a question of this size leave for the host, for the class
    of data questions are, with masking and redaction. *)
Record may_leave (o w : EgressPolicyPayload) (kind destination : string) (bytes : Z) : Prop := {
  ml_mode : denies o = false ∧ denies w = false;
  ml_kind : kind ∈ pl_allowed_provider_kinds o ∧ kind ∈ pl_allowed_provider_kinds w;
  ml_destination : ∃ host, host ∈ pl_allowed_destinations o ∧ host ∈ pl_allowed_destinations w ∧
    casefold host = casefold destination;
  ml_bytes : 0 <= bytes <= pl_max_bytes o ∧ bytes <= pl_max_bytes w;
  ml_classification : rank_le classification_rank (pl_classification o) "internal" ∧
    rank_le classification_rank (pl_classification w) "internal" ∧
    (pl_classification o = "internal" ∨ pl_classification w = "internal");
  ml_masking : pl_masking_required o = true ∨ pl_masking_required w = true;
  ml_redaction : pl_redaction_required o = true ∨ pl_redaction_required w = true
}.

Lemma rank_internal x :
  rank_le classification_rank "internal" x → rank_le classification_rank x "internal" → x = "internal".
Proof.
  intros (a & b & Ha & Hb & Hab) (b' & a' & Hb' & Ha' & Hba). simplify_eq.
  unfold classification_rank in *. by repeat case_match; simplify_eq; bools; try done; lia.
Qed.

Lemma matches_permits p kind destination bytes :
  external_question_policy_matches p kind destination bytes "internal" true true = true ↔
  (∃ host, permits p kind host bytes ∧ casefold host = casefold destination) ∧ 0 <= bytes ∧
  pl_classification p = "internal" ∧ pl_masking_required p = true ∧ pl_redaction_required p = true.
Proof.
  unfold external_question_policy_matches, permits.
  rewrite !andb_true_iff, !bool_decide_eq_true, !String.eqb_eq, !Z.leb_le, !eqb_true_iff, list_elem_of_fmap. naive_solver.
Qed.

Lemma matches_iff o w p l kind destination bytes :
  payload_ok o = true → payload_ok w = true → resolve_effective_payload o w = Ret (p, l) →
  external_question_policy_matches p kind destination bytes "internal" true true = true ↔
  may_leave o w kind destination bytes.
Proof.
  intros Ho%payload_ok_iff Hw%payload_ok_iff Hres. rewrite matches_permits.
  destruct (denies o) eqn:Hdo; [|destruct (denies w) eqn:Hdw].
  1-2: unfold resolve_effective_payload in Hres; rewrite Hdo, ?Hdw in Hres; simpl in Hres; injection Hres as <- _;
    (split; [by intros ((? & (Hm & _) & _) & _)|intros [[]]; congruence]).
  destruct (resolve_allowed o w Ho Hw Hdo Hdw) as (p' & Hp & _ & Hperm & Hpo & Hpw & _ & Hc & Hm & Hr & _ & Hmode).
  rewrite Hres in Hp. injection Hp as <- _. rewrite Hm, Hr, !orb_true_iff. split.
  - intros ((host & [Hpermo Hpermw]%Hperm & Hcase) & Hn & Hint & Hmask & Hred).
    destruct Hpermo as (_ & ? & ? & ?), Hpermw as (_ & ? & ? & ?). constructor; try done.
    + by exists host.
    + rewrite <- Hint. split_and!; [apply (dm_classification _ _ Hpo)|apply (dm_classification _ _ Hpw)|].
      rewrite Hint. rewrite Hint in Hc. set_solver.
  - intros [_ [? ?] (host & ? & ? & ?) [? ?] (Hco & Hcw & Hone) ? ?]. split_and!; try done.
    + exists host. split; [|done]. apply Hperm. unfold permits.
      assert (∀ x, payload_valid x → denies x = false → pl_mode x = "allow_approved_external") as Hallow.
      { intros x Hx Hdx. destruct (pv_mode _ Hx) as [Hmx|]; [|done]. apply denies_iff in Hmx. congruence. }
      split_and!; auto; lia.
    + lia.
    + apply rank_internal.
      * destruct Hone as [<-|<-]; [apply (dm_classification _ _ Hpo)|apply (dm_classification _ _ Hpw)].
      * apply elem_of_cons in Hc as [Hc|Hc]; [by rewrite Hc|]. apply list_elem_of_singleton in Hc. by rewrite Hc.
Qed.

(** *** An approval stands for one policy and one payload *)

Lemma canon_obj_get l l' k v v' :
  canon (JObj l) = canon (JObj l') → NoDup (map fst l') → dict_get k l = Some v → dict_get k l' = Some v' →
  canon v = canon v'.
Proof.
  intros Hc Hn Hk Hk'. apply dict_get_elem in Hk. destruct (canon_obj_member _ _ _ _ Hc Hk) as (v0 & Hin & <-).
  apply (dict_elem_get _ _ _ Hn) in Hin. by simplify_eq.
Qed.

Definition frozen_members (o w : EgressPolicyBindingView) (p : EgressPolicyPayload) : list (string * json) :=
  [("organization_policy_version_id", JStr (bv_policy_version_id o));
   ("organization_binding_id", JStr (bv_binding_id o));
   ("workspace_policy_version_id", JStr (bv_policy_version_id w));
   ("workspace_binding_id", JStr (bv_binding_id w))] ++ as_dict p.

Lemma frozen_keys o w p : NoDup (map fst (frozen_members o w p)).
Proof.
  unfold frozen_members, as_dict. destruct (pl_question_step_up_required p); simpl;
    apply (bool_decide_unpack _); vm_compute; exact I.
Qed.

Lemma JStrs_inj l l' : canon (JStrs l) = canon (JStrs l') → l = l'.
Proof.
  unfold JStrs. simpl. rewrite !map_map. simpl. intros [= Hl]. revert l' Hl.
  induction l as [|x l IH]; intros [|y l'] Hl; simplify_eq/=; f_equal; auto.
Qed.

(** The fingerprint of an effective policy is of the versions and bindings of
    both policies and of everything the effective one says. *)
Lemma frozen_inj o w p o' w' p' :
  canon (frozen_policy o w p) = canon (frozen_policy o' w' p') →
  bv_policy_version_id o = bv_policy_version_id o' ∧ bv_binding_id o = bv_binding_id o' ∧
  bv_policy_version_id w = bv_policy_version_id w' ∧ bv_binding_id w = bv_binding_id w' ∧ p = p'.
Proof.
  unfold frozen_policy. fold (frozen_members o w p) (frozen_members o' w' p'). intros Hc.
  pose proof (λ k v v', canon_obj_get _ _ k v v' Hc (frozen_keys o' w' p')) as Hg.
  assert (pl_question_step_up_required p = pl_question_step_up_required p') as Hs.
  { destruct (pl_question_step_up_required p) eqn:E, (pl_question_step_up_required p') eqn:E'; try done; exfalso.
    - assert (("question_step_up_required", JBool false) ∈ frozen_members o' w' p') as Hin.
      { unfold frozen_members, as_dict. rewrite E'. simpl. rewrite !elem_of_cons. naive_solver. }
      destruct (canon_obj_member _ _ _ _ (eq_sym Hc) Hin) as (v & Hv & _).
      apply (list_elem_of_fmap_2 fst) in Hv. unfold frozen_members, as_dict in Hv. rewrite E in Hv. simpl in Hv.
      by not_in Hv.
    - assert (("question_step_up_required", JBool false) ∈ frozen_members o w p) as Hin.
      { unfold frozen_members, as_dict. rewrite E. simpl. rewrite !elem_of_cons. naive_solver. }
      destruct (canon_obj_member _ _ _ _ Hc Hin) as (v & Hv & _).
      apply (list_elem_of_fmap_2 fst) in Hv. unfold frozen_members, as_dict in Hv. rewrite E' in Hv. simpl in Hv.
      by not_in Hv. }
  pose proof (Hg "organization_policy_version_id" _ _ eq_refl eq_refl) as H1.
  pose proof (Hg "organization_binding_id" _ _ eq_refl eq_refl) as H2.
  pose proof (Hg "workspace_policy_version_id" _ _ eq_refl eq_refl) as H3.
  pose proof (Hg "workspace_binding_id" _ _ eq_refl eq_refl) as H4.
  pose proof (Hg "allowed_destinations" _ _ eq_refl eq_refl) as H5%JStrs_inj.
  pose proof (Hg "allowed_provider_kinds" _ _ eq_refl eq_refl) as H6%JStrs_inj.
  pose proof (Hg "classification" _ _ eq_refl eq_refl) as H7.
  pose proof (Hg "masking_required" _ _ eq_refl eq_refl) as H8.
  pose proof (Hg "max_bytes" _ _ eq_refl eq_refl) as H9.
  pose proof (Hg "mode" _ _ eq_refl eq_refl) as H10.
  pose proof (Hg "redaction_required" _ _ eq_refl eq_refl) as H11.
  pose proof (Hg "required_approver" _ _ eq_refl eq_refl) as H12.
  simpl in *. destruct p, p'. simpl in *. split_and!; congruence.
Qed.

Lemma prefixed_inj (a b : string) : "sha256:" +:+ a = "sha256:" +:+ b → a = b.
Proof. apply string_app_inv_l. Qed.

Lemma has_same a key x y : has a key x = true → has a key y = true → x = y.
Proof. unfold has. intros Hx%bool_decide_eq_true Hy%bool_decide_eq_true. congruence. Qed.

Lemma approval_exact_parts a sel payload e :
  approval_exact (Some a) sel payload e = true →
  has a "policy_fingerprint" (ef_fingerprint e) = true ∧
  has a "provider_payload_fingerprint" (payload_fingerprint payload) = true.
Proof.
  unfold approval_exact, approval_matches. intros [[_ Hm]%andb_true_iff _]%andb_true_iff.
  apply andb_true_iff in Hm as [[[[? ?]%andb_true_iff _]%andb_true_iff _]%andb_true_iff _]. done.
Qed.

(** An approval that fits fits no other pair of policies and no other payload. *)
Lemma approval_bound a sel payload o w p l o1 w1 p1 l1 payload1 :
  approval_exact (Some a) sel payload (effective_of o w p l) = true →
  has a "policy_fingerprint" (ef_fingerprint (effective_of o1 w1 p1 l1)) = true →
  has a "provider_payload_fingerprint" (payload_fingerprint payload1) = true →
  (bv_policy_version_id o1 = bv_policy_version_id o ∧ bv_binding_id o1 = bv_binding_id o ∧
   bv_policy_version_id w1 = bv_policy_version_id w ∧ bv_binding_id w1 = bv_binding_id w ∧
   p1 = p ∧ payload1 = payload) ∨
  collision (json_bytes false (frozen_policy o1 w1 p1)) (json_bytes false (frozen_policy o w p)) ∨
  collision payload1 payload.
Proof.
  intros [Hp Hb]%approval_exact_parts Hp1 Hb1.
  pose proof (has_same _ _ _ _ Hp1 Hp) as Hf%prefixed_inj. pose proof (has_same _ _ _ _ Hb1 Hb) as Hg%prefixed_inj.
  destruct (decide (payload1 = payload)) as [->|]; [|by right; right].
  destruct (decide (json_bytes false (frozen_policy o1 w1 p1) = json_bytes false (frozen_policy o w p)))
    as [E%json_bytes_inj|]; [|by right; left].
  left. apply frozen_inj in E as (? & ? & ? & ? & ?). by split_and!.
Qed.

(** Only where neither policy demands a second factor does the effective one not. *)
Lemma step_up_either o w p l :
  payload_ok o = true → payload_ok w = true → resolve_effective_payload o w = Ret (p, l) →
  pl_question_step_up_required p = false →
  pl_question_step_up_required o = false ∧ pl_question_step_up_required w = false.
Proof.
  intros Ho%payload_ok_iff Hw%payload_ok_iff Hres Hp.
  destruct (denies o) eqn:Hdo; [|destruct (denies w) eqn:Hdw].
  1-2: unfold resolve_effective_payload in Hres; rewrite Hdo, ?Hdw in Hres; simpl in Hres; by simplify_eq.
  destruct (resolve_allowed o w Ho Hw Hdo Hdw) as (p' & Hp' & _ & _ & _ & _ & _ & _ & _ & _ & Hs & _).
  rewrite Hres in Hp'. injection Hp' as <- _. rewrite Hs in Hp. by apply orb_false_iff.
Qed.

(** Routing one ready model never changes the decision. *)
Lemma routed c version bytes id digest kind allowed :
  (kind = "external_api" → allowed = true) →
  let r := route_single_model (mkRouting (qc_actor_id c) (qc_tenant_id c) (qc_workspace_id c) "pinned" "text"
    "cloud_sync" allowed version f_zero f_zero bytes) [mkCandidate id digest "text" "cloud_sync" "ready" kind] in
  rt_status r = "selected" ∧ rt_deployment_id r = Some id.
Proof.
  intros Hk. unfold route_single_model. simpl. destruct (String.eqb kind "external_api") eqn:E; [|done].
  bools. by rewrite (Hk E).
Qed.

Definition leaves (sel : TextModelSelection) (no_external_payload : bool) : bool :=
  String.eqb (ts_provider_kind sel) "external_api" && negb no_external_payload.

(** The decision, once the policies are read and the host is known *)
Lemma decide_question_run c run_id sel payload nep approved s s' o w p l host :
  make_context (policy_context c) = Ret (policy_context c) →
  policies_read (policy_context c) s s' o w →
  in_force (policy_context c) "organization" o → in_force (policy_context c) "workspace" w →
  resolve_effective_payload (bv_payload o) (bv_payload w) = Ret (p, l) →
  url_hostname (ts_base_url sel) = Some host →
  let e := effective_of o w p l in
  let ok := external_question_policy_matches p (ts_provider_kind sel) (casefold (default "" host))
    (Z.of_nat (length payload)) "internal" true true && approval_exact approved sel payload e in
  if leaves sel nep && negb ok
  then result (decide_question c run_id sel payload nep approved) s = Raise QUESTION_DENIED
  else ∃ d, result (decide_question c run_id sel payload nep approved) s = Ret d ∧ qd_allowed d = true ∧
    qd_effective d = e ∧ rt_deployment_id (qd_routing d) = Some (ts_deployment_id sel).
Proof.
  intros Hc Hread Ho Hw Hres Hhost e ok. unfold decide_question. rewrite Hc.
  rewrite (bind_Ret _ _ s s (policy_context c)) by done.
  rewrite (bind_Ret _ _ s s' e) by (apply get_effective_Ret; by exists o, w, p, l).
  rewrite Hhost, (bind_Ret _ _ s' s' host) by done. cbv zeta. fold (leaves sel nep).
  change (ef_payload e) with p. rewrite <- negb_andb. fold ok. destruct (leaves sel nep && negb ok) eqn:Hden.
  - unfold bind, when, ignoring, raise. done.
  - unfold when. rewrite (bind_Ret _ _ s' s' tt) by done. eexists. split; [done|].
    cbn [qd_allowed qd_effective qd_routing].
    assert (negb (leaves sel nep) || external_question_policy_matches p (ts_provider_kind sel)
      (casefold (default "" host)) (Z.of_nat (length payload)) "internal" true true = true) as ->.
    { destruct (leaves sel nep); [|done]. apply negb_false_iff, andb_true_iff in Hden as [Hden _]. exact Hden. }
    destruct (routed c (ef_fingerprint e) (Z.of_nat (length payload)) (ts_deployment_id sel)
      (opaque_id "artifact-digest" [ts_provider_code sel; ts_model_id sel]) (ts_provider_kind sel) true) as [Hst Hid];
      [done|]. by rewrite Hst, Hid.
Qed.

(** C6: with two policies in force, a question leaves for an external provider
    exactly when both policies let a payload of its size leave for the host of
    the selected model, for internal data, masked and redacted, and the request
    carries an approval for this model, this payload and this policy; an
    approval by policy counts only if neither policy demands a second factor.
    What stays inside is not refused.  A decision that is returned is for the
    resolved policy and the selected model, and an approval that fits fits no
    other versions of the policies and no other payload, unless two digests
    collide. *)
Theorem question_leaves_iff c run_id sel payload nep approved s s' o w host :
  make_context (policy_context c) = Ret (policy_context c) →
  policies_read (policy_context c) s s' o w →
  in_force (policy_context c) "organization" o → in_force (policy_context c) "workspace" w →
  payload_ok (bv_payload o) = true → payload_ok (bv_payload w) = true →
  url_hostname (ts_base_url sel) = Some host →
  let call := decide_question c run_id sel payload nep approved in
  ∃ p, resolve_effective_payload (bv_payload o) (bv_payload w) = Ret (p, denies (bv_payload o)) ∧
  let effective := effective_of o w p (denies (bv_payload o)) in
  let approval := approval_exact approved sel payload effective in
  (leaves sel nep = true →
    ((∃ d, result call s = Ret d) ↔
      may_leave (bv_payload o) (bv_payload w) "external_api" (casefold (default "" host))
        (Z.of_nat (length payload)) ∧ approval = true) ∧
    ((∃ d, result call s = Ret d) ∨ result call s = Raise QUESTION_DENIED)) ∧
  (leaves sel nep = false → ∃ d, result call s = Ret d) ∧
  (∀ d, result call s = Ret d → qd_allowed d = true ∧ qd_effective d = effective ∧
    rt_deployment_id (qd_routing d) = Some (ts_deployment_id sel)) ∧
  (approval = true → policy_approved approved = true →
    pl_question_step_up_required (bv_payload o) = false ∧ pl_question_step_up_required (bv_payload w) = false) ∧
  (approval = true → ∀ a o1 w1 p1 l1 payload1, approved = Some a →
    has a "policy_fingerprint" (ef_fingerprint (effective_of o1 w1 p1 l1)) = true →
    has a "provider_payload_fingerprint" (payload_fingerprint payload1) = true →
    (bv_policy_version_id o1 = bv_policy_version_id o ∧ bv_binding_id o1 = bv_binding_id o ∧
     bv_policy_version_id w1 = bv_policy_version_id w ∧ bv_binding_id w1 = bv_binding_id w ∧
     p1 = p ∧ payload1 = payload) ∨
    collision (json_bytes false (frozen_policy o1 w1 p1)) (json_bytes false (frozen_policy o w p)) ∨
    collision payload1 payload).
Proof.
  intros Hc Hread Ho Hw Hpo Hpw Hhost call. destruct (resolve_total _ _ Hpo Hpw) as (p & Hres).
  exists p. split; [done|]. intros effective approval.
  pose proof (decide_question_run c run_id sel payload nep approved s s' o w p _ host Hc Hread Ho Hw Hres Hhost) as Hrun.
  cbv zeta in Hrun. fold effective approval call in Hrun.
  pose proof (matches_iff _ _ p _ (ts_provider_kind sel) (casefold (default "" host)) (Z.of_nat (length payload))
    Hpo Hpw Hres) as Hm.
  split_and!.
  - intros Hl. rewrite Hl in Hrun. apply andb_true_iff in Hl as [Hk%String.eqb_eq _]. rewrite Hk in Hm, Hrun.
    rewrite <- Hm. destruct (external_question_policy_matches p _ _ _ _ _ _), approval; simpl in Hrun.
    1: destruct Hrun as (d & Hd & _); split; [by split; [|eauto]|left; by exists d].
    all: split; [|by right]; rewrite Hrun; split; [by intros [? ?]|by intros []].
  - intros Hl. rewrite Hl in Hrun. simpl in Hrun. destruct Hrun as (d & ? & _). by exists d.
  - intros d Hd. destruct (leaves sel nep && _); [congruence|]. destruct Hrun as (d' & Hd' & ?). congruence.
  - intros Ha Hpa. apply andb_true_iff in Ha as [_ Ha]. rewrite Hpa in Ha. simpl in Ha.
    apply (step_up_either _ _ p _ Hpo Hpw Hres). by apply negb_true_iff.
  - intros Ha a o1 w1 p1 l1 payload1 ->. by eapply approval_bound.
Qed.

(** Nothing is decided without two policies in force. *)
Theorem question_needs_policies c run_id sel payload nep approved s d :
  result (decide_question c run_id sel payload nep approved) s = Ret d →
  ∃ s' o w p l, policies_read (policy_context c) s s' o w ∧
    in_force (policy_context c) "organization" o ∧ in_force (policy_context c) "workspace" w ∧
    resolve_effective_payload (bv_payload o) (bv_payload w) = Ret (p, l).
Proof.
  unfold decide_question. destruct (make_context (policy_context c)) as [c'|e] eqn:Hc; [|done].
  assert (c' = policy_context c) as ->.
  { unfold make_context in Hc. repeat case_match; congruence. }
  rewrite (bind_Ret _ _ s s (policy_context c)) by done. unfold bind at 1.
  destruct (get_effective (policy_context c) s) as [s' [e|e]] eqn:He; [|done]. intros _.
  apply get_effective_Ret in He as (o & w & p & l & ? & ? & ? & ? & _). by exists s', o, w, p, l.
Qed.

(** An original document never leaves: the guard lets exactly the selections of
    internal models pass, whatever the policies allow. *)
Theorem original_documents_stay policy_service c kinds s :
  result (authorize_original policy_service c kinds) s = Ret tt ↔ Forall (λ k, k ∈ INTERNAL_KINDS) kinds.
Proof.
  unfold authorize_original. rewrite Forall_forall. split.
  - destruct (forallb _ kinds) eqn:Hall; [|done]. rewrite forallb_elem in Hall.
    rewrite (bind_Ret _ _ s s tt) by done. destruct (existsb (String.eqb "external_api") kinds) eqn:Hex; simpl.
    + unfold bind, guard, raise, ret. destruct policy_service; [|done].
      destruct (effective_for_document c s) as [s' [e|e]]; [|done]. by destruct (String.eqb _ _).
    + intros _ k Hk. specialize (Hall k Hk). apply bool_decide_eq_true_1, elem_of_app in Hall as [?|Hin]; [done|].
      apply list_elem_of_singleton in Hin as ->.
      assert (existsb (String.eqb "external_api") kinds = true); [|congruence].
      apply existsb_exists. exists "external_api". split; [by apply list_elem_of_In|by apply String.eqb_refl].
  - intros Hall. rewrite (bind_Ret _ _ s s tt).
    + destruct (existsb (String.eqb "external_api") kinds) eqn:Hex; simpl; [|done].
      apply existsb_exists in Hex as (k & Hin%list_elem_of_In & Hk%String.eqb_eq). subst k.
      by not_in (Hall _ Hin).
    + apply guard_Ret, forallb_elem. intros k Hk. apply bool_decide_eq_true_2, elem_of_app. left. by apply Hall.
Qed.
End Facts.

(** ** A sample *)

Section Sample.
#[local] Existing Instance checksum_digest.

#[local] Instance llm_host : HostParser :=
  {| ip_address _ := None; url_hostname _ := Some (Some "LLM.example.com") |}.

#[local] Instance silent_observer : DenialObserver Reference := {| observe_denial _ _ := ret tt |}.

Definition asker : QuestionContext := mkQuestionContext "tenant-1" "alpha" "boss" "trace-1" "policy-1".

Definition model : TextModelSelection :=
  mkSelection "OPENAI" "https://llm.example.com/v1" "profile-1" "deployment-1" "model-1" 1 "external_api" None 0 0
    "provider" true.

Definition question_bytes : list N := encode "{}".

Definition organization_binding : EgressPolicyBindingView :=
  binding_at org_context "organization" 1 organization_policy.
Definition workspace_binding : EgressPolicyBindingView := binding_at org_context "workspace" 2 workspace_policy.

Definition sample_effective : EffectiveEgressPolicy :=
  effective_of organization_binding workspace_binding
    (sample_allow ["llm.example.com"] "organization_admin" 4096) false.

Definition sample_approval : list (string * string) :=
  [("authorization_mode", "policy_approved"); ("policy_fingerprint", ef_fingerprint sample_effective);
   ("provider_payload_fingerprint", payload_fingerprint question_bytes);
   ("provider_kind", "external_api"); ("deployment_id", "deployment-1")].

Lemma question_leaves_iff_witness :
  leaves model false = true ∧
  ∃ d, result (decide_question asker "run-1" model question_bytes false (Some sample_approval)) opened = Ret d.
Proof.
  split; [reflexivity|].
  assert (make_context (policy_context asker) = Ret (policy_context asker)) as Hc by (vm_compute; reflexivity).
  assert (policies_read (policy_context asker) opened opened organization_binding workspace_binding) as Hread.
  { exists opened. split; vm_compute; reflexivity. }
  assert (in_force (policy_context asker) "organization" organization_binding) as Ho
    by (vm_compute; split_and!; reflexivity).
  assert (in_force (policy_context asker) "workspace" workspace_binding) as Hw
    by (vm_compute; split_and!; reflexivity).
  assert (payload_ok (bv_payload organization_binding) = true) as Hpo by (vm_compute; reflexivity).
  assert (payload_ok (bv_payload workspace_binding) = true) as Hpw by (vm_compute; reflexivity).
  assert (url_hostname (ts_base_url model) = Some (Some "LLM.example.com")) as Hh by reflexivity.
  destruct (question_leaves_iff asker "run-1" model question_bytes false (Some sample_approval) opened opened
    organization_binding workspace_binding (Some "LLM.example.com") Hc Hread Ho Hw Hpo Hpw Hh)
    as (p & Hp & Hiff & _).
  assert (p = sample_allow ["llm.example.com"] "organization_admin" 4096) as ->.
  { assert (resolve_effective_payload (bv_payload organization_binding) (bv_payload workspace_binding) =
      Ret (sample_allow ["llm.example.com"] "organization_admin" 4096, false)) as Hr by (vm_compute; reflexivity).
    rewrite Hp in Hr. exact (f_equal (λ r, match r with Ret x => x.1 | Raise _ => p end) Hr). }
  apply (proj1 (Hiff eq_refl)). split.
  - constructor; simpl.
    + split; reflexivity.
    + split; is_in.
    + exists "llm.example.com". split_and!; [is_in|is_in|vm_compute; reflexivity].
    + vm_compute. split_and!; discriminate.
    + split_and!; [by exists 1, 1|by exists 1, 1|by left].
    + by left.
    + by left.
  - vm_compute. reflexivity.
Defined.

(** Without an approval the same question is refused. *)
Example unapproved_question :
  result (decide_question asker "run-1" model question_bytes false None) opened = Raise QUESTION_DENIED.
Proof. vm_compute. reflexivity. Qed.
End Sample.
