(* ===== verification/Organization.v ===== *)
(** Organizations: requests, invitations and memberships
    (organization_membership.py, organization_access.py).

    The tables are those of [SqliteOrganizationRepository] together with the
    tables of the same database that [OrganizationAccessBridge] reads and writes:
    the tables of [Authorization] and, of the identity service, users, tenants
    and memberships.  Columns of times are microseconds, which the text they are
    stored as orders alike; columns of JSON text are the values they encode.  A
    transaction that raises leaves the database as it was; what was handed to
    the audit sink or the audit store stays.

    A management operation is a constructor of [Operation] with the payload that
    the program's handlers build for it, and its result is the dictionary that
    [_management_view] makes.  Arguments have the types their annotations give
    them, so that times are aware; schema statements, SQLite's own failures and
    notifications of the PostgreSQL adapter are left out. *)

From S2P Require Import Prelude Sha256 PyStr Json HashChain Bytes AuditLog License Authorization.
#[local] Open Scope Z_scope.

Definition OrganizationWorkflowError (code : string) (status : Z) : exn := Raised code status false.

(** ** Data *)

Inductive RequestState := PENDING | APPROVED | REJECTED.
Inductive MembershipState := MEMBER_ACTIVE | MEMBER_SUSPENDED.
Inductive InvitationState := INVITATION_ACTIVE | INVITATION_REVOKED | INVITATION_EXPIRED.

#[export] Instance request_state_eq_dec : EqDecision RequestState.
Proof. solve_decision. Defined.
#[export] Instance membership_state_eq_dec : EqDecision MembershipState.
Proof. solve_decision. Defined.
#[export] Instance invitation_state_eq_dec : EqDecision InvitationState.
Proof. solve_decision. Defined.

(** [.value] of the enumerations *)
Definition request_value (s : RequestState) : string :=
  match s with PENDING => "pending" | APPROVED => "approved" | REJECTED => "rejected" end.
Definition member_value (s : MembershipState) : string :=
  match s with MEMBER_ACTIVE => "active" | MEMBER_SUSPENDED => "suspended" end.
Definition invitation_value (s : InvitationState) : string :=
  match s with
  | INVITATION_ACTIVE => "active"
  | INVITATION_REVOKED => "revoked"
  | INVITATION_EXPIRED => "expired"
  end.

Record OrganizationCreationRequest := mkCreation {
  cr_request_id : string;
  cr_applicant_user_id : string;
  cr_requested_org_name : string;
  cr_requested_org_identifier : string;
  cr_state : RequestState;
  cr_decision_reason : option string;
  cr_decided_by : option string;
  cr_version : Z;
  cr_created_at : Z;
  cr_updated_at : Z
}.

Record OrganizationJoinRequest := mkJoin {
  jr_request_id : string;
  jr_tenant_id : string;
  jr_user_id : string;
  jr_invitation_id : option string;
  jr_state : RequestState;
  jr_decision_reason : option string;
  jr_decided_by : option string;
  jr_version : Z;
  jr_created_at : Z;
  jr_updated_at : Z
}.

Record InvitationCode := mkInvitation {
  iv_invitation_id : string;
  iv_tenant_id : string;
  iv_created_by : string;
  iv_code_digest : string;
  iv_expires_at : Z;
  iv_max_uses : Z;
  iv_used_count : Z;
  iv_state : InvitationState;
  iv_version : Z;
  iv_created_at : Z;
  iv_updated_at : Z;
  iv_workspace_id : option string
}.

(** [TenantMembership] without the access that some views add to it *)
Record TenantMembership := mkMember {
  tm_tenant_id : string;
  tm_user_id : string;
  tm_role : string;
  tm_state : MembershipState;
  tm_version : Z;
  tm_updated_at : Z;
  tm_join_workspace_id : option string
}.

(** [tenant_membership_role_history], by history_id *)
Record HistoryRow := mkHistory {
  hi_tenant_id : string;
  hi_user_id : string;
  hi_actor_id : string;
  hi_previous_role : option string;
  hi_next_role : option string;
  hi_previous_state : option string;
  hi_next_state : option string;
  hi_reason : option string;
  hi_created_at : Z
}.

Record OrganizationAuditRecord := mkAuditRecord {
  ar_action : string;
  ar_actor_id : string;
  ar_tenant_id : string;
  ar_target_id : string;
  ar_before : option string;
  ar_after : option string;
  ar_reason : option string;
  ar_occurred_at : Z
}.

(** A dictionary that is built from a row, or read from JSON: a [datetime]
    among its values is an instant. *)
Inductive cell :=
| CTime (t : Z)
| CJson (v : json).

Abbreviation Item := (gmap string cell).
Abbreviation View := (gmap string json).

(** What [audit_json] holds *)
Record AuditIntent := mkIntent {
  in_action : string;
  in_workspace_id : option string;
  in_before : option string;
  in_after : json;
  in_reason : option string;
  in_version : json;
  in_auth_version : json
}.

(** The keys of the operations' tables: actor, operation, idempotency key *)
Abbreviation OpKey := (string * string * string)%type.

(** [organization_idempotency] *)
Record IdempotencyRow := mkIdempotency {
  id_fingerprint : string;
  id_result : json;
  id_created_at : Z
}.

(** [organization_operation_outbox] *)
Record OutboxRow := mkOutbox {
  ob_tenant_id : string;
  ob_target_id : string;
  ob_request_fingerprint : string;
  ob_response : View;
  ob_event_id : string;
  ob_audit : AuditIntent;
  ob_trace_id : string;
  ob_policy_version : string;
  ob_created_at : Z;
  ob_delivered_at : option Z
}.

(** [users] of the identity service, by user_id, as far as it is read here *)
Record UserRow := mkUser {
  us_state : string;
  us_password_change_required : bool;
  us_issuer : string;
  us_email_verified_at : option Z
}.

Record OrgDb := mkOrgDb {
  creations : gmap string OrganizationCreationRequest;
  invitations : gmap string InvitationCode;
  joins : gmap string OrganizationJoinRequest;
  members : gmap (string * string) TenantMembership;
  role_history : gmap string HistoryRow;
  idempotency : gmap OpKey IdempotencyRow;
  outbox : gmap OpKey OutboxRow;
  (** the tables of [Authorization]; its view of [members] is [authorization_db] *)
  auth : Db;
  users : gmap string UserRow;
  tenants : gset string;
  (** [memberships] of the identity service: the role, by (tenant_id, user_id) *)
  identity_members : gmap (string * string) string
}.

Definition set_creations v (d : OrgDb) : OrgDb :=
  mkOrgDb v (invitations d) (joins d) (members d) (role_history d) (idempotency d) (outbox d) (auth d) (users d) (tenants d) (identity_members d).
Definition set_invitations v (d : OrgDb) : OrgDb :=
  mkOrgDb (creations d) v (joins d) (members d) (role_history d) (idempotency d) (outbox d) (auth d) (users d) (tenants d) (identity_members d).
Definition set_joins v (d : OrgDb) : OrgDb :=
  mkOrgDb (creations d) (invitations d) v (members d) (role_history d) (idempotency d) (outbox d) (auth d) (users d) (tenants d) (identity_members d).
Definition set_members v (d : OrgDb) : OrgDb :=
  mkOrgDb (creations d) (invitations d) (joins d) v (role_history d) (idempotency d) (outbox d) (auth d) (users d) (tenants d) (identity_members d).
Definition set_role_history v (d : OrgDb) : OrgDb :=
  mkOrgDb (creations d) (invitations d) (joins d) (members d) v (idempotency d) (outbox d) (auth d) (users d) (tenants d) (identity_members d).
Definition set_idempotency v (d : OrgDb) : OrgDb :=
  mkOrgDb (creations d) (invitations d) (joins d) (members d) (role_history d) v (outbox d) (auth d) (users d) (tenants d) (identity_members d).
Definition set_outbox v (d : OrgDb) : OrgDb :=
  mkOrgDb (creations d) (invitations d) (joins d) (members d) (role_history d) (idempotency d) v (auth d) (users d) (tenants d) (identity_members d).
Definition set_auth v (d : OrgDb) : OrgDb :=
  mkOrgDb (creations d) (invitations d) (joins d) (members d) (role_history d) (idempotency d) (outbox d) v (users d) (tenants d) (identity_members d).
Definition set_identity_members v (d : OrgDb) : OrgDb :=
  mkOrgDb (creations d) (invitations d) (joins d) (members d) (role_history d) (idempotency d) (outbox d) (auth d) (users d) (tenants d) v.

(** The tables as the authorization service reads them *)
Definition authorization_db (d : OrgDb) : Db :=
  set_tenant_memberships (Some ((λ m, member_value (tm_state m)) <$> members d)) (auth d).

Record OrgState (A : Type) := mkOrg {
  or_db : OrgDb;
  (** what [audit_sink] was given, if there is one *)
  or_sink : option (list OrganizationAuditRecord);
  or_audit : option A;
  or_draws : Draws
}.
Arguments mkOrg {A}.
Arguments or_db {A}.
Arguments or_sink {A}.
Arguments or_audit {A}.
Arguments or_draws {A}.

Definition set_or_db {A} (v : OrgDb) (s : OrgState A) : OrgState A :=
  mkOrg v (or_sink s) (or_audit s) (or_draws s).
Definition set_or_sink {A} v (s : OrgState A) : OrgState A :=
  mkOrg (or_db s) v (or_audit s) (or_draws s).
Definition set_or_audit {A} (v : option A) (s : OrgState A) : OrgState A :=
  mkOrg (or_db s) (or_sink s) v (or_draws s).

#[export] Instance org_drawing {A} : Drawing (OrgState A) := {|
  draws_of := or_draws;
  with_draws v s := mkOrg (or_db s) (or_sink s) (or_audit s) v
|}.

(** ** Operations *)

(** The management operations with the payloads the handlers build. *)
Inductive Operation :=
| InvitationCreate (code : string) (expires_at max_uses : Z) (workspace_id : option string)
| InvitationRevoke (expected_version : Z)
| JoinCreate (invitation_code : option string)
| JoinDecide (approved : bool) (expected_version : Z) (reason : option string) (role : string)
| MemberRole (role workspace_id : string) (expected_version expected_auth_version : Z)
    (reason : option string)
| MemberState (active : bool) (expected_version : Z) (reason : option string).

Definition operation_name (op : Operation) : string :=
  match op with
  | InvitationCreate _ _ _ _ => "organization.invitation.create"
  | InvitationRevoke _ => "organization.invitation.revoke"
  | JoinCreate _ => "organization.join.create"
  | JoinDecide _ _ _ _ => "organization.join.decide"
  | MemberRole _ _ _ _ _ => "organization.member.role"
  | MemberState _ _ _ => "organization.member.state"
  end.

(** [_MANAGEMENT_ACTIONS] *)
Definition management_action (op : Operation) : string :=
  match op with
  | JoinCreate _ => "organization.join_request.created"
  | JoinDecide _ _ _ _ => "organization.join_request.decided"
  | MemberRole _ _ _ _ _ => "organization.membership.role_changed"
  | MemberState _ _ _ => "organization.membership.state_changed"
  | InvitationCreate _ _ _ _ => "organization.invitation.created"
  | InvitationRevoke _ => "organization.invitation.revoked"
  end.

(** [payload.get("workspace_id")] and [payload.get("reason")] *)
Definition payload_workspace (op : Operation) : option string :=
  match op with
  | InvitationCreate _ _ _ w => w
  | MemberRole _ w _ _ _ => Some w
  | _ => None
  end.
Definition payload_reason (op : Operation) : option string :=
  match op with
  | JoinDecide _ _ r _ | MemberRole _ _ _ _ r | MemberState _ _ r => r
  | _ => None
  end.

(** The row an operation starts from *)
Inductive Original :=
| NoRow
| InvitationRow (iv : InvitationCode)
| JoinRow (jr : OrganizationJoinRequest)
| MemberRow (tm : TenantMembership).

Definition original_state (o : Original) : option string :=
  match o with
  | NoRow => None
  | InvitationRow iv => Some (invitation_value (iv_state iv))
  | JoinRow jr => Some (request_value (jr_state jr))
  | MemberRow tm => Some (member_value (tm_state tm))
  end.

(** [before], of a role the role *)
Definition original_before (op : Operation) (o : Original) : option string :=
  match op, o with
  | MemberRole _ _ _ _ _, MemberRow tm => Some (tm_role tm)
  | _, _ => original_state o
  end.

(** ** Dictionaries *)

(** [_iso] *)
Definition iso_micros (t : Z) : string :=
  iso_seconds t +:+ "." +:+ zpad 6 (t mod seconds) +:+ "+00:00".

Definition cell_opt (o : option string) : cell := CJson (JOpt o).

(** [asdict] of the rows *)
Definition invitation_dict (iv : InvitationCode) : Item := list_to_map
  [("invitation_id", CJson (JStr (iv_invitation_id iv))); ("tenant_id", CJson (JStr (iv_tenant_id iv)));
   ("created_by", CJson (JStr (iv_created_by iv))); ("code_digest", CJson (JStr (iv_code_digest iv)));
   ("expires_at", CTime (iv_expires_at iv)); ("max_uses", CJson (JInt (iv_max_uses iv)));
   ("used_count", CJson (JInt (iv_used_count iv)));
   ("state", CJson (JStr (invitation_value (iv_state iv)))); ("version", CJson (JInt (iv_version iv)));
   ("created_at", CTime (iv_created_at iv)); ("updated_at", CTime (iv_updated_at iv));
   ("workspace_id", cell_opt (iv_workspace_id iv))].

Definition join_dict (jr : OrganizationJoinRequest) : Item := list_to_map
  [("request_id", CJson (JStr (jr_request_id jr))); ("tenant_id", CJson (JStr (jr_tenant_id jr)));
   ("user_id", CJson (JStr (jr_user_id jr))); ("invitation_id", cell_opt (jr_invitation_id jr));
   ("state", CJson (JStr (request_value (jr_state jr))));
   ("decision_reason", cell_opt (jr_decision_reason jr)); ("decided_by", cell_opt (jr_decided_by jr));
   ("version", CJson (JInt (jr_version jr))); ("created_at", CTime (jr_created_at jr));
   ("updated_at", CTime (jr_updated_at jr))].

(** The three columns of an access, all [None] where there is no row *)
Definition access_dict (access : option RoleRow) : Item := list_to_map
  [("access_role", cell_opt (role_value ∘ rr_role <$> access)); ("access_state", cell_opt (rr_state <$> access));
   ("access_version", CJson (match access with Some r => JInt (rr_version r) | None => JNull end))].

Definition member_dict (tm : TenantMembership) : Item := list_to_map
  [("tenant_id", CJson (JStr (tm_tenant_id tm))); ("user_id", CJson (JStr (tm_user_id tm)));
   ("role", CJson (JStr (tm_role tm))); ("state", CJson (JStr (member_value (tm_state tm))));
   ("version", CJson (JInt (tm_version tm))); ("updated_at", CTime (tm_updated_at tm));
   ("join_workspace_id", cell_opt (tm_join_workspace_id tm))] ∪ access_dict None.

(** [asdict(member) | access] *)
Definition with_access (item : Item) (access : option RoleRow) : Item := access_dict access ∪ item.

Definition invitation_fields : gset string := list_to_set
  ["invitation_id"; "tenant_id"; "workspace_id"; "created_by"; "expires_at"; "max_uses"; "used_count";
   "state"; "version"; "created_at"; "updated_at"].
Definition join_fields : gset string := list_to_set
  ["request_id"; "tenant_id"; "user_id"; "invitation_id"; "state"; "decision_reason"; "decided_by";
   "version"; "created_at"; "updated_at"].
Definition member_fields : gset string := list_to_set
  ["tenant_id"; "user_id"; "role"; "state"; "version"; "updated_at"; "join_workspace_id"; "access_role";
   "access_state"; "access_version"].

Definition NULLABLE : list string :=
  ["workspace_id"; "join_workspace_id"; "access_role"; "access_state"; "decision_reason"; "decided_by";
   "invitation_id"].
Definition NUMBERS : list string := ["version"; "access_version"; "max_uses"; "used_count"].

(** [[A-Za-z0-9][A-Za-z0-9._:-]{0,159}] *)
Definition id_160 (s : string) : bool := match_id is_alnum id_char 160 s.

Definition UNAVAILABLE : exn := OrganizationWorkflowError "PERSISTENCE_UNAVAILABLE" 503.
Definition INVALID_TIME : exn := OrganizationWorkflowError "INVALID_TIME" 400.

Section Views.
Context {R : IsoReader}.

(** [_parse] of a value of a dictionary *)
Definition parse_time (c : cell) : outcome Z :=
  match c with
  | CTime t => Ret t
  | CJson (JStr s) =>
      match fromisoformat s with
      | Some (t, Some _) => Ret t
      | _ => Raise INVALID_TIME
      end
  | CJson _ => Raise INVALID_TIME
  end.

(** The body of the loop of [_management_view]: what it puts for the value, or
    raises.  An instant is the text [isoformat] gives. *)
Definition view_cell (key : string) (c : cell) : outcome json :=
  let value := match c with CTime t => JStr (iso_micros t) | CJson v => v end in
  if endswith "_at" key then
    match parse_time c with Ret t => Ret (JStr (iso_micros t)) | Raise e => Raise e end
  else if bool_decide (key ∈ NUMBERS) then
    match value with
    | JNull => if String.eqb key "access_version" then Ret JNull else Raise UNAVAILABLE
    | JInt z =>
        if ((if String.eqb key "used_count" then 0 else 1) <=? z) && (z <=? 9007199254740991)
        then Ret value else Raise UNAVAILABLE
    | _ => Raise UNAVAILABLE
    end
  else
    match value with
    | JNull => if bool_decide (key ∈ NULLABLE) then Ret JNull else Raise UNAVAILABLE
    | JStr s =>
        if String.eqb key "decision_reason" then
          (if Nat.leb (String.length s) 1000 then Ret value else Raise UNAVAILABLE)
        else if id_160 s then Ret value else Raise UNAVAILABLE
    | _ => Raise UNAVAILABLE
    end.

Definition returned {B} (o : outcome B) : option B :=
  match o with Ret b => Some b | Raise _ => None end.

(** The dictionary with its missing keys filled in, and the keys it must have *)
Definition default_cell (key : string) (m : Item) : Item :=
  match m !! key with Some _ => m | None => <[key := CJson JNull]> m end.

Definition view_shape (op : Operation) (data : Item) : Item * gset string :=
  match op with
  | InvitationCreate _ _ _ _ | InvitationRevoke _ =>
      (default_cell "workspace_id" (delete "code_digest" data), invitation_fields)
  | JoinCreate _ | JoinDecide _ _ _ _ => (data, join_fields)
  | MemberRole _ _ _ _ _ | MemberState _ _ _ =>
      (foldr default_cell data ["join_workspace_id"; "access_role"; "access_state"; "access_version"],
       member_fields)
  end.

(** [_management_view]; where several values are refused, the first of them in
    the order of the keys, in which stored dictionaries come, decides. *)
Definition management_view {T} (op : Operation) (data : Item) : M T View :=
  let '(data, allowed) := view_shape op data in
  guard (bool_decide (dom data = allowed)) UNAVAILABLE ;;
  mfor (sort_stable (λ a b, string_leb a.1 b.1) (map_to_list data))
    (λ kc, from_outcome (view_cell kc.1 kc.2) ;; ret tt) ;;
  ret (map_imap (λ k c, returned (view_cell k c)) data).

(** A stored dictionary, and what [json.loads] makes of any text; [asdict]
    refuses what is not a dictionary. *)
Definition stored (v : View) : Item := CJson <$> v.
Definition loaded {T} (v : json) : M T Item :=
  match v with
  | JObj l => ret (list_to_map (map (λ kv, (kv.1, CJson kv.2)) l))
  | _ => raise UNAVAILABLE
  end.
End Views.

(** The value an operation's target is read from *)
Definition target_key (op : Operation) : string :=
  match op with
  | InvitationCreate _ _ _ _ | InvitationRevoke _ => "invitation_id"
  | JoinCreate _ | JoinDecide _ _ _ _ => "request_id"
  | MemberRole _ _ _ _ _ | MemberState _ _ _ => "user_id"
  end.

Definition text_at (key : string) (v : View) : option string :=
  match v !! key with Some (JStr s) => Some s | _ => None end.

(** ** OrganizationAccessBridge *)

Definition SCOPE_REQUIRED : exn := OrganizationWorkflowError "ORGANIZATION_INVITATION_SCOPE_REQUIRED" 409.
Definition ORGANIZATION_CONFLICT : exn := OrganizationWorkflowError "ORGANIZATION_MEMBERSHIP_CONFLICT" 409.
Definition MEMBERSHIP_CONFLICT : exn := OrganizationWorkflowError "MEMBERSHIP_CONFLICT" 409.
Definition ORG_INVALID_INPUT : exn := OrganizationWorkflowError "INVALID_INPUT" 400.
Definition INVALID_VERSION : exn := OrganizationWorkflowError "INVALID_VERSION" 400.
Definition REQUEST_CONFLICT : exn := OrganizationWorkflowError "REQUEST_CONFLICT" 409.
Definition INVITATION_CONFLICT : exn := OrganizationWorkflowError "INVITATION_CONFLICT" 409.
Definition INVITATION_INVALID : exn := OrganizationWorkflowError "INVITATION_INVALID" 400.
Definition ORG_PERSISTENCE_CONFLICT : exn := OrganizationWorkflowError "PERSISTENCE_CONFLICT" 409.
Definition KEY_REUSED : exn := OrganizationWorkflowError "IDEMPOTENCY_KEY_REUSED" 409.

(** The roles a member of an organization may have in the joined workspace *)
Definition JOIN_ROLES : list Role := [VIEWER; EDITOR; REVIEWER; APPROVER].

Definition join_role (s : string) : option Role :=
  List.find (λ r, String.eqb (role_value r) s) JOIN_ROLES.

Section Bridge.
Context {A : Type}.
Abbreviation St := (M (OrgState A)).

Definition org_query {B} (f : OrgDb → B) : St B := gets (λ s, f (or_db s)).
Definition org_update (f : OrgDb → OrgDb) : St unit := modify (λ s, set_or_db (f (or_db s)) s).
Definition auth_update (f : Db → Db) : St unit := org_update (λ d, set_auth (f (auth d)) d).

(** [_text]; [organization_id] is the test. *)
Definition org_text (value code : string) : St string :=
  guard (organization_id value) (OrganizationWorkflowError code 400) ;;
  ret value.

(** [_id] *)
Definition org_id (value : string) : St string := org_text value "INVALID_ID".

(** [_workspace] *)
Definition organization_workspace (tenant workspace : string) : St WorkspaceRow :=
  org_id tenant ;;
  org_id workspace ;;
  row <- org_query (λ d, find_workspace (auth d) tenant workspace) ;;
  from_option (w ← row; if String.eqb (wk_workspace_kind w) "organization" then Some w else None)
    SCOPE_REQUIRED.

(** The user may join: active, with a password of their own and a verified
    address. *)
Definition may_join (u : UserRow) : bool :=
  String.eqb (us_state u) "active" && negb (us_password_change_required u) &&
  negb (String.eqb (us_issuer u) "local" && bool_decide (us_email_verified_at u = None)).

(** The user has no role in the tenant, from whichever of the three tables. *)
Definition no_role (d : OrgDb) (tenant user : string) : bool :=
  bool_decide (identity_members d !! (tenant, user) = None) &&
  forallb (λ kv, negb (String.eqb kv.1.1.1 tenant && String.eqb kv.1.2 user))
    (map_to_list (memberships (auth d))) &&
  bool_decide (tenant_roles (auth d) !! (tenant, user) = None).

(** The two rows of an approval; where the rows it found are none, neither
    [INSERT] meets another. *)
Definition insert_access (tenant workspace user : string) (now : Z) (d : OrgDb) : OrgDb :=
  set_auth (bump_acl tenant workspace now
    (set_memberships (<[(tenant, workspace, user) := mkRoleRow VIEWER "active" 1 now]>
      (memberships (auth d))) (auth d)))
  (set_identity_members (<[(tenant, user) := "member"]> (identity_members d)) d).

Definition approve_join_access (tenant workspace user : string) (now : Z) : St (option RoleRow) :=
  org_id user ;;
  organization_workspace tenant workspace ;;
  known <- org_query (λ d, bool_decide (tenant ∈ tenants d)) ;;
  guard known SCOPE_REQUIRED ;;
  row <- org_query (λ d, users d !! user) ;;
  guard (match row with Some u => may_join u | None => false end) ORGANIZATION_CONFLICT ;;
  free <- org_query (λ d, no_role d tenant user) ;;
  guard free ORGANIZATION_CONFLICT ;;
  org_update (insert_access tenant workspace user now) ;;
  org_query (λ d, memberships (auth d) !! (tenant, workspace, user)).

Definition read_join_access (tenant workspace user : string) : St (option RoleRow) :=
  org_id tenant ;;
  org_id workspace ;;
  org_id user ;;
  member <- org_query (λ d, members d !! (tenant, user)) ;;
  guard (bool_decide (member ≫= tm_join_workspace_id = Some workspace)) MEMBERSHIP_CONFLICT ;;
  org_query (λ d, memberships (auth d) !! (tenant, workspace, user)).

(** What a change of the role finds in the four tables *)
Definition role_changeable (d : OrgDb) (tenant workspace user : string) (expected : Z) : bool :=
  match members d !! (tenant, user), users d !! user, identity_members d !! (tenant, user),
        memberships (auth d) !! (tenant, workspace, user) with
  | Some tm, Some u, Some identity, Some r =>
      bool_decide (tm_join_workspace_id tm = Some workspace) && String.eqb (tm_role tm) "member" &&
      bool_decide (tm_state tm = MEMBER_ACTIVE) && String.eqb (us_state u) "active" &&
      String.eqb identity "member" && active r && bool_decide (rr_role r ∈ JOIN_ROLES) &&
      (rr_version r =? expected)
  | _, _, _, _ => false
  end.

Definition write_access (tenant workspace user : string) (role : Role) (expected now : Z) (d : Db) : Db :=
  bump_acl tenant workspace now
    (set_memberships (<[(tenant, workspace, user) := mkRoleRow role "active" (expected + 1) now]>
      (memberships d)) d).

Definition change_join_role (tenant workspace user role : string) (expected now : Z)
    : St (option RoleRow) :=
  org_id user ;;
  next <- from_option (join_role role) (OrganizationWorkflowError "INVALID_ROLE" 422) ;;
  guard (1 <=? expected) MEMBERSHIP_CONFLICT ;;
  organization_workspace tenant workspace ;;
  changeable <- org_query (λ d, role_changeable d tenant workspace user expected) ;;
  guard changeable MEMBERSHIP_CONFLICT ;;
  auth_update (write_access tenant workspace user next expected now) ;;
  read_join_access tenant workspace user.
End Bridge.

(** ** SqliteOrganizationRepository *)

Section Repository.
Context {D : Digest} {W : World} {R : IsoReader} {A : Type}.
Abbreviation St := (M (OrgState A)).

(** [with self.transaction() as connection: m] *)
Definition org_transaction {B} (m : St B) : St B := λ s,
  match m s with
  | (s', Ret b) => (s', Ret b)
  | (s', Raise e) => (set_or_db (or_db s) s', Raise e)
  end.

(** [_participate]: the caller's transaction, or one of its own *)
Definition participate {B} (standalone : bool) (m : St B) : St B :=
  if standalone then org_transaction m else m.

(** [try: m except OrganizationWorkflowError: raise e], of an [m] that raises no
    other *)
Definition raising {B} (e : exn) (m : St B) : St unit := λ s,
  match m s with
  | (s', Ret _) => (s', Ret tt)
  | (s', Raise _) => (s', Raise e)
  end.

(** [_emit] *)
Definition emit (r : OrganizationAuditRecord) : St unit :=
  modify (λ s, set_or_sink ((λ l, l ++ [r]) <$> or_sink s) s).

(** An integer that SQLite can hold; [sqlite3] refuses the others. *)
Definition sql_int (z : Z) : St unit :=
  guard ((- 2 ^ 63 <=? z) && (z <? 2 ^ 63)) (PyError "OverflowError").

(** An [INSERT] under a primary key and a condition on the rows there are *)
Definition org_insert `{Countable K} {V} (table : OrgDb → gmap K V) (set : gmap K V → OrgDb → OrgDb)
    (compatible : V → V → bool) (k : K) (v : V) : St unit :=
  free <- org_query (λ d, bool_decide (table d !! k = None) &&
    forallb (λ kv, compatible kv.2 v) (map_to_list (table d))) ;;
  guard free ORG_PERSISTENCE_CONFLICT ;;
  org_update (λ d, set (<[k := v]> (table d)) d).

(** [organization_creation_pending_unique], [organization_join_pending_unique],
    and the unique columns *)
Definition creations_compatible (a b : OrganizationCreationRequest) : bool :=
  negb (bool_decide (cr_state a = PENDING) && bool_decide (cr_state b = PENDING) &&
        String.eqb (cr_applicant_user_id a) (cr_applicant_user_id b)).
Definition joins_compatible (a b : OrganizationJoinRequest) : bool :=
  negb (bool_decide (jr_state a = PENDING) && bool_decide (jr_state b = PENDING) &&
        String.eqb (jr_tenant_id a) (jr_tenant_id b) && String.eqb (jr_user_id a) (jr_user_id b)).
Definition codes_differ (a b : InvitationCode) : bool :=
  negb (String.eqb (iv_code_digest a) (iv_code_digest b)).
Definition events_differ (a b : OutboxRow) : bool := negb (String.eqb (ob_event_id a) (ob_event_id b)).

Definition insert_creation (r : OrganizationCreationRequest) : St unit :=
  org_insert creations set_creations creations_compatible (cr_request_id r) r.
Definition insert_join (r : OrganizationJoinRequest) : St unit :=
  org_insert joins set_joins joins_compatible (jr_request_id r) r.
Definition insert_invitation (r : InvitationCode) : St unit :=
  org_insert invitations set_invitations codes_differ (iv_invitation_id r) r.

(** [INSERT INTO tenant_membership_role_history] under [_new_id("role")] *)
Definition insert_history (r : HistoryRow) : St unit :=
  id <- new_id "role" ;;
  org_insert role_history set_role_history (λ _ _, true) id r.

Definition code_digest (code : string) : string := sha256_hex (encode code).

Definition invitation_by_code (d : OrgDb) (code : string) : option InvitationCode :=
  snd <$> List.find (λ kv, String.eqb (iv_code_digest kv.2) (code_digest code))
    (map_to_list (invitations d)).

(** The invitation lets somebody join now. *)
Definition invitation_open (now : Z) (iv : InvitationCode) : bool :=
  bool_decide (iv_state iv = INVITATION_ACTIVE) && (now <? iv_expires_at iv) &&
  (iv_used_count iv <? iv_max_uses iv).

(** *** Creation requests *)

Definition create_organization_request (applicant name identifier : string) (now : Z)
    : St OrganizationCreationRequest :=
  org_id applicant ;;
  org_text name "INVALID_ORGANIZATION_NAME" ;;
  org_text identifier "INVALID_ORGANIZATION_IDENTIFIER" ;;
  id <- new_id "orgreq" ;;
  let r := mkCreation id applicant name identifier PENDING None None 1 now now in
  org_transaction (insert_creation r) ;;
  ret r.

Definition decide_creation (r : OrganizationCreationRequest) (state : RequestState)
    (reason : option string) (actor : string) (now : Z) : OrganizationCreationRequest :=
  mkCreation (cr_request_id r) (cr_applicant_user_id r) (cr_requested_org_name r)
    (cr_requested_org_identifier r) state reason (Some actor) (cr_version r + 1) (cr_created_at r) now.

Definition decided_state (approved : bool) : RequestState := if approved then APPROVED else REJECTED.

Definition decide_organization_request (request actor : string) (approved : bool) (expected : Z)
    (reason : option string) (now : Z) : St OrganizationCreationRequest :=
  org_id request ;;
  org_id actor ;;
  guard (1 <=? expected) INVALID_VERSION ;;
  let state := decided_state approved in
  org_transaction (
    sql_int expected ;;
    row <- org_query (λ d, creations d !! request) ;;
    r <- from_option (r ← row; if bool_decide (cr_state r = PENDING) && (cr_version r =? expected)
                               then Some r else None) REQUEST_CONFLICT ;;
    let r' := decide_creation r state reason actor now in
    org_update (λ d, set_creations (<[request := r']> (creations d)) d) ;;
    emit (mkAuditRecord "organization.creation_request.decided" actor "organization-public" request
      (Some (request_value PENDING)) (Some (request_value state)) reason now) ;;
    ret r').

(** *** Invitations *)

Definition create_invitation (standalone : bool) (tenant created_by code : string)
    (expires max_uses : Z) (workspace : option string) (now : Z) : St InvitationCode :=
  org_id tenant ;;
  org_id created_by ;;
  org_text code "INVALID_INVITATION_CODE" ;;
  guard (negb (expires <=? now) && (1 <=? max_uses)) (OrganizationWorkflowError "INVALID_INVITATION" 400) ;;
  id <- new_id "invite" ;;
  let iv := mkInvitation id tenant created_by (code_digest code) expires max_uses 0 INVITATION_ACTIVE 1
    now now workspace in
  participate standalone (
    sql_int max_uses ;;
    insert_invitation iv ;;
    ret iv).

Definition revoked (iv : InvitationCode) (now : Z) : InvitationCode :=
  mkInvitation (iv_invitation_id iv) (iv_tenant_id iv) (iv_created_by iv) (iv_code_digest iv)
    (iv_expires_at iv) (iv_max_uses iv) (iv_used_count iv) INVITATION_REVOKED (iv_version iv + 1)
    (iv_created_at iv) now (iv_workspace_id iv).

Definition revoke_invitation (standalone : bool) (tenant invitation actor : string) (expected now : Z)
    : St InvitationCode :=
  org_id tenant ;;
  org_id invitation ;;
  org_id actor ;;
  guard (1 <=? expected) INVALID_VERSION ;;
  participate standalone (
    sql_int expected ;;
    row <- org_query (λ d, invitations d !! invitation) ;;
    iv <- from_option (iv ← row;
      if String.eqb (iv_tenant_id iv) tenant && bool_decide (iv_state iv = INVITATION_ACTIVE) &&
         (iv_version iv =? expected) && (now <? iv_expires_at iv)
      then Some iv else None) INVITATION_CONFLICT ;;
    org_update (λ d, set_invitations (<[invitation := revoked iv now]> (invitations d)) d) ;;
    when standalone (emit (mkAuditRecord "organization.invitation.revoked" actor tenant invitation
      (Some (invitation_value INVITATION_ACTIVE)) (Some (invitation_value INVITATION_REVOKED)) None now)) ;;
    ret (revoked iv now)).

(** *** Join requests *)

Definition create_join_request (standalone : bool) (tenant user : string) (code : option string)
    (now : Z) : St OrganizationJoinRequest :=
  org_id tenant ;;
  org_id user ;;
  id <- new_id "joinreq" ;;
  participate standalone (
    invitation <- match code with
      | None => ret None
      | Some code =>
          org_text code "INVALID_INVITATION_CODE" ;;
          found <- org_query (λ d, invitation_by_code d code) ;;
          iv <- from_option (iv ← found;
            if String.eqb (iv_tenant_id iv) tenant && invitation_open now iv then Some iv else None)
            INVITATION_INVALID ;;
          ret (Some (iv_invitation_id iv))
      end ;;
    let r := mkJoin id tenant user invitation PENDING None None 1 now now in
    insert_join r ;;
    ret r).

Definition create_join_request_by_invitation (standalone : bool) (user code : string) (now : Z)
    : St OrganizationJoinRequest :=
  org_id user ;;
  org_text code "INVALID_INVITATION_CODE" ;;
  id <- new_id "joinreq" ;;
  participate standalone (
    found <- org_query (λ d, invitation_by_code d code) ;;
    iv <- from_option (iv ← found; if invitation_open now iv then Some iv else None) INVITATION_INVALID ;;
    let r := mkJoin id (iv_tenant_id iv) user (Some (iv_invitation_id iv)) PENDING None None 1 now now in
    insert_join r ;;
    ret r).

Definition used (iv : InvitationCode) (now : Z) : InvitationCode :=
  mkInvitation (iv_invitation_id iv) (iv_tenant_id iv) (iv_created_by iv) (iv_code_digest iv)
    (iv_expires_at iv) (iv_max_uses iv) (iv_used_count iv + 1) (iv_state iv) (iv_version iv + 1)
    (iv_created_at iv) now (iv_workspace_id iv).

(** An approval takes one use of the request's invitation; the [UPDATE] finds
    the row that was just read. *)
Definition use_invitation (r : OrganizationJoinRequest) (now : Z) : St unit :=
  match jr_invitation_id r with
  | None => ret tt
  | Some invitation =>
      row <- org_query (λ d, invitations d !! invitation) ;;
      iv <- from_option (iv ← row; if invitation_open now iv then Some iv else None) INVITATION_INVALID ;;
      org_update (λ d, set_invitations (<[invitation := used iv now]> (invitations d)) d)
  end.

Definition decide_join (r : OrganizationJoinRequest) (state : RequestState) (reason : option string)
    (actor : string) (now : Z) : OrganizationJoinRequest :=
  mkJoin (jr_request_id r) (jr_tenant_id r) (jr_user_id r) (jr_invitation_id r) state reason
    (Some actor) (jr_version r + 1) (jr_created_at r) now.

(** [INSERT ... ON CONFLICT(tenant_id,user_id) DO UPDATE] *)
Definition approved_member (old : option TenantMembership) (tenant user role : string) (now : Z)
    : TenantMembership :=
  match old with
  | None => mkMember tenant user role MEMBER_ACTIVE 1 now None
  | Some tm => mkMember tenant user role MEMBER_ACTIVE (tm_version tm + 1) now (tm_join_workspace_id tm)
  end.

Definition pending_join (expected : Z) (r : OrganizationJoinRequest) : bool :=
  bool_decide (jr_state r = PENDING) && (jr_version r =? expected).

Definition decide_join_request (standalone : bool) (request actor : string) (approved : bool)
    (expected : Z) (reason : option string) (role : string) (now : Z) : St OrganizationJoinRequest :=
  org_id request ;;
  org_id actor ;;
  org_text role "INVALID_ROLE" ;;
  guard (1 <=? expected) INVALID_VERSION ;;
  let state := decided_state approved in
  participate standalone (
    row <- org_query (λ d, joins d !! request) ;;
    r <- from_option (r ← row; if pending_join expected r then Some r else None) REQUEST_CONFLICT ;;
    when approved (use_invitation r now) ;;
    let r' := decide_join r state reason actor now in
    org_update (λ d, set_joins (<[request := r']> (joins d)) d) ;;
    when approved (
      org_update (λ d, set_members (<[(jr_tenant_id r, jr_user_id r) :=
        approved_member (members d !! (jr_tenant_id r, jr_user_id r)) (jr_tenant_id r) (jr_user_id r)
          role now]> (members d)) d) ;;
      insert_history (mkHistory (jr_tenant_id r) (jr_user_id r) actor None (Some role) None
        (Some (member_value MEMBER_ACTIVE)) None now)) ;;
    when standalone (emit (mkAuditRecord "organization.join_request.decided" actor (jr_tenant_id r) request
      (Some (request_value PENDING)) (Some (request_value state)) reason now)) ;;
    ret r').

(** *** Memberships *)

Definition with_member_state (tm : TenantMembership) (state : MembershipState) (now : Z) : TenantMembership :=
  mkMember (tm_tenant_id tm) (tm_user_id tm) (tm_role tm) state (tm_version tm + 1) now
    (tm_join_workspace_id tm).
Definition with_member_role (tm : TenantMembership) (role : string) (now : Z) : TenantMembership :=
  mkMember (tm_tenant_id tm) (tm_user_id tm) role (tm_state tm) (tm_version tm + 1) now
    (tm_join_workspace_id tm).

Definition find_member (tenant user : string) (expected : Z) : St TenantMembership :=
  row <- org_query (λ d, members d !! (tenant, user)) ;;
  from_option (tm ← row; if tm_version tm =? expected then Some tm else None) MEMBERSHIP_CONFLICT.

Definition write_member (tenant user : string) (tm : TenantMembership) : St unit :=
  org_update (λ d, set_members (<[(tenant, user) := tm]> (members d)) d).

Definition set_tenant_membership (standalone : bool) (tenant user actor : string)
    (state : MembershipState) (expected : Z) (reason : option string) (now : Z) : St TenantMembership :=
  org_id tenant ;;
  org_id user ;;
  org_id actor ;;
  guard (1 <=? expected) ORG_INVALID_INPUT ;;
  participate standalone (
    tm <- find_member tenant user expected ;;
    write_member tenant user (with_member_state tm state now) ;;
    insert_history (mkHistory tenant user actor (Some (tm_role tm)) (Some (tm_role tm))
      (Some (member_value (tm_state tm))) (Some (member_value state)) reason now) ;;
    when standalone (emit (mkAuditRecord "organization.membership.state_changed" actor tenant user
      (Some (member_value (tm_state tm))) (Some (member_value state)) reason now)) ;;
    ret (with_member_state tm state now)).

Definition change_role (standalone : bool) (tenant user actor role : string) (expected : Z)
    (reason : option string) (now : Z) : St TenantMembership :=
  org_id tenant ;;
  org_id user ;;
  org_id actor ;;
  org_text role "INVALID_ROLE" ;;
  guard (1 <=? expected) INVALID_VERSION ;;
  participate standalone (
    tm <- find_member tenant user expected ;;
    write_member tenant user (with_member_role tm role now) ;;
    insert_history (mkHistory tenant user actor (Some (tm_role tm)) (Some role)
      (Some (member_value (tm_state tm))) (Some (member_value (tm_state tm))) reason now) ;;
    when standalone (emit (mkAuditRecord "organization.membership.role_changed" actor tenant user
      (Some (tm_role tm)) (Some role) reason now)) ;;
    ret (with_member_role tm role now)).

(** *** Management operations *)

Definition scope_of_invitation (d : OrgDb) (invitation : string) : option string :=
  invitations d !! invitation ≫= iv_workspace_id.

(** [_management_scope]: the tenant, the workspace and the row of an operation *)
Definition management_scope (op : Operation) (actor : string) (tenant target : option string)
    : St (string * option string * Original) :=
  found <- match op with
    | JoinCreate (Some code) =>
        org_text code "INVALID_INVITATION_CODE" ;;
        row <- org_query (λ d, invitation_by_code d code) ;;
        iv <- from_option row INVITATION_INVALID ;;
        guard (bool_decide (tenant = None ∨ tenant = Some (iv_tenant_id iv))) INVITATION_INVALID ;;
        ret (Some (iv_tenant_id iv), iv_workspace_id iv, InvitationRow iv)
    | JoinCreate None => ret (tenant, payload_workspace op, NoRow)
    | JoinDecide _ _ _ _ =>
        row <- org_query (λ d, target ≫= λ t, joins d !! t) ;;
        jr <- from_option (jr ← row; if bool_decide (tenant = Some (jr_tenant_id jr)) then Some jr else None)
          (OrganizationWorkflowError "REQUEST_NOT_FOUND" 404) ;;
        workspace <- org_query (λ d, match jr_invitation_id jr with
                                     | Some invitation => scope_of_invitation d invitation
                                     | None => payload_workspace op
                                     end) ;;
        ret (tenant, workspace, JoinRow jr)
    | InvitationRevoke _ =>
        row <- org_query (λ d, target ≫= λ t, invitations d !! t) ;;
        iv <- from_option (iv ← row; if bool_decide (tenant = Some (iv_tenant_id iv)) then Some iv else None)
          INVITATION_CONFLICT ;;
        ret (tenant, iv_workspace_id iv, InvitationRow iv)
    | MemberRole _ _ _ _ _ | MemberState _ _ _ =>
        row <- org_query (λ d, t ← tenant; u ← target; members d !! (t, u)) ;;
        tm <- from_option row MEMBERSHIP_CONFLICT ;;
        ret (tenant, tm_join_workspace_id tm, MemberRow tm)
    | InvitationCreate _ _ _ workspace => ret (tenant, workspace, NoRow)
    end ;;
  tenant <- from_option found.1.1 (OrganizationWorkflowError "INVALID_ID" 400) ;;
  org_id tenant ;;
  ret (tenant, found.1.2, found.2).

Context {H : HostParser}.

(** [_management_audit_draft] *)
Definition target_type (operation : string) : string :=
  if startswith "organization.invitation." operation then "invitation"
  else if startswith "organization.join." operation then "join_request" else "membership".

Definition opt_value (o : option string) : json :=
  match o with None => JNull | Some s => JObj [("value", JStr s)] end.
Definition json_value (v : json) : json :=
  match v with JNull => JNull | _ => JObj [("value", v)] end.

Definition management_draft (key : OpKey) (row : OutboxRow) : AuditEventDraft :=
  mkDraft (PyStr (ob_event_id row)) (Datetime (ob_created_at row) (Some 0)) (PyStr key.1.1) (Some USER)
    (PyStr (ob_tenant_id row)) (opt_obj (in_workspace_id (ob_audit row)))
    (PyStr (in_action (ob_audit row))) (PyStr (target_type key.1.2)) (PyStr (ob_target_id row))
    (Some SUCCEEDED) (PyStr (ob_trace_id row)) (PyStr (ob_policy_version row))
    (opt_value (in_before (ob_audit row))) (json_value (in_after (ob_audit row)))
    (JObj [("reason", JOpt (in_reason (ob_audit row))); ("version", in_version (ob_audit row));
           ("auth_version", in_auth_version (ob_audit row))]).

(** [_record_management_operation]: the draft is validated before it is kept,
    by a function that touches no store. *)
Definition record_management_operation (key : OpKey) (tenant target fingerprint : string) (value : View)
    (audit : AuditIntent) (now : Z) (trace policy : string) : St unit :=
  event_id <- new_id "org-event" ;;
  let row := mkOutbox tenant target fingerprint value event_id audit trace policy now None in
  guard (match result (validate_draft (management_draft key row)) tt with
         | Ret _ => true
         | Raise _ => false
         end) (OrganizationWorkflowError "AUDIT_INTENT_INVALID" 400) ;;
  org_insert outbox set_outbox events_differ key row.

(** What an operation that was recorded before, under the same key, returns *)
Definition replay (op : Operation) (actor : string) (tenant : string) (target : option string)
    (value : View) : St (View * bool) :=
  guard (bool_decide (text_at "tenant_id" value = Some tenant) &&
    (bool_decide (target = None) || bool_decide (text_at (target_key op) value = target)) &&
    match op with
    | JoinCreate _ => bool_decide (text_at "user_id" value = Some actor)
    | InvitationCreate _ _ _ _ => bool_decide (text_at "created_by" value = Some actor)
    | _ => true
    end) KEY_REUSED ;;
  ret (value, true).

(** The operation itself: the item it returns, the value before, and the access
    it leaves, if it looked at it *)
Definition perform (op : Operation) (actor tenant : string) (target : string) (workspace : option string)
    (original : Original) (now : Z) : St (Item * option string * option (option RoleRow)) :=
  let before := original_before op original in
  match op with
  | InvitationCreate code expires max_uses _ =>
      iv <- create_invitation false tenant actor code expires max_uses workspace now ;;
      ret (invitation_dict iv, before, None)
  | InvitationRevoke expected =>
      iv <- revoke_invitation false tenant target actor expected now ;;
      ret (invitation_dict iv, before, None)
  | JoinCreate code =>
      workspace <- from_option (match original with NoRow => None | _ => workspace end) INVITATION_INVALID ;;
      raising INVITATION_INVALID (organization_workspace tenant workspace) ;;
      waiting <- org_query (λ d, existsb (λ kv, String.eqb (jr_tenant_id kv.2) tenant &&
        String.eqb (jr_user_id kv.2) actor && bool_decide (jr_state kv.2 = PENDING))
        (map_to_list (joins d))) ;;
      guard (negb waiting) (OrganizationWorkflowError "JOIN_REQUEST_ALREADY_PENDING" 409) ;;
      jr <- create_join_request false tenant actor code now ;;
      ret (join_dict jr, before, None)
  | JoinDecide approved expected reason role =>
      jr <- from_option (match original with
                         | JoinRow jr => if pending_join expected jr then Some jr else None
                         | _ => None
                         end) REQUEST_CONFLICT ;;
      when approved (
        guard (bool_decide (is_Some (jr_invitation_id jr)) && bool_decide (is_Some workspace)) SCOPE_REQUIRED ;;
        guard (String.eqb role "member") (OrganizationWorkflowError "INVALID_ROLE" 422) ;;
        member <- org_query (λ d, members d !! (tenant, jr_user_id jr)) ;;
        guard (bool_decide (member = None)) ORGANIZATION_CONFLICT) ;;
      jr' <- decide_join_request false target actor approved expected reason role now ;;
      match approved, workspace with
      | true, Some workspace =>
          access <- approve_join_access tenant workspace (jr_user_id jr) now ;;
          member <- org_query (λ d, members d !! (tenant, jr_user_id jr)) ;;
          tm <- from_option (tm ← member;
            if bool_decide (tm_join_workspace_id tm = None) && String.eqb (tm_role tm) "member" &&
               bool_decide (tm_state tm = MEMBER_ACTIVE) && (tm_version tm =? 1)
            then Some tm else None) ORGANIZATION_CONFLICT ;;
          write_member tenant (jr_user_id jr) (mkMember (tm_tenant_id tm) (tm_user_id tm) (tm_role tm)
            (tm_state tm) (tm_version tm) (tm_updated_at tm) (Some workspace)) ;;
          ret (join_dict jr', before, Some access)
      | _, _ => ret (join_dict jr', before, None)
      end
  | MemberRole role wanted expected expected_auth _ =>
      workspace <- from_option workspace SCOPE_REQUIRED ;;
      tm <- from_option (match original with
                         | MemberRow tm => if String.eqb wanted workspace && (tm_version tm =? expected)
                                           then Some tm else None
                         | _ => None
                         end) MEMBERSHIP_CONFLICT ;;
      old <- read_join_access tenant workspace target ;;
      access <- change_join_role tenant workspace target role expected_auth now ;;
      tm <- find_member tenant target expected ;;
      guard (String.eqb (tm_role tm) "member" && bool_decide (tm_state tm = MEMBER_ACTIVE))
        MEMBERSHIP_CONFLICT ;;
      let tm' := with_member_role tm (tm_role tm) now in
      write_member tenant target tm' ;;
      ret (with_access (member_dict tm') access, role_value ∘ rr_role <$> old, Some access)
  | MemberState active expected reason =>
      tm' <- set_tenant_membership false tenant target actor
        (if active then MEMBER_ACTIVE else MEMBER_SUSPENDED) expected reason now ;;
      match workspace with
      | Some workspace =>
          access <- read_join_access tenant workspace target ;;
          ret (with_access (member_dict tm') access, before, Some access)
      | None => ret (member_dict tm', before, None)
      end
  end.

(** [audit], from the value and the access *)
Definition audit_intent (op : Operation) (workspace before : option string) (value : View)
    (access : option (option RoleRow)) : AuditIntent :=
  let at_key k := default JNull (value !! k) in
  mkIntent (management_action op) workspace before
    (match op, access with
     | MemberRole _ _ _ _ _, Some a => JOpt (role_value ∘ rr_role <$> a)
     | _, _ => at_key "state"
     end)
    (payload_reason op) (at_key "version")
    (match access with
     | Some (Some r) => JInt (rr_version r)
     | Some None => JNull
     | None => at_key "access_version"
     end).

Definition is_fingerprint (s : string) : bool :=
  Nat.eqb (String.length s) 64 && all_chars (λ c, is_digit c || in_range 97 102 c) s.

Definition execute_management_operation (op : Operation) (actor : string) (tenant target : option string)
    (key fingerprint trace policy : string) : St (View * bool) :=
  guard (forallb (λ o, match o with Some i => id_160 i | None => true end) [Some actor; tenant; target])
    (OrganizationWorkflowError "INVALID_ID" 400) ;;
  guard (Nat.leb 16 (String.length key) && Nat.leb (String.length key) 128)
    (OrganizationWorkflowError "IDEMPOTENCY_KEY_INVALID" 400) ;;
  guard (is_fingerprint fingerprint) ORG_INVALID_INPUT ;;
  org_id actor ;;
  org_text trace "INVALID_TRACE" ;;
  org_text policy "INVALID_POLICY" ;;
  org_transaction (
    scope <- management_scope op actor tenant target ;;
    let tenant := scope.1.1 in
    let workspace := scope.1.2 in
    let k := (actor, operation_name op, key) in
    row <- org_query (λ d, outbox d !! k) ;;
    legacy <- org_query (λ d, idempotency d !! k) ;;
    match row, legacy with
    | Some row, _ =>
        guard (String.eqb (ob_request_fingerprint row) fingerprint) KEY_REUSED ;;
        value <- management_view op (stored (ob_response row)) ;;
        replay op actor tenant target value
    | None, Some old =>
        guard (String.eqb (id_fingerprint old) fingerprint) KEY_REUSED ;;
        data <- loaded (id_result old) ;;
        value <- management_view op data ;;
        replay op actor tenant target value
    | None, None =>
        again <- management_scope op actor (Some tenant) target ;;
        guard (bool_decide (again.1 = (tenant, workspace)))
          (OrganizationWorkflowError "ORGANIZATION_SCOPE_CHANGED" 409) ;;
        now <- clock ;;
        guard (match payload_reason op with
               | Some r => Nat.leb (String.length r) 1000
               | None => true
               end) ORG_INVALID_INPUT ;;
        done <- perform op actor tenant (default "" target) workspace again.2 now ;;
        value <- management_view op done.1.1 ;;
        actual <- from_option (text_at (target_key op) value) (PyError "KeyError") ;;
        record_management_operation k tenant actual fingerprint value
          (audit_intent op workspace done.1.2 value done.2) now trace policy ;;
        ret (value, false)
    end).

(** *** Idempotency of the other operations *)

Definition idempotency_replay (operation actor key fingerprint : string) : St (option string) :=
  row <- org_transaction (
    org_id operation ;;
    org_id actor ;;
    org_id key ;;
    org_query (λ d, idempotency d !! (actor, operation, key))) ;;
  match row with
  | None => ret None
  | Some r =>
      guard (String.eqb (id_fingerprint r) fingerprint) KEY_REUSED ;;
      ret (Some (dumps false (id_result r)))
  end.

Definition idempotency_insert (operation actor key fingerprint : string) (value : json) (now : Z) : St unit :=
  org_transaction (
    org_id operation ;;
    org_id actor ;;
    org_id key ;;
    org_insert idempotency set_idempotency (λ _ _, true) (actor, operation, key)
      (mkIdempotency fingerprint value now)).

Definition idempotency_record (operation actor key fingerprint : string) (value : json) (now : Z) : St unit := λ s,
  match idempotency_insert operation actor key fingerprint value now s with
  | (s', Raise e) =>
      if bool_decide (e = ORG_PERSISTENCE_CONFLICT) then
        (found <- idempotency_replay operation actor key fingerprint ;;
         guard (bool_decide (found = Some (dumps false value))) KEY_REUSED) s'
      else (s', Raise e)
  | done => done
  end.

(** *** Lists *)

(** [ORDER BY created_at DESC]: rows of one time come in an order of SQLite's. *)
Definition newest_first {B} {O : SetOrder} (created : B → Z) (l : list B) : list B :=
  sort_stable (λ a b, created b <=? created a) (set_iter l).

Definition list_creation_requests {O : SetOrder} (applicant : option string)
    : St (list OrganizationCreationRequest) :=
  org_transaction (
    match applicant with Some a => org_id a ;; ret tt | None => ret tt end ;;
    org_query (λ d, newest_first cr_created_at
      (filter (λ r, matches applicant (cr_applicant_user_id r) = true) (map snd (map_to_list (creations d)))))).

Definition list_join_requests {O : SetOrder} (tenant user : option string)
    : St (list OrganizationJoinRequest) :=
  match tenant with Some t => org_id t ;; ret tt | None => ret tt end ;;
  match user with Some u => org_id u ;; ret tt | None => ret tt end ;;
  org_transaction (
    org_query (λ d, newest_first jr_created_at
      (filter (λ r, matches tenant (jr_tenant_id r) && matches user (jr_user_id r) = true) (map snd (map_to_list (joins d)))))).

(** [mapM] of the loops that build a list *)
Fixpoint collect {B C} (body : B → St C) (l : list B) : St (list C) :=
  match l with
  | [] => ret []
  | x :: l' => y <- body x ;; ys <- collect body l' ;; ret (y :: ys)
  end.

(** Members in order, each with its access, where it joined a workspace *)
Definition list_members (tenant : string) : St (list (TenantMembership * option (option RoleRow))) :=
  org_id tenant ;;
  org_transaction (
    rows <- org_query (λ d, sort_stable (λ a b, string_leb (tm_user_id a) (tm_user_id b))
      (filter (λ tm, tm_tenant_id tm = tenant) (map snd (map_to_list (members d))))) ;;
    collect (λ tm,
      match tm_join_workspace_id tm with
      | Some workspace =>
          access <- read_join_access tenant workspace (tm_user_id tm) ;;
          ret (tm, Some access)
      | None => ret (tm, None)
      end) rows).

Definition list_invitations (tenant : string) (now : Z) : St (list View) :=
  org_transaction (
    org_id tenant ;;
    rows <- org_query (λ d, sort_stable (λ a b,
      (iv_created_at b <? iv_created_at a) ||
      ((iv_created_at b =? iv_created_at a) && string_leb (iv_invitation_id a) (iv_invitation_id b)))
      (filter (λ iv, iv_tenant_id iv = tenant) (map snd (map_to_list (invitations d))))) ;;
    collect (λ iv,
      item <- management_view (InvitationRevoke 1) (invitation_dict iv) ;;
      expires <- from_outcome (parse_time (CJson (default JNull (item !! "expires_at")))) ;;
      ret (if bool_decide (text_at "state" item = Some "active") && (expires <=? now)
           then <["state" := JStr "expired"]> item else item)) rows).

Definition membership_state (tenant user : string) : St (option MembershipState) :=
  org_transaction (
    org_id tenant ;;
    org_id user ;;
    org_query (λ d, tm_state <$> members d !! (tenant, user))).
End Repository.

(** ** Delivering the audit events *)

#[export] Instance json_eq_dec : EqDecision json.
Proof.
  intros a b. destruct (decide (print true a = print true b)) as [E|E].
  - left. by apply (print_inj true).
  - right. congruence.
Defined.
#[export] Instance datetime_arg_eq_dec : EqDecision datetime_arg.
Proof. solve_decision. Defined.
#[export] Instance draft_eq_dec : EqDecision AuditEventDraft.
Proof. solve_decision. Defined.

(** What the loop relies on of the audit store besides [AuditStore]: a reading
    of it changes nothing and finds an event of the log. *)
Class AuditReader (A : Type) {AS : AuditStore A} := {
  audit_read : string → M A (option AuditEvent);
  audit_read_law id a :
    wp (audit_read id) (λ o a', a' = a ∧
      match o with Ret (Some e) => e ∈ audit_events a ∧ ev_event_id e = id | _ => True end) a
}.

#[export] Instance memory_reader {D : Digest} {H : HostParser} : AuditReader Store.
Proof.
  refine {| audit_read id := read (PyStr id) |}. intros id a. unfold read, validate_text. wp_run; [|done].
  split; [done|]. case_match; simplify_eq. destruct (List.find _ _) as [e|] eqn:Hf; [|done].
  apply find_some in Hf as [Hin Hid]. bools. split; [by apply list_elem_of_In|done].
Defined.

Section Dispatch.
Context {W : World} {A : Type} {AS : AuditStore A} {AR : AuditReader A}.
Abbreviation St := (M (OrgState A)).

(** [_pending_management_audits] *)
Definition pending_audits (limit : Z) (d : OrgDb) : list (OpKey * OutboxRow) :=
  take (Z.to_nat limit) (sort_stable (λ a b,
    (ob_created_at a.2 <? ob_created_at b.2) ||
    ((ob_created_at a.2 =? ob_created_at b.2) && string_leb (ob_event_id a.2) (ob_event_id b.2)))
    (filter (λ kv, ob_delivered_at kv.2 = None) (map_to_list (outbox d)))).

(** [_ack_management_audit]; the trigger refuses every other change of a row. *)
Definition delivered_row (now : Z) (row : OutboxRow) : OutboxRow :=
  mkOutbox (ob_tenant_id row) (ob_target_id row) (ob_request_fingerprint row) (ob_response row)
    (ob_event_id row) (ob_audit row) (ob_trace_id row) (ob_policy_version row) (ob_created_at row) (Some now).

Definition undelivered (event_id : string) (row : OutboxRow) : bool :=
  String.eqb (ob_event_id row) event_id && bool_decide (ob_delivered_at row = None).

Definition ack_audit (event_id : string) : St bool :=
  now <- clock ;;
  found <- org_query (λ d, existsb (λ kv, undelivered event_id kv.2) (map_to_list (outbox d))) ;;
  org_update (λ d, set_outbox ((λ row, if undelivered event_id row then delivered_row now row else row)
    <$> outbox d) d) ;;
  ret found.

(** Running a call of the audit store; with none it is never reached. *)
Definition with_audit {B} (m : M A B) (none : B) : St (outcome B) := λ s,
  match or_audit s with
  | None => (s, Ret (Ret none))
  | Some a => let '(a', o) := m a in (set_or_audit (Some a') s, Ret o)
  end.

(** The event is in the audit store: appended now, or there already as it is. *)
Definition deliver (draft : AuditEventDraft) (event_id : string) : St bool :=
  sent <- with_audit (audit_append draft ;; ret true) false ;;
  match sent with
  | Ret b => ret b
  | Raise e =>
      if bool_decide (e = AuditError "DUPLICATE_EVENT_ID") then
        existing <- with_audit (audit_read event_id) None ;;
        ret (match existing with
             | Ret (Some ev) => bool_decide (draft_of ev = draft)
             | _ => false
             end)
      else ret false
  end.

(** The loop over the rows: [stop] tells whether the event is set at a check,
    [available] whether the transaction of a row goes through. *)
Fixpoint deliver_all (stop available : nat → bool) (n : nat) (count : Z)
    (rows : list (OpKey * OutboxRow)) : St Z :=
  match rows with
  | [] => ret count
  | (key, row) :: rest =>
      if stop (2 * n)%nat then ret count
      else
        sent <- deliver (management_draft key row) (ob_event_id row) ;;
        if negb sent then deliver_all stop available (S n) count rest
        else if stop (2 * n + 1)%nat then ret count
        else if available n then
          found <- ack_audit (ob_event_id row) ;;
          deliver_all stop available (S n) (if found then count + 1 else count) rest
        else deliver_all stop available (S n) count rest
  end.

(** [dispatch_pending_management_audits]; [stopped] tells whether the event is
    set at the start, [readable] whether the rows can be read. *)
Definition dispatch_pending_management_audits (stopped readable : bool) (stop available : nat → bool)
    (limit : Z) : St Z :=
  store <- gets or_audit ;;
  match store with
  | None => ret 0
  | Some _ =>
      if stopped then ret 0
      else
        guard ((1 <=? limit) && (limit <=? 100)) (OrganizationWorkflowError "INVALID_LIMIT" 400) ;;
        if readable then
          rows <- org_query (pending_audits limit) ;;
          deliver_all stop available 0 0 rows
        else ret 0
  end.
End Dispatch.
