(* ===== verification/OrganizationFacts.v ===== *)
(** What the operations on organizations leave behind. *)

From S2P Require Import Prelude Sha256 PyStr Json HashChain Bytes AuditLog License Authorization AuthorizationFacts.
From S2P Require Import Organization.
#[local] Open Scope Z_scope.

(** ** Executing a method *)

Section Steps.
Context {D : Digest} {W : World} {R : IsoReader} {A : Type}.
Implicit Types s : OrgState A.

(** Two states that differ in what was drawn at most. *)
Record same_but_draws s s' : Prop := {
  sb_db : or_db s' = or_db s;
  sb_sink : or_sink s' = or_sink s;
  sb_audit : or_audit s' = or_audit s
}.

Lemma same_refl s : same_but_draws s s.
Proof. done. Qed.

Lemma wp_org_text v c Q s :
  (organization_id v = true → Q (Ret v) s) → Q (Raise (OrganizationWorkflowError c 400)) s →
  wp (org_text (A:=A) v c) Q s.
Proof. intros H1 H2. unfold org_text. apply wp_bind, wp_guard; intros Hv; [by apply H1|done]. Qed.

Lemma wp_org_transaction {B} (m : M (OrgState A) B) (Q : outcome B → OrgState A → Prop) s :
  wp m (λ o s', match o with Ret b => Q (Ret b) s' | Raise e => Q (Raise e) (set_or_db (or_db s) s') end) s →
  wp (org_transaction m) Q s.
Proof. unfold wp, org_transaction. by destruct (m s) as [s' [b|e]]. Qed.

(** The outcomes of an [INSERT] *)
Lemma wp_org_insert `{Countable K} {V} (table : OrgDb → gmap K V) set compatible k v Q s :
  (table (or_db s) !! k = None → (∀ k' v', table (or_db s) !! k' = Some v' → compatible v' v = true) →
   Q (Ret tt) (set_or_db (set (<[k := v]> (table (or_db s))) (or_db s)) s)) →
  Q (Raise ORG_PERSISTENCE_CONFLICT) s →
  wp (org_insert (A:=A) table set compatible k v) Q s.
Proof.
  intros H1 H2. unfold org_insert, org_query, org_update. wp_run; [|done]. bools.
  apply H1; [done|]. intros k' v' Hk. rewrite forallb_elem in *.
  match goal with Hf : ∀ x, _ → _ = true |- _ => apply (Hf (k', v')) end.
  by apply elem_of_map_to_list.
Qed.
End Steps.

(** One step of a method of the repository *)
Ltac org_step :=
  lazymatch goal with
  | |- wp (org_id _) _ _ => apply wp_org_text; [intros ?|]
  | |- wp (org_text _ _) _ _ => apply wp_org_text; [intros ?|]
  | |- wp (org_query _) _ _ => apply wp_gets
  | |- wp (org_update _) _ _ => apply wp_modify
  | |- wp (auth_update _) _ _ => apply wp_modify
  | |- wp (emit _) _ _ => apply wp_modify
  | |- wp (sql_int _) _ _ => apply wp_guard; intros ?
  | |- wp (participate true _) _ _ => apply wp_org_transaction
  | |- wp (participate false _) _ _ => unfold participate
  | |- wp (org_transaction _) _ _ => apply wp_org_transaction
  | |- wp (org_insert _ _ _ _ _) _ _ => apply wp_org_insert; [intros ? ?|]
  | |- _ => wp_step
  end; cbn beta iota.
Ltac org_run := repeat org_step.

(** ** What each operation does to the tables *)

Section Effects.
Context {D : Digest} {W : World} {R : IsoReader} {A : Type}.
Implicit Types s : OrgState A.

(** A call leaves the audit store alone; what it changes when it returns is
    [Q]; in a transaction of its own it changes nothing when it raises. *)
Definition effect {B} (own : bool) s (Q : B → OrgDb → Prop) (o : outcome B) (s' : OrgState A) : Prop :=
  or_audit s' = or_audit s ∧
  match o with Ret b => Q b (or_db s') | Raise _ => own = true → or_db s' = or_db s end.

Lemma effect_mono {B} own s (Q Q' : B → OrgDb → Prop) o s' :
  (∀ b d, Q b d → Q' b d) → effect own s Q o s' → effect own s Q' o s'.
Proof. intros HQ [Ha H]. split; [done|]. destruct o; auto. Qed.

(** The rows of a table that an [INSERT] finds *)
Definition inserted `{Countable K} {V} (compatible : V → V → bool) (m : gmap K V) (k : K) (v : V)
    (m' : gmap K V) : Prop :=
  m !! k = None ∧ (∀ k' v', m !! k' = Some v' → compatible v' v = true) ∧ m' = <[k := v]> m.

Definition history_added (d d' : OrgDb) : Prop :=
  ∃ id row, role_history d !! id = None ∧ d' = set_role_history (<[id := row]> (role_history d)) d.

Lemma insert_history_effect row s :
  wp (insert_history row) (effect false s (λ _ d, history_added (or_db s) d)) s.
Proof.
  unfold insert_history. org_run; split; try done.
  eexists _, row. split; [|reflexivity]. done.
Qed.

Ltac effect_run := org_run; (split; [done|]); try done.

Lemma create_organization_request_effect applicant name identifier now s :
  wp (create_organization_request applicant name identifier now)
    (effect true s (λ r d', ∃ m,
      r = mkCreation (cr_request_id r) applicant name identifier PENDING None None 1 now now ∧
      inserted creations_compatible (creations (or_db s)) (cr_request_id r) r m ∧
      d' = set_creations m (or_db s))) s.
Proof.
  unfold create_organization_request, insert_creation. effect_run.
  eexists. split; [done|]. split; [|reflexivity]. by split_and!.
Qed.

Lemma decide_organization_request_effect request actor approved expected reason now s :
  wp (decide_organization_request request actor approved expected reason now)
    (effect true s (λ r' d', ∃ r, creations (or_db s) !! request = Some r ∧ cr_state r = PENDING ∧
      cr_version r = expected ∧ r' = decide_creation r (decided_state approved) reason actor now ∧
      d' = set_creations (<[request := r']> (creations (or_db s))) (or_db s))) s.
Proof.
  unfold decide_organization_request. effect_run.
  match goal with H : _ ≫= _ = Some _ |- _ => apply bind_Some in H as (r & Hr & Hg) end.
  case_match; simplify_eq. bools. by eexists.
Qed.

Definition invitation_created (d : OrgDb) (tenant created_by code : string) (expires max_uses : Z)
    (workspace : option string) (now : Z) (iv : InvitationCode) (d' : OrgDb) : Prop := ∃ m,
  iv = mkInvitation (iv_invitation_id iv) tenant created_by (code_digest code) expires max_uses 0
    INVITATION_ACTIVE 1 now now workspace ∧ 1 <= max_uses ∧ now < expires ∧
  inserted codes_differ (invitations d) (iv_invitation_id iv) iv m ∧ d' = set_invitations m d.

Lemma create_invitation_effect own tenant created_by code expires max_uses workspace now s :
  wp (create_invitation own tenant created_by code expires max_uses workspace now)
    (effect own s (invitation_created (or_db s) tenant created_by code expires max_uses workspace now)) s.
Proof.
  unfold create_invitation, insert_invitation. destruct own; effect_run; bools.
  all: eexists; split; [done|]; split; [done|]; split; [lia|]; split; [|reflexivity]; by split_and!.
Qed.

Definition invitation_revoked (d : OrgDb) (tenant invitation : string) (expected now : Z)
    (iv' : InvitationCode) (d' : OrgDb) : Prop := ∃ iv,
  invitations d !! invitation = Some iv ∧ iv_tenant_id iv = tenant ∧ iv_state iv = INVITATION_ACTIVE ∧
  iv_version iv = expected ∧ iv' = revoked iv now ∧
  d' = set_invitations (<[invitation := iv']> (invitations d)) d.

Lemma revoke_invitation_effect own tenant invitation actor expected now s :
  wp (revoke_invitation own tenant invitation actor expected now)
    (effect own s (invitation_revoked (or_db s) tenant invitation expected now)) s.
Proof.
  unfold revoke_invitation. destruct own; effect_run.
  all: match goal with H : _ ≫= _ = Some _ |- _ => apply bind_Some in H as (r & Hr & Hg) end.
  all: case_match; simplify_eq; bools; by eexists.
Qed.

(** A new request names an open invitation of its tenant, or none. *)
Definition invited (d : OrgDb) (now : Z) (r : OrganizationJoinRequest) (code : option string) : Prop :=
  match code with
  | None => jr_invitation_id r = None
  | Some code => ∃ iv, invitation_by_code d code = Some iv ∧ iv_tenant_id iv = jr_tenant_id r ∧
      invitation_open now iv = true ∧ jr_invitation_id r = Some (iv_invitation_id iv)
  end.

Definition join_requested (d : OrgDb) (tenant user : string) (code : option string) (now : Z)
    (r : OrganizationJoinRequest) (d' : OrgDb) : Prop := ∃ m,
  r = mkJoin (jr_request_id r) tenant user (jr_invitation_id r) PENDING None None 1 now now ∧
  invited d now r code ∧ inserted joins_compatible (joins d) (jr_request_id r) r m ∧ d' = set_joins m d.

Lemma create_join_request_effect own tenant user code now s :
  wp (create_join_request own tenant user code now)
    (effect own s (λ r d', join_requested (or_db s) tenant user code now r d')) s.
Proof.
  unfold create_join_request, insert_join. destruct own, code as [code|]; effect_run.
  all: eexists; split; [done|]; split; [|split; [by split_and!|reflexivity]]; try done.
  all: match goal with H : _ ≫= _ = Some _ |- _ => apply bind_Some in H as (iv & Hiv & Hg) end.
  all: case_match; simplify_eq; bools; by eexists.
Qed.

Lemma create_join_request_by_invitation_effect own user code now s :
  wp (create_join_request_by_invitation own user code now)
    (effect own s (λ r d', join_requested (or_db s) (jr_tenant_id r) user (Some code) now r d')) s.
Proof.
  unfold create_join_request_by_invitation, insert_join. destruct own; effect_run.
  all: eexists; split; [done|]; split; [|split; [by split_and!|reflexivity]].
  all: match goal with H : _ ≫= _ = Some _ |- _ => apply bind_Some in H as (iv & Hiv & Hg) end.
  all: case_match; simplify_eq; by eexists.
Qed.

(** The use an approval takes of the request's invitation *)
Definition invitation_used (d : OrgDb) (now : Z) (r : OrganizationJoinRequest) (d' : OrgDb) : Prop :=
  match jr_invitation_id r with
  | None => d' = d
  | Some i => ∃ iv, invitations d !! i = Some iv ∧ invitation_open now iv = true ∧
      d' = set_invitations (<[i := used iv now]> (invitations d)) d
  end.

Definition with_join (request : string) (r : OrganizationJoinRequest) (d : OrgDb) : OrgDb :=
  set_joins (<[request := r]> (joins d)) d.
Definition with_member (tenant user : string) (tm : TenantMembership) (d : OrgDb) : OrgDb :=
  set_members (<[(tenant, user) := tm]> (members d)) d.

Definition join_decided (d : OrgDb) (request actor : string) (approved : bool) (reason : option string)
    (role : string) (now : Z) (r r' : OrganizationJoinRequest) (d' : OrgDb) : Prop :=
  r' = decide_join r (decided_state approved) reason actor now ∧
  if approved then ∃ d1, invitation_used d now r d1 ∧
    history_added (with_member (jr_tenant_id r) (jr_user_id r)
      (approved_member (members d !! (jr_tenant_id r, jr_user_id r)) (jr_tenant_id r) (jr_user_id r) role now)
      (with_join request r' d1)) d'
  else d' = with_join request r' d.

Lemma wp_use_invitation r now s (Q : outcome unit → OrgState A → Prop) :
  (∀ d', invitation_used (or_db s) now r d' → Q (Ret tt) (set_or_db d' s)) →
  Q (Raise INVITATION_INVALID) s →
  wp (use_invitation r now) Q s.
Proof.
  intros HQ HR. unfold invitation_used in HQ. unfold use_invitation. destruct (jr_invitation_id r) as [i|].
  - org_run; [|done].
    match goal with H : _ ≫= _ = Some _ |- _ => apply bind_Some in H as (iv & Hiv & Hg) end.
    case_match; simplify_eq. apply HQ. by eexists.
  - apply wp_ret. destruct s. by apply HQ.
Qed.

Lemma wp_insert_history row (Q : outcome unit → OrgState A → Prop) s :
  (∀ d' dr, history_added (or_db s) d' → Q (Ret tt) (mkOrg d' (or_sink s) (or_audit s) dr)) →
  (∀ e dr, Q (Raise e) (mkOrg (or_db s) (or_sink s) (or_audit s) dr)) →
  wp (insert_history row) Q s.
Proof.
  intros HQ HR. unfold insert_history. org_run; [|apply HR].
  apply HQ. by eexists _, _.
Qed.

Lemma decide_join_request_effect own request actor approved expected reason role now s :
  wp (decide_join_request own request actor approved expected reason role now)
    (effect own s (λ r' d', ∃ r, joins (or_db s) !! request = Some r ∧ pending_join expected r = true ∧
      join_decided (or_db s) request actor approved reason role now r r' d')) s.
Proof.
  unfold decide_join_request. destruct own; org_run; try done.
  all: repeat (first [apply wp_use_invitation; intros; org_run; try done
                     |apply wp_insert_history; intros; org_run; try done]).
  all: split; [done|]; try done.
  all: match goal with H : _ ≫= _ = Some _ |- _ => apply bind_Some in H as (r0 & Hr & Hg) end.
  all: case_match; simplify_eq.
  all: eexists; split; [done|]; split; [done|]; split; [done|]; simplify_eq/=; try done.
  all: eexists; split; [done|].
  all: unfold invitation_used in *; case_match; [|by subst].
  all: match goal with H : ∃ _, _ |- _ => destruct H as (? & ? & ? & ->) end; done.
Qed.

Lemma wp_find_member tenant user expected s (Q : outcome TenantMembership → OrgState A → Prop) :
  (∀ tm, members (or_db s) !! (tenant, user) = Some tm → tm_version tm = expected → Q (Ret tm) s) →
  Q (Raise MEMBERSHIP_CONFLICT) s →
  wp (find_member tenant user expected) Q s.
Proof.
  intros HQ HR. unfold find_member. org_run; [|done].
  match goal with H : _ ≫= _ = Some _ |- _ => apply bind_Some in H as (tm & Htm & Hg) end.
  case_match; simplify_eq. bools. by apply HQ.
Qed.

(** A change of one member, recorded in the history *)
Definition member_changed (d : OrgDb) (tenant user : string) (tm tm' : TenantMembership) (d' : OrgDb) : Prop :=
  members d !! (tenant, user) = Some tm ∧ history_added (with_member tenant user tm' d) d'.

Lemma set_tenant_membership_effect own tenant user actor state expected reason now s :
  wp (set_tenant_membership own tenant user actor state expected reason now)
    (effect own s (λ tm' d', ∃ tm, tm_version tm = expected ∧ tm' = with_member_state tm state now ∧
      member_changed (or_db s) tenant user tm tm' d')) s.
Proof.
  unfold set_tenant_membership. destruct own; org_run; try done.
  all: apply wp_find_member; [intros tm Htm Hv|]; unfold write_member; org_run; try done.
  all: apply wp_insert_history; intros; org_run; try done.
  all: split; [done|]; by exists tm.
Qed.

Lemma change_role_effect own tenant user actor role expected reason now s :
  wp (change_role own tenant user actor role expected reason now)
    (effect own s (λ tm' d', ∃ tm, tm_version tm = expected ∧ tm' = with_member_role tm role now ∧
      member_changed (or_db s) tenant user tm tm' d')) s.
Proof.
  unfold change_role. destruct own; org_run; try done.
  all: apply wp_find_member; [intros tm Htm Hv|]; unfold write_member; org_run; try done.
  all: apply wp_insert_history; intros; org_run; try done.
  all: split; [done|]; by exists tm.
Qed.

(** *** Access to the workspace that was joined *)

Definition is_organization (d : OrgDb) (tenant workspace : string) : Prop :=
  ∃ w, find_workspace (auth d) tenant workspace = Some w ∧ wk_workspace_kind w = "organization".

Lemma wp_organization_workspace tenant workspace s (Q : outcome WorkspaceRow → OrgState A → Prop) :
  (∀ w, find_workspace (auth (or_db s)) tenant workspace = Some w → wk_workspace_kind w = "organization" →
     Q (Ret w) s) →
  (∀ e, Q (Raise e) s) →
  wp (organization_workspace tenant workspace) Q s.
Proof.
  intros HQ HR. unfold organization_workspace. org_run; try apply HR.
  match goal with H : _ ≫= _ = Some _ |- _ => apply bind_Some in H as (w & Hw & Hg) end.
  case_match; simplify_eq. bools. by apply HQ.
Qed.

(** What lets a user join, and what they get *)
Record admissible (d : OrgDb) (tenant workspace user : string) : Prop := {
  am_workspace : is_organization d tenant workspace;
  am_tenant : tenant ∈ tenants d;
  am_user : ∃ u, users d !! user = Some u ∧ may_join u = true;
  am_fresh : no_role d tenant user = true
}.

Lemma bump_acl_memberships tenant workspace now d : memberships (bump_acl tenant workspace now d) = memberships d.
Proof. unfold bump_acl. by case_match. Qed.

Lemma wp_approve_join_access tenant workspace user now s (Q : outcome (option RoleRow) → OrgState A → Prop) :
  (admissible (or_db s) tenant workspace user →
   Q (Ret (Some (mkRoleRow VIEWER "active" 1 now)))
     (set_or_db (insert_access tenant workspace user now (or_db s)) s)) →
  (∀ e, Q (Raise e) s) →
  wp (approve_join_access tenant workspace user now) Q s.
Proof.
  intros HQ HR. unfold approve_join_access. org_run; try apply HR.
  apply wp_organization_workspace; [intros w Hw Hk|apply HR].
  org_run; try apply HR. bools. case_match; [|done]. simpl.
  rewrite bump_acl_memberships. simpl. rewrite lookup_insert_eq. apply HQ.
  constructor; [by exists w|done|by eexists|done].
Qed.

Lemma wp_read_join_access tenant workspace user s (Q : outcome (option RoleRow) → OrgState A → Prop) :
  (∀ tm, members (or_db s) !! (tenant, user) = Some tm → tm_join_workspace_id tm = Some workspace →
   Q (Ret (memberships (auth (or_db s)) !! (tenant, workspace, user))) s) →
  (∀ e, Q (Raise e) s) →
  wp (read_join_access tenant workspace user) Q s.
Proof.
  intros HQ HR. unfold read_join_access. org_run; try apply HR. bools.
  match goal with H : _ ≫= _ = Some _ |- _ => apply bind_Some in H as (tm & Htm & Hg) end. by eapply HQ.
Qed.

Lemma wp_change_join_role tenant workspace user role expected now s
    (Q : outcome (option RoleRow) → OrgState A → Prop) :
  (∀ next, join_role role = Some next → is_organization (or_db s) tenant workspace →
   role_changeable (or_db s) tenant workspace user expected = true →
   Q (Ret (Some (mkRoleRow next "active" (expected + 1) now)))
     (set_or_db (set_auth (write_access tenant workspace user next expected now (auth (or_db s))) (or_db s)) s)) →
  (∀ e d, Q (Raise e) (set_or_db d s)) →
  wp (change_join_role tenant workspace user role expected now) Q s.
Proof.
  intros HQ HR. assert (∀ e, Q (Raise e) s) as HR' by (intros e; specialize (HR e (or_db s)); by destruct s).
  unfold change_join_role. org_run; try apply HR'.
  apply wp_organization_workspace; [intros w Hw Hk|apply HR'].
  org_run; try apply HR'. apply wp_read_join_access; [|intros; apply HR].
  intros tm Htm Hj. simpl. unfold write_access at 1. rewrite bump_acl_memberships. simpl. rewrite lookup_insert_eq.
  apply HQ; [done|by exists w|done].
Qed.

(** ** The row a management operation starts from *)

Definition scoped (d : OrgDb) (op : Operation) (arg target : option string) (tenant : string)
    (workspace : option string) (original : Original) : Prop :=
  organization_id tenant = true ∧
  match op, original with
  | InvitationCreate _ _ _ w, NoRow => arg = Some tenant ∧ workspace = w
  | JoinCreate None, NoRow => arg = Some tenant ∧ workspace = None
  | JoinCreate (Some code), InvitationRow iv =>
      organization_id code = true ∧ invitation_by_code d code = Some iv ∧ iv_tenant_id iv = tenant ∧
      (arg = None ∨ arg = Some tenant) ∧ workspace = iv_workspace_id iv
  | InvitationRevoke _, InvitationRow iv => arg = Some tenant ∧ iv_tenant_id iv = tenant ∧
      (target ≫= λ t, invitations d !! t) = Some iv ∧ workspace = iv_workspace_id iv
  | JoinDecide _ _ _ _, JoinRow r => arg = Some tenant ∧ jr_tenant_id r = tenant ∧
      (target ≫= λ t, joins d !! t) = Some r ∧
      workspace = jr_invitation_id r ≫= scope_of_invitation d
  | (MemberRole _ _ _ _ _ | MemberState _ _ _), MemberRow tm => arg = Some tenant ∧
      (target ≫= λ u, members d !! (tenant, u)) = Some tm ∧ workspace = tm_join_workspace_id tm
  | _, _ => False
  end.

Lemma wp_management_scope op actor arg target s
    (Q : outcome (string * option string * Original) → OrgState A → Prop) :
  (∀ tenant workspace original, scoped (or_db s) op arg target tenant workspace original →
   Q (Ret (tenant, workspace, original)) s) →
  (∀ e, Q (Raise e) s) →
  wp (management_scope op actor arg target) Q s.
Proof.
  intros HQ HR. unfold management_scope. destruct op as [code ex mu w|v|[code|]|ap v rs rl|rl w v av rs|ac v rs].
  all: org_run; try apply HR; apply HQ; split; try done; simpl in *; simplify_eq; bools.
  all: repeat match goal with
  | H : _ ≫= _ = Some _ |- _ => apply bind_Some in H as (? & ? & ?)
  | H : (if _ then _ else _) = Some _ |- _ => case_match; simplify_eq
  end; bools; simplify_eq/=.
  all: repeat match goal with
  | H : ?x = Some _ |- context [?x] => rewrite H; simpl
  end.
  all: by split_and!; try done; case_match.
Qed.

Lemma guard_true {T} e (s : T) : guard true e s = (s, Ret tt).
Proof. done. Qed.

(** It succeeds whenever the row is there, and then on that row. *)
Lemma management_scope_found op actor arg target tenant workspace original s :
  scoped (or_db s) op arg target tenant workspace original →
  management_scope op actor arg target s = (s, Ret (tenant, workspace, original)).
Proof.
  intros [Ht H]. unfold management_scope, org_id, org_text, org_query.
  destruct op as [code ex mu w|v|[code|]|ap v rs rl|rl w v av rs|ac v rs], original as [|iv|r|tm]; try done.
  all: destruct_and?; subst; unfold bind, gets, ret, guard, from_option; simpl.
  all: repeat (first [rewrite bool_decide_true by tauto
    |match goal with H : organization_id _ = true |- _ => rewrite H | H : _ = Some _ |- _ => rewrite H end]; simpl).
  all: by try case_match.
Qed.

(** ** What a management operation does *)

(** An approval: the request, its invitation, the membership and the access *)
Definition join_approved (d : OrgDb) (request actor tenant workspace : string) (reason : option string)
    (now : Z) (r r' : OrganizationJoinRequest) (d' : OrgDb) : Prop :=
  let user := jr_user_id r in
  is_Some (jr_invitation_id r) ∧ members d !! (tenant, user) = None ∧ admissible d tenant workspace user ∧
  ∃ d1, join_decided d request actor true reason "member" now r r' d1 ∧
    d' = with_member tenant user (mkMember tenant user "member" MEMBER_ACTIVE 1 now (Some workspace))
      (insert_access tenant workspace user now d1).

(** A change of the role in the joined workspace *)
Definition access_changed (d : OrgDb) (tenant user workspace role : string) (expected expected_auth now : Z)
    (tm' : TenantMembership) (next : Role) (d' : OrgDb) : Prop := ∃ tm,
  members d !! (tenant, user) = Some tm ∧ tm_version tm = expected ∧
  tm_join_workspace_id tm = Some workspace ∧ join_role role = Some next ∧
  is_organization d tenant workspace ∧ role_changeable d tenant workspace user expected_auth = true ∧
  tm' = with_member_role tm (tm_role tm) now ∧
  d' = with_member tenant user tm'
    (set_auth (write_access tenant workspace user next expected_auth now (auth d)) d).

(** What an operation does to the tables, the item it returns and the access *)
Definition performed (op : Operation) (actor tenant target : string) (workspace : option string)
    (original : Original) (now : Z) (d : OrgDb) (item : Item) (access : option (option RoleRow))
    (d' : OrgDb) : Prop :=
  match op, original with
  | InvitationCreate code expires max_uses _, _ => ∃ iv,
      invitation_created d tenant actor code expires max_uses workspace now iv d' ∧
      item = invitation_dict iv ∧ access = None
  | InvitationRevoke expected, _ => ∃ iv, invitation_revoked d tenant target expected now iv d' ∧
      item = invitation_dict iv ∧ access = None
  | JoinCreate code, _ => ∃ r w, workspace = Some w ∧ is_organization d tenant w ∧
      join_requested d tenant actor code now r d' ∧ item = join_dict r ∧ access = None
  | JoinDecide approved expected reason role, JoinRow r => pending_join expected r = true ∧ ∃ r',
      item = join_dict r' ∧
      if approved then role = "member" ∧ ∃ w, workspace = Some w ∧
        join_approved d target actor tenant w reason now r r' d' ∧
        access = Some (Some (mkRoleRow VIEWER "active" 1 now))
      else join_decided d target actor false reason role now r r' d' ∧ access = None
  | MemberRole role wanted expected expected_auth _, MemberRow tm => workspace = Some wanted ∧ ∃ tm' next,
      access_changed d tenant target wanted role expected expected_auth now tm' next d' ∧
      access = Some (Some (mkRoleRow next "active" (expected_auth + 1) now)) ∧
      item = with_access (member_dict tm') (Some (mkRoleRow next "active" (expected_auth + 1) now))
  | MemberState active expected _, MemberRow tm => tm_version tm = expected ∧
      let tm' := with_member_state tm (if active then MEMBER_ACTIVE else MEMBER_SUSPENDED) now in
      member_changed d tenant target tm tm' d' ∧
      match workspace with
      | None => access = None ∧ item = member_dict tm'
      | Some w => let a := memberships (auth d) !! (tenant, w, target) in
          access = Some a ∧ item = with_access (member_dict tm') a
      end
  | _, _ => False
  end.

(** Of a call inside another transaction: what it raises does not matter. *)
Lemma wp_effect {B} (m : M (OrgState A) B) (Q : B → OrgDb → Prop) (P : outcome B → OrgState A → Prop) s :
  wp m (effect false s Q) s →
  (∀ b s', Q b (or_db s') → or_audit s' = or_audit s → P (Ret b) s') →
  (∀ e s', or_audit s' = or_audit s → P (Raise e) s') →
  wp m P s.
Proof. intros Hm HP HR. eapply wp_mono; [|exact Hm]. intros [b|e] s' [Ha H]; auto. Qed.

Lemma history_added_db d d' : history_added d d' →
  ∃ h, d' = set_role_history h d.
Proof. intros (id & row & _ & ->). by eexists. Qed.

Lemma admissible_decided d request actor reason role now r r' d1 tenant workspace user :
  join_decided d request actor true reason role now r r' d1 →
  admissible d1 tenant workspace user → admissible d tenant workspace user.
Proof.
  intros (_ & d0 & Hu & (h & ->)%history_added_db). unfold invitation_used in Hu.
  case_match; [destruct Hu as (iv & _ & _ & ->)|subst d0]; by intros [].
Qed.

Lemma wp_raising {B} e (m : M (OrgState A) B) (Q : outcome unit → OrgState A → Prop) s :
  wp m (λ o s', match o with Ret _ => Q (Ret tt) s' | Raise _ => Q (Raise e) s' end) s →
  wp (raising e m) Q s.
Proof. unfold wp, raising. by destruct (m s) as [s' [b|e']]. Qed.

(** The membership an approval leaves *)
Lemma join_decided_member d request actor reason role now r r' d1 :
  join_decided d request actor true reason role now r r' d1 →
  members d1 !! (jr_tenant_id r, jr_user_id r) =
    Some (approved_member (members d !! (jr_tenant_id r, jr_user_id r)) (jr_tenant_id r) (jr_user_id r) role now).
Proof. intros (_ & d0 & _ & (h & ->)%history_added_db). simpl. by rewrite lookup_insert_eq. Qed.

Lemma perform_effect op actor arg target tenant workspace original now s :
  scoped (or_db s) op arg target tenant workspace original →
  wp (perform op actor tenant (default "" target) workspace original now) (λ o s', or_audit s' = or_audit s ∧
    match o with
    | Ret (item, before, access) =>
        performed op actor tenant (default "" target) workspace original now (or_db s) item access (or_db s')
    | Raise _ => True
    end) s.
Proof.
  intros [_ Hs]. unfold perform.
  destruct op as [code ex mu w|v|code|ap v rs rl|rl w v av rs|ac v rs].
  - apply wp_bind. eapply wp_effect; [apply create_invitation_effect| |done].
    intros iv s' He Ha. split; [done|]. by exists iv.
  - apply wp_bind. eapply wp_effect; [apply revoke_invitation_effect| |done].
    intros iv s' He Ha. split; [done|]. by exists iv.
  - destruct workspace as [w|]; [|by org_run; destruct original].
    apply wp_bind, wp_from_option; [intros w' Hw'|done]. assert (w' = w) as -> by (destruct original; congruence).
    apply wp_bind, wp_raising, wp_organization_workspace; [intros w0 Hw0 Hk|done].
    assert (is_organization (or_db s) tenant w) as Hw by by exists w0.
    org_run; try done. eapply wp_effect; [apply create_join_request_effect| |done].
    intros r s' He Ha. split; [done|]. by exists r, w.
  - destruct original as [|iv|r|tm]; try done. destruct Hs as (-> & Ht & Hr & ->).
    destruct target as [target|]; [|done]. simpl in Hr |- *.
    org_run; try done.
    all: case_match; simplify_eq.
    all: eapply wp_effect; [apply decide_join_request_effect| |done].
    all: intros r' s' (r0 & Hr0 & Hp & Hd) Ha; simplify_eq/=.
    2: { org_run. split; [done|]. split; [done|]. by exists r'. }
    bools. rename a into r. destruct (jr_invitation_id r ≫= _) as [w|] eqn:Hw; [|by destruct (is_Some_None (A:=string))].
    org_run. apply wp_approve_join_access; [intros Had|done]. org_run; [|done].
    match goal with Hm : _ ≫= _ = Some _ |- _ => rename Hm into Hfound end. simpl in Hfound.
    rewrite (join_decided_member _ _ _ _ _ _ _ _ _ Hd) in Hfound. subst.
    match goal with Hm : members _ !! _ = None |- _ => rename Hm into Hnew end.
    rewrite Hnew in Hfound. simpl in Hfound. simplify_eq. simpl.
    split; [done|]. split; [done|]. exists r'. split; [done|]. split; [done|]. exists w. split_and!; [done| |done].
    split_and!; [done|done|by eapply admissible_decided|]. by exists (or_db s').
  - destruct original as [|iv|r|tm]; try done. destruct Hs as (-> & Ht & ->).
    destruct target as [target|]; [|done]. simpl in Ht |- *.
    org_run; try done. case_match; simplify_eq. bools. subst.
    apply wp_read_join_access; [intros tm0 Htm0 Hj|done]. org_run.
    apply wp_change_join_role; [intros next Hn Ho Hc|done]. org_run.
    apply wp_find_member; [simpl; intros tm1 Htm1 Hv|done]. unfold write_member. org_run; [|done].
    simplify_eq. bools. split; [done|]. split; [done|]. eexists _, next. split_and!; [|done|done].
    by exists a0.
  - destruct original as [|iv|r|tm]; try done. destruct Hs as (-> & Ht & ->).
    destruct target as [target|]; [|done]. simpl in Ht |- *.
    apply wp_bind. eapply wp_effect; [apply set_tenant_membership_effect| |done].
    intros tm' s' (tm0 & Hv & -> & Hm) Ha. pose proof Hm as (Htm0 & (h & Hd)%history_added_db). simplify_eq.
    destruct (tm_join_workspace_id tm) as [w|]; org_run; [|by split_and!].
    apply wp_read_join_access; [intros tm1 Htm1 Hj|done]. org_run.
    assert (auth (or_db s') = auth (or_db s)) as -> by by rewrite Hd. by split_and!.
Qed.
End Effects.

(** ** The view of an item *)

Section Views.
Context {R : IsoReader}.

(** [v] is what [_management_view] makes of the dictionary. *)
Definition viewed (op : Operation) (data : Item) (v : View) : Prop :=
  let '(data, allowed) := view_shape op data in
  dom data = allowed ∧
  ∀ k, match data !! k with
       | Some c => ∃ j, view_cell k c = Ret j ∧ v !! k = Some j
       | None => v !! k = None
       end.

Lemma wp_management_view {T} op data (s : T) (Q : outcome View → T → Prop) :
  (∀ v, viewed op data v → Q (Ret v) s) → (∀ e, Q (Raise e) s) →
  wp (management_view op data) Q s.
Proof.
  unfold management_view, viewed. destruct (view_shape op data) as [d allowed]. intros HQ HR.
  apply wp_bind, wp_guard; intros Hd; [|apply HR]. bools. apply wp_bind.
  set (l := sort_stable _ _).
  assert (wp (mfor l (λ kc, from_outcome (view_cell kc.1 kc.2) ;; ret tt))
    (λ o s', s' = s ∧ match o with
     | Ret _ => ∀ kc, kc ∈ l → ∃ j, view_cell kc.1 kc.2 = Ret j
     | Raise _ => True
     end) s) as Hl.
  { clear HQ HR. induction l as [|kc l IH]; simpl; [apply wp_ret; split; [done|intros kc H; by inversion H]|].
    apply wp_bind, wp_bind. unfold from_outcome. destruct (view_cell kc.1 kc.2) as [j|e] eqn:Hj; [|done].
    apply wp_ret, wp_ret. eapply wp_mono; [|exact IH]. intros o s' [-> Ho]. split; [done|].
    destruct o; [|done]. intros kc' [->|Hin]%elem_of_cons; [by exists j|auto]. }
  eapply wp_mono; [|exact Hl]. intros o s' [-> Ho]. destruct o as [u|e]; [|apply HR]. apply wp_ret, HQ.
  split; [done|]. intros k. rewrite map_lookup_imap. destruct (d !! k) as [c|] eqn:Hk; [|done].
  destruct (Ho (k, c)) as [j Hj].
  { unfold l. rewrite sort_stable_perm. by apply elem_of_map_to_list. }
  exists j. simpl in Hj |- *. by rewrite Hj.
Qed.

Lemma viewed_unique op data v v' : viewed op data v → viewed op data v' → v = v'.
Proof.
  unfold viewed. destruct (view_shape op data) as [d allowed]. intros [_ H] [_ H']. apply map_eq. intros k.
  specialize (H k). specialize (H' k). destruct (d !! k); [|congruence].
  destruct H as (j & Hj & ->), H' as (j' & Hj' & ->). congruence.
Qed.

Lemma management_view_viewed {T} op data v (s : T) :
  viewed op data v → management_view op data s = (s, Ret v).
Proof.
  unfold viewed, management_view. destruct (view_shape op data) as [d allowed]. intros [Hd Hv].
  rewrite (bind_Ret _ _ s s tt) by (apply guard_Ret; by apply bool_decide_eq_true).
  rewrite (bind_Ret _ _ s s tt).
  - unfold ret. repeat f_equal. apply map_eq. intros k. rewrite map_lookup_imap. specialize (Hv k).
    destruct (d !! k) as [c|]; simpl; [|done]. destruct Hv as (j & -> & ->). done.
  - apply (mfor_Ret_iff _ _ (λ kc, d !! kc.1 = Some kc.2)).
    + intros [k c] Hin. rewrite sort_stable_perm in Hin. apply elem_of_map_to_list in Hin. simpl.
      specialize (Hv k). rewrite Hin in Hv. destruct Hv as (j & -> & _). done.
    + intros kc t. unfold from_outcome, bind. by destruct (view_cell _ _).
    + intros [k c] Hin. rewrite sort_stable_perm in Hin. by apply elem_of_map_to_list in Hin.
Qed.

(** The texts of the times in a view read back as themselves. *)
Definition times_read (v : View) : Prop := ∀ k j,
  endswith "_at" k = true → v !! k = Some j →
  ∃ t off, j = JStr (iso_micros t) ∧ fromisoformat (iso_micros t) = Some (t, Some off).

(** Viewing what was stored gives it back. *)
Lemma viewed_stored op data v : viewed op data v → times_read v → viewed op (stored v) v.
Proof.
  intros Hv Ht. unfold viewed in *. destruct (view_shape op data) as [d allowed] eqn:Hs. destruct Hv as [Hd Hv].
  assert (dom v = allowed) as Hdv.
  { subst. apply set_eq. intros k. rewrite !elem_of_dom. specialize (Hv k).
    destruct (d !! k); [destruct Hv as (? & _ & ->)|rewrite Hv]; split; intros [? ?]; done. }
  assert (view_shape op (stored v) = (stored v, allowed)) as ->.
  { unfold view_shape in *. assert (∀ k, k ∈ allowed → default_cell k (stored v) = stored v) as Hdef.
    { intros k Hk. rewrite <- Hdv in Hk. apply elem_of_dom in Hk as [j Hj]. unfold default_cell, stored.
      by rewrite lookup_fmap, Hj. }
    destruct op; injection Hs as <- <-; try done.
    1-2: rewrite delete_id; [by rewrite (Hdef "workspace_id") by (unfold invitation_fields; set_solver)|].
    1-2: unfold stored; rewrite lookup_fmap; apply fmap_None, not_elem_of_dom; rewrite Hdv.
    1-2: unfold invitation_fields; set_solver.
    all: simpl; rewrite (Hdef "access_version"), (Hdef "access_state"), (Hdef "access_role"),
      (Hdef "join_workspace_id") by (unfold member_fields; set_solver); done. }
  split; [unfold stored; by rewrite dom_fmap_L|].
  intros k. unfold stored. rewrite lookup_fmap. specialize (Hv k).
  destruct (v !! k) as [j|] eqn:Hk; simpl; [|done]. exists j. split; [|done].
  destruct (d !! k) as [c|]; [|done]. destruct Hv as (j' & Hj & [= <-]).
  specialize (Ht k j). unfold view_cell in *. destruct (endswith "_at" k).
  - destruct (Ht eq_refl Hk) as (t & off & -> & Hread). simpl. by rewrite Hread.
  - destruct c as [t|w]; simpl in *; repeat (case_match; simplify_eq; try done).
Qed.
End Views.

(** ** Management operations *)

Section Management.
Context {D : Digest} {W : World} {R : IsoReader} {H : HostParser} {A : Type}.
Implicit Types s : OrgState A.

(** A replay passed the checks on the value it returns. *)
Definition replayable (op : Operation) (actor tenant : string) (target : option string) (v : View) : Prop :=
  text_at "tenant_id" v = Some tenant ∧ (target = None ∨ text_at (target_key op) v = target) ∧
  match op with
  | JoinCreate _ => text_at "user_id" v = Some actor
  | InvitationCreate _ _ _ _ => text_at "created_by" v = Some actor
  | _ => True
  end.

Lemma wp_replay op actor tenant target v s (Q : outcome (View * bool) → OrgState A → Prop) :
  (replayable op actor tenant target v → Q (Ret (v, true)) s) → Q (Raise KEY_REUSED) s →
  wp (replay op actor tenant target v) Q s.
Proof.
  intros HQ HR. unfold replay. apply wp_bind, wp_guard; intros Hg; [|done]. apply wp_ret, HQ.
  apply andb_true_iff in Hg as [[Ht [Hx|Hx]%orb_true_iff]%andb_true_iff Ho].
  all: split_and!; [by bools|bools; tauto|]; destruct op; bools; done.
Qed.

Lemma replay_replayable op actor tenant target v s :
  replayable op actor tenant target v → replay op actor tenant target v s = (s, Ret (v, true)).
Proof.
  intros (Ht & Hx & Ho). unfold replay. rewrite (bind_Ret _ _ s s tt); [done|]. apply guard_Ret.
  rewrite (bool_decide_eq_true_2 _ Ht). simpl. apply andb_true_iff. split.
  - apply orb_true_iff. destruct Hx as [Hx|Hx]; [left|right]; by apply bool_decide_eq_true_2.
  - destruct op; try done; by apply bool_decide_eq_true_2.
Qed.

Lemma wp_record key tenant target fingerprint value audit now trace policy s
    (Q : outcome unit → OrgState A → Prop) :
  (∀ event_id dr, let row := mkOutbox tenant target fingerprint value event_id audit trace policy now None in
   outbox (or_db s) !! key = None →
   (∀ k row', outbox (or_db s) !! k = Some row' → ob_event_id row' ≠ event_id) →
   Q (Ret tt) (mkOrg (set_outbox (<[key := row]> (outbox (or_db s))) (or_db s)) (or_sink s) (or_audit s) dr)) →
  (∀ e dr, Q (Raise e) (mkOrg (or_db s) (or_sink s) (or_audit s) dr)) →
  wp (record_management_operation key tenant target fingerprint value audit now trace policy) Q s.
Proof.
  intros HQ HR. unfold record_management_operation.
  apply wp_bind, wp_new_id, wp_bind, wp_guard; intros Hg; [|apply HR].
  apply wp_org_insert; [intros Hk Hc|apply HR]. apply HQ; [done|].
  intros k row' Hrow. specialize (Hc _ _ Hrow). unfold events_differ in Hc. simpl in Hc. by bools.
Qed.

Abbreviation key_of op actor key := ((actor, operation_name op, key) : OpKey).

(** What a first call leaves *)
Definition executed (op : Operation) (actor : string) (arg target : option string)
    (key fingerprint trace policy : string) (d : OrgDb) (v : View) (d' : OrgDb) : Prop :=
  ∃ tenant workspace original now item before access d1 actual event_id,
    scoped d op arg target tenant workspace original ∧
    outbox d !! key_of op actor key = None ∧ idempotency d !! key_of op actor key = None ∧
    performed op actor tenant (default "" target) workspace original now d item access d1 ∧
    viewed op item v ∧ text_at (target_key op) v = Some actual ∧
    (∀ k row, outbox d1 !! k = Some row → ob_event_id row ≠ event_id) ∧
    let row := mkOutbox tenant actual fingerprint v event_id (audit_intent op workspace before v access)
      trace policy now None in
    d' = set_outbox (<[key_of op actor key := row]> (outbox d1)) d1.

(** What a repeated call has found *)
Definition recorded (op : Operation) (actor key fingerprint : string) (d : OrgDb) (v : View) : Prop :=
  (∃ row, outbox d !! key_of op actor key = Some row ∧ ob_request_fingerprint row = fingerprint ∧
     viewed op (stored (ob_response row)) v) ∨
  (outbox d !! key_of op actor key = None ∧ ∃ old l, idempotency d !! key_of op actor key = Some old ∧
     id_fingerprint old = fingerprint ∧ id_result old = JObj l ∧
     viewed op (list_to_map (map (λ kv, (kv.1, CJson kv.2)) l)) v).

Lemma scoped_again d op arg target tenant workspace original tenant' workspace' original' :
  scoped d op arg target tenant workspace original →
  scoped d op (Some tenant) target tenant' workspace' original' →
  tenant' = tenant ∧ workspace' = workspace ∧ original' = original.
Proof.
  intros [_ H1] [_ H2].
  destruct op as [code ex mu w|v|[code|]|ap v rs rl|rl w v av rs|ac v rs], original as [|iv|r|tm],
    original' as [|iv'|r'|tm']; try done; destruct_and?; simplify_eq; split_and!; congruence.
Qed.

Lemma execute_effect op actor arg target key fingerprint trace policy s :
  wp (execute_management_operation op actor arg target key fingerprint trace policy) (λ o s',
    or_audit s' = or_audit s ∧
    match o with
    | Ret (v, true) => s' = s ∧ recorded op actor key fingerprint (or_db s) v ∧
        ∃ tenant workspace original, scoped (or_db s) op arg target tenant workspace original ∧
          replayable op actor tenant target v
    | Ret (v, false) => executed op actor arg target key fingerprint trace policy (or_db s) v (or_db s')
    | Raise _ => or_db s' = or_db s
    end) s.
Proof.
  unfold execute_management_operation. org_run; try done.
  apply wp_management_scope; [intros tenant workspace original Hs|done]. simpl. org_run; try done.
  - bools. apply wp_management_view; [intros v Hv|done].
    apply wp_replay; [|done]. intros Hr. split; [done|]. split; [done|]. split; [|by eexists _, _, _].
    left. by eexists.
  - bools. unfold loaded. destruct (id_result _) eqn:Hres; org_run; try done.
    apply wp_management_view; [intros v Hv|done]. apply wp_replay; [|done].
    intros Hr. split; [done|]. split; [done|]. split; [|by eexists _, _, _]. right. split; [done|].
    by eexists _, _.
  - apply wp_management_scope; [intros t2 w2 o2 Hs2|done]. simpl.
    destruct (scoped_again _ _ _ _ _ _ _ _ _ _ Hs Hs2) as (-> & -> & ->).
    org_run; try done. eapply wp_mono; [|by eapply perform_effect].
    intros o s' [Ha Ho]. simpl in Ha. destruct o as [[[item before] access]|e]; [|done]. simpl in Ho. simpl.
    org_run. apply wp_management_view; [intros v Hv|done]. org_run; [|done].
    apply wp_record; [intros event_id dr row Hk Hid|done]. org_run. split; [done|].
    eexists tenant, workspace, original, _, item, before, access, (or_db s'), _, event_id.
    by split_and!.
Qed.
End Management.
