(* ===== verification/OrganizationTables.v ===== *)
(** The tables of organizations in every state that calls can reach.

    Every table is well formed ([org_wf]): an invitation has been used as often
    as requests that name it were approved, never more often than it allows; a
    request is pending or was decided once; nobody waits twice for one
    organization; a member was approved.  From there on rows stay and decisions
    are final ([later]). *)

From S2P Require Import Prelude Sha256 PyStr Json HashChain Bytes AuditLog License Authorization AuthorizationFacts.
From S2P Require Import Organization OrganizationFacts.
#[local] Open Scope Z_scope.

(** ** Well-formed tables *)

(** How many approved requests name the invitation *)
Definition uses (m : gmap string OrganizationJoinRequest) (i : string) : nat :=
  size (filter (λ kv, jr_state kv.2 = APPROVED ∧ jr_invitation_id kv.2 = Some i) m).

(** A request is as it was made, or was decided once. *)
Definition decision_ok (state : RequestState) (reason decided_by : option string) (version : Z) : Prop :=
  match state with
  | PENDING => version = 1 ∧ reason = None ∧ decided_by = None
  | APPROVED | REJECTED => version = 2 ∧ is_Some decided_by
  end.

Definition creation_ok (id : string) (r : OrganizationCreationRequest) : Prop :=
  cr_request_id r = id ∧ decision_ok (cr_state r) (cr_decision_reason r) (cr_decided_by r) (cr_version r).

Record invitation_ok (d : OrgDb) (i : string) (iv : InvitationCode) : Prop := {
  io_id : iv_invitation_id iv = i;
  io_used : iv_used_count iv = Z.of_nat (uses (joins d) i);
  io_bound : iv_used_count iv <= iv_max_uses iv;
  io_max : 1 <= iv_max_uses iv;
  io_state : iv_state iv ≠ INVITATION_EXPIRED;
  io_version : iv_version iv =
    1 + iv_used_count iv + (if decide (iv_state iv = INVITATION_ACTIVE) then 0 else 1)
}.

Record join_ok (d : OrgDb) (id : string) (r : OrganizationJoinRequest) : Prop := {
  jo_id : jr_request_id r = id;
  jo_decision : decision_ok (jr_state r) (jr_decision_reason r) (jr_decided_by r) (jr_version r);
  jo_invitation i : jr_invitation_id r = Some i →
    ∃ iv, invitations d !! i = Some iv ∧ iv_tenant_id iv = jr_tenant_id r
}.

(** The request that let somebody in *)
Definition approved_request (d : OrgDb) (tenant user : string) (r : OrganizationJoinRequest) : Prop :=
  (∃ id, joins d !! id = Some r) ∧ jr_state r = APPROVED ∧ jr_tenant_id r = tenant ∧ jr_user_id r = user.

Record member_ok (d : OrgDb) (k : string * string) (tm : TenantMembership) : Prop := {
  mo_key : (tm_tenant_id tm, tm_user_id tm) = k;
  mo_version : 1 <= tm_version tm;
  mo_request : ∃ r, approved_request d k.1 k.2 r;
  mo_workspace w : tm_join_workspace_id tm = Some w →
    ∃ r i, approved_request d k.1 k.2 r ∧ jr_invitation_id r = Some i ∧ scope_of_invitation d i = Some w
}.

Record org_wf (d : OrgDb) : Prop := {
  wf_creations : map_Forall creation_ok (creations d);
  wf_applicants i j r r' : creations d !! i = Some r → creations d !! j = Some r' →
    cr_state r = PENDING → cr_state r' = PENDING →
    cr_applicant_user_id r = cr_applicant_user_id r' → i = j;
  wf_invitations : map_Forall (invitation_ok d) (invitations d);
  wf_codes i j iv iv' : invitations d !! i = Some iv → invitations d !! j = Some iv' →
    iv_code_digest iv = iv_code_digest iv' → i = j;
  wf_joins : map_Forall (join_ok d) (joins d);
  wf_waiting i j r r' : joins d !! i = Some r → joins d !! j = Some r' →
    jr_state r = PENDING → jr_state r' = PENDING →
    jr_tenant_id r = jr_tenant_id r' → jr_user_id r = jr_user_id r' → i = j;
  wf_members : map_Forall (member_ok d) (members d);
  wf_events k k' row row' : outbox d !! k = Some row → outbox d !! k' = Some row' →
    ob_event_id row = ob_event_id row' → k = k'
}.

(** ** What stays *)

Definition creation_kept (r r' : OrganizationCreationRequest) : Prop :=
  cr_applicant_user_id r' = cr_applicant_user_id r ∧ (cr_state r ≠ PENDING → r' = r).

Definition join_kept (r r' : OrganizationJoinRequest) : Prop :=
  jr_tenant_id r' = jr_tenant_id r ∧ jr_user_id r' = jr_user_id r ∧
  jr_invitation_id r' = jr_invitation_id r ∧ (jr_state r ≠ PENDING → r' = r).

Definition invitation_kept (iv iv' : InvitationCode) : Prop :=
  iv_tenant_id iv' = iv_tenant_id iv ∧ iv_code_digest iv' = iv_code_digest iv ∧
  iv_workspace_id iv' = iv_workspace_id iv ∧ iv_expires_at iv' = iv_expires_at iv ∧
  iv_max_uses iv' = iv_max_uses iv ∧ iv_used_count iv <= iv_used_count iv' ∧
  (iv_state iv ≠ INVITATION_ACTIVE → iv' = iv).

Definition member_kept (tm tm' : TenantMembership) : Prop :=
  tm_version tm <= tm_version tm' ∧
  ∀ w, tm_join_workspace_id tm = Some w → tm_join_workspace_id tm' = Some w.

Definition outbox_kept (row row' : OutboxRow) : Prop :=
  row' = row ∨ ob_delivered_at row = None ∧ ∃ now, row' = delivered_row now row.

(** Every row of [m] is a row of [m'], changed as [R] allows. *)
Definition rows_kept `{Countable K} {V} (R : relation V) (m m' : gmap K V) : Prop :=
  ∀ k v, m !! k = Some v → ∃ v', m' !! k = Some v' ∧ R v v'.

Section RowsKept.
Context `{Countable K} {V : Type} (R : relation V).

Lemma rows_kept_refl `{!Reflexive R} (m : gmap K V) : rows_kept R m m.
Proof. intros k v Hk. by exists v. Qed.

Lemma rows_kept_trans `{!Transitive R} (m1 m2 m3 : gmap K V) :
  rows_kept R m1 m2 → rows_kept R m2 m3 → rows_kept R m1 m3.
Proof.
  intros H1 H2 k v Hk. destruct (H1 k v Hk) as (v2 & Hk2 & HR). destruct (H2 k v2 Hk2) as (v3 & Hk3 & HR').
  exists v3. split; [done|by etrans].
Qed.

Lemma rows_kept_insert `{!Reflexive R} (m : gmap K V) k v :
  match m !! k with Some v0 => R v0 v | None => True end → rows_kept R m (<[k := v]> m).
Proof.
  intros Hv k' v' Hk. destruct (decide (k = k')) as [<-|].
  - rewrite Hk in Hv. exists v. by rewrite lookup_insert_eq.
  - exists v'. by rewrite lookup_insert_ne.
Qed.
End RowsKept.

#[export] Instance creation_kept_preorder : PreOrder creation_kept.
Proof.
  split; [by intros r|]. intros r1 r2 r3 [H1 F1] [H2 F2]. split; [congruence|].
  intros Hs. specialize (F1 Hs). subst. auto.
Qed.
#[export] Instance join_kept_preorder : PreOrder join_kept.
Proof.
  split; [by intros r|]. intros r1 r2 r3 (H1 & H2 & H3 & F1) (H4 & H5 & H6 & F2). split_and!; try congruence.
  intros Hs. specialize (F1 Hs). subst. auto.
Qed.
#[export] Instance invitation_kept_preorder : PreOrder invitation_kept.
Proof.
  split; [by intros r|].
  intros r1 r2 r3 (H1 & H2 & H3 & H4 & H5 & H6 & F1) (G1 & G2 & G3 & G4 & G5 & G6 & F2).
  split_and!; try congruence; [lia|]. intros Hs. specialize (F1 Hs). subst. auto.
Qed.
#[export] Instance member_kept_preorder : PreOrder member_kept.
Proof. split; [by intros r|]. intros r1 r2 r3 [H1 G1] [H2 G2]. split; [lia|auto]. Qed.
#[export] Instance outbox_kept_preorder : PreOrder outbox_kept.
Proof.
  split; [by left|]. intros r1 r2 r3 [->|(H1 & n & ->)] [->|(H2 & n' & ->)]; [by left|right; eauto|right; eauto|done].
Qed.

Record later (d d' : OrgDb) : Prop := {
  la_creations : rows_kept creation_kept (creations d) (creations d');
  la_joins : rows_kept join_kept (joins d) (joins d');
  la_invitations : rows_kept invitation_kept (invitations d) (invitations d');
  la_members : rows_kept member_kept (members d) (members d');
  la_outbox : rows_kept outbox_kept (outbox d) (outbox d');
  la_idempotency : idempotency d ⊆ idempotency d'
}.

#[export] Instance later_preorder : PreOrder later.
Proof.
  split.
  - intros d. split; try done; apply rows_kept_refl; by intros ?.
  - intros d1 d2 d3 [] []. split; try (eapply rows_kept_trans; try done; apply _); try by etrans.
Qed.

(** ** What a change of one table needs *)

Section Later.
Context {D : Digest}.
Implicit Types d : OrgDb.

Lemma approved_later d d' tenant user r :
  later d d' → approved_request d tenant user r → approved_request d' tenant user r.
Proof.
  intros [] ([id Hid] & Hs & Ht & Hu). destruct (la_joins0 _ _ Hid) as (r' & Hr' & _ & _ & _ & Hk).
  rewrite Hk in Hr' by by rewrite Hs. by split; [exists id|].
Qed.

Lemma scope_later d d' i w :
  later d d' → scope_of_invitation d i = Some w → scope_of_invitation d' i = Some w.
Proof.
  intros [] (iv & Hiv & Hw)%bind_Some. destruct (la_invitations0 _ _ Hiv) as (iv' & Hiv' & _ & _ & Hk & _).
  unfold scope_of_invitation. rewrite Hiv'. simpl. congruence.
Qed.

Lemma member_ok_later d d' k tm : later d d' → member_ok d k tm → member_ok d' k tm.
Proof.
  intros Hl [Hk Hv [r Hr] Hw]. split; [done|done| |].
  - exists r. by eapply approved_later.
  - intros w (r' & i & Hr' & Hi & Hs)%Hw. exists r', i.
    split_and!; [by eapply approved_later|done|by eapply scope_later].
Qed.

Lemma join_ok_later d d' id r : later d d' → join_ok d id r → join_ok d' id r.
Proof.
  intros [] [Hid Hd Hi]. split; [done|done|]. intros i (iv & Hiv & Ht)%Hi.
  destruct (la_invitations0 _ _ Hiv) as (iv' & Hiv' & Hk & _). exists iv'. split; [done|congruence].
Qed.

Lemma invitation_ok_uses d d' i iv :
  uses (joins d') i = uses (joins d) i → invitation_ok d i iv → invitation_ok d' i iv.
Proof. intros Hu []. split; try done. by rewrite Hu. Qed.

(** The step keeps the tables well formed and their rows. *)
Definition good (d d' : OrgDb) : Prop := org_wf d → org_wf d' ∧ later d d'.

#[export] Instance good_preorder : PreOrder good.
Proof.
  split; [intros d Hd; by split|]. intros d1 d2 d3 H12 H23 Hd. destruct (H12 Hd) as [Hd2 ?].
  destruct (H23 Hd2). split; [done|by etrans].
Qed.

(** Tables of other components, and the history, may change in any way. *)
Lemma good_same d d' :
  creations d' = creations d → invitations d' = invitations d → joins d' = joins d →
  members d' = members d → outbox d' = outbox d → idempotency d ⊆ idempotency d' → good d d'.
Proof.
  intros Hc Hi Hj Hm Ho Hid [].
  assert (later d d') as Hl.
  { split; rewrite ?Hc, ?Hi, ?Hj, ?Hm, ?Ho; try done; apply rows_kept_refl; by intros ?. }
  split; [|done]. split; rewrite ?Hc, ?Hi, ?Hj, ?Hm, ?Ho; try done.
  - eapply map_Forall_impl; [done|]. intros i iv. apply invitation_ok_uses. by rewrite Hj.
  - eapply map_Forall_impl; [done|]. intros id r. by apply join_ok_later.
  - eapply map_Forall_impl; [done|]. intros k tm. by apply member_ok_later.
Qed.

Lemma good_history_added d d' : history_added d d' → good d d'.
Proof. intros (h & ->)%history_added_db. by apply good_same. Qed.

(** *** Requests for a new organization *)

(** Two rows of a table with one row put in are two old ones, or one of them is
    the new one. *)
Lemma lookup_insert_pair `{Countable K} {V} (m : gmap K V) k0 v0 i j v v' (P : Prop) :
  <[k0 := v0]> m !! i = Some v → <[k0 := v0]> m !! j = Some v' →
  (i ≠ k0 → j ≠ k0 → m !! i = Some v → m !! j = Some v' → P) →
  (j ≠ k0 → i = k0 → v = v0 → m !! j = Some v' → P) →
  (i ≠ k0 → j = k0 → v' = v0 → m !! i = Some v → P) →
  (i = j → P) → P.
Proof.
  intros Hi Hj H1 H2 H3 H4. destruct (decide (i = k0)) as [->|], (decide (j = k0)) as [->|].
  - by apply H4.
  - rewrite lookup_insert_eq in Hi. rewrite lookup_insert_ne in Hj by done. simplify_eq. by apply H2.
  - rewrite lookup_insert_eq in Hj. rewrite lookup_insert_ne in Hi by done. simplify_eq. by apply H3.
  - rewrite lookup_insert_ne in Hi by done. rewrite lookup_insert_ne in Hj by done. by apply H1.
Qed.

Lemma good_creations d m :
  rows_kept creation_kept (creations d) m →
  (org_wf d → map_Forall creation_ok m) →
  (org_wf d → ∀ i j r r', m !! i = Some r → m !! j = Some r' → cr_state r = PENDING → cr_state r' = PENDING →
     cr_applicant_user_id r = cr_applicant_user_id r' → i = j) →
  good d (set_creations m d).
Proof.
  intros Hk Hok Hu Hd.
  assert (later d (set_creations m d)) as Hl by (split; try done; apply rows_kept_refl; by intros ?).
  specialize (Hok Hd). specialize (Hu Hd). destruct Hd. split; [|done]. split; try done.
  - eapply map_Forall_impl; [done|]. intros i iv. by apply invitation_ok_uses.
  - eapply map_Forall_impl; [done|]. intros id r. by apply join_ok_later.
  - eapply map_Forall_impl; [done|]. intros k tm. by apply member_ok_later.
Qed.

Lemma good_creation_inserted d m r :
  cr_state r = PENDING → creation_ok (cr_request_id r) r →
  inserted creations_compatible (creations d) (cr_request_id r) r m → good d (set_creations m d).
Proof.
  intros Hp Hok (Hnew & Hc & ->).
  assert (∀ j r', creations d !! j = Some r' → cr_state r' = PENDING →
    cr_applicant_user_id r' ≠ cr_applicant_user_id r) as Hne.
  { intros j r' Hj Hp' He. specialize (Hc _ _ Hj). unfold creations_compatible in Hc.
    rewrite Hp, Hp', He, String.eqb_refl in Hc. done. }
  apply good_creations.
  - apply (rows_kept_insert _). by rewrite Hnew.
  - intros []. by apply map_Forall_insert_2.
  - intros [] i j r1 r2 Hi Hj Hp1 Hp2 He. eapply lookup_insert_pair; [exact Hi|exact Hj|..]; eauto.
    + intros _ _ -> Hj'. by destruct (Hne _ _ Hj').
    + intros _ _ -> Hi'. by destruct (Hne _ _ Hi').
Qed.

Lemma good_creation_decided d id r reason actor approved now :
  creations d !! id = Some r → cr_state r = PENDING →
  good d (set_creations (<[id := decide_creation r (decided_state approved) reason actor now]> (creations d)) d).
Proof.
  intros Hr Hp. apply good_creations.
  - apply (rows_kept_insert _). rewrite Hr. split; [done|]. by rewrite Hp.
  - intros []. apply map_Forall_insert_2; [|done]. destruct (wf_creations0 _ _ Hr) as [Hid Hok].
    rewrite Hp in Hok. destruct Hok as (Hv & _). split; [done|]. simpl. destruct approved; simpl; (split; [lia|done]).
  - intros [] i j r1 r2 Hi Hj Hp1 Hp2 He. eapply lookup_insert_pair; [exact Hi|exact Hj|..]; eauto.
    + intros _ _ -> _. by destruct approved.
    + intros _ _ -> _. by destruct approved.
Qed.

(** *** Invitations, requests to join, members *)

Definition codes_distinct (m : gmap string InvitationCode) : Prop := ∀ i j iv iv',
  m !! i = Some iv → m !! j = Some iv' → iv_code_digest iv = iv_code_digest iv' → i = j.

Definition nobody_waits_twice (m : gmap string OrganizationJoinRequest) : Prop := ∀ i j r r',
  m !! i = Some r → m !! j = Some r' → jr_state r = PENDING → jr_state r' = PENDING →
  jr_tenant_id r = jr_tenant_id r' → jr_user_id r = jr_user_id r' → i = j.

(** A change of these three tables, and of tables of other components *)
Lemma good_core d d' :
  creations d' = creations d → outbox d' = outbox d → idempotency d ⊆ idempotency d' →
  rows_kept invitation_kept (invitations d) (invitations d') → rows_kept join_kept (joins d) (joins d') →
  rows_kept member_kept (members d) (members d') →
  (org_wf d → later d d' → map_Forall (invitation_ok d') (invitations d') ∧ codes_distinct (invitations d') ∧
    map_Forall (join_ok d') (joins d') ∧ nobody_waits_twice (joins d') ∧
    map_Forall (member_ok d') (members d')) →
  good d d'.
Proof.
  intros Hc Ho Hid Hi Hj Hm H Hd.
  assert (later d d') as Hl.
  { split; rewrite ?Hc, ?Ho; try done; apply rows_kept_refl; by intros ?. }
  destruct (H Hd Hl) as (H1 & H2 & H3 & H4 & H5). destruct Hd. split; [|done]. split; rewrite ?Hc, ?Ho; done.
Qed.

Lemma codes_distinct_same m i iv iv' :
  codes_distinct m → m !! i = Some iv → iv_code_digest iv' = iv_code_digest iv →
  codes_distinct (<[i := iv']> m).
Proof.
  intros Hm Hi He j k r r' Hj Hk Hd. eapply lookup_insert_pair; [exact Hj|exact Hk|..]; eauto.
  - intros _ -> -> Hk'. symmetry. eapply Hm; [exact Hk'|exact Hi|congruence].
  - intros _ -> -> Hj'. eapply Hm; [exact Hj'|exact Hi|congruence].
Qed.

Lemma nobody_waits_decided m i r' :
  nobody_waits_twice m → jr_state r' ≠ PENDING → nobody_waits_twice (<[i := r']> m).
Proof.
  intros Hm Hs j k r1 r2 Hj Hk. intros. eapply lookup_insert_pair; [exact Hj|exact Hk|..]; eauto; congruence.
Qed.

Lemma members_later d d' (m : gmap (string * string) TenantMembership) :
  later d d' → map_Forall (member_ok d) m → map_Forall (member_ok d') m.
Proof. intros Hl Hm. eapply map_Forall_impl; [done|]. intros k tm. by apply member_ok_later. Qed.

Lemma joins_later d d' (m : gmap string OrganizationJoinRequest) : later d d' → map_Forall (join_ok d) m → map_Forall (join_ok d') m.
Proof. intros Hl Hm. eapply map_Forall_impl; [done|]. intros k tm. by apply join_ok_later. Qed.

Lemma invitations_uses d d' (m : gmap string InvitationCode) :
  joins d' = joins d → map_Forall (invitation_ok d) m → map_Forall (invitation_ok d') m.
Proof. intros Hj Hm. eapply map_Forall_impl; [done|]. intros k iv. apply invitation_ok_uses. by rewrite Hj. Qed.

(** An approved request whose invitation is not there has no uses. *)
Lemma uses_none d i :
  map_Forall (join_ok d) (joins d) → invitations d !! i = None → uses (joins d) i = 0%nat.
Proof.
  intros Hj Hi. unfold uses. apply map_size_empty_iff, map_empty_filter_2.
  intros k r Hr [_ Hri]. destruct (jo_invitation _ _ _ (Hj _ _ Hr) _ Hri) as (iv & Hiv & _). congruence.
Qed.

Lemma good_invitation_created d tenant created_by code expires max_uses workspace now iv d' :
  invitation_created d tenant created_by code expires max_uses workspace now iv d' → good d d'.
Proof.
  intros (m & Hiv & Hmax & Hexp & (Hnew & Hc & ->) & ->).
  apply good_core; try done; try (apply rows_kept_refl; by intros ?).
  - apply (rows_kept_insert _). by rewrite Hnew.
  - intros [] Hl. split_and!; try done; simpl; [| |by eapply joins_later|by eapply members_later].
    + apply map_Forall_insert_2; [|by apply (invitations_uses d)].
      rewrite Hiv. simpl. split; simpl; try done; [|lia].
      by rewrite (uses_none d).
    + intros i j r r' Hi Hj He. eapply lookup_insert_pair; [exact Hi|exact Hj|..]; eauto.
      * intros _ -> -> Hj'. specialize (Hc _ _ Hj'). unfold codes_differ in Hc. bools. congruence.
      * intros _ -> -> Hi'. specialize (Hc _ _ Hi'). unfold codes_differ in Hc. bools. congruence.
Qed.

Lemma good_invitation_revoked d tenant invitation expected now iv' d' :
  invitation_revoked d tenant invitation expected now iv' d' → good d d'.
Proof.
  intros (iv & Hiv & Ht & Hs & Hv & -> & ->).
  apply good_core; try done; try (apply rows_kept_refl; by intros ?).
  - apply (rows_kept_insert _). rewrite Hiv. by split_and!.
  - intros [] Hl. split_and!; try done; simpl; [| |by eapply joins_later|by eapply members_later].
    + apply map_Forall_insert_2; [|by apply (invitations_uses d)].
      destruct (wf_invitations0 _ _ Hiv) as [H1 H2 H3 H4 H5 H6]. rewrite Hs in H6. simpl in H6.
      split; simpl; try done. lia.
    + by eapply codes_distinct_same.
Qed.

Lemma uses_pending m k r i :
  m !! k = None → jr_state r = PENDING → uses (<[k := r]> m) i = uses m i.
Proof.
  intros Hk Hr. unfold uses. rewrite map_filter_insert_False, delete_id; [done|done|].
  simpl. rewrite Hr. by intros [? _].
Qed.

Lemma uses_decided m k r r' i :
  m !! k = Some r → jr_state r = PENDING → jr_invitation_id r' = jr_invitation_id r →
  uses (<[k := r']> m) i =
    (uses m i + if decide (jr_state r' = APPROVED ∧ jr_invitation_id r = Some i) then 1 else 0)%nat.
Proof.
  intros Hk Hr Hi. unfold uses.
  set (P := λ kv : string * OrganizationJoinRequest, jr_state kv.2 = APPROVED ∧ jr_invitation_id kv.2 = Some i).
  assert (filter P m !! k = None) as Hn.
  { apply map_lookup_filter_None. right. intros r0 Hr0 [Hs _]. simplify_eq/=. congruence. }
  case_decide as Hd.
  - rewrite map_filter_insert_True by (unfold P; simpl; by rewrite Hi). rewrite map_size_insert_None by done. lia.
  - rewrite map_filter_insert_False by (unfold P; simpl; by rewrite Hi). rewrite map_filter_delete.
    rewrite delete_id by done. lia.
Qed.

Lemma invitation_by_code_lookup d code iv :
  map_Forall (invitation_ok d) (invitations d) →
  invitation_by_code d code = Some iv →
  invitations d !! iv_invitation_id iv = Some iv ∧ iv_code_digest iv = code_digest code.
Proof.
  intros Hi ([i iv'] & Hf & ->)%fmap_Some. apply find_some in Hf as [Hin Hc]. simpl in *. bools.
  apply list_elem_of_In, elem_of_map_to_list in Hin. by rewrite (io_id _ _ _ (Hi _ _ Hin)).
Qed.

Lemma good_join_requested d tenant user code now r d' :
  join_requested d tenant user code now r d' → good d d'.
Proof.
  intros (m & Hr & Hinv & (Hnew & Hc & ->) & ->).
  assert (jr_state r = PENDING) as Hp by by rewrite Hr.
  apply good_core; try done; try (apply rows_kept_refl; by intros ?).
  - apply (rows_kept_insert _). by rewrite Hnew.
  - intros [] Hl. split_and!; simpl; [|done| | |by eapply members_later].
    + eapply map_Forall_impl; [done|]. intros i iv. apply invitation_ok_uses. simpl. by apply uses_pending.
    + apply map_Forall_insert_2; [|by eapply joins_later]. split; [done|by rewrite Hr|].
      intros i Hi. unfold invited in Hinv. destruct code as [code|]; [|congruence].
      destruct Hinv as (iv & Hf & Ht & _ & Hi'). rewrite Hi in Hi'. injection Hi' as ->. exists iv.
      split; [|done]. by apply (invitation_by_code_lookup d code iv).
    + intros i j r1 r2 Hi Hj. intros. eapply lookup_insert_pair; [exact Hi|exact Hj|..]; eauto.
      * intros _ -> -> Hj'. specialize (Hc _ _ Hj'). unfold joins_compatible in Hc.
        apply negb_true_iff in Hc. apply andb_false_iff in Hc as [Hc|Hc]; bools; [|congruence].
        apply andb_false_iff in Hc as [Hc|Hc]; bools; [|congruence].
        apply andb_false_iff in Hc as [Hc|Hc]; by bools.
      * intros _ -> -> Hj'. specialize (Hc _ _ Hj'). unfold joins_compatible in Hc.
        apply negb_true_iff in Hc. apply andb_false_iff in Hc as [Hc|Hc]; bools; [|congruence].
        apply andb_false_iff in Hc as [Hc|Hc]; bools; [|congruence].
        apply andb_false_iff in Hc as [Hc|Hc]; by bools.
Qed.

(** The tables after a decision *)
Lemma join_decided_kept d request actor approved reason role now r r' d' :
  joins d !! request = Some r → jr_state r = PENDING →
  join_decided d request actor approved reason role now r r' d' →
  joins d' = <[request := r']> (joins d) ∧ join_kept r r' ∧ jr_state r' = decided_state approved ∧
  creations d' = creations d ∧ outbox d' = outbox d ∧ idempotency d' = idempotency d ∧
  rows_kept invitation_kept (invitations d) (invitations d') ∧
  members d' = (if approved then <[(jr_tenant_id r, jr_user_id r) :=
    approved_member (members d !! (jr_tenant_id r, jr_user_id r)) (jr_tenant_id r) (jr_user_id r) role now]>
    (members d) else members d).
Proof.
  intros Hr Hp [-> Hd].
  assert (join_kept r (decide_join r (decided_state approved) reason actor now)) as Hk.
  { by split_and!. }
  destruct approved; [|subst; split_and!; try done; apply rows_kept_refl; by intros ?].
  destruct Hd as (d1 & Hu & (h & ->)%history_added_db). unfold invitation_used in Hu.
  destruct (jr_invitation_id r) as [i|]; [|subst; split_and!; try done; apply rows_kept_refl; by intros ?].
  destruct Hu as (iv & Hiv & Ho & ->). split_and!; try done. simpl. apply (rows_kept_insert _). rewrite Hiv.
  unfold invitation_open in Ho. bools. split_and!; try done. simpl. lia.
Qed.

(** A decision takes one use of the invitation, if it approves. *)
Lemma join_decided_invitations d request actor approved reason role now r r' d' :
  joins d !! request = Some r → jr_state r = PENDING → map_Forall (invitation_ok d) (invitations d) →
  codes_distinct (invitations d) →
  join_decided d request actor approved reason role now r r' d' →
  map_Forall (invitation_ok d') (invitations d') ∧ codes_distinct (invitations d').
Proof.
  intros Hr Hp Hok Hcodes Hd.
  destruct (join_decided_kept _ _ _ _ _ _ _ _ _ _ Hr Hp Hd) as (Hj & Hk & Hs & _).
  assert (∀ j, uses (joins d') j = (uses (joins d) j +
    if decide (approved = true ∧ jr_invitation_id r = Some j) then 1 else 0)%nat) as Hu.
  { intros j. rewrite Hj. rewrite (uses_decided _ _ r) by (done || apply Hk). rewrite Hs. f_equal.
    apply decide_ext. destruct approved; naive_solver. }
  assert (∀ j, ¬ (approved = true ∧ jr_invitation_id r = Some j) → ∀ iv, invitation_ok d j iv →
    invitation_ok d' j iv) as Hsame.
  { intros j Hn iv. apply invitation_ok_uses. rewrite Hu, decide_False by done. lia. }
  destruct Hd as [-> Hd]. destruct approved.
  2: { subst d'. split; [|done]. eapply map_Forall_impl; [done|]. intros j iv. apply Hsame. by intros []. }
  destruct Hd as (d1 & Hused & (h & ->)%history_added_db). unfold invitation_used in Hused. simpl.
  destruct (jr_invitation_id r) as [i|] eqn:Hi.
  2: { subst d1. split; [|done]. eapply map_Forall_impl; [done|]. intros j iv. apply Hsame. by intros []. }
  destruct Hused as (iv & Hiv & Ho & ->). split; [|by eapply codes_distinct_same].
  intros j ivj Hivj. simpl in Hivj. destruct (decide (i = j)) as [<-|Hne].
  - rewrite lookup_insert_eq in Hivj. injection Hivj as <-. destruct (Hok _ _ Hiv) as [H1 H2 H3 H4 H5 H6].
    unfold invitation_open in Ho. bools. specialize (Hu i). rewrite decide_True in Hu by done.
    split; simpl in *; try done; try lia.
  - rewrite lookup_insert_ne in Hivj by done. apply Hsame; [by intros [_ [= ->]]|by apply Hok].
Qed.

Lemma good_join_decided d request actor approved reason role now r r' d' expected :
  joins d !! request = Some r → pending_join expected r = true →
  join_decided d request actor approved reason role now r r' d' → good d d'.
Proof.
  intros Hr Hpj Hd. unfold pending_join in Hpj. bools.
  destruct (join_decided_kept _ _ _ _ _ _ _ _ _ _ Hr H Hd) as (Hj & Hk & Hs & Hc & Ho & Hid & Hi & Hm).
  apply good_core; try done; [by rewrite Hid|rewrite Hj; apply (rows_kept_insert _); by rewrite Hr| |].
  { rewrite Hm. destruct approved; [|apply rows_kept_refl; by intros ?].
    intros k v Hkv. destruct (decide (k = (jr_tenant_id r, jr_user_id r))) as [->|].
    - rewrite lookup_insert_eq, Hkv. eexists. split; [done|]. split; simpl; [lia|done].
    - rewrite lookup_insert_ne by done. by exists v. }
  intros [] Hl. destruct (wf_joins0 _ _ Hr) as [Hid1 Hdec Hji]. rewrite H in Hdec. destruct Hdec as (Hv & _).
  destruct (join_decided_invitations _ _ _ _ _ _ _ _ _ _ Hr H wf_invitations0 wf_codes0 Hd) as [Hi1 Hi2].
  split_and!; [done|done| | |].
  - rewrite Hj. apply map_Forall_insert_2; [|by eapply joins_later].
    eapply (join_ok_later d) in Hl; [|by apply wf_joins0]. destruct Hl as [_ _ Hji']. destruct Hk as (Ht & _ & Hji2 & _).
    split; [by destruct Hd as [-> _]| |intros i; rewrite Hji2, Ht; apply Hji'].
    rewrite Hs. destruct Hd as [-> _]. destruct approved; simpl; (split; [lia|done]).
  - rewrite Hj. apply nobody_waits_decided; [done|]. rewrite Hs. by destruct approved.
  - rewrite Hm. destruct approved; [|by eapply members_later].
    apply map_Forall_insert_2; [|by eapply members_later].
    assert (approved_request d' (jr_tenant_id r) (jr_user_id r) r') as Hreq.
    { split; [exists request; by rewrite Hj, lookup_insert_eq|]. by split_and!; [|apply Hk..]. }
    split; simpl; [by destruct (members d !! _)| |by exists r'|].
    + destruct (members d !! _) as [tm|] eqn:Htm; simpl; [|lia]. pose proof (mo_version _ _ _ (wf_members0 _ _ Htm)). lia.
    + intros w. destruct (members d !! _) as [tm|] eqn:Htm; simpl; [|done]. intros Hw.
      apply (mo_workspace d' (jr_tenant_id r, jr_user_id r) tm); [|done]. eapply member_ok_later; [done|]. by apply (wf_members0 _ _ Htm).
Qed.

(** Writing a member over another, in a workspace that member joined *)
Lemma good_member_written d d' tenant user tm tm' :
  members d !! (tenant, user) = Some tm →
  tm_tenant_id tm' = tm_tenant_id tm → tm_user_id tm' = tm_user_id tm → member_kept tm tm' →
  (org_wf d → ∀ w, tm_join_workspace_id tm' = Some w → tm_join_workspace_id tm = Some w ∨
     ∃ r i, approved_request d tenant user r ∧ jr_invitation_id r = Some i ∧
       scope_of_invitation d i = Some w) →
  creations d' = creations d → invitations d' = invitations d → joins d' = joins d →
  members d' = <[(tenant, user) := tm']> (members d) → outbox d' = outbox d →
  idempotency d' = idempotency d → good d d'.
Proof.
  intros Htm Ht Hu Hv Hw Hc Hi Hj Hm Ho Hid.
  apply good_core; try done; rewrite ?Hi, ?Hj, ?Hid; try done; try (apply rows_kept_refl; by intros ?).
  { rewrite Hm. apply (rows_kept_insert _). by rewrite Htm. }
  intros Hd Hl. specialize (Hw Hd). destruct Hd. split_and!; try done.
  - by apply (invitations_uses d).
  - by eapply joins_later.
  - rewrite Hm. apply map_Forall_insert_2; [|by eapply members_later].
    destruct (wf_members0 _ _ Htm) as [H1 H2 [r H3] H4]. destruct Hv as [Hv _].
    split; [congruence|lia| |].
    + exists r. by eapply approved_later.
    + intros w [Hold|(r' & i & Hr' & Hri & Hs)]%Hw.
      * destruct (H4 _ Hold) as (r' & i & Hr' & Hri & Hs). exists r', i.
        split_and!; [by eapply approved_later|done|by eapply scope_later].
      * exists r', i. split_and!; [by eapply approved_later|done|by eapply scope_later].
Qed.

Lemma good_member_changed d tenant user tm tm' d' :
  tm_tenant_id tm' = tm_tenant_id tm → tm_user_id tm' = tm_user_id tm → tm_version tm' = tm_version tm + 1 →
  tm_join_workspace_id tm' = tm_join_workspace_id tm →
  member_changed d tenant user tm tm' d' → good d d'.
Proof.
  intros Ht Hu Hv Hw [Htm Hd]. etrans; [|by eapply good_history_added].
  eapply (good_member_written _ _ _ _ tm tm'); try done.
  - split; [lia|]. intros w. by rewrite Hw.
  - intros _ w. rewrite Hw. by left.
Qed.

Lemma good_access_changed d tenant user workspace role expected expected_auth now tm' next d' :
  access_changed d tenant user workspace role expected expected_auth now tm' next d' → good d d'.
Proof.
  intros (tm & Htm & Hv & Hj & _ & _ & _ & -> & ->).
  eapply (good_member_written _ _ _ _ tm (with_member_role tm (tm_role tm) now)); try done.
  - split; simpl; [lia|done].
  - intros _ w. by left.
Qed.

(** An approval through the organization's management *)
Lemma good_join_approved d request actor tenant workspace reason now r r' d' expected :
  joins d !! request = Some r → pending_join expected r = true → jr_tenant_id r = tenant →
  jr_invitation_id r ≫= scope_of_invitation d = Some workspace →
  join_approved d request actor tenant workspace reason now r r' d' → good d d'.
Proof.
  intros Hr Hp Ht Hw (_ & Hnew & _ & d1 & Hdec & ->) Hwf.
  destruct (good_join_decided _ _ _ _ _ _ _ _ _ _ _ Hr Hp Hdec Hwf) as [Hwf1 Hl1].
  unfold pending_join in Hp. bools.
  destruct (join_decided_kept _ _ _ _ _ _ _ _ _ _ Hr H Hdec) as (Hj & Hk & Hs & _).
  pose proof (join_decided_member _ _ _ _ _ _ _ _ _ Hdec) as Hm. rewrite Ht, Hnew in Hm. simpl in Hm.
  enough (good d1 (with_member tenant (jr_user_id r)
    (mkMember tenant (jr_user_id r) "member" MEMBER_ACTIVE 1 now (Some workspace))
    (insert_access tenant workspace (jr_user_id r) now d1))) as Hg.
  { destruct (Hg Hwf1). split; [done|by etrans]. }
  eapply (good_member_written _ _ _ _ (mkMember (jr_tenant_id r) (jr_user_id r) "member" MEMBER_ACTIVE 1 now None)
    (mkMember tenant (jr_user_id r) "member" MEMBER_ACTIVE 1 now (Some workspace))); try done.
  { by subst. }
  intros _ w [= <-]. right.
  apply bind_Some in Hw as (i & Hi & Hw). destruct Hk as (Hkt & Hku & Hki & _). exists r', i. split_and!.
  - split; [exists request; by rewrite Hj, lookup_insert_eq|]. split_and!; [done|congruence|done].
  - congruence.
  - by eapply scope_later.
Qed.

(** *** The operations' tables *)

Lemma good_outbox d k row :
  outbox d !! k = None → (∀ k' row', outbox d !! k' = Some row' → ob_event_id row' ≠ ob_event_id row) →
  good d (set_outbox (<[k := row]> (outbox d)) d).
Proof.
  intros Hk Hid []. assert (later d (set_outbox (<[k := row]> (outbox d)) d)) as Hl.
  { split; try done; try (apply rows_kept_refl; by intros ?). apply (rows_kept_insert _). by rewrite Hk. }
  split; [|done]. split; try done.
  - by apply (invitations_uses d).
  - by eapply joins_later.
  - by eapply members_later.
  - intros i j r r' Hi Hj He. eapply lookup_insert_pair; [exact Hi|exact Hj|..]; eauto.
    + intros _ -> -> Hj'. by destruct (Hid _ _ Hj').
    + intros _ -> -> Hi'. by destruct (Hid _ _ Hi').
Qed.

Lemma good_ack d event_id now :
  good d (set_outbox ((λ row, if undelivered event_id row then delivered_row now row else row) <$> outbox d) d).
Proof.
  intros []. set (d' := set_outbox _ _). assert (later d d') as Hl.
  { split; try done; try (apply rows_kept_refl; by intros ?). intros k row Hk. simpl. rewrite lookup_fmap, Hk.
    eexists. split; [done|]. case_match eqn:Hu; [|by left]. unfold undelivered in Hu. bools. right. eauto. }
  split; [|done]. split; try done.
  - by apply (invitations_uses d).
  - by eapply joins_later.
  - by eapply members_later.
  - intros k k' row row' Hk Hk'. simpl in Hk, Hk'. rewrite lookup_fmap in Hk, Hk'.
    apply fmap_Some in Hk as (r & Hr & ->). apply fmap_Some in Hk' as (r' & Hr' & ->). intros He.
    eapply wf_events0; [done|done|]. by repeat case_match.
Qed.

Lemma good_idempotency d k row :
  idempotency d !! k = None → good d (set_idempotency (<[k := row]> (idempotency d)) d).
Proof. intros Hk. apply good_same; try done. by apply insert_subseteq. Qed.
End Later.

(** ** Calls *)

Section Calls.
Context {D : Digest} {W : World} {R : IsoReader} {H : HostParser} {O : SetOrder} {A : Type}.
Implicit Types s : OrgState A.

(** Every delivered operation was delivered before. *)
Definition no_delivery (d d' : OrgDb) : Prop := ∀ k row,
  outbox d' !! k = Some row → ob_delivered_at row ≠ None → outbox d !! k = Some row.

(** A call that leaves the audit store alone *)
Record calm s s' : Prop := {
  ca_good : good (or_db s) (or_db s');
  ca_audit : or_audit s' = or_audit s;
  ca_delivery : no_delivery (or_db s) (or_db s')
}.

Lemma calm_same s s' : or_db s' = or_db s → or_audit s' = or_audit s → calm s s'.
Proof. intros Hd Ha. split; rewrite ?Hd; try done. by intros k row. Qed.

Lemma calm_effect {B} (m : M (OrgState A) B) (Q : B → OrgDb → Prop) s :
  wp m (effect true s Q) s →
  (∀ b d, Q b d → good (or_db s) d ∧ outbox d = outbox (or_db s)) →
  calm s (final m s).
Proof.
  unfold wp. destruct (m s) as [s' [b|e]]; simpl; intros [Ha Hm] HQ; [|apply calm_same; [by apply Hm|done]].
  destruct (HQ _ _ Hm) as [Hg Ho]. split; [done|done|]. intros k row. by rewrite Ho.
Qed.

Lemma calm_readonly {B} (m : M (OrgState A) B) s : readonly m → calm s (final m s).
Proof. intros Hm. rewrite Hm. by apply calm_same. Qed.

Lemma readonly_org_transaction {B} (m : M (OrgState A) B) : readonly m → readonly (org_transaction m).
Proof.
  intros Hm s. specialize (Hm s). unfold org_transaction. destruct (m s) as [s' [b|e]]; simpl in *; [done|].
  subst. by destruct s.
Qed.

Lemma readonly_org_text v c : readonly (S:=OrgState A) (org_text v c).
Proof. apply readonly_bind; auto with py. Qed.

Lemma readonly_collect {B C} (body : B → M (OrgState A) C) l :
  (∀ x, readonly (body x)) → readonly (collect body l).
Proof.
  intros Hb. induction l as [|x l IH]; simpl; [done|].
  apply readonly_bind; [done|intros y]. apply readonly_bind; [done|intros ys; done].
Qed.

Lemma readonly_management_view op data : readonly (S:=OrgState A) (management_view op data).
Proof.
  unfold management_view. destruct (view_shape op data) as [d allowed]. apply readonly_bind; [auto with py|].
  intros _. apply readonly_bind; [|auto with py]. apply readonly_mfor. intros kc.
  apply readonly_bind; [|auto with py]. unfold from_outcome. by destruct (view_cell _ _).
Qed.

Ltac readonly_run := repeat (cbv zeta; lazymatch goal with
  | |- readonly (bind _ _) => apply readonly_bind; [|intros ?]
  | |- readonly (org_transaction _) => apply readonly_org_transaction
  | |- readonly (org_text _ _) => apply readonly_org_text
  | |- readonly (org_id _) => apply readonly_org_text
  | |- readonly (org_query _) => apply readonly_gets
  | |- readonly (management_view _ _) => apply readonly_management_view
  | |- readonly (collect _ _) => apply readonly_collect; intros ?
  | |- readonly (match ?x with _ => _ end) => destruct x
  | |- readonly _ => solve [auto with py]
  end).

Lemma readonly_read_join_access tenant workspace user :
  readonly (S:=OrgState A) (read_join_access tenant workspace user).
Proof. unfold read_join_access. readonly_run. Qed.
#[local] Hint Resolve readonly_read_join_access : py.

Lemma readonly_from_outcome {B} (o : outcome B) : readonly (S:=OrgState A) (from_outcome o).
Proof. by destruct o. Qed.
#[local] Hint Resolve readonly_from_outcome : py.

Lemma readonly_list_creations a : readonly (S:=OrgState A) (list_creation_requests a).
Proof. unfold list_creation_requests. readonly_run. Qed.
Lemma readonly_list_joins t u : readonly (S:=OrgState A) (list_join_requests t u).
Proof. unfold list_join_requests. readonly_run. Qed.
Lemma readonly_list_members t : readonly (S:=OrgState A) (list_members t).
Proof. unfold list_members. readonly_run. Qed.
Lemma readonly_list_invitations t now : readonly (S:=OrgState A) (list_invitations t now).
Proof. unfold list_invitations. readonly_run. Qed.
Lemma readonly_membership_state t u : readonly (S:=OrgState A) (membership_state t u).
Proof. unfold membership_state. readonly_run. Qed.
Lemma readonly_idempotency_replay o a k f : readonly (S:=OrgState A) (idempotency_replay o a k f).
Proof. unfold idempotency_replay. readonly_run. Qed.

(** *** Management operations *)

Lemma join_decided_outbox d request actor approved reason role now r r' d' :
  join_decided d request actor approved reason role now r r' d' → outbox d' = outbox d.
Proof.
  intros [_ Hd]. destruct approved; [|by subst]. destruct Hd as (d1 & Hu & (h & ->)%history_added_db).
  unfold invitation_used in Hu. case_match; [|by subst]. by destruct Hu as (iv & _ & _ & ->).
Qed.

Lemma performed_good op actor arg target tenant workspace original now d item access d' :
  scoped d op arg target tenant workspace original →
  performed op actor tenant (default "" target) workspace original now d item access d' →
  good d d' ∧ outbox d' = outbox d.
Proof.
  intros [_ Hs] Hp.
  destruct op as [code ex mu w|v|code|ap v rs rl|rl w v av rs|ac v rs]; simpl in Hp.
  - destruct Hp as (iv & Hc & _). split; [by eapply good_invitation_created|].
    by destruct Hc as (m & _ & _ & _ & _ & ->).
  - destruct Hp as (iv & Hc & _). split; [by eapply good_invitation_revoked|].
    by destruct Hc as (iv0 & _ & _ & _ & _ & _ & ->).
  - destruct Hp as (r & w & _ & _ & Hc & _). split; [by eapply good_join_requested|].
    by destruct Hc as (m & _ & _ & _ & ->).
  - destruct original as [|iv|r|tm]; try done. destruct Hs as (-> & Ht & Hr & Hw).
    destruct target as [target|]; [|done]. simpl in Hr, Hp. destruct Hp as (Hpend & r' & _ & Hp).
    destruct ap.
    + destruct Hp as (_ & w & -> & Hj & _). split; [by eapply good_join_approved; [..|exact Hj]|].
      destruct Hj as (_ & _ & _ & d1 & Hd & ->). trans (outbox d1); [done|by eapply join_decided_outbox].
    + destruct Hp as [Hd _]. split; [by eapply good_join_decided; [..|exact Hd]|].
      by eapply join_decided_outbox.
  - destruct original as [|iv|r|tm]; try done. destruct Hp as (_ & tm' & next & Hc & _).
    split; [by eapply good_access_changed|]. by destruct Hc as (tm0 & _ & _ & _ & _ & _ & _ & _ & ->).
  - destruct original as [|iv|r|tm]; try done. destruct Hp as (_ & Hc & _).
    split; [by eapply good_member_changed; [..|exact Hc]|]. by destruct Hc as (_ & (h & ->)%history_added_db).
Qed.

Lemma execute_calm op actor arg target key fingerprint trace policy s :
  calm s (final (execute_management_operation op actor arg target key fingerprint trace policy) s).
Proof.
  pose proof (execute_effect op actor arg target key fingerprint trace policy s) as He. unfold wp in He.
  destruct (execute_management_operation _ _ _ _ _ _ _ _ s) as [s' [[v []]|e]]; simpl in *;
    destruct He as [Ha He]; [destruct He as [-> _]; by apply calm_same| |by apply calm_same].
  destruct He as (tenant & workspace & original & now & item & before & access & d1 & actual & event_id &
    Hs & Hk & _ & Hp & _ & _ & Hid & Hd').
  destruct (performed_good _ _ _ _ _ _ _ _ _ _ _ _ Hs Hp) as [Hg Ho].
  split; [|done|]; rewrite Hd'.
  - etrans; [done|]. apply good_outbox; [by rewrite Ho|done].
  - intros k row Hrow Hdel. simpl in Hrow. destruct (decide (k = (actor, operation_name op, key))) as [->|].
    + rewrite lookup_insert_eq in Hrow. by simplify_eq/=.
    + rewrite lookup_insert_ne in Hrow by done. by rewrite <- Ho.
Qed.
End Calls.
