(* ===== verification/OrganizationRuns.v ===== *)
(** Runs of the organizations' repository: calls in any order, sweeps of its
    outbox that may be stopped anywhere, and what the rest of the program does
    to the tables they share. *)

From S2P Require Import Prelude Sha256 PyStr Json HashChain Bytes AuditLog License Authorization AuthorizationFacts.
From S2P Require Import AuthorizationTables AdminRoles AdminOutbox Organization OrganizationFacts OrganizationTables.
#[local] Open Scope Z_scope.

Section Runs.
Context {D : Digest} {W : World} {R : IsoReader} {H : HostParser} {O : SetOrder} {A : Type}.
Context {AS : AuditStore A} {AR : AuditReader A} {UA : UniqueAudit A}.
Implicit Types s : OrgState A.

(** What happens to the state: calls of the repository, each in a transaction
    of its own; appends of others to the audit store; and changes of others to
    the tables they own. *)
Inductive org_step : relation (OrgState A) :=
| step_create_organization applicant name identifier now s :
    org_step s (final (create_organization_request applicant name identifier now) s)
| step_decide_organization request actor approved expected reason now s :
    org_step s (final (decide_organization_request request actor approved expected reason now) s)
| step_create_invitation tenant actor code expires max_uses workspace now s :
    org_step s (final (create_invitation true tenant actor code expires max_uses workspace now) s)
| step_revoke_invitation tenant invitation actor expected now s :
    org_step s (final (revoke_invitation true tenant invitation actor expected now) s)
| step_create_join tenant user code now s : org_step s (final (create_join_request true tenant user code now) s)
| step_join_by_invitation user code now s :
    org_step s (final (create_join_request_by_invitation true user code now) s)
| step_decide_join request actor approved expected reason role now s :
    org_step s (final (decide_join_request true request actor approved expected reason role now) s)
| step_set_membership tenant user actor state expected reason now s :
    org_step s (final (set_tenant_membership true tenant user actor state expected reason now) s)
| step_change_role tenant user actor role expected reason now s :
    org_step s (final (change_role true tenant user actor role expected reason now) s)
| step_manage op actor tenant target key fingerprint trace policy s :
    org_step s (final (execute_management_operation op actor tenant target key fingerprint trace policy) s)
| step_idempotency_replay operation actor key fingerprint s :
    org_step s (final (idempotency_replay operation actor key fingerprint) s)
| step_idempotency_record operation actor key fingerprint value now s :
    org_step s (final (idempotency_record operation actor key fingerprint value now) s)
| step_list_creations applicant s : org_step s (final (list_creation_requests applicant) s)
| step_list_joins tenant user s : org_step s (final (list_join_requests tenant user) s)
| step_list_members tenant s : org_step s (final (list_members tenant) s)
| step_list_invitations tenant now s : org_step s (final (list_invitations tenant now) s)
| step_membership_state tenant user s : org_step s (final (membership_state tenant user) s)
| step_dispatch stopped readable stop available limit s :
    org_step s (final (dispatch_pending_management_audits stopped readable stop available limit) s)
| step_audit draft a s : or_audit s = Some a →
    org_step s (set_or_audit (Some (final (audit_append draft) a)) s)
| step_other db us ts im sink draws s :
    org_step s (mkOrg (mkOrgDb (creations (or_db s)) (invitations (or_db s)) (joins (or_db s)) (members (or_db s))
      (role_history (or_db s)) (idempotency (or_db s)) (outbox (or_db s)) db us ts im) sink (or_audit s) draws).

(** ** Delivered events *)

Definition in_log s (draft : AuditEventDraft) : Prop :=
  ∃ a e, or_audit s = Some a ∧ e ∈ audit_events a ∧ draft_of e = draft.

Definition log_ok s : Prop := ∀ a, or_audit s = Some a → audit_ok a.

(** Every operation on record as delivered has its event in the log. *)
Definition audited s : Prop := ∀ k row, outbox (or_db s) !! k = Some row → ob_delivered_at row ≠ None →
  in_log s (management_draft k row).

(** The audit log only grows. *)
Definition log_grows s s' : Prop := match or_audit s, or_audit s' with
  | Some a, Some a' => audit_events a `prefix_of` audit_events a'
  | None, None => True
  | _, _ => False
  end.

#[export] Instance log_grows_preorder : PreOrder log_grows.
Proof.
  split; [intros s; unfold log_grows; by case_match|]. intros s1 s2 s3. unfold log_grows.
  repeat case_match; try done. by etrans.
Qed.

Lemma in_log_grows s s' draft : log_grows s s' → in_log s draft → in_log s' draft.
Proof.
  unfold log_grows. intros Hl (a & e & Ha & He & Hd). rewrite Ha in Hl. destruct (or_audit s') as [a'|] eqn:Ha'; [|done].
  exists a', e. split_and!; [done| |done]. destruct Hl as [l ->]. apply elem_of_app. by left.
Qed.

Lemma log_append_ok s draft a :
  or_audit s = Some a → log_ok s →
  let s' := set_or_audit (Some (final (audit_append draft) a)) s in
  log_grows s s' ∧ log_ok s' ∧
  match result (audit_append draft) a with Ret _ => in_log s' draft | Raise _ => True end.
Proof.
  intros Ha Hok s'. pose proof (audit_append_law draft a) as Hl.
  pose proof (audit_append_unique draft a (Hok _ Ha)) as [Hu _]. unfold wp in *.
  unfold s', log_grows, log_ok, in_log. rewrite Ha. simpl.
  destruct (audit_append draft a) as [a' [e|e]]; simpl in *.
  - destruct Hl as [Hd He]. split_and!; [rewrite He; by apply prefix_app_r|by intros ? [= <-]|].
    exists a', e. split_and!; [done|rewrite He; set_solver|done].
  - split_and!; [by rewrite Hl|by intros ? [= <-]|done].
Qed.

Lemma wp_deliver draft id s :
  log_ok s →
  wp (deliver draft id) (λ o s', ∃ b, o = Ret b ∧ or_db s' = or_db s ∧ log_grows s s' ∧ log_ok s' ∧
    (b = true → in_log s' draft)) s.
Proof.
  intros Hok. unfold deliver, wp, with_audit, bind, ret.
  destruct (or_audit s) as [a|] eqn:Ha.
  2: { exists false. by split_and!. }
  pose proof (log_append_ok s draft a Ha Hok) as (Hg & Hok' & Hin). simpl in *.
  destruct (audit_append draft a) as [a' [e|e]] eqn:Happ; simpl in *.
  { exists true. by split_and!. }
  case_bool_decide; [|exists false; by split_and!]. simpl.
  pose proof (audit_read_law id a') as Hr. unfold wp in Hr.
  destruct (audit_read id a') as [a'' o]; simpl in *. destruct Hr as [-> Hr].
  eexists. split_and!; [done|done|done|done|]. intros Hb. destruct o as [[ev|]|]; try done.
  apply bool_decide_eq_true in Hb. destruct Hr as [Hev _]. by exists a', ev.
Qed.

Lemma management_draft_delivered k now row : management_draft k (delivered_row now row) = management_draft k row.
Proof. done. Qed.

Lemma outbox_kept_draft k row row' :
  outbox_kept row row' → management_draft k row' = management_draft k row ∧ ob_event_id row' = ob_event_id row.
Proof. by intros [->|(_ & now & ->)]. Qed.

(** What holds in every state of a run *)
Record run_ok s : Prop := {
  rn_wf : org_wf (or_db s);
  rn_log : log_ok s;
  rn_audited : audited s
}.

(** Acknowledging an event that is in the log *)
Lemma ack_ok s k row dr :
  run_ok s → (∃ row', outbox (or_db s) !! k = Some row' ∧ outbox_kept row row') →
  in_log s (management_draft k row) →
  let s' := final (ack_audit (ob_event_id row)) (with_draws dr s) in
  run_ok s' ∧ later (or_db s) (or_db s') ∧ log_grows s s'.
Proof.
  intros [Hwf Hl Ha] (row0 & Hk & Hkept) Hin s'.
  destruct (outbox_kept_draft k _ _ Hkept) as [Hd Hid].
  set (now := clock_at (ticks dr)).
  destruct (good_ack (or_db s) (ob_event_id row) now Hwf) as [Hwf' Hl'].
  assert (log_grows s s') as Hg by (unfold log_grows, s'; simpl; by case_match).
  split; [|split; [done|done]]. split; [done|done|].
  intros k' row' Hk' Hdel. simpl in Hk'. rewrite lookup_fmap in Hk'. apply fmap_Some in Hk' as (r & Hr & ->).
  destruct (undelivered (ob_event_id row) r) eqn:Hu.
  - unfold undelivered in Hu. bools. assert (k' = k) as -> by by (eapply (wf_events _ Hwf); [exact Hr|exact Hk|congruence]).
    rewrite Hk in Hr. injection Hr as <-. rewrite management_draft_delivered, Hd. done.
  - exact (Ha _ _ Hr Hdel).
Qed.

(** What a stretch of a run does *)
Definition runs_to s s' : Prop := run_ok s → run_ok s' ∧ later (or_db s) (or_db s') ∧ log_grows s s'.

#[export] Instance runs_to_preorder : PreOrder runs_to.
Proof.
  split; [intros s Hs; by split_and!|]. intros s1 s2 s3 H12 H23 Hs. destruct (H12 Hs) as (Hs2 & ? & ?).
  destruct (H23 Hs2) as (? & ? & ?). split_and!; [done|by etrans|by etrans].
Qed.

Lemma calm_runs s s' : calm s s' → runs_to s s'.
Proof.
  intros [Hg Ha Hd] [Hwf Hl Hau]. destruct (Hg Hwf) as [Hwf' Hlt].
  assert (log_grows s s') as Hgr by (unfold log_grows; rewrite Ha; by case_match).
  split_and!; [split; [done|by intros a; rewrite Ha; apply Hl|]|done|done].
  intros k row Hk Hdel. eapply in_log_grows; [done|]. apply Hau; [by apply Hd|done].
Qed.

Lemma same_db_runs s s' :
  or_db s' = or_db s → log_grows s s' → log_ok s' → runs_to s s'.
Proof.
  intros Hd Hg Hl [Hwf _ Hau]. rewrite Hd. split_and!; try done. split; rewrite ?Hd; try done.
  intros k row Hk Hdel. rewrite Hd in Hk. eapply in_log_grows; [done|]. by apply Hau.
Qed.

(** *** The sweep *)

(** The table has the row, delivered meanwhile at most. *)
Definition sweepable s (item : OpKey * OutboxRow) : Prop :=
  ∃ row', outbox (or_db s) !! item.1 = Some row' ∧ outbox_kept item.2 row'.

Lemma sweepable_later s s' item : later (or_db s) (or_db s') → sweepable s item → sweepable s' item.
Proof.
  intros Hl (row & Hrow & Hk). destruct (la_outbox _ _ Hl _ _ Hrow) as (row' & Hrow' & Hk').
  exists row'. split; [done|by etrans].
Qed.

Lemma deliver_all_runs stop available rows : ∀ n count s,
  Forall (sweepable s) rows → run_ok s →
  wp (deliver_all stop available n count rows) (λ _ s', run_ok s' ∧ later (or_db s) (or_db s') ∧ log_grows s s') s.
Proof.
  induction rows as [|[k row] rows IH]; intros n count s Hrows Hs; [by apply wp_ret; split_and!|].
  apply Forall_cons in Hrows as [Hrow Hrows]. cbn [deliver_all].
  destruct (stop (2 * n)%nat); [by apply wp_ret; split_and!|].
  apply wp_bind. eapply wp_mono; [|apply wp_deliver; apply Hs].
  intros o s1 (b & -> & Hd & Hg & Hl & Hin).
  destruct (same_db_runs _ _ Hd Hg Hl Hs) as (Hs1 & Hl1 & _).
  assert (∀ m c s2, run_ok s2 → later (or_db s1) (or_db s2) → log_grows s1 s2 →
    wp (deliver_all stop available m c rows) (λ _ s', run_ok s' ∧ later (or_db s) (or_db s') ∧ log_grows s s') s2)
    as Hrest.
  { intros m c s2 Hs2 Hl2 Hg2. eapply wp_mono; [|apply IH; [|done]].
    - intros o' s3 (? & ? & ?). split_and!; [done|by etrans; [|etrans]|by etrans; [|etrans]].
    - eapply Forall_impl; [done|]. intros item. apply sweepable_later. by etrans. }
  destruct b; simpl; [|by apply Hrest].
  destruct (stop _); [by apply wp_ret; split_and!|].
  destruct (available n); [|by apply Hrest].
  apply wp_bind. destruct s1 as [d1 sk1 a1 dr1].
  pose proof (ack_ok (mkOrg d1 sk1 a1 dr1) k row dr1 Hs1) as Hack.
  unfold wp at 1. destruct Hack as (Hs2 & Hl2 & Hg2); [|by apply Hin|].
  { destruct (sweepable_later _ (mkOrg d1 sk1 a1 dr1) _ Hl1 Hrow) as (row' & Hr' & Hk'). by exists row'. }
  by apply Hrest.
Qed.

Lemma pending_sweepable limit s item : item ∈ pending_audits limit (or_db s) → sweepable s item.
Proof.
  intros Hin. unfold pending_audits in Hin. apply (subseteq_take _ _) in Hin.
  rewrite sort_stable_perm in Hin. apply list_elem_of_filter in Hin as [_ Hin]. destruct item as [k row].
  apply elem_of_map_to_list in Hin. by exists row.
Qed.

Lemma dispatch_runs stopped readable stop available limit s :
  runs_to s (final (dispatch_pending_management_audits stopped readable stop available limit) s).
Proof.
  intros Hs. change (wp (dispatch_pending_management_audits stopped readable stop available limit)
    (λ _ s', run_ok s' ∧ later (or_db s) (or_db s') ∧ log_grows s s') s).
  unfold dispatch_pending_management_audits. apply wp_bind, wp_gets.
  destruct (or_audit s); [|by apply wp_ret]. destruct stopped; [by apply wp_ret|].
  apply wp_bind, wp_guard; intros _; [|done]. destruct readable; [|by apply wp_ret].
  apply wp_bind. apply deliver_all_runs; [|done]. apply Forall_forall. intros item. apply pending_sweepable.
Qed.

Lemma idempotency_record_calm operation actor key fingerprint value now s :
  calm s (final (idempotency_record operation actor key fingerprint value now) s).
Proof.
  assert (wp (idempotency_insert operation actor key fingerprint value now)
    (effect true s (λ _ d, idempotency (or_db s) !! (actor, operation, key) = None ∧
      d = set_idempotency (<[(actor, operation, key) := mkIdempotency fingerprint value now]>
        (idempotency (or_db s))) (or_db s))) s) as Hi.
  { unfold idempotency_insert. org_run; (split; [done|]); try done. }
  unfold idempotency_record. unfold wp in Hi.
  destruct (idempotency_insert _ _ _ _ _ _ s) as [s1 [u|e]] eqn:Hs1; simpl in *.
  - destruct Hi as [Ha [Hnone Hd]]. split; rewrite ?Hd; [by apply good_idempotency|done|by intros k row].
  - destruct Hi as [Ha Hd]. specialize (Hd eq_refl). assert (calm s s1) as Hc by by apply calm_same.
    case_bool_decide; [|done].
    match goal with |- calm s (fst (?m s1)) => assert (readonly m) as Hm end.
    { apply readonly_bind; [apply readonly_idempotency_replay|]. intros found. by apply readonly_guard. }
    by rewrite Hm.
Qed.

Lemma org_step_runs s s' : org_step s s' → runs_to s s'.
Proof.
  destruct 1 as [| | | | | | | | | | | | | | | | | |draft a s Ha|].
  all: try (apply calm_runs, calm_readonly; first
    [apply readonly_idempotency_replay|apply readonly_list_creations|apply readonly_list_joins
    |apply readonly_list_members|apply readonly_list_invitations|apply readonly_membership_state]).
  - eapply calm_runs, calm_effect; [apply create_organization_request_effect|].
    intros r d (m & Hr & Hi & ->). split; [|done]. apply (good_creation_inserted _ _ r); [by rewrite Hr|split; [done|by rewrite Hr]|done].
  - eapply calm_runs, calm_effect; [apply decide_organization_request_effect|].
    intros r d (r0 & Hr & Hp & _ & -> & ->). split; [|done]. by apply good_creation_decided.
  - eapply calm_runs, calm_effect; [apply create_invitation_effect|].
    intros iv d Hc. split; [by eapply good_invitation_created|]. by destruct Hc as (m & _ & _ & _ & _ & ->).
  - eapply calm_runs, calm_effect; [apply revoke_invitation_effect|].
    intros iv d Hc. split; [by eapply good_invitation_revoked|]. by destruct Hc as (iv0 & _ & _ & _ & _ & _ & ->).
  - eapply calm_runs, calm_effect; [apply create_join_request_effect|].
    intros r d Hc. split; [eapply good_join_requested; exact Hc|]. by destruct Hc as (m & _ & _ & _ & ->).
  - eapply calm_runs, calm_effect; [apply create_join_request_by_invitation_effect|].
    intros r d Hc. split; [eapply good_join_requested; exact Hc|]. by destruct Hc as (m & _ & _ & _ & ->).
  - eapply calm_runs, calm_effect; [apply decide_join_request_effect|].
    intros r d (r0 & Hr & Hp & Hd). split; [by eapply good_join_decided; [..|exact Hd]|by eapply join_decided_outbox].
  - eapply calm_runs, calm_effect; [apply set_tenant_membership_effect|].
    intros tm' d (tm & Hv & -> & Hc). split; [by eapply good_member_changed; [..|exact Hc]|].
    by destruct Hc as (_ & (h & ->)%history_added_db).
  - eapply calm_runs, calm_effect; [apply change_role_effect|].
    intros tm' d (tm & Hv & -> & Hc). split; [by eapply good_member_changed; [..|exact Hc]|].
    by destruct Hc as (_ & (h & ->)%history_added_db).
  - apply calm_runs, execute_calm.
  - apply calm_runs, idempotency_record_calm.
  - apply dispatch_runs.
  - intros Hs. destruct (log_append_ok s draft a Ha) as (Hg & Hl & _); [apply Hs|].
    by apply (same_db_runs s); [done..|].
  - apply calm_runs. split; [by apply good_same|done|by intros k row].
Qed.

Lemma org_steps_run s s' : rtc org_step s s' → runs_to s s'.
Proof. intros Hr. induction Hr; [done|]. etrans; [by apply org_step_runs|done]. Qed.

(** No organization has been asked for yet. *)
Definition unused (d : OrgDb) : Prop :=
  creations d = ∅ ∧ invitations d = ∅ ∧ joins d = ∅ ∧ members d = ∅ ∧ outbox d = ∅.

Lemma unused_ok s : unused (or_db s) → log_ok s → run_ok s.
Proof.
  intros (Hc & Hi & Hj & Hm & Ho) Hl. split; [|done|].
  - split; rewrite ?Hc, ?Hi, ?Hj, ?Hm, ?Ho; try apply map_Forall_empty; by intros.
  - intros k row. by rewrite Ho.
Qed.

(** The states that calls reach from there *)
Definition org_reachable s : Prop := ∃ s0, unused (or_db s0) ∧ log_ok s0 ∧ rtc org_step s0 s.

Lemma reachable_ok s : org_reachable s → run_ok s.
Proof. intros (s0 & Hu & Hl & Hr). by apply (org_steps_run _ _ Hr (unused_ok _ Hu Hl)). Qed.

(** C17: In every state that calls reach, in any order and with any arguments:
    an invitation was used exactly as often as requests that name it were
    approved, at most as often as it allows, and its version counts its
    changes; a request is pending and undecided or was decided once, and names
    an invitation of its own organization; nobody has two pending requests with
    one organization, or two for a new one; every member was approved, and has
    joined no other workspace than that of an invitation they were approved on.
    From there on rows stay, decisions are final, members keep the workspace
    they joined, and what an operation put on record only becomes delivered. *)
Theorem organization_tables s s' :
  org_reachable s → rtc org_step s s' → org_wf (or_db s) ∧ later (or_db s) (or_db s').
Proof.
  intros Hs%reachable_ok Hr. destruct (org_steps_run _ _ Hr Hs) as (_ & Hl & _). split; [apply Hs|done].
Qed.

(** C18: An operation that is on record as delivered has its event in the audit
    log, with the actor, target, outcome and values of the operation, and no
    other event has that id, wherever sweeps were stopped, failed to
    acknowledge, or met events that others appended. *)
Theorem organization_events_delivered s k row :
  org_reachable s →
  outbox (or_db s) !! k = Some row → ob_delivered_at row ≠ None →
  ∃ a e, or_audit s = Some a ∧ e ∈ audit_events a ∧ draft_of e = management_draft k row ∧
    ∀ e', e' ∈ audit_events a → ev_event_id e' = ob_event_id row → e' = e.
Proof.
  intros [_ Hlog Hau]%reachable_ok Hk Hdel.
  destruct (Hau _ _ Hk Hdel) as (a & e & Ha & He & Hd). exists a, e. split_and!; try done.
  intros e' He' Hid. pose proof (audit_unique _ (Hlog _ Ha)) as Hn.
  assert (ev_event_id e = ob_event_id row) as Hid'.
  { assert (dr_event_id (draft_of e) = PyStr (ob_event_id row)) as [= ?] by by rewrite Hd. done. }
  eapply (NoDup_map_inj ev_event_id); [exact Hn|done|done|congruence].
Qed.

(** ** Repeating a management operation *)

Lemma scoped_later d d' op arg target tenant workspace original :
  org_wf d → org_wf d' → later d d' → scoped d op arg target tenant workspace original →
  ∃ workspace' original', scoped d' op arg target tenant workspace' original'.
Proof.
  intros Hwf Hwf' Hl [Ht H0]. unfold scoped.
  destruct op as [code ex mu w|v|[code|]|ap v rs rl|rl w v av rs|ac v rs], original as [|iv|r|tm]; try done.
  - by exists workspace, NoRow.
  - destruct H0 as (-> & Hi & Hf & ->). apply bind_Some in Hf as (i & -> & Hiv).
    destruct (la_invitations _ _ Hl _ _ Hiv) as (iv' & Hiv' & Hk & _). eexists _, (InvitationRow iv').
    split_and!; try done. congruence.
  - destruct H0 as (Hc & Hf & <- & Harg & ->).
    destruct (invitation_by_code_lookup _ _ _ (wf_invitations _ Hwf) Hf) as [Hiv Hcode].
    destruct (la_invitations _ _ Hl _ _ Hiv) as (iv' & Hiv' & Hk & Hk2 & _).
    assert (invitation_by_code d' code = Some iv') as Hf'.
    { unfold invitation_by_code. destruct (List.find _ _) as [[j iv2]|] eqn:Hfind; simpl.
      - apply find_some in Hfind as [Hin Hd]. simpl in Hd. bools.
        apply list_elem_of_In, elem_of_map_to_list in Hin.
        assert (j = iv_invitation_id iv) as -> by (eapply (wf_codes _ Hwf'); [exact Hin|exact Hiv'|congruence]).
        congruence.
      - apply (find_none _ _) with (x := (iv_invitation_id iv, iv')) in Hfind.
        + simpl in Hfind. rewrite Hk2, Hcode, String.eqb_refl in Hfind. done.
        + by apply list_elem_of_In, elem_of_map_to_list. }
    eexists _, (InvitationRow iv'). split_and!; try done.
  - by exists workspace, NoRow.
  - destruct H0 as (-> & Hj & Hf & ->). apply bind_Some in Hf as (i & -> & Hr).
    destruct (la_joins _ _ Hl _ _ Hr) as (r' & Hr' & Hk & _). eexists _, (JoinRow r').
    split_and!; try done. congruence.
  - destruct H0 as (-> & Hf & ->). apply bind_Some in Hf as (i & -> & Hm).
    destruct (la_members _ _ Hl _ _ Hm) as (tm' & Htm' & _). eexists _, (MemberRow tm').
    by split_and!.
  - destruct H0 as (-> & Hf & ->). apply bind_Some in Hf as (i & -> & Hm).
    destruct (la_members _ _ Hl _ _ Hm) as (tm' & Htm' & _). eexists _, (MemberRow tm').
    by split_and!.
Qed.

(** A text of an item is a text of its view. *)
Lemma viewed_text op data v k t :
  viewed op data v → (view_shape op data).1 !! k = Some (CJson (JStr t)) →
  endswith "_at" k = false → bool_decide (k ∈ NUMBERS) = false → text_at k v = Some t.
Proof.
  unfold viewed, text_at. destruct (view_shape op data) as [d allowed]. simpl. intros [_ Hv] Hk He Hn.
  specialize (Hv k). rewrite Hk in Hv. destruct Hv as (j & Hj & ->). unfold view_cell in Hj. rewrite He, Hn in Hj.
  by repeat case_match; simplify_eq.
Qed.

(** What an operation creates is named by the program, not by the caller. *)
Definition creates (op : Operation) : bool :=
  match op with InvitationCreate _ _ _ _ | JoinCreate _ => true | _ => false end.

Ltac by_text := solve [eapply viewed_text; [eassumption|reflexivity..]].

Lemma invitation_texts op iv v :
  target_key op = "invitation_id" → viewed op (invitation_dict iv) v →
  text_at "tenant_id" v = Some (iv_tenant_id iv) ∧ text_at "invitation_id" v = Some (iv_invitation_id iv) ∧
  text_at "created_by" v = Some (iv_created_by iv).
Proof. intros Hop Hv. destruct op; try done; split_and!; by_text. Qed.

Lemma join_texts op r v :
  target_key op = "request_id" → viewed op (join_dict r) v →
  text_at "tenant_id" v = Some (jr_tenant_id r) ∧ text_at "request_id" v = Some (jr_request_id r) ∧
  text_at "user_id" v = Some (jr_user_id r).
Proof. intros Hop Hv. destruct op; try done; split_and!; by_text. Qed.

Lemma member_texts op tm v :
  target_key op = "user_id" → viewed op (member_dict tm) v →
  text_at "tenant_id" v = Some (tm_tenant_id tm) ∧ text_at "user_id" v = Some (tm_user_id tm).
Proof. intros Hop Hv. destruct op; try done; split_and!; by_text. Qed.

Lemma access_texts op tm a v :
  target_key op = "user_id" → viewed op (with_access (member_dict tm) a) v →
  text_at "tenant_id" v = Some (tm_tenant_id tm) ∧ text_at "user_id" v = Some (tm_user_id tm).
Proof. intros Hop Hv. destruct op; try done; split_and!; by_text. Qed.

Lemma member_key d tenant user tm :
  org_wf d → members d !! (tenant, user) = Some tm → tm_tenant_id tm = tenant ∧ tm_user_id tm = user.
Proof. intros Hwf Hm. pose proof (mo_key _ _ _ (wf_members _ Hwf _ _ Hm)) as [= ? ?]. done. Qed.

Lemma performed_replayable op actor arg target tenant workspace original now d item access d' v :
  org_wf d → (creates op = true → target = None) →
  scoped d op arg target tenant workspace original →
  performed op actor tenant (default "" target) workspace original now d item access d' →
  viewed op item v → replayable op actor tenant target v.
Proof.
  intros Hwf Hc [_ Hs] Hp Hv.
  destruct op as [code ex mu w|ver|code|ap ver rs rl|rl w ver av rs|ac ver rs]; simpl in Hp.
  - destruct Hp as (iv & (m & Hiv & _) & -> & _). apply invitation_texts in Hv as (H1 & H2 & H3); [|done].
    rewrite Hiv in H1, H3. split_and!; [done|left; by apply Hc|done].
  - destruct original as [|iv0|r|tm]; try done. destruct Hs as (-> & Ht & Hf & ->).
    destruct target as [i|]; [|done]. simpl in Hf, Hp.
    destruct Hp as (iv' & (iv & Hiv & Htn & _ & _ & -> & _) & -> & _).
    apply invitation_texts in Hv as (H1 & H2 & _); [|done]. simpl in H1, H2.
    rewrite (io_id _ _ _ (wf_invitations _ Hwf _ _ Hiv)) in H2. split_and!; [congruence|by right|done].
  - destruct Hp as (r & w & _ & _ & (m & Hr & _) & -> & _). apply join_texts in Hv as (H1 & H2 & H3); [|done].
    rewrite Hr in H1, H3. split_and!; [done|left; by apply Hc|done].
  - destruct original as [|iv0|r|tm]; try done. destruct Hs as (-> & Ht & Hf & ->).
    destruct target as [i|]; [|done]. simpl in Hf, Hp. destruct Hp as (_ & r' & -> & Hp).
    assert (r' = decide_join r (decided_state ap) rs actor now) as ->.
    { destruct ap; [destruct Hp as (_ & w & _ & (_ & _ & _ & d1 & [-> _] & _) & _)|destruct Hp as [[-> _] _]]; done. }
    apply join_texts in Hv as (H1 & H2 & _); [|done]. simpl in H1, H2.
    rewrite (jo_id _ _ _ (wf_joins _ Hwf _ _ Hf)) in H2. split_and!; [congruence|by right|done].
  - destruct original as [|iv0|r|tm]; try done. destruct Hs as (-> & Hf & ->).
    destruct target as [i|]; [|done]. simpl in Hf, Hp.
    destruct Hp as (_ & tm' & next & (tm0 & Htm & _ & _ & _ & _ & _ & -> & _) & _ & ->).
    apply access_texts in Hv as [H1 H2]; [|done]. simpl in H1, H2.
    destruct (member_key _ _ _ _ Hwf Htm) as [<- <-]. by split_and!; [|right|].
  - destruct original as [|iv0|r|tm]; try done. destruct Hs as (-> & Hf & ->).
    destruct target as [i|]; [|done]. simpl in Hf, Hp. destruct Hp as (_ & _ & Hitem).
    destruct (member_key _ _ _ _ Hwf Hf) as [<- <-].
    assert (text_at "tenant_id" v = Some (tm_tenant_id tm) ∧ text_at "user_id" v = Some (tm_user_id tm)) as [H1 H2].
    { destruct (tm_join_workspace_id tm) as [w|]; destruct Hitem as [_ ->].
      - by apply access_texts in Hv.
      - by apply member_texts in Hv. }
    by split_and!; [|right|].
Qed.

(** A call whose key is on record passes the checks on its arguments in any
    state. *)
Definition arguments_ok (actor : string) (tenant target : option string)
    (key fingerprint trace policy : string) : bool :=
  forallb (λ o, match o with Some i => id_160 i | None => true end) [Some actor; tenant; target] &&
  (Nat.leb 16 (String.length key) && Nat.leb (String.length key) 128) && is_fingerprint fingerprint &&
  organization_id actor && organization_id trace && organization_id policy.

Lemma execute_recorded op actor arg target key fingerprint trace policy s tenant workspace original row :
  arguments_ok actor arg target key fingerprint trace policy = true →
  scoped (or_db s) op arg target tenant workspace original →
  outbox (or_db s) !! (actor, operation_name op, key) = Some row →
  ob_request_fingerprint row = fingerprint →
  viewed op (stored (ob_response row)) (ob_response row) → replayable op actor tenant target (ob_response row) →
  execute_management_operation op actor arg target key fingerprint trace policy s =
    (s, Ret (ob_response row, true)).
Proof.
  intros Hargs Hs Hk Hf Hv Hr. unfold arguments_ok in Hargs. do 5 (apply andb_true_iff in Hargs as [Hargs ?]).
  unfold execute_management_operation, org_id, org_text, org_query.
  rewrite (bind_Ret _ _ s s tt) by by apply guard_Ret.
  rewrite (bind_Ret _ _ s s tt) by by apply guard_Ret.
  rewrite (bind_Ret _ _ s s tt) by by apply guard_Ret.
  do 3 (rewrite (bind_Ret _ _ s s _) by (rewrite (bind_Ret _ _ s s tt) by (by apply guard_Ret); reflexivity)).
  assert (∀ m : M (OrgState A) (View * bool), m s = (s, Ret (ob_response row, true)) →
    org_transaction m s = (s, Ret (ob_response row, true))) as Ht by (intros m Hm; unfold org_transaction; by rewrite Hm).
  apply Ht. rewrite (bind_Ret _ _ _ _ _ (management_scope_found _ actor _ _ _ _ _ s Hs)). simpl.
  unfold bind at 1, gets at 1. rewrite Hk. unfold bind at 1, gets at 1.
  rewrite (bind_Ret _ _ s s tt) by (apply guard_Ret; by apply String.eqb_eq).
  rewrite (bind_Ret _ _ _ _ _ (management_view_viewed _ _ _ s Hv)).
  by apply replay_replayable.
Qed.

Lemma execute_arguments op actor arg target key fingerprint trace policy s s' x :
  execute_management_operation op actor arg target key fingerprint trace policy s = (s', Ret x) →
  arguments_ok actor arg target key fingerprint trace policy = true.
Proof.
  intros He. assert (wp (execute_management_operation op actor arg target key fingerprint trace policy)
    (λ o _, match o with
            | Ret _ => arguments_ok actor arg target key fingerprint trace policy = true
            | Raise _ => True
            end) s) as Hw; [|unfold wp in Hw; by rewrite He in Hw].
  unfold execute_management_operation.
  do 3 (apply wp_bind, wp_guard; intros ?; [|done]).
  do 3 (apply wp_bind, wp_org_text; [intros ?|done]).
  eapply (wp_mono _ (λ _ _, True)); [|done]. intros [?|?] ? _; [|done]. unfold arguments_ok.
  by do 5 (apply andb_true_iff; split; [|done]).
Qed.

(** Repeating a management operation: once it has returned a value, the
    same call in any later state returns that value as replayed and changes
    nothing at all, even though its invitation may be used up, its request
    decided or its member changed meanwhile; a call with the same actor,
    operation and key and another fingerprint is refused and changes no table.
    (That [fromisoformat] reads back what [isoformat] wrote is assumed of the
    value's times.) *)
Theorem management_replay op actor arg target key fingerprint trace policy s s1 v s2 :
  org_reachable s → (creates op = true → target = None) →
  execute_management_operation op actor arg target key fingerprint trace policy s = (s1, Ret (v, false)) →
  times_read v → rtc org_step s1 s2 →
  execute_management_operation op actor arg target key fingerprint trace policy s2 = (s2, Ret (v, true)) ∧
  ∀ op' arg' target' fingerprint' trace' policy',
    operation_name op' = operation_name op → fingerprint' ≠ fingerprint →
    let again := execute_management_operation op' actor arg' target' key fingerprint' trace' policy' in
    (∃ e, result again s2 = Raise e) ∧ or_db (final again s2) = or_db s2.
Proof.
  intros Hs%reachable_ok Hcr He Ht Hr.
  pose proof (execute_arguments _ _ _ _ _ _ _ _ _ _ _ He) as Hargs.
  pose proof (execute_effect op actor arg target key fingerprint trace policy s) as Heff.
  pose proof (execute_calm op actor arg target key fingerprint trace policy s) as Hcalm.
  unfold wp in Heff. rewrite He in Heff, Hcalm. simpl in Heff, Hcalm.
  destruct Heff as (_ & tenant & workspace & original & now & item & before & access & d1 & actual & event_id &
    Hsc & _ & _ & Hp & Hv & _ & _ & Hd').
  assert (runs_to s s2) as Hruns by (etrans; [by apply calm_runs|by apply org_steps_run]).
  destruct (Hruns Hs) as (Hs2 & Hl2 & _).
  destruct (calm_runs _ _ Hcalm Hs) as (Hs1 & _). destruct (org_steps_run _ _ Hr Hs1) as (_ & Hl12 & _).
  assert (∃ row, outbox (or_db s2) !! (actor, operation_name op, key) = Some row ∧
    ob_request_fingerprint row = fingerprint ∧ ob_response row = v) as (row & Hrow & Hf & Hres).
  { eassert (outbox (or_db s1) !! (actor, operation_name op, key) = Some _) as Hk
      by (rewrite Hd'; simpl; apply lookup_insert_eq).
    destruct (la_outbox _ _ Hl12 _ _ Hk) as (row & Hrow & [->|(_ & n & ->)]); by eexists. }
  split.
  - destruct (scoped_later _ _ _ _ _ _ _ _ (rn_wf _ Hs) (rn_wf _ Hs2) Hl2 Hsc) as (w' & o' & Hsc').
    pose proof (performed_replayable _ _ _ _ _ _ _ _ _ _ _ _ _ (rn_wf _ Hs) Hcr Hsc Hp Hv) as Hrep.
    rewrite <- Hres in *. eapply execute_recorded; try done. by eapply viewed_stored.
  - intros op' arg' target' fp' trace' policy' Hop Hfp again.
    pose proof (execute_effect op' actor arg' target' key fp' trace' policy' s2) as Hagain. unfold wp in Hagain.
    fold again in Hagain. destruct (again s2) as [s3 [[v' []]|e]]; simpl in *.
    + destruct Hagain as (_ & -> & [(row' & Hrow' & Hf' & _)|(Hnone & _)] & _); rewrite Hop in *; congruence.
    + destruct Hagain as (_ & ? & ? & ? & ? & ? & ? & ? & ? & ? & ? & _ & Hnone & _). rewrite Hop in *. congruence.
    + destruct Hagain as [_ ->]. split; [by exists e|done].
Qed.
End Runs.
