(* ===== verification/OrganizationMembers.v ===== *)
(** What members of an organization may do, from the decision that lets them in
    to the suspension that shuts them out: the tables an approval writes are
    those the authorization service reads. *)

From S2P Require Import Prelude Sha256 PyStr Json HashChain Bytes AuditLog License Authorization AuthorizationFacts.
From S2P Require Import Organization OrganizationFacts.
#[local] Open Scope Z_scope.

Section Decisions.
Context {D : Digest} {W : World} {R : IsoReader} {H : HostParser} {A : Type}.
Implicit Types s : OrgState A.

(** Tables that no decision touches *)
Definition frame (d d' : OrgDb) : Prop :=
  creations d' = creations d ∧ idempotency d' = idempotency d ∧ users d' = users d ∧ tenants d' = tenants d.

(** The operation is on record, with the value it returned, and not delivered. *)
Definition put_on_record (op : Operation) (actor tenant key fingerprint : string) (now : Z) (v : View)
    (d d' : OrgDb) : Prop := ∃ row,
  outbox d !! (actor, operation_name op, key) = None ∧
  outbox d' = <[(actor, operation_name op, key) := row]> (outbox d) ∧
  ob_tenant_id row = tenant ∧ text_at (target_key op) v = Some (ob_target_id row) ∧
  ob_request_fingerprint row = fingerprint ∧
  ob_response row = v ∧ ob_created_at row = now ∧ ob_delivered_at row = None ∧
  in_action (ob_audit row) = management_action op.

(** What lets the applicant of a request in now: an open invitation to a
    workspace of the organization, an account in order, and no role there yet *)
Record welcome (d : OrgDb) (tenant : string) (r : OrganizationJoinRequest) (now : Z) (i : string)
    (iv : InvitationCode) (workspace : string) : Prop := {
  we_invitation : jr_invitation_id r = Some i;
  we_found : invitations d !! i = Some iv;
  we_open : invitation_open now iv = true;
  we_workspace : iv_workspace_id iv = Some workspace;
  we_admissible : admissible d tenant workspace (jr_user_id r);
  we_new : members d !! (tenant, jr_user_id r) = None
}.

(** C16: A decision on a request to join that returns was made on a pending
    request of the organization, at the version it names.  Refusing changes
    that request and nothing else.  Approving needs the member role, an open
    invitation to a workspace of the organization, an active user with a
    password of their own and a verified address, and that the user has no role
    and no membership there; it takes exactly one use of the invitation, makes
    the user an active member joined to the workspace, a viewer of it and of no
    other, and moves its access version.  Either way the operation is put on
    record. *)
Theorem join_decision actor tenant request approved expected reason role key fingerprint trace policy s s' v :
  let op := JoinDecide approved expected reason role in
  execute_management_operation op actor (Some tenant) (Some request) key fingerprint trace policy s =
    (s', Ret (v, false)) →
  let d := or_db s in let d' := or_db s' in
  ∃ r now, joins d !! request = Some r ∧ jr_tenant_id r = tenant ∧ jr_state r = PENDING ∧
    jr_version r = expected ∧
    let user := jr_user_id r in
    frame d d' ∧ put_on_record op actor tenant key fingerprint now v d d' ∧
    joins d' = <[request := decide_join r (decided_state approved) reason actor now]> (joins d) ∧
    if approved then role = "member" ∧ ∃ i iv workspace,
      welcome d tenant r now i iv workspace ∧
      invitations d' = <[i := used iv now]> (invitations d) ∧
      members d' = <[(tenant, user) := mkMember tenant user "member" MEMBER_ACTIVE 1 now (Some workspace)]>
        (members d) ∧
      identity_members d' = <[(tenant, user) := "member"]> (identity_members d) ∧
      auth d' = bump_acl tenant workspace now
        (set_memberships (<[(tenant, workspace, user) := mkRoleRow VIEWER "active" 1 now]>
          (memberships (auth d))) (auth d))
    else
      invitations d' = invitations d ∧ members d' = members d ∧ role_history d' = role_history d ∧
      identity_members d' = identity_members d ∧ auth d' = auth d.
Proof.
  intros op He d d'.
  pose proof (execute_effect op actor (Some tenant) (Some request) key fingerprint trace policy s) as Heff.
  unfold wp in Heff. rewrite He in Heff. simpl in Heff.
  destruct Heff as (_ & tenant' & workspace & original & now & item & before & access & d1 & actual & event_id &
    [_ Hs] & Hk & _ & Hp & Hv & Hact & _ & Hd').
  unfold op in *. simpl in Hs, Hp. destruct original as [|iv|r|tm]; try done. destruct Hs as ([= <-] & Ht & Hr & Hw).
  destruct Hp as (Hpend & r' & Hitem & Hp). unfold pending_join in Hpend. bools.
  assert (r' = decide_join r (decided_state approved) reason actor now) as ->.
  { destruct approved; [destruct Hp as (_ & w & _ & (_ & _ & _ & d2 & [-> _] & _) & _)|destruct Hp as [[-> _] _]]; done. }
  exists r, now. subst d d'. rewrite Hd'. do 4 (split; [done|]).
  destruct approved.
  - destruct Hp as (-> & w & Hws & (_ & Hnew & Hadm & d2 & [_ (d3 & Hu & (h & ->)%history_added_db)] & ->) & _).
    rewrite Hws in Hw. symmetry in Hw. apply bind_Some in Hw as (i & Hi & Hw).
    unfold invitation_used in Hu. rewrite Hi in Hu. destruct Hu as (iv & Hiv & Hopen & ->).
    apply bind_Some in Hw as (iv' & Hiv' & Hws'). rewrite Hiv in Hiv'. injection Hiv' as <-.
    split; [done|]. split; [by eexists|]. split; [done|]. split; [done|]. exists i, iv, w.
    split; [done|]. split; [done|]. split; [|done]. simpl. subst tenant. by rewrite insert_insert_eq.
  - destruct Hp as [[_ ->] _]. split; [done|]. split; [by eexists|]. done.
Qed.

(** ** What the authorization service makes of the memberships *)

Lemma permitted_members m m' a role tenant workspace q :
  permitted (set_tenant_memberships m a) role tenant workspace q →
  permitted (set_tenant_memberships m' a) role tenant workspace q.
Proof.
  intros [r H1 H2 H3|r H1 H2 H3|r H1 H2 H3|H1 H2 H3].
  - by eapply permitted_locked.
  - by eapply permitted_workspace.
  - by eapply permitted_tenant.
  - by apply permitted_default.
Qed.

Lemma holds_role_members m m' a p workspace w b :
  holds_role (set_tenant_memberships m a) p workspace w b →
  holds_role (set_tenant_memberships m' a) p workspace w b.
Proof. intros [r H1 H2 H3|r H1 H2 H3 H4]; [by apply holds_tenant_role|by apply holds_membership]. Qed.

(** The memberships matter only where they shut the caller out. *)
Lemma entitled_members m m' a p workspace w b action requested :
  organization_open (set_tenant_memberships m a) p (Some w) =
    organization_open (set_tenant_memberships m' a) p (Some w) →
  entitled (set_tenant_memberships m a) p workspace w b action requested ↔
  entitled (set_tenant_memberships m' a) p workspace w b action requested.
Proof.
  intros Ho. unfold entitled, reachable_workspace. rewrite Ho.
  split; intros ((H1 & H2 & H3 & H4) & H5 & H6 & H7); split_and!; try done; try by eapply holds_role_members.
  all: intros q Hq; eapply permitted_members; by apply H7.
Qed.

Lemma entitled_open d p workspace w b action requested :
  entitled d p workspace w b action requested → organization_open d p (Some w) = true.
Proof. by intros ((_ & _ & _ & ?) & _). Qed.

(** The caller's own row decides. *)
Lemma organization_open_row m m' a p w :
  m !! (tenant_id p, user_id p) = m' !! (tenant_id p, user_id p) →
  organization_open (set_tenant_memberships (Some m) a) p w =
    organization_open (set_tenant_memberships (Some m') a) p w.
Proof. intros Hm. unfold organization_open. simpl. by rewrite Hm. Qed.

(** C5: Setting the state of a member that returns changes that member's
    state and version and nothing that grants anything; but it governs what the
    authorization service lets the member do in the organization's workspaces:
    suspended, the member is entitled to no action there and is granted none;
    active, to exactly what the roles and policies entitle to.  What everybody
    else is entitled to stays as it was. *)
Theorem membership_state_governs {AU I : Type} {AS : AuditStore AU} {IB : IdentityBoundary I} {O : SetOrder}
    actor tenant user (active : bool) expected reason key fingerprint trace policy s s' v :
  let op := MemberState active expected reason in
  execute_management_operation op actor (Some tenant) (Some user) key fingerprint trace policy s =
    (s', Ret (v, false)) →
  let d := or_db s in let d' := or_db s' in
  (∃ tm now, members d !! (tenant, user) = Some tm ∧ tm_version tm = expected ∧
     let tm' := with_member_state tm (if active then MEMBER_ACTIVE else MEMBER_SUSPENDED) now in
     members d' = <[(tenant, user) := tm']> (members d) ∧
     frame d d' ∧ put_on_record op actor tenant key fingerprint now v d d' ∧
     auth d' = auth d ∧ identity_members d' = identity_members d ∧
     joins d' = joins d ∧ invitations d' = invitations d) ∧
  (∀ p workspace w b action requested, wk_workspace_kind w = "organization" →
     entitled (authorization_db d') p workspace w b action requested ↔
     if decide ((tenant_id p, user_id p) = (tenant, user))
     then active = true ∧ entitled (set_tenant_memberships None (auth d)) p workspace w b action requested
     else entitled (authorization_db d) p workspace w b action requested) ∧
  (active = false → ∀ p workspace w action trace' policy' requested (sa : State AU I) g,
     tenant_id p = tenant → user_id p = user → db sa = authorization_db d' →
     find_workspace (auth d') tenant workspace = Some w → wk_workspace_kind w = "organization" →
     result (authorize_action p workspace action trace' policy' requested) sa ≠ Ret g).
Proof.
  intros op He d d'.
  pose proof (execute_effect op actor (Some tenant) (Some user) key fingerprint trace policy s) as Heff.
  unfold wp in Heff. rewrite He in Heff. simpl in Heff.
  destruct Heff as (_ & tenant' & workspace & original & now & item & before & access & d1 & actual & event_id &
    [_ Hs] & Hk & _ & Hp & Hv & Hact & _ & Hd').
  unfold op in *. simpl in Hs, Hp. destruct original as [|iv|r|tm]; try done. destruct Hs as ([= <-] & Ht & Hw).
  destruct Hp as (Hver & [_ (h & ->)%history_added_db] & _).
  set (st := if active then MEMBER_ACTIVE else MEMBER_SUSPENDED) in *.
  assert (authorization_db d' = set_tenant_memberships (Some (<[(tenant, user) := member_value st]>
    ((λ m, member_value (tm_state m)) <$> members d))) (auth d)) as Hauth.
  { subst d d'. rewrite Hd'. unfold authorization_db. simpl. by rewrite fmap_insert. }
  assert (∀ p w, wk_workspace_kind w = "organization" → (tenant_id p, user_id p) = (tenant, user) →
    organization_open (authorization_db d') p (Some w) =
      (active && organization_open (set_tenant_memberships None (auth d)) p (Some w))) as Hopen.
  { intros p w Hkind Hpu. rewrite Hauth. unfold organization_open. simpl. rewrite Hkind, Hpu, lookup_insert_eq. simpl.
    unfold st. destruct active; simpl; by rewrite ?andb_true_r, ?andb_false_r. }
  assert (∀ p workspace w b action requested, wk_workspace_kind w = "organization" →
     entitled (authorization_db d') p workspace w b action requested ↔
     if decide ((tenant_id p, user_id p) = (tenant, user))
     then active = true ∧ entitled (set_tenant_memberships None (auth d)) p workspace w b action requested
     else entitled (authorization_db d) p workspace w b action requested) as Hent.
  { intros p ws w b action requested Hkind. case_decide as Hpu.
    - specialize (Hopen p w Hkind Hpu). rewrite Hauth in *. destruct active; cbn [andb] in Hopen.
      + rewrite (entitled_members _ None) by done. naive_solver.
      + split; [|by intros []]. intros Hen%entitled_open. by rewrite Hopen in Hen.
    - rewrite Hauth. unfold authorization_db. apply entitled_members, organization_open_row.
      by rewrite lookup_insert_ne. }
  split_and!; [|exact Hent|].
  - exists tm, now. subst d d'. rewrite Hd'. do 2 (split; [done|]). split; [done|].
    split; [done|]. split; [by eexists|done].
  - intros -> p ws w action trace' policy' requested sa g <- <- Hdb Hf Hkind Hg.
    pose proof (wp_authorize_action p ws action trace' policy' requested sa) as [_ Hr].
    rewrite Hg in Hr. destruct Hr as (_ & w' & b & _ & Hen & _). rewrite Hdb in Hen.
    pose proof Hen as ((_ & _ & Hf' & _) & _). change (find_workspace (auth d') (tenant_id p) ws = Some w') in Hf'.
    assert (w' = w) as -> by congruence. apply Hent in Hen; [|done]. rewrite decide_True in Hen by done. by destruct Hen.
Qed.
End Decisions.
