(* ===== verification/OrganizationSamples.v ===== *)
(** An organization that invites a user, lets them in and suspends them: the
    run that witnesses the theorems about organizations, and runs that show what
    the repository does not prevent. *)

From S2P Require Import Prelude Sha256 PyStr Json HashChain Bytes AuditLog License Authorization AuthorizationFacts.
From S2P Require Import AuthorizationTables AuthorizationSamples AdminRoles AdminOutbox.
From S2P Require Import Organization OrganizationFacts OrganizationTables OrganizationRuns OrganizationMembers.
#[local] Open Scope Z_scope.
#[local] Existing Instance checksum_digest.
#[local] Existing Instance sample_world.

(** A reader of [YYYY-MM-DDTHH:MM:SS.ffffff+00:00]. *)
Definition read_micros (s : string) : option (Z * option Z) :=
  '(t, off) ← License.Sample.read_seconds (String.substring 0 19 s +:+ String.substring 26 6 s);
  us ← License.Sample.digits_at 20 6 s;
  Some (t + us, off).

#[local] Instance micros_reader : IsoReader := {| fromisoformat := read_micros |}.

Abbreviation Sys := (OrgState Store).

(** The workspaces alpha and beta of tenant-1, and a user with no role there *)
Definition zoe : UserRow := mkUser "active" false "oidc" None.

Definition opened : Sys :=
  mkOrg (mkOrgDb ∅ ∅ ∅ ∅ ∅ ∅ ∅ (db staffed) {["zoe" := zoe]} {["tenant-1"]} ∅) None (Some empty_store)
    (mkDraws 0 0).

Definition print_1 : string := "0123456789abcdef0123456789abcdef0123456789abcdef0123456789abcdef".
Definition print_2 : string := "fedcba9876543210fedcba9876543210fedcba9876543210fedcba9876543210".

Definition manage (op : Operation) (actor : string) (tenant target : option string) (s : Sys)
    : Sys * outcome (View * bool) :=
  execute_management_operation op actor tenant target "operation-0123456789" print_1 "trace-1" "policy-1" s.

Definition invite : Operation := InvitationCreate "welcome" 1800000000000000 1 (Some "alpha").
Definition join : Operation := JoinCreate (Some "welcome").
Definition approve : Operation := JoinDecide true 1 (Some "new colleague") "member".
Definition suspend : Operation := MemberState false 1 (Some "on leave").

Definition invited_ : Sys := fst (manage invite "boss" (Some "tenant-1") None opened).
Definition asked : Sys := fst (manage join "zoe" None None invited_).
Definition approved_ : Sys := fst (manage approve "boss" (Some "tenant-1") (Some "joinreq-2") asked).
Definition suspended : Sys := fst (manage suspend "boss" (Some "tenant-1") (Some "zoe") approved_).
Definition delivered : Sys :=
  fst (dispatch_pending_management_audits false true (λ _, false) (λ _, true) 100 suspended).

Definition value_of (o : outcome (View * bool)) : View :=
  match o with Ret (v, _) => v | Raise _ => ∅ end.

Definition approved_view : View := value_of (snd (manage approve "boss" (Some "tenant-1") (Some "joinreq-2") asked)).
Definition suspended_view : View := value_of (snd (manage suspend "boss" (Some "tenant-1") (Some "zoe") approved_)).

Lemma approve_value :
  snd (manage approve "boss" (Some "tenant-1") (Some "joinreq-2") asked) = Ret (approved_view, false).
Proof. vm_compute. reflexivity. Qed.

Lemma suspend_value :
  snd (manage suspend "boss" (Some "tenant-1") (Some "zoe") approved_) = Ret (suspended_view, false).
Proof. vm_compute. reflexivity. Qed.

Lemma approve_returned :
  manage approve "boss" (Some "tenant-1") (Some "joinreq-2") asked = (approved_, Ret (approved_view, false)).
Proof. exact (both _ _ approve_value). Qed.

Lemma suspend_returned :
  manage suspend "boss" (Some "tenant-1") (Some "zoe") approved_ = (suspended, Ret (suspended_view, false)).
Proof. exact (both _ _ suspend_value). Qed.

(** What the run leaves: the invitation is used up, zoe views alpha, and after
    the suspension is refused there. *)
Example zoe_after_approval :
  (iv_used_count <$> invitations (or_db approved_) !! "invite-0",
   tm_join_workspace_id <$> members (or_db approved_) !! ("tenant-1", "zoe"),
   rr_role <$> memberships (auth (or_db approved_)) !! ("tenant-1", "alpha", "zoe"),
   ob_delivered_at <$> outbox (or_db approved_) !! ("boss", "organization.join.decide", "operation-0123456789")) =
  (Some 1, Some (Some "alpha"), Some VIEWER, Some None).
Proof. vm_compute. reflexivity. Qed.

Definition zoe_views (d : OrgDb) : outcome AuthorizationGrant :=
  result (authorize_action (user "zoe") "alpha" VIEW "trace-1" "policy-1" [])
    (set_db (authorization_db d) staffed).

Example zoe_is_shut_out :
  match zoe_views (or_db approved_), zoe_views (or_db suspended) with
  | Ret g, Raise e => gr_role g = VIEWER ∧ e = AuthorizationError "ORGANIZATION_MEMBERSHIP_SUSPENDED" 403
  | _, _ => False
  end.
Proof. vm_compute. split; reflexivity. Qed.

(** The invitation is used up, so nobody else can ask with it. *)
Example invitation_used_up :
  snd (execute_management_operation join "yan" None None "operation-0123456789" print_1 "trace-1" "policy-1"
    approved_) = Raise INVITATION_INVALID.
Proof. vm_compute. reflexivity. Qed.

(** Any number of people may ask on an invitation for one; who is approved first
    takes it. *)
Definition asked_twice : Sys :=
  fst (execute_management_operation join "yan" None None "operation-0123456789" print_1 "trace-1" "policy-1" asked).

Example second_approval_refused :
  snd (manage approve "boss" (Some "tenant-1") (Some "joinreq-4")
    (fst (execute_management_operation approve "boss" (Some "tenant-1") (Some "joinreq-2") "operation-0000000001"
      print_1 "trace-1" "policy-1" asked_twice))) = Raise INVITATION_INVALID.
Proof. vm_compute. reflexivity. Qed.

(** ** Witnesses *)

Lemma manage_step op actor tenant target s : org_step s (fst (manage op actor tenant target s)).
Proof. apply step_manage. Qed.

Lemma opened_fresh : unused (or_db opened) ∧ log_ok opened.
Proof.
  split; [by split_and!|]. intros a [= <-]. split; [apply NoDup_nil_2|reflexivity].
Qed.

Lemma asked_reachable : org_reachable asked.
Proof.
  destruct opened_fresh as [Hu Hl]. exists opened. split; [done|]. split; [done|].
  eapply rtc_l; [apply manage_step|]. apply rtc_once, manage_step.
Qed.

Lemma approved_reachable : org_reachable approved_.
Proof.
  destruct asked_reachable as (s0 & Hu & Hl & Hr). exists s0. split; [done|]. split; [done|].
  eapply rtc_r; [exact Hr|]. apply manage_step.
Qed.

Lemma delivered_reachable : org_reachable delivered.
Proof.
  destruct approved_reachable as (s0 & Hu & Hl & Hr). exists s0. split; [done|]. split; [done|].
  eapply rtc_r; [eapply rtc_r; [exact Hr|apply manage_step]|]. apply step_dispatch.
Qed.

Definition suspend_key : OpKey := ("boss", "organization.member.state", "operation-0123456789").

Definition was_delivered (row : option OutboxRow) : bool :=
  match row with Some row => match ob_delivered_at row with Some _ => true | None => false end | None => false end.

Lemma suspension_marked : was_delivered (outbox (or_db delivered) !! suspend_key) = true.
Proof. vm_compute. reflexivity. Qed.

Lemma delivered_some o : was_delivered o = true → ∃ row, o = Some row ∧ ob_delivered_at row ≠ None.
Proof.
  destruct o as [row|]; simpl; [|done]. destruct (ob_delivered_at row) eqn:Hd; [|done]. intros _.
  exists row. split; [done|]. by rewrite Hd.
Qed.

Lemma suspension_delivered :
  ∃ row, outbox (or_db delivered) !! suspend_key = Some row ∧ ob_delivered_at row ≠ None.
Proof. exact (delivered_some _ suspension_marked). Qed.

(** A view whose times are checked one by one *)
Definition reads_back (kj : string * json) : bool :=
  negb (endswith "_at" kj.1) ||
  match kj.2 with
  | JStr s => match fromisoformat s with Some (t, Some _) => String.eqb s (iso_micros t) | _ => false end
  | _ => false
  end.

Lemma times_read_checked v : forallb reads_back (map_to_list v) = true → times_read v.
Proof.
  intros Hv k j He Hk. rewrite forallb_elem in Hv. specialize (Hv (k, j)). unfold reads_back in Hv. simpl in Hv.
  rewrite He in Hv. simpl in Hv. specialize (Hv (proj2 (elem_of_map_to_list _ _ _) Hk)).
  repeat case_match; try discriminate. bools. subst. eexists _, _. by split; [|eassumption].
Qed.

Lemma organization_tables_witness :
  org_reachable approved_ ∧ rtc org_step approved_ suspended ∧
  org_wf (or_db approved_) ∧ later (or_db approved_) (or_db suspended).
Proof.
  split; [exact approved_reachable|]. split; [apply rtc_once, manage_step|].
  apply (organization_tables approved_ suspended); [exact approved_reachable|apply rtc_once, manage_step].
Defined.

Lemma organization_events_delivered_witness :
  ∃ row, outbox (or_db delivered) !! suspend_key = Some row ∧ ob_delivered_at row ≠ None ∧
  ∃ a e, or_audit delivered = Some a ∧ e ∈ audit_events a ∧ draft_of e = management_draft suspend_key row ∧
    ∀ e', e' ∈ audit_events a → ev_event_id e' = ob_event_id row → e' = e.
Proof.
  destruct suspension_delivered as (row & Hk & Hd). exists row. split; [exact Hk|]. split; [exact Hd|].
  apply (organization_events_delivered delivered suspend_key row); [exact delivered_reachable|exact Hk|exact Hd].
Defined.

Lemma management_replay_witness :
  manage approve "boss" (Some "tenant-1") (Some "joinreq-2") suspended = (suspended, Ret (approved_view, true)).
Proof.
  apply (management_replay approve "boss" (Some "tenant-1") (Some "joinreq-2") "operation-0123456789" print_1
    "trace-1" "policy-1" asked approved_ approved_view suspended).
  - exact asked_reachable.
  - discriminate.
  - exact approve_returned.
  - apply times_read_checked. vm_compute. reflexivity.
  - apply rtc_once, manage_step.
Defined.

Lemma join_decision_witness :
  ∃ r now i iv workspace,
    joins (or_db asked) !! "joinreq-2" = Some r ∧ welcome (or_db asked) "tenant-1" r now i iv workspace ∧
    invitations (or_db approved_) = <[i := used iv now]> (invitations (or_db asked)).
Proof.
  pose proof approve_returned as Hd. unfold manage, approve in Hd.
  destruct (join_decision "boss" "tenant-1" "joinreq-2" true 1 (Some "new colleague") "member"
    "operation-0123456789" print_1 "trace-1" "policy-1" asked approved_ approved_view Hd)
    as (r & now & Hr & _ & _ & _ & _ & _ & _ & _ & i & iv & workspace & Hw & Hi & _).
  exists r, now, i, iv, workspace. split; [exact Hr|]. split; [exact Hw|exact Hi].
Defined.

(** alpha as it is after the suspension, and the role zoe had there before *)
Definition alpha_row : WorkspaceRow :=
  default (mkWorkspace "" "" "" 0 0 0 0) (find_workspace (auth (or_db suspended)) "tenant-1" "alpha").

Definition zoe_binding : RoleBinding :=
  default (mkBinding WORKSPACE_ADMIN WORKSPACE 0)
    (role_binding (authorization_db (or_db approved_)) (user "zoe") "alpha" alpha_row).

Lemma membership_state_governs_witness :
  wk_workspace_kind alpha_row = "organization" ∧
  ¬ entitled (authorization_db (or_db suspended)) (user "zoe") "alpha" alpha_row zoe_binding VIEW [].
Proof.
  assert (wk_workspace_kind alpha_row = "organization") as Hk by (vm_compute; reflexivity).
  split; [exact Hk|]. intros He.
  pose proof suspend_returned as Hd. unfold manage, suspend in Hd.
  destruct (membership_state_governs (AU:=Store) (I:=unit) "boss" "tenant-1" "zoe" false 1 (Some "on leave")
    "operation-0123456789" print_1 "trace-1" "policy-1" approved_ suspended suspended_view Hd)
    as (_ & Hent & _).
  apply Hent in He; [|exact Hk]. rewrite decide_True in He by reflexivity. destruct He as [Hf _]. discriminate Hf.
Defined.
