(* ===== verification/Notification.v ===== *)
(** Notifications and the inbox (notification.py): the reference repository, and
    [NotificationService] over it and the authorization service.

    The runtime gives both services one audit store, so the state holds the
    authorization service's state, to whose store events are appended.  A time
    that was checked is an instant in UTC.  The lock is not modelled: a call of
    the repository is one step anyway. *)

From S2P Require Import Prelude Sha256 PyStr Json HashChain Bytes AuditLog PyUrl Authorization.
From Stdlib Require Import NArith Ascii.
#[local] Open Scope Z_scope.

Definition NotificationError (code : string) (http_status : Z) : exn := Raised code http_status false.

(** ** Data *)

Inductive DeliveryState := DELIVERY_PENDING | DELIVERY_DELIVERED | DELIVERY_FAILED | DELIVERY_SUPPRESSED.
Inductive ReadState := UNREAD | READ.

#[export] Instance delivery_state_eq_dec : EqDecision DeliveryState.
Proof. solve_decision. Defined.

Definition delivery_value (s : DeliveryState) : string :=
  match s with
  | DELIVERY_PENDING => "pending"
  | DELIVERY_DELIVERED => "delivered"
  | DELIVERY_FAILED => "failed"
  | DELIVERY_SUPPRESSED => "suppressed"
  end.
Definition read_value (s : ReadState) : string :=
  match s with UNREAD => "unread" | READ => "read" end.

Record NotificationEvent := mkNotificationEvent {
  ne_event_id : string;
  ne_tenant_id : string;
  ne_workspace_id : string;
  ne_kind : string;
  ne_severity : string;
  ne_title : string;
  ne_summary : string;
  ne_resource_type : string;
  ne_resource_id : string;
  ne_deep_link : string;
  ne_trace_id : string;
  ne_policy_version : string
}.

Record Notification := mkNotification {
  nt_notification_id : string;
  nt_tenant_id : string;
  nt_workspace_id : string;
  nt_recipient_id : string;
  nt_kind : string;
  nt_severity : string;
  nt_title : string;
  nt_summary : string;
  nt_source_event_id : string;
  nt_resource_type : string;
  nt_resource_id : string;
  nt_deep_link : string;
  nt_audit_event_id : string;
  nt_trace_id : string;
  nt_delivery_state : DeliveryState;
  nt_created_at : Z;
  nt_delivered_at : option Z;
  nt_read_at : option Z;
  nt_version : Z
}.

Definition nt_read_state (n : Notification) : ReadState :=
  match nt_read_at n with Some _ => READ | None => UNREAD end.
Definition nt_etag (n : Notification) : string := dquoted ("notification-" +:+ str_int (nt_version n)).

(** [replace(item, read_at=read_at, version=item.version + 1)] *)
Definition read_at_time (n : Notification) (t : Z) : Notification :=
  mkNotification (nt_notification_id n) (nt_tenant_id n) (nt_workspace_id n) (nt_recipient_id n)
    (nt_kind n) (nt_severity n) (nt_title n) (nt_summary n) (nt_source_event_id n) (nt_resource_type n)
    (nt_resource_id n) (nt_deep_link n) (nt_audit_event_id n) (nt_trace_id n) (nt_delivery_state n)
    (nt_created_at n) (nt_delivered_at n) (Some t) (nt_version n + 1).

Record NotificationPage := mkNotificationPage {
  np_items : list Notification;
  np_next_cursor : option string;
  np_unread_count : Z
}.

(** [due_at] may be any [datetime] until it is checked. *)
Record InboxRequest := mkInboxRequest {
  ir_request_id : string;
  ir_request_kind : string;
  ir_status : string;
  ir_tenant_id : string;
  ir_workspace_id : string;
  ir_recipient_id : string;
  ir_actor_id : string;
  ir_due_at : option (Z * option Z);
  ir_resource_type : string;
  ir_resource_id : string;
  ir_deep_link : string
}.

Record InboxPage := mkInboxPage {
  ip_items : list InboxRequest;
  ip_next_cursor : option string
}.

Record ReadTransition := mkTransition {
  tr_notification : Notification;
  tr_first_transition : bool
}.

(** ** Constants *)

Definition SAFE_WEB_PATHS : list string := ["operations"; "inbox"; "notifications"; "workspaces"].
Definition ALLOWED_KINDS : list string :=
  ["authentication"; "device"; "membership"; "policy"; "run_state"; "run_failed"; "review"; "approval";
   "delivery"; "warning"; "recovery"].
Definition ALLOWED_SEVERITIES : list string := ["info"; "warning"; "critical"].
Definition ALLOWED_REQUEST_STATES : list string :=
  ["pending"; "in_review"; "approved"; "rejected"; "expired"; "withdrawn"; "delivered"; "failed";
   "cancelled"].

(** [_REQUEST_ACTIONS]; its keys are [_ALLOWED_REQUEST_KINDS]. *)
Definition request_action (kind : string) : option Action :=
  if String.eqb kind "review" then Some REVIEW
  else if String.eqb kind "approval" then Some APPROVE
  else if String.eqb kind "delivery" then Some DELIVER
  else None.

(** The default of [native_route_allowlist] *)
Definition NATIVE_ROUTES : list string := ["operations"; "inbox"; "notifications"].

Definition NT_INVALID_INPUT : exn := NotificationError "INVALID_INPUT" 400.
Definition NT_INVALID_CURSOR : exn := NotificationError "INVALID_CURSOR" 400.
Definition NT_UNAVAILABLE : exn := NotificationError "RESOURCE_UNAVAILABLE" 404.
Definition UNSAFE_DEEP_LINK : exn := NotificationError "UNSAFE_DEEP_LINK" 400.
Definition INVALID_FILTER : exn := NotificationError "INVALID_FILTER" 400.
Definition IDEMPOTENCY_CONFLICT : exn := NotificationError "IDEMPOTENCY_CONFLICT" 409.
Definition NT_VERSION_CONFLICT : exn := NotificationError "VERSION_CONFLICT" 412.
Definition INVALID_TRANSITION : exn := NotificationError "INVALID_STATE_TRANSITION" 409.

(** ** Checks *)

Section Checks.
Context {B : BracketedHost} {T : Type}.

(** [_checked_id] *)
Definition nt_checked_id (value : string) : M T string :=
  guard (safe_id value) NT_INVALID_INPUT ;;
  ret value.

(** [_checked_time] *)
Definition checked_time (value : option (Z * option Z)) : M T (option Z) :=
  match value with
  | None => ret None
  | Some (t, Some 0) => ret (Some t)
  | Some _ => raise NT_INVALID_INPUT
  end.

(** [_plain_text] *)
Definition plain_text_ok (maximum : nat) (value : string) : bool :=
  String.eqb value (strip value) && negb (String.eqb value "") && Nat.leb (String.length value) maximum &&
  all_chars (λ c, negb (has_char c "<>") && negb (in_range 0 31 c)) value.

Definition plain_text (maximum : nat) (value : string) : M T string :=
  guard (plain_text_ok maximum value) NT_INVALID_INPUT ;;
  ret value.

(** [re.fullmatch(r"/notebooks/<id>\?(?:...)=<id>", value)] *)
Definition notebook_link (value : string) : bool :=
  startswith "/notebooks/" value &&
  match split_once "?" (String.substring 11 (String.length value - 11) value) with
  | Some (notebook, rest) =>
      safe_id notebook &&
      match split_once "=" rest with
      | Some (key, id) =>
          bool_decide (key ∈ ["output_version_id"; "source_version_id"; "run_id"; "studio_job_id"]) &&
          safe_id id
      | None => false
      end
  | None => false
  end.

(** [path.strip("/")] *)
Definition strip_slashes (path : string) : string :=
  rstrip_by (Ascii.eqb "/") (lstrip_by (Ascii.eqb "/") path).

(** [_safe_deep_link] *)
Definition safe_deep_link (native_routes : list string) (value : string) : M T string :=
  guard (Nat.leb (String.length value) 512 && String.eqb value (strip value)) UNSAFE_DEEP_LINK ;;
  if String.eqb value "/settings/account" || notebook_link value then ret value
  else
    parsed <- from_option (urlsplit value) (PyError "ValueError") ;;
    if startswith "/" value && negb (startswith "//" value) then
      let first := (cut "/" (strip_slashes (sp_path parsed))).1 in
      guard (String.eqb (sp_scheme parsed) "" && String.eqb (sp_netloc parsed) "" &&
             bool_decide (first ∈ SAFE_WEB_PATHS)) UNSAFE_DEEP_LINK ;;
      ret value
    else
      guard (String.eqb (sp_scheme parsed) "sinsan-daon" && String.eqb (sp_netloc parsed) "app" &&
             String.eqb (sp_query parsed) "" && String.eqb (sp_fragment parsed) "") UNSAFE_DEEP_LINK ;;
      guard (bool_decide (strip_slashes (sp_path parsed) ∈ native_routes)) UNSAFE_DEEP_LINK ;;
      ret value.
End Checks.

(** ** Filters *)

(** [_FILTERS.fullmatch(value)] *)
Definition filter_kind_ok (s : string) : bool :=
  match_id is_lower (λ c, is_lower c || is_digit c || Ascii.eqb c "_") 64 s.

Definition filter_ok (value : string) : bool :=
  match split_once ":" value with
  | Some (key, item) =>
      (String.eqb key "state" && bool_decide (item ∈ ["unread"; "read"])) ||
      (String.eqb key "kind" && filter_kind_ok item) ||
      (String.eqb key "severity" && bool_decide (item ∈ ALLOWED_SEVERITIES))
  | None => false
  end.

(** [_INBOX_FILTERS.fullmatch(value)] *)
Definition inbox_filter_ok (value : string) : bool :=
  match split_once ":" value with
  | Some (key, item) =>
      (String.eqb key "kind" && bool_decide (is_Some (request_action item))) ||
      (String.eqb key "state" && bool_decide (item ∈ ALLOWED_REQUEST_STATES))
  | None => false
  end.

Abbreviation Filters := (list (string * string)).

Definition parse_filter {T} (ok : string → bool) (value : option string) : M T Filters :=
  match value with
  | None => ret []
  | Some v =>
      guard (ok v) INVALID_FILTER ;;
      kv <- from_option (split_once ":" v) (PyError "ValueError") ;;
      ret [kv]
  end.

Definition parse_notification_filter {T} : option string → M T Filters := parse_filter filter_ok.
Definition parse_inbox_filter {T} : option string → M T Filters := parse_filter inbox_filter_ok.

(** ** Answers *)

(** [datetime.isoformat()] of an instant in UTC *)
Definition notification_json (n : Notification) : json := JObj
  [("id", JStr (nt_notification_id n)); ("workspace_id", JStr (nt_workspace_id n));
   ("recipient_id", JStr (nt_recipient_id n)); ("kind", JStr (nt_kind n));
   ("severity", JStr (nt_severity n)); ("title", JStr (nt_title n)); ("summary", JStr (nt_summary n));
   ("source_event_id", JStr (nt_source_event_id n)); ("resource_type", JStr (nt_resource_type n));
   ("resource_id", JStr (nt_resource_id n)); ("deep_link", JStr (nt_deep_link n));
   ("audit_event_id", JStr (nt_audit_event_id n)); ("trace_id", JStr (nt_trace_id n));
   ("delivery_state", JStr (delivery_value (nt_delivery_state n)));
   ("read_state", JStr (read_value (nt_read_state n)));
   ("created_at", JStr (isoformat (nt_created_at n)));
   ("delivered_at", JOpt (isoformat <$> nt_delivered_at n));
   ("read_at", JOpt (isoformat <$> nt_read_at n)); ("version", JInt (nt_version n))].

(** [due_at] is in UTC, since it was checked. *)
Definition inbox_json (r : InboxRequest) : json := JObj
  [("request_id", JStr (ir_request_id r)); ("request_kind", JStr (ir_request_kind r));
   ("status", JStr (ir_status r)); ("workspace_id", JStr (ir_workspace_id r));
   ("actor_id", JStr (ir_actor_id r)); ("due_at", JOpt (isoformat ∘ fst <$> ir_due_at r));
   ("resource_type", JStr (ir_resource_type r)); ("resource_id", JStr (ir_resource_id r));
   ("deep_link", JStr (ir_deep_link r))].

(** ** State *)

Record NtState (A I : Type) := mkNt {
  nt_secret : list N;
  nt_notifications : list (string * Notification);
  nt_dedupe : gset string;
  nt_idempotency : gmap string (string * Notification);
  nt_inbox : list (string * InboxRequest);
  (** the authorization service, with the audit store of both *)
  nt_auth : State A I
}.
Arguments mkNt {A I}.
Arguments nt_secret {A I}.
Arguments nt_notifications {A I}.
Arguments nt_dedupe {A I}.
Arguments nt_idempotency {A I}.
Arguments nt_inbox {A I}.
Arguments nt_auth {A I}.

Section State.
Context {A I : Type}.
Implicit Types s : NtState A I.

Definition set_nt_notifications v s : NtState A I :=
  mkNt (nt_secret s) v (nt_dedupe s) (nt_idempotency s) (nt_inbox s) (nt_auth s).
Definition set_nt_dedupe v s : NtState A I :=
  mkNt (nt_secret s) (nt_notifications s) v (nt_idempotency s) (nt_inbox s) (nt_auth s).
Definition set_nt_idempotency v s : NtState A I :=
  mkNt (nt_secret s) (nt_notifications s) (nt_dedupe s) v (nt_inbox s) (nt_auth s).
Definition set_nt_inbox v s : NtState A I :=
  mkNt (nt_secret s) (nt_notifications s) (nt_dedupe s) (nt_idempotency s) v (nt_auth s).
Definition set_nt_auth v s : NtState A I :=
  mkNt (nt_secret s) (nt_notifications s) (nt_dedupe s) (nt_idempotency s) (nt_inbox s) v.
End State.

#[export] Instance nt_drawing {A I} : Drawing (NtState A I) := {|
  draws_of s := draws_of (nt_auth s);
  with_draws v s := set_nt_auth (with_draws v (nt_auth s)) s
|}.

(** ** ReferenceNotificationRepository *)

Section Repository.
Context {D : Digest} {A I : Type}.
Abbreviation St := (M (NtState A I)).

Definition insert_if_absent (dedupe_key : string) (n : Notification) : St bool :=
  seen <- gets (λ s, bool_decide (dedupe_key ∈ nt_dedupe s)) ;;
  if seen then ret false
  else
    modify (λ s, set_nt_dedupe ({[dedupe_key]} ∪ nt_dedupe s) s) ;;
    modify (λ s, set_nt_notifications (dict_set (nt_notification_id n) n (nt_notifications s)) s) ;;
    ret true.

Definition all_notifications : St (list Notification) := gets (λ s, dict_values (nt_notifications s)).

Definition belongs (tenant recipient : string) (n : Notification) : bool :=
  String.eqb (nt_tenant_id n) tenant && String.eqb (nt_recipient_id n) recipient.

Definition notifications_for (tenant recipient : string) : St (list Notification) :=
  gets (λ s, filter (λ n, belongs tenant recipient n = true) (dict_values (nt_notifications s))).

Definition notification_by_id (id : string) : St (option Notification) :=
  gets (λ s, dict_get id (nt_notifications s)).

Definition notification_for (tenant recipient id : string) : St (option Notification) :=
  item <- notification_by_id id ;;
  ret (n ← item; if belongs tenant recipient n then Some n else None).

Definition replace_notification (n : Notification) : St unit :=
  found <- notification_by_id (nt_notification_id n) ;;
  guard (bool_decide (is_Some found)) NT_UNAVAILABLE ;;
  modify (λ s, set_nt_notifications (dict_set (nt_notification_id n) n (nt_notifications s)) s).

Definition idempotency_result (key : string) : St (option (string * Notification)) :=
  gets (λ s, nt_idempotency s !! key).

Definition save_idempotency_result (key fingerprint : string) (n : Notification) : St unit :=
  modify (λ s, set_nt_idempotency (<[key := (fingerprint, n)]> (nt_idempotency s)) s).

Definition transition_read (id tenant recipient expected_etag key fingerprint : string) (read_at : Z)
    (on_first_transition : Notification → Notification → St unit) : St ReadTransition :=
  again <- idempotency_result key ;;
  match again with
  | Some (found, n) =>
      guard (String.eqb found fingerprint) IDEMPOTENCY_CONFLICT ;;
      ret (mkTransition n false)
  | None =>
      item <- notification_by_id id ;;
      n <- from_option (n ← item; if belongs tenant recipient n then Some n else None) NT_UNAVAILABLE ;;
      guard (String.eqb expected_etag (nt_etag n)) NT_VERSION_CONFLICT ;;
      guard (bool_decide (nt_read_at n = None)) INVALID_TRANSITION ;;
      let updated := read_at_time n read_at in
      on_first_transition n updated ;;
      modify (λ s, set_nt_notifications (dict_set id updated (nt_notifications s)) s) ;;
      save_idempotency_result key fingerprint updated ;;
      ret (mkTransition updated true)
  end.

Definition upsert_inbox_request (r : InboxRequest) : St unit :=
  modify (λ s, set_nt_inbox (dict_set (ir_request_id r) r (nt_inbox s)) s).

Definition all_inbox_requests : St (list InboxRequest) := gets (λ s, dict_values (nt_inbox s)).

(** *** Cursors *)

(** The 16 bytes that authenticate a cursor *)
Definition cursor_mac (secret payload : list N) : list N := take 16 (hmac_sha256 secret payload).

Definition dot : N := 46.

(** [raw.rsplit(b".", 1)], where there is a dot *)
Fixpoint rsplit_dot (raw : list N) : option (list N * list N) :=
  match raw with
  | [] => None
  | b :: raw' =>
      match rsplit_dot raw' with
      | Some (payload, digest) => Some (b :: payload, digest)
      | None => if N.eqb b dot then Some ([], raw') else None
      end
  end.

Definition is_ascii (s : string) : bool := all_chars (in_range 0 127) s.

Definition encode_item_cursor (item_id : string) : St string :=
  guard (is_ascii item_id) (PyError "UnicodeEncodeError") ;;
  gets (λ s, let payload := encode item_id in b64encode (payload ++ dot :: cursor_mac (nt_secret s) payload)).

(** The payload and the digest of a cursor, and the id *)
Definition cursor_content (cursor : string) : option (list N * list N * string) :=
  if is_ascii cursor then
    raw ← b64decode_padded cursor;
    '(payload, digest) ← rsplit_dot raw;
    id ← decode_ascii payload;
    Some (payload, digest, id)
  else None.

Definition decode_item_cursor (cursor : string) : St string :=
  guard (negb (String.eqb cursor "") && Nat.leb (String.length cursor) 512) NT_INVALID_CURSOR ;;
  content <- from_option (cursor_content cursor) NT_INVALID_CURSOR ;;
  let '(payload, digest, id) := content in
  expected <- gets (λ s, cursor_mac (nt_secret s) payload) ;;
  guard (bool_decide (digest = expected) && safe_id id) NT_INVALID_CURSOR ;;
  ret id.
End Repository.

(** ** NotificationService *)

(** A call whose exception the caller looks at *)
Definition attempt {S B} (m : M S B) : M S (outcome B) := λ s, let '(s', o) := m s in (s', Ret o).

Section Service.
Context {D : Digest} {W : World} {B : BracketedHost} {O : SetOrder}.
Context {A I : Type} {AS : AuditStore A} {IB : IdentityBoundary I}.
Context (native_routes : list string).
Abbreviation St := (M (NtState A I)).

Definition access_error (http_status : Z) : exn :=
  if 500 <=? http_status then NotificationError "DATABASE_UNAVAILABLE" 503
  else if http_status =? 404 then NT_UNAVAILABLE
  else NotificationError "CURRENT_ACCESS_DENIED" 403.

(** [_authorize] *)
Definition nt_authorize (p : IdentityPrincipal) (workspace trace policy : string) (action : Action) : St unit :=
  granted <- attempt (zoom nt_auth set_nt_auth (authorize_action p workspace action trace policy [])) ;;
  match granted with
  | Ret _ => ret tt
  | Raise (Raised _ status _) => raise (access_error status)
  | Raise e => raise e
  end.

(** [self._audit.append] *)
Definition nt_audit (draft : AuditEventDraft) : St unit := λ s,
  let '(a, o) := audit_append draft (audit_store (nt_auth s)) in
  (set_nt_auth (set_audit_store a (nt_auth s)) s,
   match o with Ret _ => Ret tt | Raise e => Raise e end).

(** [_validate_event] *)
Definition validate_event (e : NotificationEvent) : St unit :=
  mfor [ne_event_id e; ne_tenant_id e; ne_workspace_id e; ne_resource_type e; ne_resource_id e;
        ne_trace_id e; ne_policy_version e] (λ v, nt_checked_id v ;; ret tt) ;;
  guard (bool_decide (ne_kind e ∈ ALLOWED_KINDS) && bool_decide (ne_severity e ∈ ALLOWED_SEVERITIES))
    NT_INVALID_INPUT ;;
  plain_text 160 (ne_title e) ;;
  plain_text 500 (ne_summary e) ;;
  safe_deep_link native_routes (ne_deep_link e) ;;
  ret tt.

Definition dedupe_key (event_id user kind : string) : string :=
  event_id +:+ "|" +:+ user +:+ "|" +:+ kind.

(** [hashlib.sha256(s.encode("utf-8")).hexdigest()[:24]] *)
Definition short_digest (s : string) : string := String.substring 0 24 (sha256_hex (encode s)).

Definition new_notification (e : NotificationEvent) (user digest : string) (now : Z) : Notification :=
  mkNotification ("notification-" +:+ digest) (ne_tenant_id e) (ne_workspace_id e) user (ne_kind e)
    (ne_severity e) (ne_title e) (ne_summary e) (ne_event_id e) (ne_resource_type e) (ne_resource_id e)
    (ne_deep_link e) ("audit-notification-" +:+ digest) (ne_trace_id e) DELIVERY_DELIVERED now (Some now)
    None 1.

(** The event of a notification's creation *)
Definition created_draft (n : Notification) (policy : string) : AuditEventDraft :=
  mkDraft (PyStr (nt_audit_event_id n)) (Datetime (nt_created_at n) (Some 0)) (PyStr "notification-service")
    (Some SERVICE) (PyStr (nt_tenant_id n)) (PyStr (nt_workspace_id n)) (PyStr "notification.created")
    (PyStr "notification") (PyStr (nt_notification_id n)) (Some SUCCEEDED) (PyStr (nt_trace_id n))
    (PyStr policy) JNull
    (JObj [("recipient_id", JStr (nt_recipient_id n)); ("kind", JStr (nt_kind n));
           ("delivery_state", JStr "delivered")])
    (JObj [("source_event_id", JStr (nt_source_event_id n)); ("channel", JStr "in_app")]).

(** The body of the loop of [publish] for one candidate *)
Definition publish_to (e : NotificationEvent) (created : list Notification) (p : IdentityPrincipal)
    : St (list Notification) :=
  if negb (String.eqb (tenant_id p) (ne_tenant_id e)) then ret created
  else
    access <- attempt (nt_authorize p (ne_workspace_id e) (ne_trace_id e) (ne_policy_version e) VIEW) ;;
    match access with
    | Raise (Raised _ _ _) => ret created
    | Raise err => raise err
    | Ret _ =>
        let key := dedupe_key (ne_event_id e) (user_id p) (ne_kind e) in
        now <- clock ;;
        let n := new_notification e (user_id p) (short_digest key) now in
        fresh <- insert_if_absent key n ;;
        if fresh then
          nt_audit (created_draft n (ne_policy_version e)) ;;
          ret (created ++ [n])
        else ret created
    end.

Definition publish (e : NotificationEvent) (candidates : list IdentityPrincipal) : St (list Notification) :=
  validate_event e ;;
  mfold candidates (publish_to e) [].

(** [_visible_notifications]: newest first *)
Definition newer (a b : Notification) : bool :=
  (nt_created_at b <? nt_created_at a) ||
  ((nt_created_at b =? nt_created_at a) && string_leb (nt_notification_id b) (nt_notification_id a)).

Definition visible_notifications (p : IdentityPrincipal) (trace policy : string) : St (list Notification) :=
  candidates <- notifications_for (tenant_id p) (user_id p) ;;
  mfor (filter (λ n, belongs (tenant_id p) (user_id p) n = true) candidates) (λ n,
    nt_authorize p (nt_workspace_id n) trace policy VIEW ;;
    safe_deep_link native_routes (nt_deep_link n) ;;
    ret tt) ;;
  ret (sort_stable newer (filter (λ n, belongs (tenant_id p) (user_id p) n = true) candidates)).

(** The filter of a list: at most one key, one that the list knows *)
Definition one_filter {X} (columns : string → option (X → string)) (filters : Filters) (l : list X)
    : St (list X) :=
  match filters with
  | [] => ret l
  | [(key, value)] =>
      column <- from_option (columns key) INVALID_FILTER ;;
      ret (filter (λ x, column x = value) l)
  | _ => raise INVALID_FILTER
  end.

Definition notification_column (key : string) : option (Notification → string) :=
  if String.eqb key "state" then Some (λ n, read_value (nt_read_state n))
  else if String.eqb key "kind" then Some nt_kind
  else if String.eqb key "severity" then Some nt_severity
  else None.

Definition inbox_column (key : string) : option (InboxRequest → string) :=
  if String.eqb key "kind" then Some ir_request_kind
  else if String.eqb key "state" then Some ir_status
  else None.

(** The items one of whose texts has the search term in it *)
Definition search_items {X} (texts : X → list string) (search : option string) (l : list X) : St (list X) :=
  match search with
  | None => ret l
  | Some search =>
      term <- plain_text 128 search ;;
      ret (filter (λ x, existsb (λ t, contains (casefold term) (casefold t)) (texts x) = true) l)
  end.

(** The items after the one a cursor names *)
Fixpoint after_item {X} (id : X → string) (after : string) (l : list X) : option (list X) :=
  match l with
  | [] => None
  | x :: l' => if String.eqb (id x) after then Some l' else after_item id after l'
  end.

(** A page of a list, and the cursor of the next where there is one *)
Definition page_of {X} (id : X → string) (limit : Z) (cursor : option string) (l : list X)
    : St (list X * option string) :=
  rest <- match cursor with
          | None => ret l
          | Some c =>
              after <- decode_item_cursor c ;;
              from_option (after_item id after l) NT_INVALID_CURSOR
          end ;;
  let page := take (Z.to_nat limit) rest in
  match list.last page with
  | Some x =>
      if limit <? Z.of_nat (length rest) then
        next <- encode_item_cursor (id x) ;;
        ret (page, Some next)
      else ret (page, None)
  | None => ret (page, None)
  end.

Definition limit_arg (limit : pyobj) : St Z :=
  from_option (match limit with
               | PyInt n => if (1 <=? n) && (n <=? 200) then Some n else None
               | _ => None
               end) NT_INVALID_INPUT.

Definition list_notifications (p : IdentityPrincipal) (limit : pyobj) (cursor : option string)
    (filters : Filters) (search : option string) (trace policy : string) : St NotificationPage :=
  limit <- limit_arg limit ;;
  items <- visible_notifications p trace policy ;;
  items <- one_filter notification_column filters items ;;
  items <- search_items (λ n, [nt_title n; nt_summary n]) search items ;;
  page <- page_of nt_notification_id limit cursor items ;;
  all <- visible_notifications p trace policy ;;
  let unread := filter (λ n, nt_read_at n = None) all in
  ret (mkNotificationPage page.1 page.2 (Z.of_nat (length unread))).

Definition get_notification (p : IdentityPrincipal) (id trace policy : string) : St Notification :=
  id <- nt_checked_id id ;;
  item <- notification_for (tenant_id p) (user_id p) id ;;
  n <- from_option (n ← item; if belongs (tenant_id p) (user_id p) n then Some n else None) NT_UNAVAILABLE ;;
  nt_authorize p (nt_workspace_id n) trace policy VIEW ;;
  safe_deep_link native_routes (nt_deep_link n) ;;
  ret n.

(** The event of a notification's being read *)
Definition read_draft (p : IdentityPrincipal) (key : string) (now : Z) (trace policy : string)
    (before after : Notification) : AuditEventDraft :=
  mkDraft (PyStr ("audit-notification-read-" +:+ short_digest key)) (Datetime now (Some 0))
    (PyStr (user_id p)) (Some USER) (PyStr (tenant_id p)) (PyStr (nt_workspace_id before))
    (PyStr "notification.read") (PyStr "notification") (PyStr (nt_notification_id before)) (Some SUCCEEDED)
    (PyStr trace) (PyStr policy)
    (JObj [("state", JStr "unread"); ("version", JInt (nt_version before))])
    (JObj [("state", JStr "read"); ("version", JInt (nt_version after))])
    (JObj [("source_event_id", JStr (nt_source_event_id before))]).

Definition read_fingerprint (user id state etag : string) : string :=
  sha256_hex (encode (user +:+ "|" +:+ id +:+ "|" +:+ state +:+ "|" +:+ etag)).

Definition mark_read (p : IdentityPrincipal) (id expected_etag key requested_state trace policy : string)
    : St Notification :=
  nt_checked_id key ;;
  guard (Nat.leb 16 (String.length key)) NT_INVALID_INPUT ;;
  guard (String.eqb requested_state (read_value READ)) IDEMPOTENCY_CONFLICT ;;
  n <- get_notification p id trace policy ;;
  now <- clock ;;
  transition <- transition_read (nt_notification_id n) (tenant_id p) (user_id p) expected_etag key
    (read_fingerprint (user_id p) id requested_state expected_etag) now
    (λ before after, nt_audit (read_draft p key now trace policy before after)) ;;
  ret (tr_notification transition).

Definition project_request (r : InboxRequest) : St unit :=
  mfor [ir_request_id r; ir_tenant_id r; ir_workspace_id r; ir_recipient_id r; ir_actor_id r;
        ir_resource_type r; ir_resource_id r] (λ v, nt_checked_id v ;; ret tt) ;;
  guard (bool_decide (is_Some (request_action (ir_request_kind r))) &&
         bool_decide (ir_status r ∈ ALLOWED_REQUEST_STATES)) NT_INVALID_INPUT ;;
  checked_time (ir_due_at r) ;;
  safe_deep_link native_routes (ir_deep_link r) ;;
  upsert_inbox_request r.

(** The body of the loop of [list_inbox] over the requests *)
Definition inbox_visible (p : IdentityPrincipal) (trace policy : string) (items : list InboxRequest)
    (r : InboxRequest) : St (list InboxRequest) :=
  if negb (String.eqb (ir_tenant_id r) (tenant_id p) && String.eqb (ir_recipient_id r) (user_id p))
  then ret items
  else
    action <- from_option (request_action (ir_request_kind r)) (PyError "KeyError") ;;
    access <- attempt (nt_authorize p (ir_workspace_id r) trace policy action) ;;
    match access with
    | Raise (Raised _ status _ as e) => if 500 <=? status then raise e else ret items
    | Raise e => raise e
    | Ret _ =>
        safe_deep_link native_routes (ir_deep_link r) ;;
        ret (items ++ [r])
    end.

(** [item.due_at or datetime.max.replace(tzinfo=timezone.utc)] *)
Definition datetime_max : Z := 253402300799999999.
Definition due (r : InboxRequest) : Z := default datetime_max (fst <$> ir_due_at r).

Definition due_before (a b : InboxRequest) : bool :=
  (due a <? due b) || ((due a =? due b) && string_leb (ir_request_id a) (ir_request_id b)).

Definition list_inbox (p : IdentityPrincipal) (limit : pyobj) (cursor : option string)
    (filters : Filters) (search : option string) (trace policy : string) : St InboxPage :=
  limit <- limit_arg limit ;;
  requests <- all_inbox_requests ;;
  items <- mfold requests (inbox_visible p trace policy) [] ;;
  items <- one_filter inbox_column filters items ;;
  items <- search_items (λ r, [ir_request_kind r; ir_status r; ir_resource_type r]) search items ;;
  page <- page_of ir_request_id limit cursor (sort_stable due_before items) ;;
  ret (mkInboxPage page.1 page.2).
End Service.
