(* ===== verification/NotificationFacts.v ===== *)
(** What single calls of [Notification] do: cursors, links, access, pages. *)

From S2P Require Import Prelude Sha256 PyStr Json HashChain Bytes AuditLog PyUrl Authorization AuthorizationFacts.
From S2P Require Import Notification.
From Stdlib Require Import NArith Ascii.
#[local] Open Scope Z_scope.

(** ** Cursors *)

Lemma rsplit_dot_None l : rsplit_dot l = None ↔ dot ∉ l.
Proof.
  induction l as [|b l IH]; simpl; [split; [intros _ []%elem_of_nil|done]|].
  rewrite not_elem_of_cons. destruct (rsplit_dot l) as [[? ?]|].
  - split; [done|]. intros [_ Hl]. by apply IH in Hl.
  - destruct (N.eqb_spec b dot) as [->|Hb]; [by split; [|intros []]|]. split; [|done].
    intros _. split; [congruence|]. by apply IH.
Qed.

(** The split is at the last dot. *)
Lemma rsplit_dot_Some l p d : rsplit_dot l = Some (p, d) ↔ l = p ++ dot :: d ∧ dot ∉ d.
Proof.
  revert p d. induction l as [|b l IH]; intros p d; simpl.
  - split; [done|]. intros [Hl _]. by destruct p.
  - destruct (rsplit_dot l) as [[p' d']|] eqn:Hr.
    + destruct (proj1 (IH p' d') eq_refl) as [Hl Hd']. split.
      * intros [= <- <-]. split; [by rewrite Hl|done].
      * intros [Hl' Hd]. destruct p as [|b' p]; simplify_eq/=.
        -- exfalso. set_solver.
        -- assert (Some (p', d') = Some (p, d)) as [= -> ->]; [|done]. apply IH. by split.
    + apply rsplit_dot_None in Hr. destruct (N.eqb_spec b dot) as [->|Hb].
      * split; [intros [= <- <-]; by split|]. intros [Hl Hd].
        destruct p as [|b' p]; simplify_eq/=; [done|]. exfalso. set_solver.
      * split; [done|]. intros [Hl Hd]. destruct p as [|b' p]; simplify_eq/=. exfalso. set_solver.
Qed.

Lemma decode_ascii_inv bs s : decode_ascii bs = Some s → bs = encode s.
Proof.
  revert s. induction bs as [|b bs IH]; intros s; simpl; [by intros [= <-]|].
  destruct (N.ltb_spec b 128) as [Hb|]; [|done]. destruct (decode_ascii bs) as [r|]; [|done].
  intros [= <-]. simpl. rewrite (IH r eq_refl). unfold utf8_char.
  rewrite N_ascii_embedding by lia. by rewrite (proj2 (N.ltb_lt b 128) Hb).
Qed.

Lemma safe_id_chars s : safe_id s = true → is_ascii s = true ∧ (1 <= String.length s <= 128)%nat.
Proof.
  unfold safe_id, match_id, is_ascii. destruct s as [|c s]; [done|]. intros H. bools. simpl.
  assert (∀ c, id_char c = true → in_range 0 127 c = true) as Hc.
  { intros x. unfold id_char, is_alnum, is_digit, is_upper, is_lower, in_range. simpl. intros Hx.
    destruct x as [[] [] [] [] [] [] [] []]; vm_compute in Hx |- *; congruence. }
  split; [|simpl in *; lia]. apply andb_true_iff. split.
  - apply Hc. unfold id_char. by apply orb_true_iff; left.
  - eapply all_chars_impl; [|eassumption]. done.
Qed.

Section Cursors.
Context {D : Digest} {A I : Type}.
Implicit Types s : NtState A I.

Lemma cursor_mac_length key msg : length (cursor_mac key msg) = 16%nat.
Proof. unfold cursor_mac, hmac_sha256. rewrite length_take, sha256_digest_length. lia. Qed.

Lemma cursor_mac_lt key msg : Forall (λ b, (b < 256)%N) (cursor_mac key msg).
Proof. apply Forall_take, sha256_digest_lt. Qed.

Lemma decode_item_cursor_eq c s :
  decode_item_cursor c s = (s,
    if negb (String.eqb c "") && Nat.leb (String.length c) 512 then
      match cursor_content c with
      | Some (payload, digest, id) =>
          if bool_decide (digest = cursor_mac (nt_secret s) payload) && safe_id id then Ret id
          else Raise NT_INVALID_CURSOR
      | None => Raise NT_INVALID_CURSOR
      end
    else Raise NT_INVALID_CURSOR).
Proof.
  unfold decode_item_cursor, bind, from_option, gets, guard, ret, raise.
  destruct (_ && _); [|done]. destruct (cursor_content c) as [[[payload digest] id]|]; [|done].
  by destruct (_ && _).
Qed.

(** What the decoder makes of a payload with its code *)
Lemma cursor_content_genuine item s :
  safe_id item = true →
  let mac := cursor_mac (nt_secret s) (encode item) in
  let raw := encode item ++ dot :: mac in
  b64decode_padded (b64encode raw) = Some raw ∧
  decode_item_cursor (b64encode raw) s =
    (s, if bool_decide (dot ∈ mac) then Raise NT_INVALID_CURSOR else Ret item).
Proof.
  intros Hid mac raw. pose proof (safe_id_chars _ Hid) as [Ha Hl].
  destruct (decode_encode_ascii _ Ha) as (Hd & Hlt & Hlen).
  pose proof (cursor_mac_length (nt_secret s) (encode item)) as Hl1. fold mac in Hl1.
  assert (Forall (λ b, (b < 256)%N) raw) as Hbytes.
  { apply Forall_app. split; [done|]. constructor; [done|]. apply cursor_mac_lt. }
  assert (b64decode_padded (b64encode raw) = Some raw) as Hdec by by apply b64decode_encode.
  split; [done|]. rewrite decode_item_cursor_eq. f_equal.
  assert (negb (String.eqb (b64encode raw) "") && Nat.leb (String.length (b64encode raw)) 512 = true) as ->.
  { pose proof (b64encode_length raw) as Hmax. pose proof (b64encode_nonempty raw) as Hmin.
    unfold raw in *. rewrite length_app in *. simpl in *. rewrite Hlen, Hl1 in *.
    apply andb_true_iff. split; [|apply Nat.leb_le; lia]. apply negb_true_iff, String.eqb_neq.
    intros He. rewrite He in Hmin. simpl in Hmin. lia. }
  unfold cursor_content. rewrite (b64encode_ascii _ Hbytes : is_ascii _ = true), Hdec. cbn [mbind option_bind].
  case_bool_decide as Hm.
  - destruct (rsplit_dot mac) as [[m1 m2]|] eqn:Hr; [|by apply rsplit_dot_None in Hr].
    apply rsplit_dot_Some in Hr as [Hmac Hm2].
    assert (rsplit_dot raw = Some (encode item ++ dot :: m1, m2)) as ->.
    { apply rsplit_dot_Some. unfold raw. rewrite Hmac. split; [by rewrite <-app_assoc|done]. }
    cbn [mbind option_bind]. destruct (decode_ascii (encode item ++ dot :: m1)) as [id|]; [|done]. cbn [mbind option_bind].
    rewrite bool_decide_false; [done|]. intros He%(f_equal length). rewrite cursor_mac_length in He.
    rewrite Hmac, length_app in Hl1. simpl in Hl1. lia.
  - assert (rsplit_dot raw = Some (encode item, mac)) as -> by by apply rsplit_dot_Some.
    cbn [mbind option_bind]. rewrite Hd. cbn [mbind option_bind]. by rewrite bool_decide_true, Hid.
Qed.

Lemma cursor_content_authentic c item s :
  result (decode_item_cursor c) s = Ret item →
  safe_id item = true ∧
  b64decode_padded c = Some (encode item ++ dot :: cursor_mac (nt_secret s) (encode item)).
Proof.
  rewrite decode_item_cursor_eq. simpl.
  destruct (_ && _); [|done]. unfold cursor_content. destruct (is_ascii c); [|done].
  destruct (b64decode_padded c) as [raw|]; [|done]. simpl.
  destruct (rsplit_dot raw) as [[payload digest]|] eqn:Hs; [|done]. simpl.
  destruct (decode_ascii payload) as [id|] eqn:Hi; [|done]. simpl.
  case_bool_decide as Hm; simpl; [|done]. destruct (safe_id id) eqn:Hsafe; [|done]. intros [= <-].
  split; [done|]. apply rsplit_dot_Some in Hs as [-> _]. apply decode_ascii_inv in Hi as ->. by subst.
Qed.

(** C25: A cursor is accepted only if it holds an identifier with that
    identifier's authentication code under the repository's secret.  The cursor
    that is handed out for an item does, and handed back it gives the item,
    unless the code happens to contain the byte of a dot: then the decoder
    splits it in the wrong place and refuses the cursor. *)
Theorem item_cursor_exact (item : string) s :
  safe_id item = true →
  let raw := encode item ++ dot :: cursor_mac (nt_secret s) (encode item) in
  (∃ cursor, encode_item_cursor item s = (s, Ret cursor) ∧ b64decode_padded cursor = Some raw ∧
    decode_item_cursor cursor s =
      (s, if bool_decide (dot ∈ cursor_mac (nt_secret s) (encode item)) then Raise NT_INVALID_CURSOR
          else Ret item)) ∧
  ∀ c, result (decode_item_cursor c) s = Ret item → b64decode_padded c = Some raw.
Proof.
  intros Hid raw. split.
  - destruct (cursor_content_genuine item s Hid) as [Hdec Hc]. exists (b64encode raw).
    split; [|by split]. unfold encode_item_cursor.
    by rewrite (bind_Ret _ _ _ _ _ (guard_Ret _ _ s (proj1 (safe_id_chars _ Hid)))).
  - intros c Hc. by apply cursor_content_authentic.
Qed.
End Cursors.

(** ** Access *)

(** What a call leaves alone that only asks the authorization service: all of
    the repository *)
Record nt_quiet {A I} `{AuditStore A} (s s' : NtState A I) : Prop := {
  nq_secret : nt_secret s' = nt_secret s;
  nq_notifications : nt_notifications s' = nt_notifications s;
  nq_dedupe : nt_dedupe s' = nt_dedupe s;
  nq_idempotency : nt_idempotency s' = nt_idempotency s;
  nq_inbox : nt_inbox s' = nt_inbox s;
  nq_auth : quiet (nt_auth s) (nt_auth s')
}.

#[export] Instance nt_quiet_preorder {A I} `{AuditStore A} : PreOrder (@nt_quiet A I _).
Proof.
  split; [by constructor|]. intros s1 s2 s3 [] []. constructor; try congruence. by etrans.
Qed.

Lemma wp_attempt {S X} (m : M S X) Q s : wp m (λ o s', Q (Ret o) s') s → wp (attempt m) Q s.
Proof. unfold wp, attempt. by destruct (m s). Qed.

Section Access.
Context {D : Digest} {W : World} {B : BracketedHost} {O : SetOrder}.
Context {A I : Type} {AS : AuditStore A} {IB : IdentityBoundary I}.
Context (native_routes : list string).
Implicit Types s : NtState A I.

(** The caller may take the action in the workspace, as the tables stand. *)
Definition may (s : NtState A I) (p : IdentityPrincipal) (workspace : string) (action : Action) : Prop :=
  ∃ w b, entitled (db (nt_auth s)) p workspace w b action [].

Lemma may_quiet s s' p workspace action : nt_quiet s s' → may s' p workspace action ↔ may s p workspace action.
Proof. intros [_ _ _ _ _ Hq]. unfold may. by rewrite (qu_db _ _ Hq). Qed.

(** The authorization service answers and has put its answer on record. *)
Definition grants (s : NtState A I) (p : IdentityPrincipal) (workspace trace policy : string) (action : Action)
    : Prop :=
  ∃ g, result (authorize_action p workspace action trace policy []) (nt_auth s) = Ret g.

Lemma wp_nt_authorize p workspace trace policy action s :
  wp (nt_authorize p workspace trace policy action) (λ o s', nt_quiet s s' ∧
    match o with
    | Ret _ => may s p workspace action ∧ grants s p workspace trace policy action
    | Raise _ => ¬ grants s p workspace trace policy action
    end) s.
Proof.
  unfold nt_authorize. apply wp_bind, wp_attempt. unfold zoom, wp at 1, grants.
  pose proof (wp_authorize_action p workspace action trace policy [] (nt_auth s)) as H. unfold wp in H.
  destruct (authorize_action _ _ _ _ _ _ (nt_auth s)) as [a o]. simpl in *. destruct H as [Hq H].
  assert (nt_quiet s (set_nt_auth a s)) as Hqs by by constructor.
  destruct o as [g|e].
  - apply wp_ret. split; [done|]. split; [|by exists g]. destruct H as (_ & w & b & _ & He & _). by exists w, b.
  - assert (¬ ∃ g, @Raise AuthorizationGrant e = Ret g) as Hno by by intros [].
    destruct e; apply wp_raise; by split.
Qed.

Lemma wp_safe_deep_link {T} value (Q : outcome string → T → Prop) t :
  (result (safe_deep_link (T:=T) native_routes value) t = Ret value → Q (Ret value) t) →
  (∀ e, Q (Raise e) t) → wp (safe_deep_link native_routes value) Q t.
Proof.
  intros Hok Hno. assert (readonly (safe_deep_link (T:=T) native_routes value)) as Hr.
  { unfold safe_deep_link. repeat first [apply readonly_bind; intros|case_match]; auto with py. }
  unfold wp. specialize (Hr t). destruct (safe_deep_link native_routes value t) as [t' o] eqn:Hs.
  simpl in *. subst t'. destruct o as [v|e]; [|done].
  assert (v = value) as ->; [|by apply Hok].
  revert Hs. unfold safe_deep_link, bind, guard, from_option, ret, raise.
  repeat (case_match; simplify_eq/=; try congruence).
Qed.

(** The notifications of a user in a tenant *)
Definition own (s : NtState A I) (p : IdentityPrincipal) : list Notification :=
  filter (λ n, belongs (tenant_id p) (user_id p) n = true) (dict_values (nt_notifications s)).

Lemma own_quiet s s' p : nt_quiet s s' → own s' p = own s p.
Proof. intros [_ Hn _ _ _ _]. unfold own. by rewrite Hn. Qed.

Lemma filter_twice {X} (P : X → Prop) `{∀ x, Decision (P x)} (l : list X) : filter P (filter P l) = filter P l.
Proof.
  induction l as [|x l IH]; [done|]. rewrite filter_cons. case_decide; [|done]. rewrite filter_cons, IH.
  by rewrite decide_True.
Qed.

(** All of a user's notifications are listed, or none: one in a workspace that
    the user may not view any more, and the list is refused. *)
Lemma wp_visible p trace policy s :
  wp (visible_notifications native_routes p trace policy) (λ o s', nt_quiet s s' ∧
    match o with
    | Ret l => l = sort_stable newer (own s p) ∧ ∀ n, n ∈ own s p → may s p (nt_workspace_id n) VIEW
    | Raise _ => True
    end) s.
Proof.
  unfold visible_notifications, notifications_for. wp_run. fold (own s p).
  assert (filter (λ n, belongs (tenant_id p) (user_id p) n = true) (own s p) = own s p) as -> by apply filter_twice.
  enough (wp (mfor (own s p) (λ n, nt_authorize p (nt_workspace_id n) trace policy VIEW ;;
    safe_deep_link native_routes (nt_deep_link n) ;; ret tt)) (λ o s', nt_quiet s s' ∧
      match o with Ret _ => ∀ n, n ∈ own s p → may s p (nt_workspace_id n) VIEW | Raise _ => True end) s) as Hw.
  { eapply wp_mono; [|exact Hw]. intros [[]|e] s' [Hq Hm]; [apply wp_ret|]; by split_and!. }
  generalize (own s p). intros l.
  assert (∀ s1, nt_quiet s s1 → wp (mfor l (λ n, nt_authorize p (nt_workspace_id n) trace policy VIEW ;;
    safe_deep_link native_routes (nt_deep_link n) ;; ret tt)) (λ o s', nt_quiet s s' ∧
      match o with Ret _ => ∀ n, n ∈ l → may s p (nt_workspace_id n) VIEW | Raise _ => True end) s1) as Hl.
  2: by apply Hl.
  induction l as [|n l IH]; intros s1 H1; simpl.
  { apply wp_ret. split; [done|]. intros n []%elem_of_nil. }
  apply wp_bind, wp_bind. eapply wp_mono; [|apply wp_nt_authorize]. intros [[]|e] s2 [H2 Hm]; [|by split; [etrans|]].
  assert (nt_quiet s s2) as Hq by by etrans. apply wp_bind, wp_safe_deep_link; [intros _; apply wp_ret|by intros e; split].
  eapply wp_mono; [|by apply IH]. intros [[]|e] s3 [H3 Hrest]; [|by split]. split; [done|].
  intros m [->|Hin]%elem_of_cons; [|by apply Hrest]. apply (may_quiet s s1); [done|apply Hm].
Qed.
End Access.

(** ** Lists and pages *)

(** What a filter and a search term leave of a list; [None] where they are
    refused *)
Definition chosen {X} (columns : string → option (X → string)) (texts : X → list string) (filters : Filters)
    (search : option string) (l : list X) : option (list X) :=
  l ← match filters with
      | [] => Some l
      | [(key, value)] => column ← columns key; Some (filter (λ x, column x = value) l)
      | _ => None
      end;
  match search with
  | None => Some l
  | Some term =>
      if plain_text_ok 128 term
      then Some (filter (λ x, existsb (λ t, contains (casefold term) (casefold t)) (texts x) = true) l)
      else None
  end.

Lemma chosen_sublist {X} columns (texts : X → list string) filters search l l' :
  chosen columns texts filters search l = Some l' → l' `sublist_of` l.
Proof.
  unfold chosen. intros H.
  repeat (case_match; simplify_option_eq); try done;
    repeat first [apply sublist_filter | etrans; [apply sublist_filter|]].
Qed.

Section Pages.
Context {D : Digest} {W : World} {B : BracketedHost} {O : SetOrder}.
Context {A I : Type} {AS : AuditStore A} {IB : IdentityBoundary I}.
Context (native_routes : list string).
Implicit Types s : NtState A I.

Lemma wp_chosen {X} columns (texts : X → list string) filters search l (Q : outcome (list X) → NtState A I → Prop) s :
  (∀ l', chosen columns texts filters search l = Some l' → Q (Ret l') s) → (∀ e, Q (Raise e) s) →
  wp (l <- one_filter columns filters l ;; search_items texts search l) Q s.
Proof.
  intros Hok Hno. unfold chosen in Hok. unfold one_filter, search_items, plain_text.
  wp_run; simplify_eq/=; try apply Hno; apply Hok; repeat case_match; simplify_option_eq; try done; congruence.
Qed.

(** The items a page is cut from: all, or those after the cursor's item *)
Definition rest_of {X} (id : X → string) (cursor : option string) (l : list X) (s : NtState A I) (rest : list X)
    : Prop :=
  match cursor with
  | None => rest = l
  | Some c => ∃ item, result (decode_item_cursor c) s = Ret item ∧ after_item id item l = Some rest
  end.

(** The page and the cursor that goes with it *)
Definition page_cut {X} (id : X → string) (limit : Z) (s : NtState A I) (rest page : list X)
    (next : option string) : Prop :=
  page = take (Z.to_nat limit) rest ∧
  match next with
  | None => rest = [] ∨ Z.of_nat (length rest) <= limit
  | Some c => ∃ x, list.last page = Some x ∧ limit < Z.of_nat (length rest) ∧ encode_item_cursor (id x) s = (s, Ret c)
  end.

Lemma wp_decode_item c (Q : outcome string → NtState A I → Prop) s :
  Q (result (decode_item_cursor c) s) s → wp (decode_item_cursor c) Q s.
Proof. unfold wp. by rewrite decode_item_cursor_eq. Qed.

Lemma wp_page_of {X} (id : X → string) limit cursor l s :
  1 <= limit →
  wp (page_of id limit cursor l) (λ o s', s' = s ∧
    match o with
    | Ret (page, next) => ∃ rest, rest_of id cursor l s rest ∧ page_cut id limit s rest page next
    | Raise _ => True
    end) s.
Proof.
  intros Hl. unfold page_of.
  assert (∀ rest, rest_of id cursor l s rest → wp (match list.last (take (Z.to_nat limit) rest) with
    | Some x => if limit <? Z.of_nat (length rest)
                then next <- encode_item_cursor (id x) ;; ret (take (Z.to_nat limit) rest, Some next)
                else ret (take (Z.to_nat limit) rest, None)
    | None => ret (take (Z.to_nat limit) rest, None)
    end) (λ o s', s' = s ∧ match o with
      | Ret (page, next) => ∃ rest, rest_of id cursor l s rest ∧ page_cut id limit s rest page next
      | Raise _ => True
      end) s) as Hcut.
  { intros rest Hr. destruct (list.last _) as [x|] eqn:Hx.
    - destruct (limit <? _) eqn:Hlt; bools.
      + apply wp_bind. unfold encode_item_cursor at 1. wp_run; [|done]. split; [done|].
        exists rest. split; [done|]. split; [done|]. exists x. split_and!; [done..|].
        unfold encode_item_cursor. by rewrite (bind_Ret _ _ _ _ _ (guard_Ret _ _ s ltac:(eassumption))).
      + apply wp_ret. split; [done|]. exists rest. split; [done|]. split; [done|]. by right.
    - apply wp_ret. split; [done|]. exists rest. split; [done|]. split; [done|]. left.
      apply last_None in Hx. destruct rest; [done|]. apply take_nil_inv in Hx as [Hx|]; [lia|done]. }
  apply wp_bind. destruct cursor as [c|]; [|apply wp_ret; by apply Hcut].
  apply wp_bind, wp_decode_item. destruct (result _ s) as [item|e] eqn:Hd; [|done].
  apply wp_from_option; [|done]. intros rest Hr. apply Hcut. by exists item.
Qed.

(** A cursor that is accepted is the cursor of the item it gives. *)
Lemma cursor_item item c s item' :
  encode_item_cursor item s = (s, Ret c) → result (decode_item_cursor c) s = Ret item' → item' = item.
Proof.
  intros He Hd. apply cursor_content_authentic in Hd as [_ Hd].
  unfold encode_item_cursor, bind, guard, gets, ret, raise in He.
  destruct (is_ascii item) eqn:Ha; simplify_eq/=.
  destruct (decode_encode_ascii _ Ha) as (_ & Hlt & _).
  rewrite b64decode_encode in Hd.
  2: { apply Forall_app. split; [done|]. constructor; [done|]. apply cursor_mac_lt. }
  injection Hd as Hd. apply app_inj_2 in Hd as [Hd _]; [|simpl; by rewrite !cursor_mac_length].
  symmetry. by apply encode_inj.
Qed.

Lemma after_item_app {X} (id : X → string) l1 x l2 :
  NoDup (map id (l1 ++ x :: l2)) → after_item id (id x) (l1 ++ x :: l2) = Some l2.
Proof.
  induction l1 as [|y l1 IH]; simpl; intros Hn.
  - by rewrite String.eqb_refl.
  - apply NoDup_cons in Hn as [Hy Hn]. destruct (String.eqb_spec (id y) (id x)) as [E|_]; [|by apply IH].
    destruct Hy. rewrite E, map_app. simpl. set_solver.
Qed.

Lemma take_last {X} n (l : list X) x :
  list.last (take n l) = Some x → ∃ l1, take n l = l1 ++ [x] ∧ l = l1 ++ x :: drop n l.
Proof.
  intros H. apply last_Some in H as [l1 Ht]. exists l1. split; [done|].
  rewrite <-(take_drop n l) at 1. by rewrite Ht, <-app_assoc.
Qed.

(** What a list call returns, from the notifications the caller has *)
Definition listed (s : NtState A I) (p : IdentityPrincipal) (filters : Filters) (search : option string)
    : option (list Notification) :=
  chosen notification_column (λ n, [nt_title n; nt_summary n]) filters search (sort_stable newer (own s p)).

Lemma wp_list_notifications p limit cursor filters search trace policy s :
  wp (list_notifications native_routes p limit cursor filters search trace policy) (λ o s', nt_quiet s s' ∧
    match o with
    | Ret pg => ∃ n items rest, limit = PyInt n ∧ 1 <= n <= 200 ∧
        listed s p filters search = Some items ∧
        rest_of nt_notification_id cursor items s rest ∧
        page_cut nt_notification_id n s rest (np_items pg) (np_next_cursor pg) ∧
        np_unread_count pg = Z.of_nat (length (filter (λ n, nt_read_at n = None) (own s p))) ∧
        ∀ n, n ∈ own s p → may s p (nt_workspace_id n) VIEW
    | Raise _ => True
    end) s.
Proof.
  unfold list_notifications, limit_arg. apply wp_bind, wp_from_option; [|by split].
  intros n Hn. assert (limit = PyInt n ∧ 1 <= n <= 200) as [-> Hr].
  { destruct limit; try done. destruct (_ && _) eqn:Hb; simplify_eq. by bools. }
  apply wp_bind. eapply wp_mono; [|apply wp_visible]. intros [l|e] s1 [H1 Hv]; [|by split].
  destruct Hv as [-> Hmay].
  enough (wp (items <- (items <- one_filter notification_column filters (sort_stable newer (own s p)) ;;
      search_items (λ n, [nt_title n; nt_summary n]) search items) ;;
    (page <- page_of nt_notification_id n cursor items ;;
     all <- visible_notifications native_routes p trace policy ;;
     let unread := filter (λ n, nt_read_at n = None) all in
     ret (mkNotificationPage page.1 page.2 (Z.of_nat (length unread))))) (λ o s', nt_quiet s s' ∧
    match o with
    | Ret pg => ∃ n0 items rest, PyInt n = PyInt n0 ∧ 1 <= n0 <= 200 ∧
        listed s p filters search = Some items ∧
        rest_of nt_notification_id cursor items s rest ∧
        page_cut nt_notification_id n0 s rest (np_items pg) (np_next_cursor pg) ∧
        np_unread_count pg = Z.of_nat (length (filter (λ n, nt_read_at n = None) (own s p))) ∧
        ∀ n, n ∈ own s p → may s p (nt_workspace_id n) VIEW
    | Raise _ => True
    end) s1) as Hw.
  { revert Hw. unfold wp, bind. destruct (one_filter _ _ _ s1) as [s2 [x|e]]; [|done].
    by destruct (search_items _ _ _ s2) as [s3 [y|e]]. }
  apply wp_bind, wp_chosen; [|by intros e; split]. intros items Hi.
  apply wp_bind. eapply wp_mono; [|apply wp_page_of; lia]. intros [[page next]|e] s2 [-> Hp]; [|by split].
  apply wp_bind. eapply wp_mono; [|apply wp_visible]. intros [all|e] s3 [H3 Hall].
  2: { split; [by etrans|done]. }
  destruct Hall as [-> _]. cbv zeta. apply wp_ret. split; [by etrans|].
  destruct Hp as (rest & Hrest & Hcut). exists n, items, rest. rewrite (own_quiet s s1) by done.
  assert (∀ c, result (decode_item_cursor c) s1 = result (decode_item_cursor c) s) as Hdec.
  { intros c. rewrite !decode_item_cursor_eq. simpl. by rewrite (nq_secret _ _ H1). }
  refine (conj eq_refl (conj Hr (conj Hi (conj _ (conj _ (conj _ Hmay)))))); [| |simpl].
  - destruct cursor as [c|]; [|done]. simpl in *. by setoid_rewrite <-Hdec.
  - destruct Hcut as [-> Hnext]. split; [done|]. simpl. destruct next as [c|]; [|done].
    destruct Hnext as (x & Hx & Hlt & He). exists x. split_and!; [done..|].
    unfold encode_item_cursor, bind, guard, gets, ret, raise in He |- *.
    destruct (is_ascii _); [|done]. injection He as [= <-]. by rewrite (nq_secret _ _ H1).
  - f_equal. by apply Permutation_length, filter_Permutation, sort_stable_perm.
Qed.
End Pages.
