(* ===== verification/NotificationLinks.v ===== *)
(** Where the deep links of [Notification] lead: a link that passes the check and
    has no control characters stays in the application. *)

From S2P Require Import Prelude Sha256 PyStr Json HashChain Bytes AuditLog PyUrl PyUrlFacts Authorization Notification NotificationFacts.
From Stdlib Require Import NArith Ascii.

#[local] Arguments String.append !_ _ /.

(** ** Cleaning

    A stripped string does not start with a space. *)
Lemma strip_head c s : String c s = strip (String c s) → is_space c = false.
Proof.
  unfold strip. simpl. destruct (is_space c) eqn:Hc; [|done]. intros H.
  pose proof (strip_by_length is_space (lstrip_by is_space s)) as [_ H1].
  pose proof (strip_by_length is_space s) as [H2 _]. rewrite <-H in H1. simpl in H1. lia.
Qed.

(** ** Links *)

(** No character below the space *)
Definition no_controls : string → bool := all_chars (λ c, negb (in_range 0 31 c)).

(** A path of the web application: its first segment is one of the known *)
Definition web_link (value : string) : Prop :=
  ∃ first rest, first ∈ SAFE_WEB_PATHS ∧ value = "/" +:+ first +:+ rest ∧ ends "/?#" rest.

(** A route of the native application, whose scheme may be in capitals *)
Definition app_link (native_routes : list string) (value : string) : Prop :=
  ∃ scheme rest route, lower_ascii scheme = "sinsan-daon" ∧ value = scheme +:+ "://app" +:+ rest ∧
    ends "/?#" rest ∧ route ∈ native_routes ∧ strip_slashes (cut "?" (cut "#" rest).1).1 = route ∧
    (cut "#" rest).2 = "" ∧ (cut "?" (cut "#" rest).1).2 = "".

Section Links.
Context {B : BracketedHost}.

Lemma clean_url_clean value : value = strip value → no_controls value = true → clean_url value = value.
Proof.
  intros Hv Hc. unfold clean_url. assert (lstrip_by control_or_space value = value) as ->.
  { destruct value as [|c value]; [done|]. apply strip_head in Hv. simpl in *. apply andb_true_iff in Hc as [Hc _].
    destruct (control_or_space c) eqn:Hs; [|done]. exfalso. unfold control_or_space, in_range, is_space in *.
    revert Hv Hc Hs. destruct c as [[] [] [] [] [] [] [] []]; vm_compute; discriminate. }
  apply string_filter_all. revert Hc. apply all_chars_impl. intros c. unfold unsafe_byte, in_range.
  rewrite negb_true_iff, negb_true_iff, orb_false_iff, !andb_false_iff, !N.leb_gt. lia.
Qed.

(** What a path that starts with one slash is split into *)
Lemma urlsplit_of_path value s sp :
  value = String "/" s → startswith "//" value = false → clean_url value = value → urlsplit value = Some sp →
  sp_path sp = (cut "?" (cut "#" value).1).1.
Proof.
  intros -> Hd Hc. unfold urlsplit. rewrite Hc.
  assert (split_scheme (String "/" s) = ("", String "/" s)) as ->.
  { unfold split_scheme. simpl. by destruct (split_once ":" s) as [[a b]|]. }
  assert (after_slashes (String "/" s) = None) as ->.
  { destruct s as [|c s]; [done|]. simpl. destruct (Ascii.eqb_spec c "/") as [->|]; [|done].
    revert Hd. clear. unfold startswith. simpl. by destruct s. }
  simpl brackets_ok. destruct (cut "#" _) as [rest fragment]. simpl. destruct (cut "?" rest). by intros [= <-].
Qed.

Lemma web_link_ok value sp first :
  startswith "/" value = true → startswith "//" value = false → clean_url value = value →
  urlsplit value = Some sp → first = (cut "/" (strip_slashes (sp_path sp))).1 → first ∈ SAFE_WEB_PATHS →
  web_link value.
Proof.
  intros H1 H2 Hc Hs Hf Hsafe. destruct value as [|c s]; [done|].
  assert (c = "/"%char) as -> by (by revert H1; unfold startswith; clear; destruct c as [[] [] [] [] [] [] [] []]; destruct s).
  rewrite (urlsplit_of_path (String "/" s) s sp eq_refl H2 Hc Hs) in Hf.
  destruct (cut_ends "#" "/?#" (String "/" s)) as (r1 & E1 & He1); [done|].
  destruct (cut_ends "?" "/?#" (cut "#" (String "/" s)).1) as (r2 & E2 & He2); [done|].
  set (path := (cut "?" _).1) in *. rewrite E2, string_app_assoc in E1.
  pose proof (ends_app _ _ _ He2 He1) as He. revert E1 He. generalize (r2 +:+ r1). clear E2 He1 He2 r1 r2.
  intros r E He. exists first.
  destruct path as [|d path].
  { subst first. apply (bool_decide_pack _) in Hsafe. by vm_compute in Hsafe. }
  simpl in E. injection E as <- ->. unfold strip_slashes in Hf.
  assert (lstrip_by (Ascii.eqb "/") (String "/" path) = path) as E.
  { destruct path as [|c path]; [done|]. cbn [lstrip_by]. rewrite Ascii.eqb_refl. destruct (Ascii.eqb_spec "/" c) as [<-|]; [|done]. revert H2; clear; simpl; unfold startswith; simpl; by destruct (path +:+ r). }
  rewrite E in Hf. destruct (rstrip_by_rest (Ascii.eqb "/") path) as (r3 & E3 & Hr3).
  destruct (cut_ends "/" "/?#" (rstrip_by (Ascii.eqb "/") path)) as (r4 & E4 & He4); [done|].
  rewrite <-Hf in E4. exists (r4 +:+ r3 +:+ r). split; [done|]. split.
  - simpl. f_equal. by rewrite E3 at 1; rewrite E4, !string_app_assoc.
  - repeat apply ends_app; [done| |done]. destruct r3 as [|x r3]; [by left|]. right. exists x, r3. split; [done|].
    cbn [all_chars] in Hr3. apply andb_true_iff in Hr3 as [Hx%Ascii.eqb_eq _]. by subst x.
Qed.

Lemma app_link_ok native_routes value sp :
  clean_url value = value → urlsplit value = Some sp → sp_scheme sp = "sinsan-daon" → sp_netloc sp = "app" →
  sp_query sp = "" → sp_fragment sp = "" → strip_slashes (sp_path sp) ∈ native_routes →
  app_link native_routes value.
Proof.
  intros Hc. unfold urlsplit. rewrite Hc. destruct (split_scheme value) as [scheme rest] eqn:Hsch.
  set (loc := match after_slashes rest with Some rest' => splitnetloc rest' | None => ("", rest) end).
  assert (∀ netloc r, loc = (netloc, r) → netloc = "app" → rest = "//app" +:+ r ∧ ends "/?#" r) as Hloc.
  { subst loc. intros netloc r. destruct (after_slashes rest) as [rest'|] eqn:Ha; [|by intros [= <- <-]].
    apply after_slashes_some in Ha as ->. intros H ->. destruct (splitnetloc_rest _ _ _ H) as [-> He]. by split. }
  destruct loc as [netloc r]. specialize (Hloc netloc r eq_refl). destruct (brackets_ok netloc); [|done].
  destruct (cut "#" r) as [r1 fragment] eqn:E1. destruct (cut "?" r1) as [path query] eqn:E2.
  intros [= <-]. simpl. intros -> -> -> -> Hroute. destruct (Hloc eq_refl) as [-> He].
  destruct (split_scheme_some _ _ _ Hsch) as (head & -> & Hl); [done|].
  exists head, r, (strip_slashes path). rewrite E1. simpl. rewrite E2. by split_and!.
Qed.

(** C24: Where a notification can lead.  A link that is accepted and has no
    control character is the account page, a notebook's artefact, a path below
    one of the application's own pages, or a route of the native application
    that the deployment allows, without a query. *)
Theorem deep_link_confined {T} native_routes value (t : T) :
  result (safe_deep_link native_routes value) t = Ret value → no_controls value = true →
  (String.length value <= 512)%nat ∧ value = strip value ∧
  (value = "/settings/account" ∨ notebook_link value = true ∨ web_link value ∨ app_link native_routes value).
Proof.
  intros Hr Hc. assert (wp (safe_deep_link native_routes value) (λ o _, o = Ret value →
    (String.length value <= 512)%nat ∧ value = strip value ∧
    (value = "/settings/account" ∨ notebook_link value = true ∨ web_link value ∨ app_link native_routes value)) t) as Hw.
  2: { by apply Hw. }
  unfold safe_deep_link. apply wp_bind, wp_guard; [|done].
  intros [Hlen%Nat.leb_le Hv%String.eqb_eq]%andb_true_iff.
  destruct (String.eqb value "/settings/account" || notebook_link value) eqn:Hfix.
  { apply wp_ret. intros _. split_and!; [done..|]. apply orb_true_iff in Hfix as [E%String.eqb_eq|E]; tauto. }
  pose proof (clean_url_clean _ Hv Hc) as Hcl. apply wp_bind, wp_from_option; [|done]. intros sp Hs.
  destruct (startswith "/" value && negb (startswith "//" value)) eqn:Hpath.
  - apply andb_true_iff in Hpath as [H1 H2%negb_true_iff]. apply wp_bind, wp_guard; [|done]. intros Hg. bools.
    apply wp_ret. intros _. split_and!; [done..|]. do 2 right. left. by eapply web_link_ok.
  - apply wp_bind, wp_guard; [|done]. intros Hg. apply wp_bind, wp_guard; [|done]. intros Hroute. bools.
    apply wp_ret. intros _. split_and!; [done..|]. do 3 right. by eapply app_link_ok.
Qed.
End Links.
