(* ===== verification/NotificationRuns.v ===== *)
(** Sequences of calls of [Notification]: the invariant of the repository, what
    reading and publishing do once and for all, and listing page by page. *)

From S2P Require Import Prelude Sha256 PyStr Json HashChain Bytes AuditLog PyUrl Authorization AuthorizationFacts.
From S2P Require Import Notification NotificationFacts.
From Stdlib Require Import NArith Ascii.
#[local] Open Scope Z_scope.

(** The key under which a notification was published *)
Definition nkey (n : Notification) : string :=
  dedupe_key (nt_source_event_id n) (nt_recipient_id n) (nt_kind n).

Section Changes.
Context {D : Digest} {W : World} {B : BracketedHost} {O : SetOrder}.
Context {A I : Type} {AS : AuditStore A} {IB : IdentityBoundary I}.
Context (native_routes : list string).
Implicit Types s : NtState A I.

(** ** Events and links that pass the checks *)

Definition link_ok (value : string) : Prop :=
  result (safe_deep_link (T:=unit) native_routes value) tt = Ret value.

Lemma safe_deep_link_pure {T} value (t : T) :
  safe_deep_link native_routes value t = (t, result (safe_deep_link (T:=unit) native_routes value) tt).
Proof.
  unfold safe_deep_link, bind, guard, from_option, ret, raise.
  repeat (case_match; simplify_eq/=; try congruence).
Qed.

Lemma wp_link {T} value (Q : outcome string → T → Prop) t :
  (link_ok value → Q (Ret value) t) → (∀ e, ¬ link_ok value → Q (Raise e) t) →
  wp (safe_deep_link native_routes value) Q t.
Proof.
  intros Hok Hno. unfold wp. rewrite safe_deep_link_pure. simpl. unfold link_ok in *.
  assert (wp (safe_deep_link native_routes value) (λ o _, ∀ v, o = Ret v → v = value) tt) as Hv.
  { apply wp_safe_deep_link; [by intros _ v [= <-]|by intros e v]. }
  unfold wp in Hv. destruct (result _ tt) as [v|e]; [|by apply Hno]. rewrite (Hv v eq_refl) in *. by apply Hok.
Qed.

Record event_ok (e : NotificationEvent) : Prop := {
  eo_ids : Forall (λ v, safe_id v = true) [ne_event_id e; ne_tenant_id e; ne_workspace_id e; ne_resource_type e;
    ne_resource_id e; ne_trace_id e; ne_policy_version e];
  eo_kind : ne_kind e ∈ ALLOWED_KINDS;
  eo_severity : ne_severity e ∈ ALLOWED_SEVERITIES;
  eo_title : plain_text_ok 160 (ne_title e) = true;
  eo_summary : plain_text_ok 500 (ne_summary e) = true;
  eo_link : link_ok (ne_deep_link e)
}.

Lemma wp_validate_event e (Q : outcome unit → NtState A I → Prop) s :
  (event_ok e → Q (Ret tt) s) → (∀ err, Q (Raise err) s) → wp (validate_event native_routes e) Q s.
Proof.
  intros Hok Hno. unfold validate_event.
  apply wp_bind. unfold mfor, nt_checked_id. wp_run; try apply Hno.
  unfold plain_text. wp_run; try apply Hno. apply wp_link; [|by intros; apply Hno]. intros Hl. apply wp_ret, Hok.
  bools. constructor; try done. repeat constructor; done.
Qed.

(** ** Changes of the repository *)

(** A notification as it is published, of an event that passed the checks *)
Definition published (n : Notification) : Prop := ∃ e user now, event_ok e ∧
  n = new_notification e user (short_digest (dedupe_key (ne_event_id e) user (ne_kind e))) now.

Inductive nt_change s s' : Prop :=
| ch_auth :
    nt_secret s' = nt_secret s → nt_notifications s' = nt_notifications s → nt_dedupe s' = nt_dedupe s →
    nt_idempotency s' = nt_idempotency s → nt_inbox s' = nt_inbox s →
    log (nt_auth s) `prefix_of` log (nt_auth s') → nt_change s s'
| ch_insert n : published n → nkey n ∉ nt_dedupe s →
    s' = set_nt_notifications (dict_set (nt_notification_id n) n (nt_notifications s))
           (set_nt_dedupe ({[nkey n]} ∪ nt_dedupe s) s) → nt_change s s'
| ch_read key fp n t : nt_idempotency s !! key = None →
    dict_get (nt_notification_id n) (nt_notifications s) = Some n → nt_read_at n = None →
    s' = set_nt_idempotency (<[key := (fp, read_at_time n t)]> (nt_idempotency s))
           (set_nt_notifications (dict_set (nt_notification_id n) (read_at_time n t) (nt_notifications s)) s) →
    nt_change s s'
| ch_inbox v : s' = set_nt_inbox v s → nt_change s s'.

Lemma quiet_change s s' : nt_quiet s s' → nt_change s s'.
Proof. intros [? ? ? ? ? Hq]. apply ch_auth; try done. apply Hq. Qed.

Lemma log_changes s s' : rtc nt_change s s' → log (nt_auth s) `prefix_of` log (nt_auth s').
Proof.
  induction 1 as [|s1 s2 s3 H _ IH]; [done|]. etrans; [|exact IH].
  by destruct H as [|? ? ? ->|? ? ? ? ? ? ? ->|? ->].
Qed.

(** ** Effects of the operations *)

(** Appending an event leaves the repository alone. *)
Lemma wp_nt_audit draft s :
  wp (nt_audit draft) (λ o s', nt_quiet s s' ∧
    match o with
    | Ret _ => ∃ ev, draft_of ev = draft ∧ log (nt_auth s') = log (nt_auth s) ++ [ev]
    | Raise _ => True
    end) s.
Proof.
  unfold nt_audit, wp. pose proof (audit_append_law draft (audit_store (nt_auth s))) as H. unfold wp in H.
  destruct (audit_append draft _) as [a [e|e]]; simpl in *.
  - destruct H as [Hd He]. split; [|by exists e]. constructor; try done. constructor; try done.
    unfold log. simpl. rewrite He. by apply prefix_app_r.
  - split; [|done]. constructor; try done. constructor; try done. unfold log. simpl. by rewrite H.
Qed.

Lemma wp_nt_clock (Q : outcome Z → NtState A I → Prop) s :
  (∀ t s', nt_quiet s s' → Q (Ret t) s') → wp clock Q s.
Proof. intros H. apply wp_clock, H. by constructor. Qed.

(** What one candidate of a publication gets *)
Lemma wp_publish_to e created p s :
  event_ok e →
  wp (publish_to e created p) (λ o s', (rtc nt_change s s' ∧ quiet (nt_auth s) (nt_auth s')) ∧
    match o with
    | Ret created' =>
        created' = created ∧ nt_dedupe s' = nt_dedupe s ∧
          (tenant_id p = ne_tenant_id e →
            dedupe_key (ne_event_id e) (user_id p) (ne_kind e) ∈ nt_dedupe s ∨
            ¬ grants s p (ne_workspace_id e) (ne_trace_id e) (ne_policy_version e) VIEW) ∨
        ∃ now, let key := dedupe_key (ne_event_id e) (user_id p) (ne_kind e) in
          let n := new_notification e (user_id p) (short_digest key) now in
          created' = created ++ [n] ∧ tenant_id p = ne_tenant_id e ∧ may s p (ne_workspace_id e) VIEW ∧
          key ∉ nt_dedupe s ∧ nt_dedupe s' = {[key]} ∪ nt_dedupe s ∧
          nt_notifications s' = dict_set (nt_notification_id n) n (nt_notifications s) ∧
          ∃ ev, ev ∈ log (nt_auth s') ∧ draft_of ev = created_draft n (ne_policy_version e)
    | Raise _ => True
    end) s.
Proof.
  intros Hok. unfold publish_to. destruct (String.eqb_spec (tenant_id p) (ne_tenant_id e)) as [Ht|Ht]; simpl.
  2: { apply wp_ret. split; [by split|]. left. by split_and!. }
  assert (∀ s', nt_quiet s s' → rtc nt_change s s' ∧ quiet (nt_auth s) (nt_auth s')) as Hsame.
  { intros s' Hq. split; [by apply rtc_once, quiet_change|apply Hq]. }
  apply wp_bind, wp_attempt. eapply wp_mono; [|apply wp_nt_authorize].
  intros [[]|err] s1 [H1 Hm].
  2: { destruct err; [apply wp_ret|apply wp_raise]; (split; [by apply Hsame|]); [|done].
       left. split_and!; [done|apply H1|]. by right. }
  destruct Hm as [Hm _]. apply wp_bind, wp_nt_clock. intros now s2 H2.
  assert (nt_quiet s s2) as Hq by by etrans.
  apply wp_bind. unfold insert_if_absent. wp_run; case_bool_decide as Hseen; try discriminate.
  { split; [by apply Hsame|]. left. rewrite (nq_dedupe _ _ Hq) in *. split_and!; [done..|by left]. }
  rewrite (nq_dedupe _ _ Hq) in Hseen.
  set (key := dedupe_key _ _ _) in *. set (n := new_notification _ _ _ _).
  eapply wp_mono; [|apply wp_nt_audit]. intros o s3 [H3 Hev].
  assert (rtc nt_change s s3 ∧ quiet (nt_auth s) (nt_auth s3)) as Hr.
  { split; [|etrans; [apply Hq|apply H3]].
    eapply rtc_l; [by apply quiet_change|]. eapply rtc_l; [|by apply rtc_once, quiet_change].
    eapply (ch_insert _ _ n); [by exists e, (user_id p), now| |done]. by rewrite (nq_dedupe _ _ Hq). }
  destruct o as [[]|err]; [apply wp_ret|]; (split; [done|]); [|done].
  right. exists now. fold key n. destruct Hev as (ev & Hd & Hl). split_and!; try done.
  - by rewrite (nq_dedupe _ _ H3), <-(nq_dedupe _ _ Hq).
  - by rewrite (nq_notifications _ _ H3), <-(nq_notifications _ _ Hq).
  - exists ev. split; [rewrite Hl; set_solver|done].
Qed.

(** Whether a transition replays or is the first *)
Lemma wp_get_notification p id trace policy s :
  wp (get_notification native_routes p id trace policy) (λ o s', nt_quiet s s' ∧
    match o with
    | Ret n => dict_get id (nt_notifications s) = Some n ∧ belongs (tenant_id p) (user_id p) n = true ∧
        may s p (nt_workspace_id n) VIEW ∧ link_ok (nt_deep_link n) ∧ safe_id id = true
    | Raise _ => ∀ n, safe_id id = true → dict_get id (nt_notifications s) = Some n →
        belongs (tenant_id p) (user_id p) n = true → link_ok (nt_deep_link n) →
        ¬ grants s p (nt_workspace_id n) trace policy VIEW
    end) s.
Proof.
  unfold get_notification, nt_checked_id, notification_for, notification_by_id. wp_run.
  - destruct (dict_get id _) as [n|]; simplify_eq/=. destruct (belongs _ _ n) eqn:Hb; simplify_eq/=.
    rewrite Hb in *. simplify_eq/=.
    eapply wp_mono; [|apply wp_nt_authorize]. intros [[]|e] s1 [H1 Hm].
    2: { split; [done|]. by intros n _ [= <-]. }
    apply wp_bind, wp_link.
    + intros Hl. apply wp_ret. split; [done|]. by split_and!; [..|apply Hm| |].
    + intros e Hl. split; [done|]. by intros n' _ [= <-].
  - split; [done|]. intros n _ Hn Hb. rewrite Hn in *. simplify_eq/=. by rewrite Hb in *; simplify_eq/=; rewrite Hb in *.
  - split; [done|]. by intros n Hs; congruence.
Qed.

(** Notifications are kept under their identifiers. *)
Definition keyed s : Prop := ∀ k n, dict_get k (nt_notifications s) = Some n → nt_notification_id n = k.

(** One call reads a notification, or finds that the key has read it already. *)
Lemma wp_mark_read p id etag key state trace policy s :
  keyed s →
  wp (mark_read native_routes p id etag key state trace policy) (λ o s', rtc nt_change s s' ∧
    match o with
    | Ret n => ∃ n0, dict_get id (nt_notifications s) = Some n0 ∧
        belongs (tenant_id p) (user_id p) n0 = true ∧ may s p (nt_workspace_id n0) VIEW ∧
        link_ok (nt_deep_link n0) ∧ safe_id id = true ∧
        (safe_id key = true ∧ (16 <= String.length key)%nat ∧ state = read_value READ) ∧
        let fp := read_fingerprint (user_id p) id state etag in
        match nt_idempotency s !! key with
        | Some (found, n1) => n1 = n ∧ found = fp ∧ nt_quiet s s'
        | None => nt_read_at n0 = None ∧ etag = nt_etag n0 ∧ ∃ now ev l, n = read_at_time n0 now ∧
            nt_notifications s' = dict_set (nt_notification_id n0) n (nt_notifications s) ∧
            nt_idempotency s' = <[key := (fp, n)]> (nt_idempotency s) ∧
            draft_of ev = read_draft p key now trace policy n0 n ∧
            log (nt_auth s') = log (nt_auth s) ++ l ++ [ev]
        end
    | Raise _ => True
    end) s.
Proof.
  intros Hk. unfold mark_read, nt_checked_id. apply wp_bind, wp_bind, wp_guard; [|by intros; split].
  intros Hkey. apply wp_ret, wp_bind, wp_guard; [intros Hlen%Nat.leb_le|by intros; split].
  apply wp_bind, wp_guard; [intros Hstate%String.eqb_eq|by intros; split].
  apply wp_bind. eapply wp_mono; [|apply wp_get_notification]. intros [n0|e] s1 [Hqa Hn].
  2: { split; [by apply rtc_once, quiet_change|done]. }
  destruct Hn as (Hn & Hb & Hm & Hl & Hid). pose proof (Hk _ _ Hn) as Hn0.
  apply wp_bind, wp_nt_clock. intros now s2 Hqb. assert (nt_quiet s s2) as Hq by by etrans.
  set (fp := read_fingerprint _ _ _ _).
  apply wp_bind. unfold transition_read, idempotency_result, notification_by_id, save_idempotency_result.
  wp_run; try (split; [by apply rtc_once, quiet_change|done]).
  - bools. simplify_eq. split; [by apply rtc_once, quiet_change|]. exists n0. split_and!; try done.
    rewrite <-(nq_idempotency _ _ Hq). by destruct (nt_idempotency s2 !! key) as [[? ?]|]; simplify_eq.
  - rewrite Hn0, (nq_notifications _ _ Hq), Hn in *. simplify_eq/=. rewrite Hb in *. simplify_eq/=. bools.
    eapply wp_mono; [|apply wp_nt_audit]. intros o s3 [Hq' Hev].
    assert (nt_quiet s s3) as Hq3 by by etrans.
    destruct o as [[]|e]; [|split; [by apply rtc_once, quiet_change|done]]. wp_run.
    assert (nt_idempotency s !! key = None) as Hi.
    { rewrite <-(nq_idempotency _ _ Hq). done. }
    split.
    + eapply rtc_l; [by apply quiet_change|]. apply rtc_once, (ch_read _ _ key fp a now).
      * by rewrite (nq_idempotency _ _ Hq3).
      * by rewrite (nq_notifications _ _ Hq3).
      * done.
      * done.
    + exists a. rewrite Hi. destruct Hev as (ev & Hd & Hlog).
      destruct (qu_log _ _ (nq_auth _ _ Hq)) as [l Hl']. split_and!; try done. exists now, ev, l. simpl.
      rewrite (nq_notifications _ _ Hq3), (nq_idempotency _ _ Hq3), Hlog, Hl', <-app_assoc. by split_and!.
Qed.

(** What a key has read already is returned as it is. *)
Lemma wp_read_again p id etag key state trace policy s n0 n :
  safe_id key = true → (16 <= String.length key)%nat → state = read_value READ → safe_id id = true →
  dict_get id (nt_notifications s) = Some n0 → belongs (tenant_id p) (user_id p) n0 = true →
  link_ok (nt_deep_link n0) → grants s p (nt_workspace_id n0) trace policy VIEW →
  nt_idempotency s !! key = Some (read_fingerprint (user_id p) id state etag, n) →
  wp (mark_read native_routes p id etag key state trace policy) (λ o s', o = Ret n ∧ nt_quiet s s') s.
Proof.
  intros Hkey Hlen -> Hid Hn Hb Hl Hg Hi. unfold mark_read, nt_checked_id.
  apply wp_bind, wp_bind, wp_guard; [intros _|congruence]. apply wp_ret.
  apply wp_bind, wp_guard; [intros _|by rewrite (proj2 (Nat.leb_le _ _) Hlen)].
  apply wp_bind, wp_guard; [intros _|by rewrite String.eqb_refl].
  apply wp_bind. eapply wp_mono; [|apply wp_get_notification]. intros [n1|e] s1 [H1 H]; [|by destruct (H n0)].
  apply wp_bind, wp_nt_clock. intros now s2 H2. assert (nt_quiet s s2) as Hq by by etrans.
  unfold transition_read, idempotency_result. apply wp_bind, wp_bind, wp_gets.
  rewrite (nq_idempotency _ _ Hq), Hi. apply wp_bind, wp_guard; [intros _|by rewrite String.eqb_refl].
  by apply wp_ret, wp_ret.
Qed.

(** A request in the inbox that the caller may act on *)
Definition inbox_own s p (r : InboxRequest) : Prop :=
  r ∈ dict_values (nt_inbox s) ∧ ir_tenant_id r = tenant_id p ∧ ir_recipient_id r = user_id p ∧
  ∃ action, request_action (ir_request_kind r) = Some action ∧ may s p (ir_workspace_id r) action.

Lemma wp_inbox_visible p trace policy s items r s1 :
  nt_quiet s s1 → r ∈ dict_values (nt_inbox s) → Forall (inbox_own s p) items →
  wp (inbox_visible native_routes p trace policy items r) (λ o s', nt_quiet s s' ∧
    match o with Ret items' => Forall (inbox_own s p) items' | Raise _ => True end) s1.
Proof.
  intros H1 Hr Hi. unfold inbox_visible. destruct (negb _) eqn:Hb; [by apply wp_ret|]. bools. subst.
  apply wp_bind, wp_from_option; [|by intros; split]. intros action Ha.
  apply wp_bind, wp_attempt. eapply wp_mono; [|apply wp_nt_authorize].
  intros [[]|e] s2 [H2 Hm]; (assert (nt_quiet s s2) as Hq by by etrans).
  - apply wp_bind, wp_link; [|by intros; split]. intros _. apply wp_ret. split; [done|].
    apply Forall_app. split; [done|]. apply Forall_singleton. split_and!; try done. exists action. split; [done|].
    destruct Hm as [Hm _]. by apply (may_quiet s s1).
  - destruct e; [case_match; [by apply wp_raise|by apply wp_ret]|by apply wp_raise].
Qed.

Lemma wp_list_inbox p limit cursor filters search trace policy s :
  wp (list_inbox native_routes p limit cursor filters search trace policy) (λ o s', nt_quiet s s' ∧
    match o with Ret pg => Forall (inbox_own s p) (ip_items pg) | Raise _ => True end) s.
Proof.
  unfold list_inbox, limit_arg. apply wp_bind, wp_from_option; [|by intros; split]. intros n Hn.
  assert (1 <= n) as Hr by (destruct limit; try done; destruct (_ && _) eqn:Hb; simplify_eq; by bools).
  apply wp_bind, wp_gets, wp_bind.
  apply (wp_mfold (λ items s', nt_quiet s s' ∧ Forall (inbox_own s p) items) (λ _ s', nt_quiet s s')).
  - by split.
  - intros items r s1 Hin [H1 Hi]. eapply wp_mono; [|by apply (wp_inbox_visible p trace policy s)].
    by intros [items'|e] s2 [? ?].
  - intros items s1 [H1 Hi].
    enough (wp (items <- (items <- one_filter inbox_column filters items ;;
        search_items (λ r, [ir_request_kind r; ir_status r; ir_resource_type r]) search items) ;;
      (page <- page_of ir_request_id n cursor (sort_stable due_before items) ;;
       ret (mkInboxPage page.1 page.2))) (λ o s', nt_quiet s s' ∧
      match o with Ret pg => Forall (inbox_own s p) (ip_items pg) | Raise _ => True end) s1) as Hw.
    { revert Hw. unfold wp, bind. destruct (one_filter _ _ _ s1) as [s2 [x|e]]; [|done].
      by destruct (search_items _ _ _ s2) as [s3 [y|e]]. }
    apply wp_bind, wp_chosen; [|by intros e; split]. intros l Hl%chosen_sublist.
    apply wp_bind. eapply wp_mono; [|by apply wp_page_of]. intros [[page next]|e] s2 [-> Hp]; [|by split].
    apply wp_ret. split; [done|]. simpl. destruct Hp as (rest & Hrest & -> & _). apply Forall_take.
    assert (Forall (inbox_own s p) (sort_stable due_before l)) as Hs.
    { rewrite sort_stable_perm. rewrite Forall_forall in *. intros r Hin. apply Hi. by eapply elem_of_sublist. }
    destruct cursor as [c|]; simpl in Hrest; [|by subst]. destruct Hrest as (item & _ & Ha).
    revert Ha Hs. generalize (sort_stable due_before l). clear. intros l.
    induction l as [|x l IH]; simpl; [done|]. intros Ha [Hx Hs]%Forall_cons.
    case_match; [by simplify_eq|by apply IH].
  - done.
Qed.

(** ** Sequences of calls *)

Inductive nt_step : relation (NtState A I) :=
| step_publish e candidates s : nt_step s (final (publish native_routes e candidates) s)
| step_list p limit cursor filters search trace policy s :
    nt_step s (final (list_notifications native_routes p limit cursor filters search trace policy) s)
| step_get p id trace policy s : nt_step s (final (get_notification native_routes p id trace policy) s)
| step_mark p id etag key state trace policy s :
    nt_step s (final (mark_read native_routes p id etag key state trace policy) s)
| step_project r s : nt_step s (final (project_request native_routes r) s)
| step_inbox p limit cursor filters search trace policy s :
    nt_step s (final (list_inbox native_routes p limit cursor filters search trace policy) s)
(** whatever others do to the authorization service and its audit store *)
| step_authorization a s : log (nt_auth s) `prefix_of` log a → nt_step s (set_nt_auth a s).

(** A row as the invariant has it *)
Record row_ok s (k : string) (n : Notification) : Prop := {
  ro_key : nt_notification_id n = k;
  ro_id : nt_notification_id n = "notification-" +:+ short_digest (nkey n);
  ro_audit : nt_audit_event_id n = "audit-notification-" +:+ short_digest (nkey n);
  ro_dedupe : nkey n ∈ nt_dedupe s;
  ro_version : nt_version n = match nt_read_at n with None => 1 | Some _ => 2 end;
  ro_delivered : nt_delivery_state n = DELIVERY_DELIVERED ∧ nt_delivered_at n = Some (nt_created_at n);
  ro_kind : nt_kind n ∈ ALLOWED_KINDS ∧ nt_severity n ∈ ALLOWED_SEVERITIES;
  ro_texts : plain_text_ok 160 (nt_title n) = true ∧ plain_text_ok 500 (nt_summary n) = true;
  ro_link : link_ok (nt_deep_link n)
}.

(** No two of the keys published so far share the 96 bits of their digests. *)
Definition distinct s : Prop :=
  ∀ a b, a ∈ nt_dedupe s → b ∈ nt_dedupe s → short_digest a = short_digest b → a = b.

Record nt_wf s : Prop := {
  wf_nodup : NoDup (dict_keys (nt_notifications s));
  wf_rows : ∀ k n, dict_get k (nt_notifications s) = Some n → row_ok s k n;
  wf_read : distinct s → ∀ key fp n, nt_idempotency s !! key = Some (fp, n) →
    nt_read_at n ≠ None ∧ dict_get (nt_notification_id n) (nt_notifications s) = Some n
}.

(** What stays of a state *)
Record nt_later s s' : Prop := {
  lt_dedupe : nt_dedupe s ⊆ nt_dedupe s';
  lt_log : log (nt_auth s) `prefix_of` log (nt_auth s');
  lt_idempotency : ∀ key v, nt_idempotency s !! key = Some v → nt_idempotency s' !! key = Some v;
  lt_rows : distinct s' → ∀ k n, dict_get k (nt_notifications s) = Some n →
    ∃ n', dict_get k (nt_notifications s') = Some n' ∧
      (n' = n ∨ nt_read_at n = None ∧ ∃ t, n' = read_at_time n t)
}.

Lemma distinct_mono s s' : nt_dedupe s ⊆ nt_dedupe s' → distinct s' → distinct s.
Proof. intros Hs Hd a b Ha Hb. apply Hd; by apply Hs. Qed.

Lemma row_ok_mono s s' k n : nt_dedupe s ⊆ nt_dedupe s' → row_ok s k n → row_ok s' k n.
Proof. intros Hs []. constructor; try done. by apply Hs. Qed.

Lemma row_ok_new s n : published n → nkey n ∈ nt_dedupe s → row_ok s (nt_notification_id n) n.
Proof. intros (e & user & now & [] & ->) Hin. by constructor. Qed.

Lemma row_ok_read s k n t : row_ok s k n → nt_read_at n = None → row_ok s k (read_at_time n t).
Proof. intros [] Hr. constructor; try done. simpl. rewrite ro_version0, Hr. done. Qed.

Lemma nt_later_refl s : nt_later s s.
Proof. constructor; try done. intros _ k n Hn. exists n. by split; [|left]. Qed.

Lemma nt_later_trans s1 s2 s3 : nt_later s1 s2 → nt_later s2 s3 → nt_later s1 s3.
Proof.
  intros [D1 L1 I1 R1] [D2 L2 I2 R2]. constructor; [set_solver|by etrans|auto|].
  intros Hd k n Hn. destruct (R1 (distinct_mono _ _ D2 Hd) k n Hn) as (n' & Hn' & H1).
  destruct (R2 Hd k n' Hn') as (n'' & Hn'' & H2). exists n''. split; [done|].
  destruct H1 as [->|(Hr & t & ->)]; [done|]. destruct H2 as [->|[? _]]; [|done]. right. by eauto.
Qed.

(** A change keeps the invariant, and later states keep what they have to. *)
Lemma change_wf s s' : nt_change s s' → nt_wf s → nt_wf s' ∧ nt_later s s'.
Proof.
  intros Hc [Hn Hrows Hidem]. destruct Hc as [_ En Ed Ei _ Hl|n Hp Hnew ->|key fp n t Hi Hg Hr ->|v ->].
  - split; constructor; rewrite ?En, ?Ed, ?Ei; try done.
    + intros k n Hk. eapply row_ok_mono; [|by apply Hrows]. by rewrite Ed.
    + intros Hd. apply Hidem. unfold distinct in *. by rewrite <-Ed.
    + intros _ k n Hk. exists n. by split; [|left].
  - assert (nt_dedupe s ⊆ {[nkey n]} ∪ nt_dedupe s) as Hsub by set_solver.
    assert (∀ k m, distinct (set_nt_dedupe ({[nkey n]} ∪ nt_dedupe s) s) →
      dict_get k (nt_notifications s) = Some m → k ≠ nt_notification_id n) as Hfresh.
    { intros k m Hd Hk ->. destruct (Hrows _ _ Hk) as [Ek Eid _ Hin _ _ _ _ _].
      destruct Hp as (e & user & now & _ & En). apply Hnew.
      assert (nkey n = nkey m) as ->; [|done].
      apply Hd; [simpl; set_solver|simpl; set_solver|].
      rewrite <-Ek, Eid in *. subst n. simpl in *. unfold nkey at 1. simpl. by simplify_eq. }
    split; constructor; simpl; try done.
    + by apply dict_keys_NoDup_set.
    + intros k m. rewrite dict_get_set. case_decide as Hk.
      * intros [= <-]. subst k. apply row_ok_new; [done|simpl; set_solver].
      * intros Hm. eapply row_ok_mono; [|by apply Hrows]. done.
    + intros Hd key fp m Hm. assert (distinct s) as Hds by (by eapply distinct_mono; [|exact Hd]).
      destruct (Hidem Hds _ _ _ Hm) as [Hr Hg].
      split; [done|]. rewrite dict_get_set, decide_False; [done|]. by eapply Hfresh.
    + intros Hd k m Hm. exists m. rewrite dict_get_set, decide_False; [by split; [|left]|]. by eapply Hfresh.
  - split; constructor; simpl; try done.
    + by apply dict_keys_NoDup_set.
    + intros k m Hm. apply (row_ok_mono s); [done|]. revert Hm. rewrite dict_get_set.
      case_decide as Hk; [|by apply Hrows]. intros [= <-]. subst k. apply row_ok_read; [by apply Hrows|done].
    + intros Hd key' fp' m. destruct (decide (key = key')) as [->|Hne].
      * rewrite lookup_insert_eq. intros [= <- <-]. split; [done|]. by rewrite dict_get_set, decide_True.
      * rewrite lookup_insert_ne by done. intros Hm. destruct (Hidem Hd _ _ _ Hm) as [Hrm Hgm].
        split; [done|]. rewrite dict_get_set, decide_False; [done|]. intros E. rewrite E in Hgm. congruence.
    + intros key' v Hv. rewrite lookup_insert_ne; [done|]. by intros ->; congruence.
    + intros _ k m Hm. rewrite dict_get_set. case_decide as Hk; [|exists m; by split; [|left]].
      subst k. exists (read_at_time n t). split; [done|]. right. assert (m = n) as -> by congruence. by eauto.
  - split; constructor; try done.
    + intros k n Hk. by apply (row_ok_mono s); [|apply Hrows].
    + intros _ k n Hk. exists n. by split; [|left].
Qed.

Lemma changes_wf s s' : rtc nt_change s s' → nt_wf s → nt_wf s' ∧ nt_later s s'.
Proof.
  induction 1 as [s|s1 s2 s3 Hc _ IH]; intros Hw; [by split; [|apply nt_later_refl]|].
  destruct (change_wf _ _ Hc Hw) as [Hw2 Hl]. destruct (IH Hw2). split; [done|]. by eapply nt_later_trans.
Qed.

Lemma changes_dedupe s s' : rtc nt_change s s' → nt_dedupe s ⊆ nt_dedupe s'.
Proof.
  induction 1 as [|s1 s2 s3 H _ IH]; [done|]. etrans; [|exact IH].
  destruct H as [_ _ -> _ _ _|? _ _ ->|? ? ? ? _ _ _ ->|? ->]; simpl; set_solver.
Qed.

(** The notification of an event for one of its candidates *)
Definition for_candidate s e p n : Prop :=
  tenant_id p = ne_tenant_id e ∧ may s p (ne_workspace_id e) VIEW ∧
  ∃ now, n = new_notification e (user_id p) (short_digest (dedupe_key (ne_event_id e) (user_id p) (ne_kind e))) now.

(** What is true of the notifications that a publication created *)
Definition created_ok s s' e (candidates : list IdentityPrincipal) (created : list Notification) : Prop :=
  NoDup (map nkey created) ∧
  ∀ n, n ∈ created → (∃ p, p ∈ candidates ∧ for_candidate s e p n) ∧
    nkey n ∉ nt_dedupe s ∧ nkey n ∈ nt_dedupe s' ∧
    (distinct s' → ∃ n', dict_get (nt_notification_id n) (nt_notifications s') = Some n' ∧
       (n' = n ∨ ∃ t, n' = read_at_time n t)) ∧
    ∃ ev, ev ∈ log (nt_auth s') ∧ draft_of ev = created_draft n (ne_policy_version e).

Lemma created_kept s s' n :
  nt_later s s' →
  (distinct s → ∃ n', dict_get (nt_notification_id n) (nt_notifications s) = Some n' ∧
     (n' = n ∨ ∃ t, n' = read_at_time n t)) →
  distinct s' → ∃ n', dict_get (nt_notification_id n) (nt_notifications s') = Some n' ∧
     (n' = n ∨ ∃ t, n' = read_at_time n t).
Proof.
  intros Hl H Hd. destruct H as (n1 & Hn1 & H); [by apply (distinct_mono _ _ (lt_dedupe _ _ Hl))|].
  destruct (lt_rows _ _ Hl Hd _ _ Hn1) as (n2 & Hn2 & H2). exists n2. split; [done|].
  destruct H2 as [->|(Hr & t & ->)]; [done|]. destruct H as [->|[? ->]]; [|done]. right. by exists t.
Qed.

Lemma created_mono s s1 s2 e cs created :
  nt_wf s1 → rtc nt_change s1 s2 → created_ok s s1 e cs created → created_ok s s2 e cs created.
Proof.
  intros Hw Hr [Hn Hc]. split; [done|]. intros n Hin.
  destruct (Hc n Hin) as (Hp & Hf & Hd & Hrow & ev & Hev & Hdr).
  split_and!; [done..|by apply (changes_dedupe _ _ Hr)| |].
  - eapply created_kept; [|exact Hrow]. by apply (changes_wf _ _ Hr).
  - exists ev. split; [|done]. destruct (log_changes _ _ Hr) as [l ->]. apply elem_of_app. by left.
Qed.

(** What became of every candidate of the tenant: it had been notified before, is
    notified now, or the authorization service refused it, asked with the tables
    as they were in the state that the publication reaches for the candidates
    before it. *)
Definition settled s e candidates created : Prop :=
  ∀ pre p post, candidates = pre ++ p :: post → tenant_id p = ne_tenant_id e →
  dedupe_key (ne_event_id e) (user_id p) (ne_kind e) ∈ nt_dedupe s ∨
  dedupe_key (ne_event_id e) (user_id p) (ne_kind e) ∈ map nkey created ∨
  ∃ s1 created1, publish native_routes e pre s = (s1, Ret created1) ∧ quiet (nt_auth s) (nt_auth s1) ∧
    ¬ grants s1 p (ne_workspace_id e) (ne_trace_id e) (ne_policy_version e) VIEW.

(** The loop records only the keys of what it creates. *)
Lemma wp_publish_all e l created s :
  event_ok e →
  wp (mfold l (publish_to e) created) (λ o s', quiet (nt_auth s) (nt_auth s') ∧
    match o with
    | Ret created' => ∃ more, created' = created ++ more ∧
        ∀ k, k ∈ nt_dedupe s' → k ∈ nt_dedupe s ∨ k ∈ map nkey more
    | Raise _ => True
    end) s.
Proof.
  intros Hok. revert created s. induction l as [|p l IH]; intros created s.
  { apply wp_ret. split; [done|]. exists []. rewrite app_nil_r. split; [done|]. by left. }
  apply wp_bind. eapply wp_mono; [|by apply (wp_publish_to e created p s)]. intros [created1|err] s1 [[_ Hq] H]; [|done].
  eapply wp_mono; [|apply IH]. intros [created2|err] s2 [Hq2 H2]; (split; [by etrans|]); [|done].
  destruct H2 as (more & -> & Hk). destruct H as [(-> & Hd & _)|(now & -> & _ & _ & _ & Hd & _)]; rewrite Hd in Hk.
  - by exists more.
  - match type of Hk with context [{[?k]} ∪ _] => set (key := k) in * end.
    eexists (_ :: more). split; [by rewrite <-app_assoc|]. intros k Hin. destruct (Hk k Hin) as [Hk'|Hk']; [|right; by right].
    apply elem_of_union in Hk' as [->%elem_of_singleton|Hk']; [right; left|by left].
Qed.

Lemma publish_settled e candidates s s' created :
  publish native_routes e candidates s = (s', Ret created) → settled s e candidates created.
Proof.
  intros Hp pre p post -> Ht. unfold publish in Hp. apply bind_Ret_inv in Hp as (s0 & [] & Hv & Hp).
  assert (wp (validate_event native_routes e) (λ o s', s' = s ∧ (o = Ret tt → event_ok e)) s) as Hw.
  { by apply wp_validate_event; intros. }
  unfold wp in Hw. rewrite Hv in Hw. destruct Hw as [Hs0 Hok]. simpl in Hs0. subst s0. specialize (Hok eq_refl).
  rewrite mfold_app in Hp. apply bind_Ret_inv in Hp as (s1 & c1 & Hpre & Hp).
  assert (publish native_routes e pre s = (s1, Ret c1)) as Hrun.
  { unfold publish. by rewrite (bind_Ret _ _ _ _ _ Hv). }
  pose proof (wp_publish_all e pre [] s Hok) as H1. unfold wp in H1. rewrite Hpre in H1.
  destruct H1 as (Hq1 & more1 & -> & Hk1). simpl in Hp. apply bind_Ret_inv in Hp as (s2 & c2 & Hbody & Hpost).
  pose proof (wp_publish_to e more1 p s1 Hok) as H2. unfold wp in H2. simpl in Hbody. rewrite Hbody in H2.
  pose proof (wp_publish_all e post c2 s2 Hok) as H3. unfold wp in H3. rewrite Hpost in H3.
  destruct H3 as (_ & more3 & -> & _). simpl in H2, Hk1, Hq1.
  destruct H2 as [_ [(-> & _ & Hp)|(now & -> & _ & _ & _ & _)]].
  - destruct (Hp Ht) as [Hk|Hg]; [|by right; right; exists s1, more1].
    destruct (Hk1 _ Hk) as [Hk'|Hk']; [by left|]. right; left. rewrite map_app. apply elem_of_app. by left.
  - right; left. rewrite !map_app. apply elem_of_app. left. apply elem_of_app. right. by left.
Qed.

Lemma wp_publish e candidates s :
  nt_wf s →
  wp (publish native_routes e candidates) (λ o s', rtc nt_change s s' ∧
    match o with
    | Ret created => event_ok e ∧ created_ok s s' e candidates created
    | Raise _ => True
    end) s.
Proof.
  intros Hw. unfold publish. apply wp_bind, wp_validate_event; [|by intros; split]. intros Hok.
  apply (wp_mfold_prefix (λ seen created s1, (rtc nt_change s s1 ∧ quiet (nt_auth s) (nt_auth s1)) ∧
      created_ok s s1 e candidates created) (λ _ s1, rtc nt_change s s1)).
  - split; [by split|]. split; [constructor|]; by intros ? ?%elem_of_nil.
  - intros seen p created s1 Hcand [[Hr Hq] Hc].
    eapply wp_mono; [|by apply wp_publish_to]. intros [created'|err] s2 [[Hr' Hq'] H]; [|by etrans].
    destruct (changes_wf _ _ Hr Hw) as [Hw1 _].
    split; [split; by etrans|]. destruct H as [(-> & Hd & Hp)|(now & -> & Ht & Hm & Hf & Hd & Hrow & Hev)].
    + by apply (created_mono _ s1).
    + set (n := new_notification _ _ _ _) in *. destruct (created_mono _ _ s2 _ _ _ Hw1 Hr' Hc) as [Hn Hall].
      split.
      * rewrite map_app. simpl. apply NoDup_app. split_and!; [done| |apply NoDup_singleton].
        intros k (m & -> & Hin)%list_elem_of_fmap Hk%list_elem_of_singleton. destruct Hf. fold (nkey n) in *.
        change (nkey n ∈ nt_dedupe s1). rewrite <-Hk. by apply Hc.
      * intros m [Hin|Hin%list_elem_of_singleton]%elem_of_app; [by apply Hall|]. subst m. split_and!.
        -- exists p. split; [done|]. split_and!; [done| |by exists now].
           unfold may in *. by rewrite <-(qu_db _ _ Hq).
        -- intros Hin. apply Hf. by apply (changes_dedupe _ _ Hr).
        -- rewrite Hd. change (nkey n ∈ {[nkey n]} ∪ nt_dedupe s1). set_solver.
        -- intros _. exists n. split; [|by left]. by rewrite Hrow, dict_get_set, decide_True.
        -- destruct Hev as (ev & Hev & Hdr). by exists ev.
  - intros created s1 [[Hr _] Hc]. by split.
  - intros err s1 Hr. by split.
Qed.

Lemma wf_keyed s : nt_wf s → keyed s.
Proof. intros Hw k n Hn. by apply (wf_rows _ Hw). Qed.

Lemma wp_final {X} (m : M (NtState A I) X) (P : NtState A I → Prop) s : wp m (λ _ s', P s') s → P (final m s).
Proof. done. Qed.

Lemma wp_project_request r s : wp (project_request native_routes r) (λ _ s', rtc nt_change s s') s.
Proof.
  unfold project_request. apply wp_bind.
  apply (wp_mfor (λ s', s' = s) (λ _ s', s' = s)); [done| |intros s' ->|by intros e s' ->].
  - intros v s' _ ->. unfold nt_checked_id. by wp_run.
  - unfold checked_time, upsert_inbox_request. wp_run; try done;
      (apply wp_link; [intros _|done]); apply wp_modify; by eapply rtc_once, ch_inbox.
Qed.

Lemma step_changes s s' : nt_step s s' → nt_wf s → rtc nt_change s s'.
Proof.
  intros Hs Hw. destruct Hs as [e cs s|p l c f q t pol s|p id t pol s|p id et key st t pol s|r s|p l c f q t pol s|a s Ha].
  - apply wp_final. eapply wp_mono; [|by apply wp_publish]. by intros o s' [].
  - apply wp_final. eapply wp_mono; [|apply wp_list_notifications]. intros o s' []. by apply rtc_once, quiet_change.
  - apply wp_final. eapply wp_mono; [|apply wp_get_notification]. intros o s' []. by apply rtc_once, quiet_change.
  - apply wp_final. eapply wp_mono; [|by apply wp_mark_read, wf_keyed]. by intros o s' [].
  - apply wp_final, wp_project_request.
  - apply wp_final. eapply wp_mono; [|apply wp_list_inbox]. intros o s' []. by apply rtc_once, quiet_change.
  - by apply rtc_once, ch_auth.
Qed.

Lemma steps_wf s s' : rtc nt_step s s' → nt_wf s → nt_wf s' ∧ nt_later s s'.
Proof.
  induction 1 as [s|s1 s2 s3 Hs _ IH]; intros Hw; [by split; [|apply nt_later_refl]|].
  destruct (changes_wf _ _ (step_changes _ _ Hs Hw) Hw) as [Hw2 Hl]. destruct (IH Hw2).
  split; [done|]. by eapply nt_later_trans.
Qed.

(** A repository nobody has used *)
Definition nt_unused s : Prop := nt_notifications s = [] ∧ nt_dedupe s = ∅ ∧ nt_idempotency s = ∅.

Definition nt_reachable s : Prop := ∃ s0, nt_unused s0 ∧ rtc nt_step s0 s.

Lemma nt_reachable_wf s : nt_reachable s → nt_wf s.
Proof.
  intros (s0 & (Hn & Hd & Hi) & Hr). apply (steps_wf _ _ Hr). constructor; rewrite ?Hn, ?Hi.
  - constructor.
  - done.
  - intros _ key fp n. by rewrite lookup_empty.
Qed.

(** ** Theorems *)

(** C23: Whatever calls are made, every notification is kept under the
    identifier that its event, recipient and kind determine, was published
    from an event that passed the checks, with a plain title and summary and a
    safe link, has version 1 until it is read and version 2 ever after.  From
    there on, as long as no two publications share 96 bits of their digests,
    no notification disappears or becomes unread, and what an idempotency key
    stands for is the notification as it stays. *)
Theorem notifications_wf s s' :
  nt_reachable s → rtc nt_step s s' →
  nt_wf s ∧ nt_later s s'.
Proof. intros Hs%nt_reachable_wf Hr. split; [done|]. by apply steps_wf. Qed.

(** C19: Nobody is shown what is another's, or what they may not see now.  Every
    notification of a page is one of the caller's in the caller's tenant, in a
    workspace the authorization service lets the caller view; so is a single
    notification.  Every request of the inbox is the caller's, in a workspace
    where the caller may take the action the request asks for.  The unread
    count is of all the caller's notifications. *)
Theorem shown_to_recipient p s :
  (∀ limit cursor filters search trace policy pg,
    result (list_notifications native_routes p limit cursor filters search trace policy) s = Ret pg →
    np_unread_count pg = Z.of_nat (length (filter (λ n, nt_read_at n = None) (own s p))) ∧
    ∀ n, n ∈ np_items pg → n ∈ own s p ∧ nt_tenant_id n = tenant_id p ∧ nt_recipient_id n = user_id p ∧
      may s p (nt_workspace_id n) VIEW) ∧
  (∀ id trace policy n, result (get_notification native_routes p id trace policy) s = Ret n →
    n ∈ own s p ∧ nt_tenant_id n = tenant_id p ∧ nt_recipient_id n = user_id p ∧ may s p (nt_workspace_id n) VIEW) ∧
  (∀ limit cursor filters search trace policy pg,
    result (list_inbox native_routes p limit cursor filters search trace policy) s = Ret pg →
    ∀ r, r ∈ ip_items pg → inbox_own s p r).
Proof.
  assert (∀ n, n ∈ own s p → nt_tenant_id n = tenant_id p ∧ nt_recipient_id n = user_id p) as Hown.
  { intros n [Hb _]%list_elem_of_filter. unfold belongs in Hb. by bools. }
  split_and!.
  - intros limit cursor filters search trace policy pg Hpg.
    pose proof (wp_list_notifications native_routes p limit cursor filters search trace policy s) as [_ H].
    rewrite Hpg in H. destruct H as (k & items & rest & _ & _ & Hi & Hrest & [Hp _] & Hu & Hmay). split; [done|].
    intros n Hn. assert (n ∈ own s p) as Hin; [|split_and!; [done|by apply Hown..|by apply Hmay]].
    apply chosen_sublist in Hi. rewrite <-(sort_stable_perm newer (own s p)). eapply elem_of_sublist; [|exact Hi].
    rewrite Hp in Hn. apply (elem_of_sublist _ _ _ Hn). etrans; [apply sublist_take|].
    destruct cursor as [c|]; simpl in Hrest; [|by subst]. destruct Hrest as (it & _ & Ha).
    revert Ha. clear. revert rest. induction items as [|x items IH]; simpl; [done|]. intros rest.
    case_match; intros Ha; [simplify_eq; by apply sublist_cons|]. apply sublist_cons. by apply IH.
  - intros id trace policy n Hn.
    pose proof (wp_get_notification p id trace policy s) as [_ H]. rewrite Hn in H.
    destruct H as (Hg & Hb & Hm & _). assert (n ∈ own s p) as Hin; [|split_and!; [done|by apply Hown..|done]].
    apply list_elem_of_filter. split; [done|]. apply dict_get_elem in Hg.
    change n with (id, n).2. by apply list_elem_of_fmap_2.
  - intros limit cursor filters search trace policy pg Hpg.
    pose proof (wp_list_inbox p limit cursor filters search trace policy s) as [_ H].
    rewrite Hpg in H. by rewrite Forall_forall in H.
Qed.

(** C21: A notification is read once.  A call that returns and whose key was
    used before returned what that call did and changed nothing; otherwise it
    found the caller's unread notification at the entity tag it names, in a
    workspace the caller may view, and the audit log has the event.  Whatever
    happens afterwards the notification stays as it was returned; the same call
    again returns it, as long as access is granted, and changes nothing; and
    nothing else than the keys used for it can ever return it as just read. *)
Theorem read_once p id etag key state trace policy s s1 n s2 :
  nt_reachable s → mark_read native_routes p id etag key state trace policy s = (s1, Ret n) →
  rtc nt_step s1 s2 → distinct s2 →
  (∃ n0, dict_get id (nt_notifications s) = Some n0 ∧ n0 ∈ own s p ∧ may s p (nt_workspace_id n0) VIEW ∧
    match nt_idempotency s !! key with
    | Some (found, n1) => n1 = n ∧ found = read_fingerprint (user_id p) id state etag ∧ nt_quiet s s1
    | None => nt_read_at n0 = None ∧ etag = nt_etag n0 ∧ ∃ now ev, n = read_at_time n0 now ∧
        ev ∈ log (nt_auth s1) ∧ draft_of ev = read_draft p key now trace policy n0 n
    end) ∧
  (nt_read_at n ≠ None ∧ nt_version n = 2 ∧ dict_get (nt_notification_id n) (nt_notifications s2) = Some n) ∧
  (∀ n2 trace' policy', dict_get id (nt_notifications s2) = Some n2 →
    grants s2 p (nt_workspace_id n2) trace' policy' VIEW →
    ∃ s3, mark_read native_routes p id etag key state trace' policy' s2 = (s3, Ret n) ∧ nt_quiet s2 s3) ∧
  (∀ p' etag' key' state' trace' policy' n',
    result (mark_read native_routes p' (nt_notification_id n) etag' key' state' trace' policy') s2 = Ret n' →
    ∃ found, nt_idempotency s2 !! key' = Some (found, n')).
Proof.
  intros Hs%nt_reachable_wf He Hr Hd.
  pose proof (wp_mark_read p id etag key state trace policy s (wf_keyed _ Hs)) as [Hc Hm]. rewrite He in Hc, Hm.
  simpl in *. destruct (changes_wf _ _ Hc Hs) as [Hw1 Hl1]. destruct (steps_wf _ _ Hr Hw1) as [Hw2 Hl2].
  destruct Hm as (n0 & Hn0 & Hb & Hmay & Hlink & Hid & (Hkey & Hlen & Hstate) & Hm).
  assert (nt_idempotency s2 !! key = Some (read_fingerprint (user_id p) id state etag, n)) as Hi2.
  { apply (lt_idempotency _ _ Hl2). destruct (nt_idempotency s !! key) as [[found n1]|] eqn:Hi.
    - destruct Hm as (-> & -> & Hq). by rewrite (nq_idempotency _ _ Hq).
    - destruct Hm as (_ & _ & now & ev & l & _ & _ & Hi1 & _). by rewrite Hi1, lookup_insert_eq. }
  destruct (wf_read _ Hw2 Hd _ _ _ Hi2) as [Hread Hget]. split_and!; [|done| |done| |].
  - exists n0. split; [done|]. split.
    { apply list_elem_of_filter. split; [done|]. apply dict_get_elem in Hn0.
      change n0 with (id, n0).2. by apply list_elem_of_fmap_2. }
    split; [done|]. destruct (nt_idempotency s !! key) as [[found n1]|]; [done|].
    destruct Hm as (Hu & Het & now & ev & l & Hn & _ & _ & Hdr & Hlog). split_and!; [done..|].
    exists now, ev. split; [done|]. split; [rewrite Hlog; set_solver|done].
  - pose proof (ro_version _ _ _ (wf_rows _ Hw2 _ _ Hget)) as Hv. by destruct (nt_read_at n).
  - intros n2 trace' policy' Hn2 Hg.
    assert (nt_later s s2) as Hl by by eapply nt_later_trans.
    destruct (lt_rows _ _ Hl Hd _ _ Hn0) as (n2' & Hn2' & Hn). assert (n2' = n2) as -> by congruence.
    assert (belongs (tenant_id p) (user_id p) n2 = true ∧ link_ok (nt_deep_link n2)) as [Hb2 Hl2'].
    { destruct Hn as [->|(_ & t & ->)]; done. }
    pose proof (wp_read_again p id etag key state trace' policy' s2 n2 n) as Ha. unfold wp in Ha.
    destruct (mark_read _ _ _ _ _ _ _ _ s2) as [s3 o]. simpl in Ha. exists s3.
    destruct Ha as [-> Hq]; done.
  - intros p' etag' key' state' trace' policy' n' Hres.
    pose proof (wp_mark_read p' (nt_notification_id n) etag' key' state' trace' policy' s2 (wf_keyed _ Hw2)) as [_ Hx].
    rewrite Hres in Hx. destruct Hx as (n2 & Hn2 & _ & _ & _ & _ & _ & Hx).
    destruct (nt_idempotency s2 !! key') as [[found n1]|]; [destruct Hx as (-> & _); by exists found|].
    destruct Hx as (Hu & _). congruence.
Qed.

(** C20: An event is published once.  The notifications that a publication
    returns are one for each of some candidates of the event's tenant who may
    view its workspace, none published before, and each with its event in the
    audit log; every other candidate of the tenant had been notified before or
    was refused by the authorization service, in the very state that the
    publication reached for the candidates before it.  They are in the
    repository from then on, and no later publication notifies the same
    recipient of the same event and kind. *)
Theorem published_once e candidates s s1 created s2 :
  nt_reachable s → publish native_routes e candidates s = (s1, Ret created) → rtc nt_step s1 s2 →
  event_ok e ∧ created_ok s s1 e candidates created ∧
  settled s e candidates created ∧
  (distinct s2 → ∀ n, n ∈ created →
    ∃ n', dict_get (nt_notification_id n) (nt_notifications s2) = Some n' ∧
      (n' = n ∨ ∃ t, n' = read_at_time n t)) ∧
  (∀ e' candidates' created' n n',
    result (publish native_routes e' candidates') s2 = Ret created' → n ∈ created → n' ∈ created' →
    ne_event_id e' = ne_event_id e → ne_kind e' = ne_kind e → nt_recipient_id n' ≠ nt_recipient_id n).
Proof.
  intros Hs%nt_reachable_wf He Hr. pose proof (wp_publish e candidates s Hs) as [Hc H]. rewrite He in Hc, H.
  simpl in *. destruct H as (Hok & Hcr). pose proof (publish_settled _ _ _ _ _ He) as Hset.
  destruct (changes_wf _ _ Hc Hs) as [Hw1 _].
  destruct (steps_wf _ _ Hr Hw1) as [Hw2 Hl]. split_and!; [done..| |].
  - intros Hd n Hn. eapply created_kept; [exact Hl| |done]. by apply (proj2 Hcr n Hn).
  - intros e' candidates' created' n n' Hres Hn Hn' Hid Hkind Heq.
    pose proof (wp_publish e' candidates' s2 Hw2) as [_ H']. rewrite Hres in H'.
    destruct H' as (_ & _ & H'). destruct (H' n' Hn') as ((q & _ & _ & _ & now' & ->) & Hfresh & _).
    destruct (proj2 Hcr n Hn) as ((p & _ & _ & _ & now & ->) & _ & Hin & _). apply Hfresh.
    apply (lt_dedupe _ _ Hl). simpl in Heq. unfold nkey in *. simpl in *. by rewrite Hid, Hkind, Heq.
Qed.

(** ** Listing page by page *)

(** The pages a client gets that follows the cursors to the end *)
Inductive listing p limit filters search trace policy : NtState A I → option string → list Notification → NtState A I → Prop :=
| listing_last s cursor pg s' :
    list_notifications native_routes p limit cursor filters search trace policy s = (s', Ret pg) →
    np_next_cursor pg = None → listing p limit filters search trace policy s cursor (np_items pg) s'
| listing_more s cursor pg next s1 items s' :
    list_notifications native_routes p limit cursor filters search trace policy s = (s1, Ret pg) →
    np_next_cursor pg = Some next → listing p limit filters search trace policy s1 (Some next) items s' →
    listing p limit filters search trace policy s cursor (np_items pg ++ items) s'.

Lemma listed_quiet s s' p filters search : nt_quiet s s' → listed s' p filters search = listed s p filters search.
Proof. intros Hq. unfold listed. by rewrite (own_quiet s s'). Qed.

Lemma rest_quiet {X} (id : X → string) cursor l s s' rest :
  nt_quiet s s' → rest_of id cursor l s' rest → rest_of id cursor l s rest.
Proof.
  intros Hq. destruct cursor as [c|]; [|done]. simpl. rewrite decode_item_cursor_eq. setoid_rewrite decode_item_cursor_eq.
  simpl. by rewrite (nq_secret _ _ Hq).
Qed.

(** Following the cursors from where a page was cut gives what is left there. *)
Lemma listing_rest p limit filters search trace policy s cursor items s' l :
  listing p limit filters search trace policy s cursor items s' →
  listed s p filters search = Some l → NoDup (map nt_notification_id l) →
  ∃ rest, rest_of nt_notification_id cursor l s rest ∧ items = rest ∧ nt_quiet s s'.
Proof.
  intros Hl. revert l. induction Hl as [s cursor pg s' He Hn|s cursor pg next s1 items s' He Hn _ IH]; intros l Hs Hd;
    pose proof (wp_list_notifications native_routes p limit cursor filters search trace policy s) as [Hq H];
    rewrite He in Hq, H; simpl in *; destruct H as (n & l' & rest & _ & Hb & Hl & Hrest & [Hp Hnext] & _);
    assert (l' = l) as -> by congruence; rewrite Hn in Hnext; exists rest; (split; [done|]).
  - split; [|done]. rewrite Hp. apply take_ge. destruct Hnext as [->|?]; simpl; lia.
  - destruct Hnext as (x & Hx & Hlt & Henc).
    destruct (IH l) as (rest' & Hrest' & -> & Hq'); [by rewrite (listed_quiet _ _ _ _ _ Hq)|done|].
    split; [|by etrans]. pose proof (rest_quiet nt_notification_id (Some next) l _ _ rest' Hq Hrest') as Hr'.
    destruct Hr' as (item & Hdec & Hafter). rewrite (cursor_item _ _ _ _ Henc Hdec) in Hafter.
    rewrite Hp in Hx. apply take_last in Hx as (l1 & Ht & Hrl).
    assert (∃ l0, l = l0 ++ rest) as [l0 Hl0].
    { destruct cursor as [c|]; simpl in Hrest; [|by exists []]. destruct Hrest as (it & _ & Ha).
      revert Ha. clear. revert rest. induction l as [|y l IH]; simpl; [done|]. intros rest.
      case_match; intros Ha; [simplify_eq; by exists [y]|]. destruct (IH _ Ha) as [l0 ->]. by exists (y :: l0). }
    assert (rest' = drop (Z.to_nat n) rest) as ->.
    { rewrite Hl0, Hrl, app_assoc, after_item_app in Hafter; [congruence|].
      by rewrite <-app_assoc, <-Hrl, <-Hl0. }
    rewrite Hp. apply take_drop.
Qed.

Lemma newer_total a b : newer a b = true ∨ newer b a = true.
Proof.
  unfold newer, string_leb. destruct (Z.lt_trichotomy (nt_created_at a) (nt_created_at b)) as [H|[H|H]].
  - right. by rewrite (proj2 (Z.ltb_lt _ _) H).
  - rewrite H, Z.eqb_refl, Z.ltb_irrefl. simpl.
    destruct (total String.le (nt_notification_id b) (nt_notification_id a)); [left|right]; by apply bool_decide_eq_true.
  - left. by rewrite (proj2 (Z.ltb_lt _ _) H).
Qed.

Lemma newer_trans a b c : newer a b = true → newer b c = true → newer a c = true.
Proof.
  unfold newer, string_leb. rewrite !orb_true_iff, !andb_true_iff, !bool_decide_eq_true, !Z.ltb_lt, !Z.eqb_eq.
  intros [H1|[H1 L1]] [H2|[H2 L2]]; [left; lia..|]. right. split; [lia|]. by etrans.
Qed.

Lemma StronglySorted_sublist {X} (R : relation X) l l' : l `sublist_of` l' → StronglySorted R l' → StronglySorted R l.
Proof.
  induction 1 as [|x l l' Hs IH|x l l' Hs IH]; intros H; [done| |]; apply StronglySorted_inv in H as [H Hx]; [|by apply IH].
  constructor; [by apply IH|]. rewrite Forall_forall in *. intros y Hy. by eapply Hx, elem_of_sublist.
Qed.

(** A notification that a filter and a search term let through *)
Definition matches (filters : Filters) (search : option string) (n : Notification) : Prop :=
  (∀ key value, (key, value) ∈ filters → ∃ column, notification_column key = Some column ∧ column n = value) ∧
  (∀ term, search = Some term →
    contains (casefold term) (casefold (nt_title n)) = true ∨ contains (casefold term) (casefold (nt_summary n)) = true).

Lemma chosen_matches filters search l l' :
  chosen notification_column (λ n, [nt_title n; nt_summary n]) filters search l = Some l' →
  ∀ n, n ∈ l' ↔ n ∈ l ∧ matches filters search n.
Proof.
  unfold chosen. set (l1 := match filters with [] => _ | _ => _ end). intros H.
  destruct l1 as [m|] eqn:Hm; [|done]. simpl in H.
  assert (∀ n, n ∈ m ↔ n ∈ l ∧ ∀ key value, (key, value) ∈ filters →
    ∃ column, notification_column key = Some column ∧ column n = value) as Hf.
  { intros n. subst l1. destruct filters as [|[key value] [|]]; [| |done].
    - injection Hm as ->. split; [|by intros []]. intros Hn. split; [done|]. by intros ? ? []%elem_of_nil.
    - destruct (notification_column key) as [column|] eqn:Hk; [|done]. injection Hm as <-.
      rewrite list_elem_of_filter. split.
      + intros [Hc Hn]. split; [done|]. intros k v [= -> ->]%list_elem_of_singleton. by exists column.
      + intros [Hn Hc]. destruct (Hc key value) as (c & Hc' & Hv); [by left|]. split; [congruence|done]. }
  intros n. enough (n ∈ l' ↔ n ∈ m ∧ (∀ term, search = Some term →
    contains (casefold term) (casefold (nt_title n)) = true ∨
    contains (casefold term) (casefold (nt_summary n)) = true)) as E by (rewrite E, Hf; unfold matches; tauto).
  destruct search as [term|].
  - destruct (plain_text_ok 128 term); [|done]. injection H as <-. rewrite list_elem_of_filter. simpl.
    rewrite orb_false_r, orb_true_iff. split.
    + intros [Ht Hn]. split; [done|]. by intros ? [= <-].
    + intros [Hn Ht]. split; [by apply Ht|done].
  - injection H as ->. split; [by intros Hn|by intros []].
Qed.

(** C22: A client that follows the cursors of a list to the end has got, newest
    first and each exactly once, every notification of the caller that matches,
    and no other. *)
Theorem listing_complete p limit filters search trace policy s items s' :
  nt_reachable s → listing p limit filters search trace policy s None items s' →
  StronglySorted (λ a b, newer a b = true) items ∧ NoDup items ∧
  ∀ n, n ∈ items ↔ n ∈ own s p ∧ matches filters search n.
Proof.
  intros Hs%nt_reachable_wf Hl.
  assert (NoDup (map nt_notification_id (own s p))) as Hids.
  { apply (sublist_NoDup _ (dict_keys (nt_notifications s))); [apply (wf_nodup _ Hs)|].
    assert (dict_keys (nt_notifications s) = map nt_notification_id (dict_values (nt_notifications s))) as ->.
    { unfold dict_keys, dict_values. rewrite map_map. apply map_ext_in. intros [k n] Hin%list_elem_of_In.
      apply dict_elem_get in Hin; [|apply (wf_nodup _ Hs)]. symmetry. by apply (wf_rows _ Hs). }
    apply fmap_sublist, sublist_filter. }
  assert (∃ l, listed s p filters search = Some l) as [l Hlist].
  { destruct Hl as [? ? pg ? He _|? ? pg ? ? ? ? He _ _];
      pose proof (wp_list_notifications native_routes p limit cursor filters search trace policy s) as [_ H];
      rewrite He in H; destruct H as (_ & l & _ & _ & _ & Hx & _); by exists l. }
  assert (l `sublist_of` sort_stable newer (own s p)) as Hsub by by eapply chosen_sublist.
  assert (NoDup (map nt_notification_id l)) as Hd.
  { eapply sublist_NoDup; [|by apply fmap_sublist]. change (NoDup (nt_notification_id <$> sort_stable newer (own s p))).
    by rewrite sort_stable_perm. }
  destruct (listing_rest _ _ _ _ _ _ _ _ _ _ _ Hl Hlist Hd) as (rest & -> & -> & _). split_and!.
  - eapply StronglySorted_sublist; [exact Hsub|]. apply sort_stable_sorted; [apply newer_total|apply newer_trans].
  - by eapply NoDup_fmap_1.
  - intros n. rewrite (chosen_matches _ _ _ _ Hlist n). by rewrite sort_stable_perm.
Qed.
End Changes.
