(* ===== verification/NotificationSamples.v ===== *)
(** Two events that are published to the staff of a workspace, read and listed:
    the run that witnesses the theorems about notifications, and runs that show
    what the service does not prevent. *)

From S2P Require Import Prelude Sha256 PyStr Json HashChain Bytes AuditLog PyUrl Authorization AuthorizationFacts.
From S2P Require Import AuthorizationTables AuthorizationSamples Notification NotificationFacts NotificationLinks NotificationRuns.
From Stdlib Require Import NArith Ascii.
#[local] Open Scope Z_scope.
#[local] Existing Instance sample_world.

#[local] Instance no_addresses : BracketedHost := {| bracketed_netloc_ok _ := false |}.

Abbreviation NSys := (NtState Store unit).

Definition zoe : IdentityPrincipal := user "zoe".

(** The workspace alpha, where amy administers, ed edits and zoe has no role *)
Definition opened_with (secret : list N) : NSys :=
  mkNt secret [] ∅ ∅ [] (mkState (db staffed) false empty_store (Some tt) (mkDraws 0 0)).

Definition review_event : NotificationEvent :=
  mkNotificationEvent "event-1" "tenant-1" "alpha" "review" "info" "Draft ready" "A draft waits for review."
    "draft" "draft-1" "/operations/draft-1" "trace-1" "policy-1".
Definition failed_event : NotificationEvent :=
  mkNotificationEvent "event-2" "tenant-1" "alpha" "run_failed" "critical" "Run failed" "A run has failed."
    "run" "run-1" "/notebooks/notebook-1?run_id=run-1" "trace-1" "policy-1".

Abbreviation publish_sample := (publish NATIVE_ROUTES).
Abbreviation list_sample cursor :=
  (list_notifications NATIVE_ROUTES ed (PyInt 1) cursor [] None "trace-1" "policy-1").

Definition run_with (secret : list N) : NSys :=
  fst (publish_sample failed_event [ed] (fst (publish_sample review_event [amy; ed; zoe; ed] (opened_with secret)))).

Definition key : string := "read-0123456789abcdef".
Definition etag_1 : string := dquoted "notification-1".
Definition review_id : string := "notification-" +:+ short_digest (dedupe_key "event-1" "ed" "review").
Abbreviation read_sample p id etag := (mark_read NATIVE_ROUTES p id etag key "read" "trace-1" "policy-1").

Definition opened : NSys := opened_with (repeat 8%N 32).
Definition one_event : NSys := fst (publish_sample review_event [amy; ed; zoe; ed] opened).
Definition two_events : NSys := fst (publish_sample failed_event [ed] one_event).
Definition read_ : NSys := fst (read_sample ed review_id etag_1 two_events).

Definition list_of {X} (o : outcome (list X)) : list X := match o with Ret l => l | Raise _ => [] end.
Definition page_of_result (o : outcome NotificationPage) : NotificationPage :=
  match o with Ret pg => pg | Raise _ => mkNotificationPage [] None 0 end.
Definition is_ret {X} (o : outcome X) : bool := match o with Ret _ => true | Raise _ => false end.

Definition created : list Notification := list_of (snd (publish_sample review_event [amy; ed; zoe; ed] opened)).

(** Who is notified: amy and ed once each, and not zoe *)
Example notified : map nt_recipient_id created = ["amy"; "ed"].
Proof. vm_compute. reflexivity. Qed.

(** What ed is shown after reading the first *)
Example ed_list :
  match snd (list_notifications NATIVE_ROUTES ed (PyInt 50) None [] None "trace-1" "policy-1" read_) with
  | Ret pg => Some (map (λ n, (nt_title n, read_value (nt_read_state n), nt_version n)) (np_items pg),
                np_next_cursor pg, np_unread_count pg)
  | Raise _ => None
  end = Some ([("Run failed", "unread", 1); ("Draft ready", "read", 2)], None, 1).
Proof. vm_compute. reflexivity. Qed.

Example ed_filtered :
  match snd (list_notifications NATIVE_ROUTES ed (PyInt 50) None [("state", "unread")] (Some "FAILED")
    "trace-1" "policy-1" read_) with
  | Ret pg => map nt_title (np_items pg)
  | Raise _ => []
  end = ["Run failed"].
Proof. vm_compute. reflexivity. Qed.

(** The entity tag guards the transition, and a key stands for one request. *)
Example read_refusals :
  (snd (read_sample ed review_id (dquoted "notification-2") two_events),
   snd (read_sample amy review_id etag_1 two_events),
   snd (read_sample ed review_id (dquoted "notification-2") read_),
   snd (mark_read NATIVE_ROUTES ed review_id (dquoted "notification-2") "another-0123456789" "read" "trace-1"
     "policy-1" read_)) =
  (Raise NT_VERSION_CONFLICT, Raise NT_UNAVAILABLE, Raise IDEMPOTENCY_CONFLICT, Raise INVALID_TRANSITION).
Proof. vm_compute. reflexivity. Qed.

(** *** Witnesses *)

Lemma ret_list {X} (o : outcome (list X)) : is_ret o = true → o = Ret (list_of o).
Proof. by destruct o. Qed.

Lemma ret_page o : is_ret o = true → o = Ret (page_of_result o).
Proof. by destruct o. Qed.

Lemma opened_reachable : nt_reachable NATIVE_ROUTES opened.
Proof. exists opened. split; [by split_and!|constructor]. Qed.

Lemma step_to_one : nt_step NATIVE_ROUTES opened one_event.
Proof. exact (step_publish NATIVE_ROUTES review_event [amy; ed; zoe; ed] opened). Qed.

Lemma step_to_two : nt_step NATIVE_ROUTES one_event two_events.
Proof. exact (step_publish NATIVE_ROUTES failed_event [ed] one_event). Qed.

Lemma step_to_read : nt_step NATIVE_ROUTES two_events read_.
Proof. exact (step_mark NATIVE_ROUTES ed review_id etag_1 key "read" "trace-1" "policy-1" two_events). Qed.

Lemma two_reachable : nt_reachable NATIVE_ROUTES two_events.
Proof.
  destruct opened_reachable as (s0 & Hu & Hr). exists s0. split; [done|].
  eapply rtc_r; [eapply rtc_r; [exact Hr|exact step_to_one]|exact step_to_two].
Qed.

Lemma notifications_wf_witness :
  length (nt_notifications two_events) = 3%nat ∧ nt_wf NATIVE_ROUTES two_events ∧ nt_later two_events read_.
Proof.
  split; [vm_compute; reflexivity|].
  exact (notifications_wf NATIVE_ROUTES two_events read_ two_reachable (rtc_once _ _ step_to_read)).
Defined.

Lemma created_ret : is_ret (snd (publish_sample review_event [amy; ed; zoe; ed] opened)) = true.
Proof. vm_compute. reflexivity. Qed.

Lemma created_returned : publish_sample review_event [amy; ed; zoe; ed] opened = (one_event, Ret created).
Proof. exact (both _ _ (ret_list _ created_ret)). Qed.

Lemma published_once_witness :
  length created = 2%nat ∧ created_ok opened one_event review_event [amy; ed; zoe; ed] created ∧
  settled NATIVE_ROUTES opened review_event [amy; ed; zoe; ed] created.
Proof.
  split; [vm_compute; reflexivity|].
  pose proof (published_once NATIVE_ROUTES review_event [amy; ed; zoe; ed] opened one_event created two_events
    opened_reachable created_returned (rtc_once _ _ step_to_two)) as (_ & Hc & Hs & _).
  split; [exact Hc|exact Hs].
Defined.

Definition read_note : Notification :=
  match snd (read_sample ed review_id etag_1 two_events) with
  | Ret n => n
  | Raise _ => new_notification review_event "" "" 0
  end.

Lemma read_value_ : snd (read_sample ed review_id etag_1 two_events) = Ret read_note.
Proof. vm_compute. reflexivity. Qed.

Lemma read_returned : read_sample ed review_id etag_1 two_events = (read_, Ret read_note).
Proof. exact (both _ _ read_value_). Qed.

Definition keys : list string := map short_digest (elements (nt_dedupe read_)).

Lemma keys_distinct : bool_decide (NoDup keys) = true.
Proof. vm_compute. reflexivity. Qed.

Lemma read_distinct : distinct read_.
Proof.
  intros a b Ha%elem_of_elements Hb%elem_of_elements.
  apply (NoDup_map_inj short_digest (elements (nt_dedupe read_))); [|done..].
  exact (bool_decide_eq_true_1 _ keys_distinct).
Qed.

Lemma read_once_witness :
  nt_read_at read_note ≠ None ∧ nt_version read_note = 2 ∧
  dict_get (nt_notification_id read_note) (nt_notifications read_) = Some read_note.
Proof.
  exact (proj1 (proj2 (read_once NATIVE_ROUTES ed review_id etag_1 key "read" "trace-1" "policy-1" two_events read_
    read_note read_ two_reachable read_returned (rtc_refl _ read_) read_distinct))).
Defined.

(** Ed's list, one by one *)
Definition page_1 : NotificationPage := page_of_result (snd (list_sample None two_events)).
Definition state_1 : NSys := fst (list_sample None two_events).
Definition next_cursor : string := default "" (np_next_cursor page_1).
Definition page_2 : NotificationPage := page_of_result (snd (list_sample (Some next_cursor) state_1)).
Definition state_2 : NSys := fst (list_sample (Some next_cursor) state_1).
Definition all_items : list Notification := np_items page_1 ++ np_items page_2.

Lemma page_1_ret : is_ret (snd (list_sample None two_events)) = true.
Proof. vm_compute. reflexivity. Qed.
Lemma page_2_ret : is_ret (snd (list_sample (Some next_cursor) state_1)) = true.
Proof. vm_compute. reflexivity. Qed.
Lemma page_1_next : np_next_cursor page_1 = Some next_cursor.
Proof. vm_compute. reflexivity. Qed.
Lemma page_2_last : np_next_cursor page_2 = None.
Proof. vm_compute. reflexivity. Qed.

Lemma page_1_returned : list_sample None two_events = (state_1, Ret page_1).
Proof. unfold page_1, state_1. exact (both (list_sample None two_events) _ (ret_page _ page_1_ret)). Qed.
Lemma page_2_returned : list_sample (Some next_cursor) state_1 = (state_2, Ret page_2).
Proof. unfold page_2, state_2. exact (both (list_sample (Some next_cursor) state_1) _ (ret_page _ page_2_ret)). Qed.

Lemma all_listed :
  listing NATIVE_ROUTES ed (PyInt 1) [] None "trace-1" "policy-1" two_events None all_items state_2.
Proof.
  unfold all_items. pose proof page_1_returned as H1. pose proof page_2_returned as H2.
  refine (listing_more NATIVE_ROUTES ed (PyInt 1) [] None "trace-1" "policy-1" two_events None page_1 next_cursor
    state_1 (np_items page_2) state_2 H1 page_1_next _).
  exact (listing_last NATIVE_ROUTES ed (PyInt 1) [] None "trace-1" "policy-1" state_1 (Some next_cursor) page_2
    state_2 H2 page_2_last).
Qed.

Lemma listing_complete_witness : map nt_title all_items = ["Run failed"; "Draft ready"] ∧ NoDup all_items.
Proof.
  split; [vm_compute; reflexivity|].
  exact (proj1 (proj2 (listing_complete NATIVE_ROUTES ed (PyInt 1) [] None "trace-1" "policy-1" two_events all_items
    state_2 two_reachable all_listed))).
Defined.

Lemma item_cursor_exact_witness : ∃ cursor,
  encode_item_cursor review_id two_events = (two_events, Ret cursor) ∧
  decode_item_cursor cursor two_events = (two_events, Ret review_id).
Proof.
  assert (safe_id review_id = true) as Hid by (vm_compute; reflexivity).
  destruct (item_cursor_exact review_id two_events Hid) as [(cursor & He & _ & Hd) _].
  exists cursor. split; [exact He|]. rewrite Hd. vm_compute. reflexivity.
Defined.

Lemma deep_link_confined_witness : (String.length "sinsan-daon://app/inbox" <= 512)%nat.
Proof.
  exact (proj1 (deep_link_confined NATIVE_ROUTES "sinsan-daon://app/inbox" tt eq_refl eq_refl)).
Defined.

(** ** What the service does not prevent *)

(** A cursor that the repository hands out is refused when it comes back, where
    the identifier's authentication code has the byte of a dot. *)
Definition dotted : NSys := run_with (repeat 7%N 32).

Example cursor_refused :
  match snd (list_sample None dotted) with
  | Ret pg => match np_next_cursor pg with
              | Some next => Some (snd (list_sample (Some next) (fst (list_sample None dotted))))
              | None => None
              end
  | Raise _ => None
  end = Some (Raise NT_INVALID_CURSOR).
Proof. vm_compute. reflexivity. Qed.

(** A tab hides two more slashes from the check, and from a browser's parser. *)
Example hidden_host :
  let link := "/" +:+ String (ascii_of_nat 9) "//operations/login" in
  result (safe_deep_link (T:=unit) NATIVE_ROUTES link) tt = Ret link ∧ startswith "//" (clean_url link) = true.
Proof. vm_compute. split; reflexivity. Qed.

(** An event whose identifier the audit store refuses leaves a notification
    without its event, which a second attempt skips. *)
Definition host_event : NotificationEvent :=
  mkNotificationEvent "db.internal:5432" "tenant-1" "alpha" "review" "info" "Draft ready" "A draft waits for review."
    "draft" "draft-1" "/operations/draft-1" "trace-1" "policy-1".
Definition half : NSys := fst (publish_sample host_event [ed] opened).

Example notification_without_event :
  (is_ret (snd (publish_sample host_event [ed] opened)), length (nt_notifications half),
   existsb (λ ev, String.eqb (ev_action ev) "notification.created") (log (nt_auth half)),
   snd (publish_sample host_event [ed] half)) = (false, 1%nat, false, Ret []).
Proof. vm_compute. reflexivity. Qed.

(** A key that one user has used is refused to another. *)
Definition amy_id : string := "notification-" +:+ short_digest (dedupe_key "event-1" "amy" "review").

Example key_of_another :
  (snd (read_sample amy amy_id etag_1 read_), is_ret (snd (read_sample amy amy_id etag_1 two_events))) =
  (Raise IDEMPOTENCY_CONFLICT, true).
Proof. vm_compute. reflexivity. Qed.

(** Where ed has lost one workspace, the whole list is refused. *)
Definition moved : NSys :=
  set_nt_auth (set_db (db staffed) (nt_auth two_events))
    (set_nt_notifications (nt_notifications two_events ++
       [("notification-x", mkNotification "notification-x" "tenant-1" "beta" "ed" "review" "info" "t" "s" "e" "r" "r-1"
           "/inbox" "a-1" "t-1" DELIVERY_DELIVERED 0 (Some 0) None 1)]) two_events).

Example list_refused : snd (list_sample None moved) = Raise (NotificationError "CURRENT_ACCESS_DENIED" 403).
Proof. vm_compute. reflexivity. Qed.
