(* ===== verification/GroundingFacts.v ===== *)
(** What is accepted of a model's response, and what is shown of it. *)

From S2P Require Import Prelude Sha256 PyStr PyUrl PyText PyTextFacts PyRe Grounding.
From Stdlib Require Import NArith Ascii.
#[local] Open Scope Z_scope.

Lemma subset_iff a b : subset a b = true ↔ ∀ x, x ∈ a → x ∈ b.
Proof.
  unfold subset. rewrite forallb_forall. split; intros H x Hx.
  - by eapply bool_decide_eq_true_1, H, list_elem_of_In.
  - by apply bool_decide_eq_true_2, H, list_elem_of_In.
Qed.

(** ** Excerpts *)

Lemma by_id_Some evidence id c : by_id evidence id = Some c → c ∈ evidence ∧ ch_chunk_id c = id.
Proof.
  unfold by_id. intros H%last_Some_elem_of. by apply list_elem_of_filter in H as [? ?].
Qed.

(** An excerpt as it was supplied *)
Definition supplied (evidence : list IndexedEvidenceChunk) (e : text * text) : Prop :=
  ∃ c, c ∈ evidence ∧ ch_chunk_id c = e.1 ∧ ch_text c = e.2.

Lemma excerpts_Some evidence cited chunks :
  excerpts evidence cited = Some chunks → map fst chunks = cited ∧ Forall (supplied evidence) chunks.
Proof.
  unfold excerpts. intros H%mapM_Some. induction H as [|id [id' t] cited chunks Hc _ [IH1 IH2]]; [done|].
  destruct (by_id evidence id) as [c|] eqn:Hb; [|done]. simpl in Hc. injection Hc as <- <-. simpl.
  split; [by f_equal|]. constructor; [|done]. apply by_id_Some in Hb as [? ?]. by exists c.
Qed.

Lemma excerpts_known evidence cited chunks id :
  excerpts evidence cited = Some chunks → id ∈ cited → id ∈ map ch_chunk_id evidence.
Proof.
  intros [<- Hs]%excerpts_Some Hid. apply list_elem_of_fmap in Hid as (e & -> & He).
  rewrite Forall_forall in Hs. destruct (Hs e He) as (c & Hc & <- & _). by apply list_elem_of_fmap_2.
Qed.

(** ** The excerpts that fit *)

Definition quotes_length (l : list (text * text)) : nat := sum_list (map (λ c, length c.2 + 4)%nat l).

Lemma quotes_length_cons c l : quotes_length (c :: l) = (length c.2 + 4 + quotes_length l)%nat.
Proof. reflexivity. Qed.

(** What the loop over the excerpts adds to what it has so far *)
Definition quotes_of (l : list (text * text)) (acc r : list (text * text) * nat) : Prop :=
  ∃ more, r.1 = acc.1 ++ more ∧ more `sublist_of` l ∧ r.2 = (acc.2 + quotes_length more)%nat ∧
    Forall (λ c, strip_text c.2 ≠ []) more ∧ (more ≠ [] → (r.2 <= 8000)%nat).

Lemma quote_step_cases acc c :
  quote_step acc c = acc ∨
  strip_text c.2 ≠ [] ∧ (acc.2 + length c.2 + 4 <= 8000)%nat ∧
    quote_step acc c = (acc.1 ++ [c], acc.2 + length c.2 + 4)%nat.
Proof.
  destruct acc as [shown len]. unfold quote_step. case_bool_decide; cbn [orb fst snd]; [by left|].
  destruct (Nat.ltb_spec 8000 (len + length c.2 + 4)); [by left|by right].
Qed.

Lemma quote_steps l acc : quotes_of l acc (foldl quote_step acc l).
Proof.
  revert acc. induction l as [|c l IH]; intros acc; unfold quotes_of; cbn [foldl].
  { exists []. rewrite app_nil_r. unfold quotes_length. simpl. split_and!; try done; lia. }
  destruct (quote_step_cases acc c) as [->|(Hs & Hl & ->)].
  { destruct (IH acc) as (more & H1 & H2 & H3). exists more. split; [done|]. split; [by apply sublist_cons|done]. }
  destruct (IH (acc.1 ++ [c], acc.2 + length c.2 + 4)%nat) as (more & H1 & H2 & H3 & H4 & H5).
  cbn [fst snd] in *. exists (c :: more). split_and!.
  - by rewrite H1, <-app_assoc.
  - by apply sublist_skip.
  - rewrite H3, quotes_length_cons. lia.
  - by constructor.
  - intros _. destruct more as [|m more]; [|by apply H5]. rewrite H3. unfold quotes_length. simpl (sum_list _). lia.
Qed.

Lemma join_length sep (l : list text) :
  (length (join sep l) + length sep <= sum_list (map (λ t, length t + length sep)%nat l) + length sep)%nat ∧
  (l ≠ [] → length (join sep l) + length sep = sum_list (map (λ t, length t + length sep)%nat l))%nat.
Proof.
  induction l as [|t [|t' l] IH]; simpl in *; [split; [lia|done]|split; lia|].
  destruct IH as [_ IH]. rewrite !length_app. specialize (IH ltac:(done)). simpl in IH. split; lia.
Qed.

Lemma quotes_fit l : l ≠ [] →
  (length (join [10%N; 10%N] (map (λ c : text * text, quoted_text c.2) l)) <= quotes_length l)%nat.
Proof.
  intros Hl. destruct (join_length [10%N; 10%N] (map (λ c : text * text, quoted_text c.2) l)) as [_ H].
  assert (map (λ c : text * text, quoted_text c.2) l ≠ []) as Hm by by destruct l. specialize (H Hm).
  assert (sum_list (map (λ t : text, length t + length [10%N; 10%N])%nat (map (λ c : text * text, quoted_text c.2) l)) =
    quotes_length l) as E; [|simpl in *; lia].
  unfold quotes_length. rewrite map_map. f_equal. apply map_ext. intros [id t]. unfold quoted_text.
  rewrite !length_app. simpl. lia.
Qed.

Lemma sublist_map {A B} (f : A → B) l l' : l `sublist_of` l' → map f l `sublist_of` map f l'.
Proof. induction 1; simpl; by constructor. Qed.

(** The quotes together with what came before them *)
Lemma quotes_bounded n chunks :
  let cs := fst (foldl quote_step ([], n) chunks) in
  cs ≠ [] → cs `sublist_of` chunks ∧
    (n + length (join [10%N; 10%N] (map (λ c : text * text, quoted_text c.2) cs)) <= 8000)%nat.
Proof.
  destruct (quote_steps chunks ([], n)) as (cs & E & Hsub & Hlen & _ & H8000). rewrite E. cbn [fst snd app] in *.
  intros Hne. split; [done|]. pose proof (quotes_fit cs Hne). specialize (H8000 Hne). lia.
Qed.

(** ** What a response has to be *)

(** The three statuses *)
Inductive status_means : text → bool → list text → list text → Prop :=
| means_sufficient cited : cited ≠ [] → status_means SUFFICIENT false cited []
| means_partial cited actions : cited ≠ [] → actions ≠ [] → status_means PARTIAL false cited actions
| means_no_evidence actions : actions ≠ [] → status_means NO_EVIDENCE true [] actions.

(** An object with exactly the five fields, of their types *)
Definition object_of (f : grounded_fields) (d : tdict) : Prop :=
  (∀ k, k ∈ map fst d → k ∈ GROUNDED_FIELDS) ∧
  tget ANSWER d = Some (VStr (gf_answer f)) ∧ tget CITED d = Some (VList (map VStr (gf_cited f))) ∧
  tget INSUFFICIENT d = Some (VBool (gf_insufficient f)) ∧ tget STATUS d = Some (VStr (gf_status f)) ∧
  tget ACTIONS d = Some (VList (map VStr (gf_actions f))).

Record fields_ok (f : grounded_fields) : Prop := mk_fields_ok {
  ok_cited : (length (gf_cited f) <= 10)%nat ∧ Forall (λ t, canon_id_text t = true) (gf_cited f);
  ok_actions : (length (gf_actions f) <= 4)%nat ∧ Forall (λ t, 1 <= length (strip_text t) <= 120)%nat (gf_actions f);
  ok_status : gf_status f ∈ [SUFFICIENT; PARTIAL; NO_EVIDENCE]
}.

Record fields_agree (f : grounded_fields) : Prop := mk_fields_agree {
  agree_answer : (1 <= length (strip_text (gf_answer f)) <= 8000)%nat;
  agree_cited : NoDup (gf_cited f);
  agree_status : status_means (gf_status f) (gf_insufficient f) (gf_cited f) (gf_actions f)
}.

Lemma strings_iff (p : value → bool) (P : text → Prop) l :
  (∀ v, p v = true ↔ ∃ t, v = VStr t ∧ P t) →
  (forallb p l = true ↔ ∃ ts, l = map VStr ts ∧ Forall P ts).
Proof.
  intros Hp. induction l as [|v l IH]; simpl; [split; [by exists []|done]|].
  rewrite andb_true_iff, Hp, IH. split.
  - intros [(t & -> & Ht) (ts & -> & Hts)]. exists (t :: ts). split; [done|by constructor].
  - intros ([|t ts] & Hl & Hts); [done|]. injection Hl as -> ->. apply Forall_cons in Hts as [Ht Hts].
    split; by eexists.
Qed.

Lemma strings_back ts : map str_of (map VStr ts) = ts.
Proof. rewrite map_map. apply map_id. Qed.

Lemma has_keys_iff keys d :
  has_keys keys d = true ↔ (∀ k, k ∈ map fst d → k ∈ keys) ∧ Forall (λ k, is_Some (tget k d)) keys.
Proof.
  unfold has_keys. rewrite andb_true_iff, !forallb_forall, Forall_forall. split; intros [H1 H2]; split.
  - intros k (kv & -> & Hk)%list_elem_of_fmap. by eapply bool_decide_eq_true_1, H1, list_elem_of_In.
  - intros k Hk. by eapply bool_decide_eq_true_1, H2, list_elem_of_In.
  - intros kv Hk. apply bool_decide_eq_true_2, H1, list_elem_of_fmap_2. by apply list_elem_of_In.
  - intros k Hk. apply bool_decide_eq_true_2, H2. by apply list_elem_of_In.
Qed.

Lemma safe_items l : forallb safe_item l = true ↔ ∃ ts, l = map VStr ts ∧ Forall (λ t, canon_id_text t = true) ts.
Proof.
  apply strings_iff. intros v. split; [destruct v; try done; by eexists|]. by intros (t & -> & Ht).
Qed.

Lemma action_items l : forallb action_item l = true ↔
  ∃ ts, l = map VStr ts ∧ Forall (λ t, 1 <= length (strip_text t) <= 120)%nat ts.
Proof.
  apply strings_iff. intros v. split.
  - destruct v; try done. intros H. eexists. split; [done|]. cbn [action_item] in H. by rewrite andb_true_iff, !Nat.leb_le in H.
  - intros (t & -> & Ht). cbn [action_item]. by rewrite andb_true_iff, !Nat.leb_le.
Qed.

Lemma grounded_shape_iff parsed f :
  grounded_shape parsed = Some f ↔ ∃ d, parsed = VDict d ∧ object_of f d ∧ fields_ok f.
Proof.
  split.
  - destruct parsed as [| | | | | |d]; try done. cbn [grounded_shape].
    destruct (tget ANSWER d) as [[]|] eqn:E1; try done. destruct (tget CITED d) as [[]|] eqn:E2; try done.
    destruct (tget INSUFFICIENT d) as [[]|] eqn:E3; try done. destruct (tget STATUS d) as [[]|] eqn:E4; try done.
    destruct (tget ACTIONS d) as [[]|] eqn:E5; try done. intros H. case_match eqn:Hb; [|done]. injection H as <-.
    bools. apply has_keys_iff in H as [Hk _]. apply safe_items in H3 as (cited & -> & Hc).
    apply action_items in H1 as (actions & -> & Ha). rewrite length_map in *. exists d. split; [done|].
    rewrite !strings_back. split; [by split_and!|]. by constructor.
  - intros (d & -> & (Hk & E1 & E2 & E3 & E4 & E5) & [[Hc1 Hc2] [Ha1 Ha2] Hs]). cbn [grounded_shape].
    assert (has_keys GROUNDED_FIELDS d = true) as H1.
    { apply has_keys_iff. split; [done|]. repeat constructor; by rewrite ?E1, ?E2, ?E3, ?E4, ?E5. }
    assert (forallb safe_item (map VStr (gf_cited f)) = true) as H2 by (apply safe_items; by eexists).
    assert (forallb action_item (map VStr (gf_actions f)) = true) as H3 by (apply action_items; by eexists).
    apply Nat.leb_le in Hc1, Ha1. rewrite E1, E2, E3, E4, E5, !length_map, H1, H2, H3, Hc1, Ha1, !strings_back.
    rewrite bool_decide_eq_true_2 by done. by destruct f.
Qed.

Lemma length_0 {X} (l : list X) : (length l =? 0)%nat = true ↔ l = [].
Proof. rewrite Nat.eqb_eq. apply length_zero_iff_nil. Qed.

Lemma length_pos {X} (l : list X) : (0 <? length l)%nat = true ↔ l ≠ [].
Proof. rewrite Nat.ltb_lt. destruct l; simpl; split; intros; done || lia. Qed.

Lemma status_agrees_iff status insufficient cited actions :
  status_agrees status insufficient (length cited) (length actions) = true ↔
  status_means status insufficient cited actions.
Proof.
  unfold status_agrees. rewrite !orb_true_iff, !andb_true_iff, !bool_decide_eq_true, !length_0, !length_pos, negb_true_iff.
  split.
  - intros [[(((-> & ->) & ?) & ->)|(((-> & ->) & ?) & ?)]|(((-> & ->) & ->) & ?)]; by constructor.
  - intros []; auto 10.
Qed.

Lemma grounded_agrees_iff f : grounded_agrees f = true ↔ fields_agree f.
Proof.
  unfold grounded_agrees, answer_length_ok. rewrite !andb_true_iff, !Nat.leb_le, bool_decide_eq_true, status_agrees_iff.
  split; [intros [[[? ?] ?] ?]; by constructor|]. by intros [[? ?] ? ?].
Qed.

(** A response that passes validation, with its fields *)
Definition well_formed (parsed : value) (f : grounded_fields) : Prop :=
  (∃ d, parsed = VDict d ∧ object_of f d) ∧ fields_ok f ∧ fields_agree f.

Definition response_errors : list exn := [RESPONSE_INVALID; GROUNDING_INVALID].

Lemma validate_Ret {T} parsed f (s : T) : validate_grounded parsed s = (s, Ret f) ↔ well_formed parsed f.
Proof.
  unfold validate_grounded, well_formed, bind, from_option, guard. split.
  - destruct (grounded_shape parsed) as [f'|] eqn:E; [|done]. simpl. destruct (grounded_agrees f') eqn:Ha; [|done].
    intros [= ->]. apply grounded_shape_iff in E as (d & -> & ? & ?). apply grounded_agrees_iff in Ha. eauto.
  - intros ((d & -> & Hd) & Hok & Ha). rewrite (proj2 (grounded_shape_iff (VDict d) f)) by eauto.
    simpl. by rewrite (proj2 (grounded_agrees_iff f)).
Qed.

Lemma validate_readonly {T} parsed (s : T) :
  wp (validate_grounded parsed) (λ o s', s' = s ∧
    match o with Ret f => well_formed parsed f | Raise e => e ∈ response_errors end) s.
Proof.
  destruct (validate_grounded parsed s) as [s' o] eqn:E. unfold wp. rewrite E. simpl.
  assert (s' = s) as ->. { revert E. unfold validate_grounded, bind, from_option, guard.
    destruct (grounded_shape parsed); simpl; [|by intros [= -> _]]. by destruct (grounded_agrees g); simpl; intros [= -> _]. }
  split; [done|]. destruct o as [f|e]; [by apply validate_Ret in E|]. revert E.
  unfold validate_grounded, bind, from_option, guard. destruct (grounded_shape parsed); simpl.
  - destruct (grounded_agrees g); simpl; [done|]. intros [= <-]. set_solver.
  - intros [= <-]. set_solver.
Qed.

(** ** What is shown *)

Section Shown.
Context (evidence : list IndexedEvidenceChunk).

(** An answer with its citations: that there is none, or supplied excerpts,
    whole but for white space around them, and nothing else *)
Inductive verbatim : text → list text → Prop :=
| shows_nothing : verbatim GROUNDING_MISSING_ANSWER []
| shows_excerpts sep cs :
    cs ≠ [] → Forall (supplied evidence) cs → NoDup (map fst cs) → sep ∈ [[10%N]; [10%N; 10%N]] →
    verbatim (join sep (map (λ c, strip_text c.2) cs)) (map fst cs)
| shows_quotes cs :
    cs ≠ [] → Forall (supplied evidence) cs → NoDup (map fst cs) →
    verbatim (PARTIAL_PREFIX ++ join [10%N; 10%N] (map (λ c, quoted_text c.2) cs)) (map fst cs).

(** What the result says of itself *)
Definition described (r : GroundedTextResult) : Prop :=
  ∃ status, gr_grounding_status r = Some status ∧
    status_means status (gr_insufficient r) (gr_cited_chunk_ids r) (gr_next_actions r) ∧
    gr_next_actions r ∈ [[]; GROUNDING_ACTIONS] ∧ (1 <= length (gr_answer r) <= 8000)%nat.

Definition shown (r : GroundedTextResult) : Prop :=
  verbatim (gr_answer r) (gr_cited_chunk_ids r) ∧ described r.

Lemma shown_missing usage cost : shown (missing usage cost).
Proof.
  split; [constructor|]. exists NO_EVIDENCE. split_and!; [done|by constructor|simpl; set_solver|by apply Nat.leb_le..].
Qed.

(** The answer is the text of all that was cited. *)
Lemma shown_whole sep chunks answer usage cost :
  chunks ≠ [] → Forall (supplied evidence) chunks → NoDup (map fst chunks) → sep ∈ [[10%N]; [10%N; 10%N]] →
  answer = join sep (map strip_text (map snd chunks)) → (1 <= length answer <= 8000)%nat →
  shown (mkResult answer (map fst chunks) false usage cost (Some SUFFICIENT) []).
Proof.
  intros Hne Hs Hd Hsep -> Hl. rewrite map_map in *. split; [by apply shows_excerpts|].
  exists SUFFICIENT. simpl. split_and!; [done| |set_solver|apply Hl..]. constructor. by destruct chunks.
Qed.

Lemma supplied_sublist cs chunks : cs `sublist_of` chunks → Forall (supplied evidence) chunks → NoDup (map fst chunks) →
  Forall (supplied evidence) cs ∧ NoDup (map fst cs).
Proof.
  intros Hsub Hs Hd. split.
  - rewrite Forall_forall in Hs |- *. intros x Hx. apply Hs. by eapply elem_of_sublist.
  - eapply sublist_NoDup; [apply Hd|]. by apply sublist_map.
Qed.

Lemma shown_quotes cs usage cost :
  cs ≠ [] → Forall (supplied evidence) cs → NoDup (map fst cs) →
  (length PARTIAL_PREFIX + length (join [10%N; 10%N] (map (λ c : text * text, quoted_text c.2) cs)) <= 8000)%nat →
  shown (mkResult (PARTIAL_PREFIX ++ join [10%N; 10%N] (map (λ c, quoted_text c.2) cs)) (map fst cs) false usage cost
    (Some PARTIAL) GROUNDING_ACTIONS).
Proof.
  intros Hne Hs Hd Hl. split; [by apply shows_quotes|].
  assert (1 <= length PARTIAL_PREFIX)%nat as Hp by (by apply Nat.leb_le).
  exists PARTIAL. split; [done|]. split; [constructor; [by destruct cs|done]|]. split; [set_solver|].
  unfold gr_answer. rewrite length_app. generalize dependent (length PARTIAL_PREFIX). lia.
Qed.
End Shown.

Section Finalize.
Context {U : UnicodeData} {T : Type}.

(** The anchors of the answer are among those of the sources. *)
Definition anchored (answer source : text) : Prop := ∀ a, a ∈ evidence_anchors answer → a ∈ evidence_anchors source.

Lemma anchored_iff answer source : subset (evidence_anchors answer) (evidence_anchors source) = true ↔ anchored answer source.
Proof. apply subset_iff. Qed.

(** The cited excerpts were supplied and carry the anchors of the answer. *)
Definition cites_supplied (request : GroundedQuestionRequest) (f : grounded_fields) : Prop :=
  ∃ chunks, excerpts (gq_evidence request) (gf_cited f) = Some chunks ∧
    anchored (gf_answer f) (join [10%N] (map snd chunks)).

Lemma finalize_shown request parsed usage cost (s : T) :
  wp (finalize_grounded_result request parsed usage cost) (λ o s', s' = s ∧
    match o with
    | Ret r => shown (gq_evidence request) r ∧ gr_usage r = usage ∧ gr_reported_cost r = cost
    | Raise e => e ∈ response_errors
    end) s.
Proof.
  unfold finalize_grounded_result. apply wp_bind. eapply wp_mono; [|apply validate_readonly].
  intros [f|e] ? [-> Hf]; [|done]. cbv zeta. destruct Hf as (_ & _ & [Ha Hd Hs]).
  wp_run; try (split; [done|set_solver]); split; try done; split; try done.
  all: apply excerpts_Some in H as [Hc Hall]; subst; bools.
  - apply shown_missing.
  - rewrite <-Hc in *. apply orb_true_iff in H2 as [E|E]; bools.
    + eapply (shown_whole _ [10%N]); try done; [by intros ->|set_solver].
    + eapply (shown_whole _ [10%N; 10%N]); try done; [by intros ->|set_solver].
  - apply shown_missing.
  - rewrite <-Hc in *. match goal with Hn : fst (foldl _ _ _) ≠ [] |- _ => destruct (quotes_bounded _ _ Hn) as [Hsub Hl] end.
    destruct (supplied_sublist _ _ _ Hsub Hall Hd). by apply shown_quotes.
Qed.
End Finalize.

(** ** What is accepted *)

(** The part of the texts that is cited, in the order of the evidence *)
Definition cited_text (request : GroundedQuestionRequest) (f : grounded_fields) : text :=
  join [10%N] (map ch_text (filter (λ c, ch_chunk_id c ∈ gf_cited f) (gq_evidence request))).

Definition usage_readable (response : tdict) : Prop :=
  tget (u "usage") response = None ∨ ∃ d, tget (u "usage") response = Some (VDict d).

Section Accepted.
Context {D : Digest} {U : UnicodeData} {S : Type}.

(** A response that is answered with *)
Definition accepted (request : GroundedQuestionRequest) (response : tdict) : Prop :=
  ∃ parsed f, chat_content response = Some parsed ∧ well_formed parsed f ∧ usage_readable response ∧
    cites_supplied request f ∧ anchored (strip_text (gf_answer f)) (cited_text request f).

Lemma supported_iff request f : fields_agree f →
  answer_supported request f = true ↔
  (∀ id, id ∈ gf_cited f → id ∈ map ch_chunk_id (gq_evidence request)) ∧
  anchored (strip_text (gf_answer f)) (cited_text request f).
Proof.
  intros [Ha Hd Hs]. unfold answer_supported. cbv zeta. rewrite !andb_true_iff, subset_iff, anchored_iff.
  split; [tauto|]. intros [Hin Han]. split_and!; try done.
  - apply negb_true_iff, bool_decide_eq_false. intros E. rewrite E in Ha. simpl in Ha. lia.
  - apply Nat.leb_le, Ha.
  - by apply bool_decide_eq_true.
  - destruct Hs; [done..|]. by rewrite bool_decide_eq_true_2.
  - destruct Hs; [by rewrite bool_decide_eq_false_2..|done].
Qed.

Lemma finalize_returns {T} request parsed f usage cost (s : T) : well_formed parsed f →
  (∃ r, finalize_grounded_result request parsed usage cost s = (s, Ret r)) ↔ cites_supplied request f.
Proof.
  intros Hf. unfold finalize_grounded_result. rewrite (bind_Ret _ _ _ _ _ (proj2 (validate_Ret parsed f s) Hf)).
  cbv zeta. unfold cites_supplied. destruct (excerpts (gq_evidence request) (gf_cited f)) as [chunks|] eqn:E; cycle 1.
  { split; [by intros [r Hr]|by intros (? & ? & _)]. }
  unfold bind, from_option, guard, ret, raise. split.
  - intros [r Hr]. exists chunks. split; [done|]. apply anchored_iff. by destruct (subset _ _).
  - intros (? & [= <-] & Ha). apply anchored_iff in Ha. rewrite Ha. repeat case_match; by eexists.
Qed.

Lemma response_usage_cases response (s : S) :
  (usage_readable response ∧ ∃ usage, response_usage response s = (s, Ret usage)) ∨
  (¬ usage_readable response ∧ response_usage response s = (s, Raise (PyError "AttributeError"))).
Proof.
  unfold response_usage, usage_readable. destruct (tget (u "usage") response) as [v|]; [|by left; eauto].
  destruct v; try (right; split; [intros [?|[? ?]]; done|done]). left. eauto.
Qed.

(** A response is answered with where it is accepted, and refused otherwise. *)
Lemma read_response_cases request response (s : S) :
  (accepted request response ∧ ∃ r, read_response request response s = (s, Ret r) ∧ shown (gq_evidence request) r) ∨
  (¬ accepted request response ∧ ∃ e, read_response request response s = (s, Raise e) ∧
    (e ∈ response_errors ∨ e = PyError "AttributeError" ∧ ¬ usage_readable response)).
Proof.
  unfold read_response, accepted.
  destruct (chat_content response) as [parsed|] eqn:Ec; cycle 1.
  { right. split; [by intros (? & ? & ? & _)|]. exists RESPONSE_INVALID. split; [done|]. left. set_solver. }
  cbn [from_option]. rewrite (bind_Ret _ _ s s parsed) by done.
  pose proof (validate_readonly parsed s) as Hv. unfold wp in Hv. destruct (validate_grounded parsed s) as [s' o] eqn:Ev. cbn [fst snd] in Hv. destruct Hv as [-> Hv].
  destruct o as [f|e]; cycle 1.
  { right. rewrite (bind_Raise _ _ _ _ _ Ev). split; [|by exists e; split; [done|left]].
    intros (p & f & [= <-] & Hf & _). apply (validate_Ret parsed f s) in Hf. congruence. }
  rewrite (bind_Ret _ _ _ _ _ Ev).
  pose proof Hv as (_ & _ & Hag). assert (∀ f', well_formed parsed f' → f' = f) as Huniq.
  { intros f' Hf'. apply (validate_Ret parsed f' s) in Hf'. congruence. }
  destruct (response_usage_cases response s) as [[Hu [usage Eu]]|[Hu Eu]]; cycle 1.
  { right. rewrite (bind_Raise _ _ _ _ _ Eu). split; [by intros (? & ? & _ & _ & ? & _)|].
    exists (PyError "AttributeError"). split; [done|by right]. }
  rewrite (bind_Ret _ _ _ _ _ Eu). destruct (answer_supported request f) eqn:Es; cycle 1.
  { right. split; [|exists GROUNDING_INVALID; split; [done|left; set_solver]].
    intros (p & f' & [= <-] & Hf' & _ & Hc & Ha). apply Huniq in Hf' as ->. apply not_true_iff_false in Es. apply Es.
    apply supported_iff; [done|]. split; [|done]. destruct Hc as (chunks & Hc & _).
    intros id. by eapply excerpts_known. }
  apply supported_iff in Es as [_ Ha]; [|done]. cbn [guard]. rewrite (bind_Ret _ _ s s tt) by done.
  set (cost := reported_cost_from_usage _).
  pose proof (finalize_shown request parsed usage cost s) as Hs. unfold wp in Hs.
  pose proof (finalize_returns request parsed f usage cost s Hv) as Hr.
  destruct (finalize_grounded_result request parsed usage cost s) as [s' [r|e]]; destruct Hs as [? Hs]; simpl in *; subst s'.
  - left. split; [|by exists r; split; [done|apply Hs]]. exists parsed, f. split_and!; try done. apply Hr. by eexists.
  - right. split; [|by exists e; split; [done|left]]. intros (p & f' & [= <-] & Hf' & _ & Hc & _). apply Huniq in Hf' as ->.
    by apply Hr in Hc as [? ?].
Qed.
End Accepted.

(** ** The record of a result *)

(** What a result of a conversation says of itself *)
Definition conversational (r : GroundedTextResult) : Prop :=
  gr_grounding_status r = Some CONVERSATIONAL ∧ gr_insufficient r = false ∧ gr_cited_chunk_ids r = [] ∧
  gr_next_actions r = [] ∧ (1 <= length (gr_answer r) <= 8000)%nat.

Lemma length_pos_Z {X} (l : list X) : (0 <? Z.of_nat (length l)) = true ↔ l ≠ [].
Proof. rewrite Z.ltb_lt. destruct l; simpl; split; intros; done || lia. Qed.

Lemma length_0_Z {X} (l : list X) : (Z.of_nat (length l) =? 0) = true ↔ l = [].
Proof. rewrite Z.eqb_eq, <-length_zero_iff_nil. lia. Qed.

Lemma stored_status_agrees status insufficient (cited actions : list text) :
  status_means status insufficient cited actions ∨
    status = CONVERSATIONAL ∧ insufficient = false ∧ cited = [] ∧ actions = [] →
  stored_status_ok (VStr status) (VBool insufficient) (Z.of_nat (length cited)) (length actions) = true.
Proof.
  intros H. unfold stored_status_ok.
  rewrite !orb_true_iff, !andb_true_iff, !bool_decide_eq_true, !length_0, !length_pos, !length_pos_Z, !length_0_Z, negb_true_iff.
  destruct H as [[]|(-> & -> & -> & ->)]; auto 10.
Qed.

(** A result with a status that the store accepts *)
Definition storable (r : GroundedTextResult) : Prop := described r ∨ conversational r.

Lemma storable_metadata r : storable r → ∃ status,
  gr_grounding_status r = Some status ∧ gr_next_actions r ∈ [[]; GROUNDING_ACTIONS] ∧
  (1 <= length (gr_answer r) <= 8000)%nat ∧
  stored_status_ok (VStr status) (VBool (gr_insufficient r)) (Z.of_nat (length (gr_cited_chunk_ids r)))
    (length (gr_next_actions r)) = true.
Proof.
  intros [(status & Hs & Hm & Ha & Hl)|(Hs & -> & -> & Ha & Hl)].
  - exists status. split_and!; try done; try apply Hl. by apply stored_status_agrees; left.
  - exists CONVERSATIONAL. rewrite Ha. split_and!; try done; try apply Hl.
    by left.
Qed.

Lemma actions_stored actions : actions ∈ [[]; GROUNDING_ACTIONS] →
  ((length (map VStr actions) <=? 4)%nat && forallb action_item (map VStr actions) = true).
Proof. by intros [<-|[<-|[]]]%list_elem_of_In. Qed.

(** What is written of a result is read back. *)
Lemma record_read_back {T} run_id ids r (t : T) : storable r → length ids = length (gr_cited_chunk_ids r) →
  loads (print_value (VDict (result_record run_id ids r))) = Some (VDict (result_record run_id ids r)) ∧
  read_result (result_record run_id ids r) (Z.of_nat (length ids)) t =
    (t, Ret (gr_answer r, gr_insufficient r, gr_grounding_status r, gr_next_actions r)).
Proof.
  intros (status & Hs & Ha & Hl & Hok)%storable_metadata Hids. unfold result_record, result_metadata. rewrite Hs.
  cbn [fmap option_fmap option_map default]. split.
  - apply loads_print, plain_dict. split.
    + apply (bool_decide_unpack _). vm_compute. done.
    + repeat constructor; apply plain_list, Forall_map, Forall_true; done.
  - match goal with |- read_result ?x _ _ = _ => set (p := x) end.
    assert (tget ANSWER p = Some (VStr (gr_answer r)) ∧ tget INSUFFICIENT p = Some (VBool (gr_insufficient r)) ∧
      tget STATUS p = Some (VStr status) ∧ tget ACTIONS p = Some (VList (map VStr (gr_next_actions r))))
      as (E1 & E2 & E3 & E4) by (by split_and!).
    clearbody p. apply actions_stored in Ha. destruct Hl as [H1%Nat.leb_le H2%Nat.leb_le].
    unfold read_result, stored_grounding_metadata. rewrite E1, E2, E3, E4.
    cbn [from_option default str_of]. unfold bind, ret, guard. rewrite H1, H2, orb_true_r, Hids, Ha, length_map.
    cbn [andb default id str_of]. by rewrite Hok, strings_back.
Qed.

(** ** Answers of a conversation *)

Section General.
Context {D : Digest} {U : UnicodeData} {S : Type}.

(** A response that a conversation goes on with, and what the model said *)
Definition accepted_general (response : tdict) (spoken : text) : Prop :=
  ∃ d, chat_content response = Some (VDict d) ∧ (∀ k, k ∈ map fst d → k = ANSWER) ∧
    (∃ answer, tget ANSWER d = Some (VStr answer) ∧ spoken = strip_text answer) ∧
    (1 <= length spoken <= 8000)%nat ∧ usage_readable response.

Lemma general_shape_iff parsed answer :
  general_shape parsed = Some answer ↔ ∃ d, parsed = VDict d ∧ (∀ k, k ∈ map fst d → k = ANSWER) ∧
    tget ANSWER d = Some (VStr answer) ∧ (1 <= length (strip_text answer) <= 8000)%nat.
Proof.
  split.
  - destruct parsed as [| | | | | |d]; try done. cbn [general_shape]. destruct (tget ANSWER d) as [[]|] eqn:E; try done.
    case_match eqn:Hb; [|done]. intros [= <-]. apply andb_true_iff in Hb as [[Hk _]%has_keys_iff Hl].
    unfold answer_length_ok in Hl. rewrite andb_true_iff, !Nat.leb_le in Hl. exists d. split_and!; try done; [|apply Hl..].
    intros k Hin. by apply Hk, list_elem_of_singleton in Hin.
  - intros (d & -> & Hk & E & Hl). cbn [general_shape]. rewrite E.
    assert (has_keys [ANSWER] d = true) as ->.
    { apply has_keys_iff. split; [intros k Hin; by apply list_elem_of_singleton, Hk|]. constructor; [by rewrite E|done]. }
    unfold answer_length_ok. by rewrite !(proj2 (Nat.leb_le _ _)) by apply Hl.
Qed.

Lemma approved_fixed question : approved_answers question ∈ [THANKS_ANSWERS; HELP_ANSWERS; GREETING_ANSWERS].
Proof. unfold approved_answers. repeat case_bool_decide; set_solver. Qed.

(** What is shown where the model said [spoken] *)
Definition spoken_or_first (question spoken : text) : text :=
  if decide (spoken ∈ approved_answers question) then spoken else default [] (head (approved_answers question)).

Lemma spoken_or_first_in question spoken : spoken_or_first question spoken ∈ approved_answers question.
Proof.
  unfold spoken_or_first. case_decide; [done|]. pose proof (approved_fixed question) as Hf.
  apply list_elem_of_In in Hf as [<-|[<-|[<-|[]]]]; by left.
Qed.

Lemma finalize_general request spoken usage cost :
  let r := finalize_general_result request spoken usage cost in
  gr_answer r = spoken_or_first (gc_question request) spoken ∧ conversational r.
Proof.
  cbv zeta. assert (gr_answer (finalize_general_result request spoken usage cost) =
    spoken_or_first (gc_question request) spoken) as E.
  { unfold finalize_general_result, spoken_or_first. cbn [gr_answer]. by case_decide; case_bool_decide. }
  split; [done|]. unfold conversational. rewrite E. split_and!; try done.
  all: pose proof (spoken_or_first_in (gc_question request) spoken) as Hin; revert Hin;
    pose proof (approved_fixed (gc_question request)) as Hf; apply list_elem_of_In in Hf as [<-|[<-|[<-|[]]]];
    intros Hin%list_elem_of_In; repeat destruct Hin as [<-|Hin]; try done; by apply Nat.leb_le.
Qed.

Lemma read_general_cases request response (s : S) :
  (∃ spoken r, accepted_general response spoken ∧ read_general_response request response s = (s, Ret r) ∧
     gr_answer r = spoken_or_first (gc_question request) spoken ∧ conversational r) ∨
  ((¬ ∃ spoken, accepted_general response spoken) ∧ ∃ e, read_general_response request response s = (s, Raise e) ∧
     (e = RESPONSE_INVALID ∨ e = PyError "AttributeError" ∧ ¬ usage_readable response)).
Proof.
  unfold read_general_response, accepted_general. destruct (chat_content response) as [parsed|] eqn:Ec; cycle 1.
  { right. split; [by intros (? & ? & ? & _)|]. exists RESPONSE_INVALID. by split; [|left]. }
  cbn [from_option]. rewrite (bind_Ret _ _ s s parsed) by done. unfold validate_general.
  destruct (general_shape parsed) as [answer|] eqn:Eg; cycle 1.
  { right. split; [|exists RESPONSE_INVALID; by split; [|left]].
    intros (spoken & d & [= ->] & Hk & (answer & Ea & ->) & Hl & _).
    assert (general_shape (VDict d) = Some answer) by (apply general_shape_iff; eauto). congruence. }
  apply general_shape_iff in Eg as (d & -> & Hk & Ea & Hl). cbn [from_option]. rewrite (bind_Ret _ _ s s answer) by done.
  destruct (response_usage_cases response s) as [[Hu [usage Eu]]|[Hu Eu]]; cycle 1.
  { right. rewrite (bind_Raise _ _ _ _ _ Eu). split; [by intros (? & ? & _ & _ & _ & _ & ?)|].
    exists (PyError "AttributeError"). by split; [|right]. }
  rewrite (bind_Ret _ _ _ _ _ Eu). cbv zeta. set (cost := reported_cost_from_usage _).
  assert (negb (bool_decide (strip_text answer = [])) && (length (strip_text answer) <=? 8000)%nat = true) as ->.
  { rewrite andb_true_iff, Nat.leb_le, negb_true_iff, bool_decide_eq_false. split; [|apply Hl].
    intros E. rewrite E in Hl. simpl in Hl. lia. }
  cbn [guard]. rewrite (bind_Ret _ _ s s tt) by done. left.
  exists (strip_text answer), (finalize_general_result request (strip_text answer) usage cost).
  split; [by eauto 10|]. split; [done|]. apply finalize_general.
Qed.
End General.

(** ** The adapters *)

Section Generate.
Context {D : Digest} {U : UnicodeData} {B : BracketedHost} {S : Type} {X : TextGenerationTransport S}.
Implicit Types (a : adapter) (s : S).

(** C7: whatever a provider sends back, an answer that is returned is the fixed
    answer that nothing was found, or the texts of supplied excerpts: all of
    them, only without the white space around each, or quoted whole under the
    fixed notice.  It cites exactly the excerpts it shows, each once, and has at
    most 8000 characters. *)
Theorem grounded_answer_verbatim a key request selection given s r :
  result (generate a key request selection given) s = Ret r →
  verbatim (gq_evidence request) (gr_answer r) (gr_cited_chunk_ids r) ∧ (1 <= length (gr_answer r) <= 8000)%nat.
Proof.
  unfold generate, bind. destruct (adapter_post _ _ _ _ s) as [s' [response|e]]; [|done].
  destruct (read_response_cases request response s') as [(_ & r' & -> & Hv & Hd)|(_ & e & -> & _)]; [|done].
  intros [= <-]. split; [done|]. by destruct Hd as (? & _ & _ & _ & ?).
Qed.

(** C8: a provider's response is answered with exactly when it is accepted: an
    object of exactly the five fields, each within its bounds and agreeing with
    the status, that cites supplied excerpts which contain every date,
    identifier, quantity and number of its answer.  Any other response is one of
    two errors, or the exception of reading a usage that is no object; an error
    of the request itself is passed on. *)
Theorem grounded_response_decided a key request selection given s :
  let run := generate a key request selection given s in
  match adapter_post a key selection (payload_or given (adapter_payload a request selection)) s with
  | (s', Raise e) => run = (s', Raise e)
  | (s', Ret response) =>
      fst run = s' ∧ ((∃ r, snd run = Ret r) ↔ accepted request response) ∧
      ∀ e, snd run = Raise e → e ∈ response_errors ∨ e = PyError "AttributeError" ∧ ¬ usage_readable response
  end.
Proof.
  unfold generate, bind. destruct (adapter_post _ _ _ _ s) as [s' [response|e]]; [|done].
  destruct (read_response_cases request response s') as [(Ha & r & -> & _)|(Ha & e & -> & He)]; simpl.
  - split_and!; [done|by split; [|eauto]|done].
  - split_and!; [done|by split; [intros [? ?]|]|by intros ? [= <-]].
Qed.

(** C11: in daily conversation a model chooses among approved answers and says
    nothing of its own: where its response is accepted, what is shown is what it
    said if that is approved for the question, else the first approved answer,
    without citations.  Any other response is an error. *)
Theorem general_answer_approved a key request selection given s :
  let run := generate_general a key request selection given s in
  approved_answers (gc_question request) ∈ [THANKS_ANSWERS; HELP_ANSWERS; GREETING_ANSWERS] ∧
  match adapter_post a key selection (payload_or given (adapter_general_payload a request selection)) s with
  | (s', Raise e) => run = (s', Raise e)
  | (s', Ret response) =>
      fst run = s' ∧ ((∃ r, snd run = Ret r) ↔ ∃ spoken, accepted_general response spoken) ∧
      (∀ r spoken, snd run = Ret r → accepted_general response spoken →
         gr_answer r = spoken_or_first (gc_question request) spoken ∧ conversational r) ∧
      ∀ e, snd run = Raise e → e = RESPONSE_INVALID ∨ e = PyError "AttributeError" ∧ ¬ usage_readable response
  end.
Proof.
  split; [apply approved_fixed|]. unfold generate_general, bind.
  destruct (adapter_post _ _ _ _ s) as [s' [response|e]]; [|done].
  destruct (read_general_cases request response s') as [(spoken & r & Ha & -> & Hr)|(Ha & e & -> & He)]; simpl.
  - split_and!; [done|by split; eauto| |done]. intros r' spoken' [= <-] Ha'.
    assert (spoken' = spoken) as ->; [|done]. destruct Ha as (d & Ed & _ & (x & Ex & ->) & _), Ha' as (d' & Ed' & _ & (x' & Ex' & ->) & _).
    congruence.
  - split_and!; [done|by split; [intros [? ?]|]|done|by intros ? [= <-]].
Qed.

Lemma generate_storable a key request selection given s r :
  result (generate a key request selection given) s = Ret r → storable r.
Proof.
  unfold generate, bind. destruct (adapter_post _ _ _ _ s) as [s' [response|e]]; [|done].
  destruct (read_response_cases request response s') as [(_ & r' & -> & _ & Hd)|(_ & e & -> & _)]; [|done].
  intros [= <-]. by left.
Qed.

Lemma generate_general_storable a key request selection given s r :
  result (generate_general a key request selection given) s = Ret r → storable r.
Proof.
  unfold generate_general, bind. destruct (adapter_post _ _ _ _ s) as [s' [response|e]]; [|done].
  destruct (read_general_cases request response s') as [(spoken & r' & _ & -> & _ & Hc)|(_ & e & -> & _)]; [|done].
  intros [= <-]. by right.
Qed.

(** C12: what is recorded of any answer is read back: the JSON of the record
    parses to the record, and reading it gives the answer, whether it is
    insufficient, its status and the actions it proposes. *)
Theorem recorded_answer_read_back {T} a key selection given s r run_id ids (t : T) :
  (∃ request, result (generate a key request selection given) s = Ret r) ∨
    (∃ request, result (generate_general a key request selection given) s = Ret r) →
  length ids = length (gr_cited_chunk_ids r) →
  loads (print_value (VDict (result_record run_id ids r))) = Some (VDict (result_record run_id ids r)) ∧
  read_result (result_record run_id ids r) (Z.of_nat (length ids)) t =
    (t, Ret (gr_answer r, gr_insufficient r, gr_grounding_status r, gr_next_actions r)).
Proof.
  intros [[request H]|[request H]]; apply record_read_back.
  - by eapply generate_storable.
  - by eapply generate_general_storable.
Qed.
End Generate.

(** ** What a model is asked *)

(** One excerpt as the model reads it *)
Definition read_item (v : value) : option (text * Z * text) :=
  match member (u "chunk_id") v, member (u "page") v, member (u "text") v with
  | Some (VStr id), Some (VInt page), Some (VStr t) => Some (id, page, t)
  | _, _, _ => None
  end.

(** The question and the excerpts in the last message of a payload *)
Definition asked (payload : tdict) : option (text * list (text * Z * text)) :=
  messages ← tget (u "messages") payload;
  message ← match messages with VList l => list.last l | _ => None end;
  content ← member (u "content") message;
  parsed ← match content with VStr t => loads t | _ => None end;
  match member (u "question") parsed, member (u "evidence") parsed with
  | Some (VStr question), Some (VList l) => items ← mapM read_item l; Some (question, items)
  | _, _ => None
  end.

Lemma question_plain request :
  Forall (λ c, (String.length (str_int (ch_page c)) <= 4300)%nat) (gq_evidence request) → plain (question_value request).
Proof.
  intros Hp. apply plain_dict. split; [by apply (bool_decide_unpack _); vm_compute|].
  repeat constructor. cbn [snd]. apply plain_list, Forall_map. eapply Forall_impl; [apply Hp|]. intros c Hc.
  apply plain_dict. split; [by apply (bool_decide_unpack _); vm_compute|]. by rewrite !Forall_cons, Forall_nil.
Qed.

Lemma read_items evidence : mapM read_item (map evidence_item evidence) =
  Some (map (λ c, (ch_chunk_id c, ch_page c, ch_text c)) evidence).
Proof. induction evidence as [|c l IH]; [done|]. simpl. by rewrite IH. Qed.

(** C9: a model reads the question and the supplied excerpts exactly, whatever
    characters they hold: no text of an excerpt ends its string, adds an excerpt
    or changes the question. *)
Theorem question_reaches_model a request selection :
  Forall (λ c, (String.length (str_int (ch_page c)) <= 4300)%nat) (gq_evidence request) →
  asked (adapter_payload a request selection) =
    Some (gq_question request, map (λ c, (ch_chunk_id c, ch_page c, ch_text c)) (gq_evidence request)).
Proof.
  intros Hp. assert (asked (adapter_payload a request selection) =
    (parsed ← loads (print_value (question_value request));
     match member (u "question") parsed, member (u "evidence") parsed with
     | Some (VStr question), Some (VList l) => items ← mapM read_item l; Some (question, items)
     | _, _ => None
     end)) as -> by by destruct a.
  rewrite loads_print by by apply question_plain. cbn [mbind option_bind]. unfold question_value.
  assert (∀ q e, member (u "question") (VDict [(u "question", q); (u "evidence", e)]) = Some q ∧
    member (u "evidence") (VDict [(u "question", q); (u "evidence", e)]) = Some e) as Hm by done.
  destruct (Hm (VStr (gq_question request)) (VList (map evidence_item (gq_evidence request)))) as [-> ->].
  by rewrite read_items.
Qed.

(** ** Which model is asked *)

Lemma first_with_Some {X} (p : X → bool) l x : first_with p l = Some x → x ∈ l ∧ p x = true.
Proof.
  unfold first_with. intros H%head_Some_elem_of. by apply list_elem_of_filter in H as [? ?].
Qed.

(** The selection is the active text deployment that the settings bind, with its
    active profile, which has a credential. *)
Definition selected_by (snapshot : ProviderSettingsSnapshot) (selection : TextModelSelection) : Prop :=
  ∃ d p, d ∈ st_deployments snapshot ∧ p ∈ st_profiles snapshot ∧
    st_role_bindings snapshot !! "text" = Some (md_deployment_id d) ∧ md_profile_id d = pp_profile_id p ∧
    md_active d = true ∧ "text" ∈ md_roles d ∧ pp_active p = true ∧ pp_credential_configured p = true ∧
    ms_provider_code selection = md_provider_code d ∧ ms_base_url selection = pp_base_url p ∧
    ms_model_id selection = md_model_id d ∧ ms_binding_version selection = st_binding_version snapshot.

Lemma resolved_selection {T} snapshot (t t' : T) selection :
  resolve_text_model_selection snapshot t = (t', Ret selection) → selected_by snapshot selection.
Proof.
  intros H. enough (wp (resolve_text_model_selection snapshot) (λ o _, o = Ret selection → selected_by snapshot selection) t) as Hw.
  { unfold wp in Hw. rewrite H in Hw. by apply Hw. }
  clear H. unfold resolve_text_model_selection. wp_run; try done. intros [= <-]. bools.
  match goal with H1 : first_with _ _ = Some ?d, H2 : first_with _ _ = Some ?p |- _ =>
    apply first_with_Some in H1 as [? ?], H2 as [? ?]; bools; exists d, p end.
  split_and!; try done; try congruence. subst. destruct (st_role_bindings snapshot !! "text"); simpl in *; congruence.
Qed.
