(* ===== verification/GroundingEndpoints.v ===== *)
(** Where the adapters of [Grounding] send a question. *)

From S2P Require Import Prelude Sha256 PyStr PyUrl PyUrlFacts PyText PyRe Grounding GroundingFacts.
From Stdlib Require Import NArith Ascii.
#[local] Open Scope Z_scope.

#[local] Arguments String.append !_ _ /.

(** ** Paths after a base URL *)

Lemma rstrip_slash_rest b : ∃ t, b = rstrip_slash b +:+ t ∧ all_chars (Ascii.eqb "/") t = true.
Proof. apply rstrip_by_rest. Qed.

(** The paths of the providers *)
Definition PATHS : list string := ["/chat/completions"; "/v1/chat/completions"; "/messages"].

Lemma append_provider_path_tail base path : path ∈ PATHS →
  ∃ t y, base = rstrip_slash base +:+ t ∧ all_chars (Ascii.eqb "/") t = true ∧
    append_provider_path base path = rstrip_slash base +:+ y ∧ tail_ok y.
Proof.
  intros Hp. destruct (rstrip_slash_rest base) as (t & Ht & Hs). unfold append_provider_path.
  assert (∀ y, all_chars (λ c, negb (unsafe_byte c)) y = true → split_once ":" y = None → tail_ok (String "/" y)) as Htail.
  { intros y H1 H2. split; [right; by exists "/"%char, y|]. split; [done|]. simpl. by rewrite H2. }
  exists t.
  assert (∃ y, (if endswith "/v1" (rstrip_slash base) && startswith "/v1/" path
                then rstrip_slash base +:+ String.substring 3 (String.length path - 3) path
                else rstrip_slash base +:+ path) = rstrip_slash base +:+ y ∧ tail_ok y) as (y & E & Hy); [|by exists y].
  destruct (endswith "/v1" (rstrip_slash base) && startswith "/v1/" path) eqn:Hv; eexists; (split; [reflexivity|]).
  - apply andb_true_iff in Hv as [_ Hv]. apply list_elem_of_In in Hp as [<-|[<-|[<-|[]]]]; try done. by apply Htail.
  - apply list_elem_of_In in Hp as [<-|[<-|[<-|[]]]]; by apply Htail.
Qed.

(** ** Requests *)

Section Endpoints.
Context {B : BracketedHost}.

(** An address that a selection may be asked at: below its base URL, on the same
    host by the same scheme, without credentials in it; for the fixed providers
    their own endpoint *)
Definition endpoint (selection : TextModelSelection) (url : string) : Prop :=
  ms_provider_code selection ∈ PROVIDERS ∧
  (∀ fixed, dict_get (ms_provider_code selection) BASE_URLS = Some fixed → url = fixed +:+ "/chat/completions") ∧
  ∃ base target, urlsplit (ms_base_url selection) = Some base ∧ urlsplit url = Some target ∧
    sp_scheme target = sp_scheme base ∧ sp_netloc target = sp_netloc base ∧
    (sp_scheme target = "https" ∨ ms_provider_code selection = "EOUL_GATEWAY" ∧ sp_scheme target = "http") ∧
    url_host target ≠ "" ∧ has_userinfo target = false.

(** What [_base_url] has checked *)
Lemma adapter_base_url_cases {T} selection (t : T) :
  (∃ e, adapter_base_url selection t = (t, Raise e)) ∨
  adapter_base_url selection t = (t, Ret (rstrip_slash (ms_base_url selection))) ∧
  ms_provider_code selection ∈ PROVIDERS ∧
  (∀ fixed, dict_get (ms_provider_code selection) BASE_URLS = Some fixed → rstrip_slash (ms_base_url selection) = fixed) ∧
  ∃ base, urlsplit (ms_base_url selection) = Some base ∧
    (sp_scheme base = "https" ∨ ms_provider_code selection = "EOUL_GATEWAY" ∧ sp_scheme base = "http") ∧
    url_host base ≠ "" ∧ has_userinfo base = false.
Proof.
  unfold adapter_base_url. destruct (urlsplit (ms_base_url selection)) as [base|] eqn:Hb; cycle 1.
  { left. by eexists. }
  cbn [from_option]. rewrite (bind_Ret _ _ t t base) by done. cbv zeta. destruct (bool_decide _ && _ && _ && _ && _ && _ && _) eqn:Hg; cycle 1.
  { left. by eexists. }
  right. split; [done|]. bools. split; [done|]. split.
  { intros fixed Hf. rewrite Hf in H0. by apply String.eqb_eq. }
  exists base. split; [done|]. split; [|done]. apply orb_true_iff in H5 as [Hs|Hs]; bools; auto.
Qed.

Lemma url_host_netloc sp sp' : sp_netloc sp = sp_netloc sp' → url_host sp = url_host sp' ∧ has_userinfo sp = has_userinfo sp'.
Proof. unfold url_host, has_userinfo. by intros ->. Qed.

(** A path after the base URL that [_base_url] returns is an endpoint. *)
Lemma endpoint_of_path {T} selection (t t' : T) base path :
  adapter_base_url selection t = (t', Ret base) → path ∈ PATHS →
  (is_Some (dict_get (ms_provider_code selection) BASE_URLS) → path = "/chat/completions") →
  endpoint selection (append_provider_path base path).
Proof.
  intros Hb Hpath Hfixed. destruct (adapter_base_url_cases selection t) as [[e He]|(He & Hp & Hf & sp & Hsp & Hs & Hh & Hu)];
    [congruence|]. rewrite He in Hb. injection Hb as _ <-. split; [done|]. split.
  { intros fixed Hfx. rewrite (Hf _ Hfx), Hfixed by done. apply dict_get_elem, list_elem_of_In in Hfx. 
    revert Hfx. unfold BASE_URLS. by intros [[= _ <-]|[[= _ <-]|[[= _ <-]|[[= _ <-]|[]]]]]. }
  destruct (rstrip_slash_rest (ms_base_url selection)) as (t1 & E1 & Ht1).
  destruct (append_provider_path_tail (rstrip_slash (ms_base_url selection)) path Hpath) as (t2 & y & E2 & Ht2 & -> & Hy).
  set (b := rstrip_slash (rstrip_slash (ms_base_url selection))) in *.
  assert (ms_base_url selection = b +:+ (t2 +:+ t1)) as E by by rewrite E1 at 1; rewrite E2, string_app_assoc.
  assert (all_chars (Ascii.eqb "/") (t2 +:+ t1) = true) as Ht by by rewrite all_chars_app, Ht2.
  destruct (urlsplit_authority _ _ Hsp) as [Ha Hbr]. rewrite E in Ha.
  assert (sp_scheme sp ≠ "") as Hs' by by destruct Hs as [->|[_ ->]].
  assert (sp_netloc sp ≠ "") as Hn. { intros Hn. apply Hh. unfold url_host. by rewrite Hn. }
  assert (authority (b +:+ y) = (sp_scheme sp, sp_netloc sp)) as Hy'.
  { rewrite (authority_append b (t2 +:+ t1) y); [done..| |]; by rewrite Ha. }
  destruct (authority_urlsplit _ _ _ Hy' Hbr) as (sp' & Hsp' & Es & En).
  destruct (url_host_netloc _ _ En) as [Eh Eu]. exists sp, sp'. rewrite Es, Eh, Eu. by split_and!.
Qed.
End Endpoints.

(** ** The addresses of a transport's requests *)

(** A call that is made after its address was noted *)
Definition noting {S A} (url : string) (m : M S A) : M (S * list string) A := λ '(s, log),
  let '(s', o) := m s in ((s', log ++ [url]), o).

(** Any transport, with a log of the addresses it was called with *)
Definition noted {S} (X : TextGenerationTransport S) : TextGenerationTransport (S * list string) := {|
  post_json url key payload := noting url (post_json url key payload);
  post_json_no_auth url payload := noting url (post_json_no_auth url payload);
  post_json_headers url headers payload := noting url (post_json_headers url headers payload)
|}.

Section Requests.
Context {D : Digest} {U : UnicodeData} {B : BracketedHost} {S : Type} (X : TextGenerationTransport S).

(** At most one address is noted, and it is an endpoint of the selection. *)
Definition asks_endpoint {A} (selection : TextModelSelection) (m : M (S * list string) A) : Prop :=
  ∀ s log, ∃ urls, snd (fst (m (s, log))) = log ++ urls ∧ (length urls <= 1)%nat ∧ Forall (endpoint selection) urls.

Lemma asks_nothing {A} selection (m : M (S * list string) A) : readonly m → asks_endpoint selection m.
Proof. intros Hm s log. exists []. rewrite Hm, app_nil_r. split_and!; [done|simpl; lia|done]. Qed.

Lemma asks_noting {A} selection url (m : M S A) : endpoint selection url → asks_endpoint selection (noting url m).
Proof.
  intros Hu s log. exists [url]. unfold noting. destruct (m s) as [s' o]. simpl. split_and!; [done|lia|by constructor].
Qed.

Lemma asks_then {A A'} selection (m : M (S * list string) A) (k : A → M (S * list string) A') :
  asks_endpoint selection m → (∀ a, readonly (k a)) → asks_endpoint selection (bind m k).
Proof.
  intros Hm Hk s log. destruct (Hm s log) as (urls & Hu & Hr). exists urls. unfold bind.
  destruct (m (s, log)) as [s' [a|e]]; [|done]. by rewrite Hk.
Qed.

(** The base URL is looked up before the request. *)
Lemma asks_after {A} selection (k : string → M (S * list string) A) :
  (∀ base (s t : S * list string), adapter_base_url selection s = (t, Ret base) → asks_endpoint selection (k base)) →
  asks_endpoint selection (bind (adapter_base_url selection) k).
Proof.
  intros Hk s log. destruct (adapter_base_url_cases selection (s, log)) as [[e He]|(He & _)].
  - rewrite (bind_Raise _ _ _ _ _ He). apply (asks_nothing (A:=A) selection (raise e)). intros ?. done.
  - rewrite (bind_Ret _ _ _ _ _ He). by eapply Hk.
Qed.

Lemma asks_guarded {A} selection b e (m : M (S * list string) A) :
  asks_endpoint selection m → asks_endpoint selection (bind (guard b e) (λ _, m)).
Proof. intros Hm. destruct b; [done|]. by apply asks_nothing. Qed.

Lemma fixed_not_custom selection code : ms_provider_code selection = code → dict_get code BASE_URLS = None →
  is_Some (dict_get (ms_provider_code selection) BASE_URLS) → ∀ P : Prop, P.
Proof. intros -> -> [? ?]. done. Qed.

Lemma post_asks a key selection payload :
  asks_endpoint selection (adapter_post (X:=noted X) a key selection payload).
Proof.
  destruct a; simpl; unfold openai_post, anthropic_post.
  - destruct key as [key|].
    + apply asks_after. intros base s t Hb. apply asks_noting. eapply endpoint_of_path; [done| |].
      * destruct (String.eqb _ _); is_in.
      * destruct (String.eqb_spec (ms_provider_code selection) "EOUL_GATEWAY") as [E|]; [|done].
        intros H. by apply (fixed_not_custom _ _ E).
    + destruct (String.eqb_spec (ms_provider_code selection) "CUSTOM") as [E|]; [|by apply asks_nothing].
      apply asks_guarded, asks_after. intros base s t Hb. apply asks_noting. eapply endpoint_of_path; [done|is_in|done].
  - destruct (String.eqb_spec (ms_provider_code selection) "CUSTOM") as [E|]; [|by apply asks_nothing].
    apply asks_guarded, asks_after. intros base s t Hb. apply asks_then.
    + apply asks_noting. eapply endpoint_of_path; [done|is_in|]. intros H. by apply (fixed_not_custom _ _ E).
    + intros response. apply readonly_bind; [apply readonly_from_option|]. intros blocks. apply readonly_ret.
Qed.
End Requests.

(** C10: a question and its evidence go to at most one address, which is the fixed
    endpoint of a known provider, and otherwise is below the selection's base
    URL: same scheme, same host, no credentials in it, https except for the
    gateway.  So it is whatever the transport, the payload and the selection
    are. *)
Theorem requests_confined {D : Digest} {U : UnicodeData} {B : BracketedHost} {S} (X : TextGenerationTransport S)
    a key selection given :
  (∀ request, asks_endpoint selection (generate (X:=noted X) a key request selection given)) ∧
  (∀ request, asks_endpoint selection (generate_general (X:=noted X) a key request selection given)).
Proof.
  split; intros request; apply asks_then; try apply post_asks; intros response s.
  - by destruct (read_response_cases request response s) as [(_ & ? & -> & _)|(_ & ? & -> & _)].
  - by destruct (read_general_cases request response s) as [(? & ? & _ & -> & _)|(_ & ? & -> & _)].
Qed.
